(** * The Universe of LumixEngine: entity slots, hierarchy, names, components

    A shallow embedding of [src/engine/universe/universe.cpp].  The C++
    arrays ([Array<T>]) are lists indexed by the [int] of the source (a [Z]);
    reading or writing outside an array, a failed [ASSERT] and a loop that
    does not stop within its fuel give [None].  Delegates ([invoke]) and
    [logError] append to a trace kept next to the registry. *)

From stdpp Require Import base tactics option list numbers strings sets.
From Stdlib Require Import ZArith Lia QArith.

Local Open Scope Z_scope.

Module Lumix.

(** ** Arrays indexed by a C++ [int] *)

Definition get {A} (l : list A) (i : Z) : option A :=
  if bool_decide (0 ≤ i) then l !! Z.to_nat i else None.

Definition set {A} (l : list A) (i : Z) (x : A) : list A :=
  <[Z.to_nat i := x]> l.

(** [Array::size] *)
Definition size {A} (l : list A) : Z := Z.of_nat (length l).

(** Modelled from the spec: [Array::eraseFast] of [engine/array.h], which is
    not part of the sources at hand; on removal the last entry is moved into
    the removed place. *)
Definition eraseFast {A} (l : list A) (i : Z) : list A :=
  if bool_decide (0 ≤ i < size l) then
    match last l with
    | Some x => removelast (set l i x)
    | None => l
    end
  else l.

(** ** The transform algebra

    [engine/math.h] is not part of the sources at hand: the component types
    of a [Transform], its product, its inverse and the constants the
    universe uses are the fields of a class.  The [indet_] fields stand for
    the content of members that a default constructor leaves unset. *)

Record Transform_of (V Q F : Type) := mkTransform { pos : V; rot : Q; scale : F }.
Arguments mkTransform {V Q F} _ _ _.
Arguments pos {V Q F} _.
Arguments rot {V Q F} _.
Arguments scale {V Q F} _.

Class TransformAlgebra := {
  DVec3 : Type;
  Quat : Type;
  Float : Type;
  vec_zero : DVec3;            (* DVec3(0, 0, 0) *)
  quat_identity : Quat;        (* Quat(0, 0, 0, 1) *)
  float_one : Float;           (* 1 *)
  float_minus_one : Float;     (* -1 *)
  indet_vec : DVec3;
  indet_quat : Quat;
  indet_float : Float;
  indet_int : Z;
  (* Transform::operator* *)
  tmul : Transform_of DVec3 Quat Float → Transform_of DVec3 Quat Float → Transform_of DVec3 Quat Float;
  (* Transform::inverted *)
  inverted : Transform_of DVec3 Quat Float → Transform_of DVec3 Quat Float
}.

(** Constants of [universe.h] and [prefab.h], which are not part of the
    sources at hand. *)
Class Constants := {
  ENTITY_NAME_MAX_LENGTH : nat;      (* the size of [EntityName::name] *)
  PrefabVersion_WITH_HIERARCHY : Z;
  PrefabVersion_LAST : Z;
  getComponentTypeFromHash : Z → Z   (* of [Reflection] *)
}.

Section WithAlgebra.
Context {TA : TransformAlgebra} {CS : Constants}.

Definition Transform : Type := Transform_of DVec3 Quat Float.

Definition set_pos (p : DVec3) (t : Transform) : Transform := mkTransform p (rot t) (scale t).
Definition set_rot (r : Quat) (t : Transform) : Transform := mkTransform (pos t) r (scale t).
Definition set_scale (s : Float) (t : Transform) : Transform := mkTransform (pos t) (rot t) s.

(** ** Records of the registry *)

(** Modelled from the spec: [universe.h] is not part of the sources at hand;
    the entity record has the fields the spec lists, the free-list links
    apart from the component mask. *)
Record EntityData := mkEntityData {
  hierarchy : Z;
  name : Z;
  components : Z;   (* u64 *)
  prev : Z;
  next : Z;
  valid : bool
}.

Record Hierarchy := mkHierarchy {
  h_entity : Z;
  parent : Z;
  first_child : Z;
  next_sibling : Z;
  local_transform : Transform
}.

Record EntityName := mkEntityName { n_entity : Z; n_name : string }.

Inductive Event :=
  | EntityCreated (e : Z)
  | EntityDestroyed (e : Z)
  | EntityTransformed (e : Z)
  | ComponentAdded (e : Z) (type : Z)
  | ComponentDestroyed (e : Z) (type : Z)
  | LogError (msg : string).

Record Universe := mkUniverse {
  m_entities : list EntityData;
  m_transforms : list Transform;
  m_hierarchy : list Hierarchy;
  m_names : list EntityName;
  m_first_free_slot : Z;
  m_events : list Event   (* most recent first *)
}.

Definition INVALID_ENTITY : Z := -1.

(** [EntityPtr::isValid] *)
Definition isValid (e : Z) : bool := bool_decide (0 ≤ e).

(** [Universe::Universe] *)
Definition empty_universe : Universe := mkUniverse [] [] [] [] (-1) [].

Definition with_entities (es : list EntityData) (u : Universe) : Universe :=
  mkUniverse es (m_transforms u) (m_hierarchy u) (m_names u) (m_first_free_slot u) (m_events u).
Definition with_transforms (ts : list Transform) (u : Universe) : Universe :=
  mkUniverse (m_entities u) ts (m_hierarchy u) (m_names u) (m_first_free_slot u) (m_events u).
Definition with_hierarchy (hs : list Hierarchy) (u : Universe) : Universe :=
  mkUniverse (m_entities u) (m_transforms u) hs (m_names u) (m_first_free_slot u) (m_events u).
Definition with_names (ns : list EntityName) (u : Universe) : Universe :=
  mkUniverse (m_entities u) (m_transforms u) (m_hierarchy u) ns (m_first_free_slot u) (m_events u).
Definition with_first_free_slot (f : Z) (u : Universe) : Universe :=
  mkUniverse (m_entities u) (m_transforms u) (m_hierarchy u) (m_names u) f (m_events u).

(** [invoke] of a delegate list, [logError] *)
Definition emit (ev : Event) (u : Universe) : Universe :=
  mkUniverse (m_entities u) (m_transforms u) (m_hierarchy u) (m_names u)
    (m_first_free_slot u) (ev :: m_events u).

Definition set_hierarchy_idx (h : Z) (d : EntityData) : EntityData :=
  mkEntityData h (name d) (components d) (prev d) (next d) (valid d).
Definition set_name_idx (n : Z) (d : EntityData) : EntityData :=
  mkEntityData (hierarchy d) n (components d) (prev d) (next d) (valid d).
Definition set_components (c : Z) (d : EntityData) : EntityData :=
  mkEntityData (hierarchy d) (name d) c (prev d) (next d) (valid d).
Definition set_prev (p : Z) (d : EntityData) : EntityData :=
  mkEntityData (hierarchy d) (name d) (components d) p (next d) (valid d).
Definition set_next (n : Z) (d : EntityData) : EntityData :=
  mkEntityData (hierarchy d) (name d) (components d) (prev d) n (valid d).
Definition set_valid (v : bool) (d : EntityData) : EntityData :=
  mkEntityData (hierarchy d) (name d) (components d) (prev d) (next d) v.

Definition set_parent (p : Z) (h : Hierarchy) : Hierarchy :=
  mkHierarchy (h_entity h) p (first_child h) (next_sibling h) (local_transform h).
Definition set_first_child (c : Z) (h : Hierarchy) : Hierarchy :=
  mkHierarchy (h_entity h) (parent h) c (next_sibling h) (local_transform h).
Definition set_next_sibling (s : Z) (h : Hierarchy) : Hierarchy :=
  mkHierarchy (h_entity h) (parent h) (first_child h) s (local_transform h).
Definition set_local_transform (t : Transform) (h : Hierarchy) : Hierarchy :=
  mkHierarchy (h_entity h) (parent h) (first_child h) (next_sibling h) t.

(** [m_entities[i].field = ...], [m_transforms[i] = ...], [m_hierarchy[i].field = ...] *)
Definition modify_entity (i : Z) (f : EntityData → EntityData) (u : Universe) : option Universe :=
  d ← get (m_entities u) i; Some (with_entities (set (m_entities u) i (f d)) u).
Definition modify_transform (i : Z) (f : Transform → Transform) (u : Universe) : option Universe :=
  t ← get (m_transforms u) i; Some (with_transforms (set (m_transforms u) i (f t)) u).
Definition modify_node (i : Z) (f : Hierarchy → Hierarchy) (u : Universe) : option Universe :=
  h ← get (m_hierarchy u) i; Some (with_hierarchy (set (m_hierarchy u) i (f h)) u).

(** ** Components *)

(** Modelled from the spec: [ComponentType::MAX_TYPES_COUNT] of
    [component.h], one bit of the [u64] mask per type id. *)
Definition MAX_TYPES_COUNT : Z := 64.

(** [(u64)1 << index] *)
Definition type_bit (index : Z) : Z := Z.shiftl 1 index mod 2 ^ 64.

(** [~x] on a [u64] *)
Definition u64_not (x : Z) : Z := 2 ^ 64 - 1 - x.

Definition hasComponent (entity component_type : Z) (u : Universe) : option bool :=
  d ← get (m_entities u) entity;
  let mask := components d in
  Some (negb (Z.land mask (type_bit component_type) =? 0)).

Definition getComponentsMask (entity : Z) (u : Universe) : option Z :=
  d ← get (m_entities u) entity; Some (components d).

Definition onComponentCreated (entity component_type : Z) (u : Universe) : option Universe :=
  u ← modify_entity entity
        (λ d, set_components (Z.lor (components d) (type_bit component_type)) d) u;
  Some (emit (ComponentAdded entity component_type) u).

Definition onComponentDestroyed (entity component_type : Z) (u : Universe) : option Universe :=
  d ← get (m_entities u) entity;
  let old_mask := components d in
  let mask := Z.land old_mask (u64_not (type_bit component_type)) in
  if bool_decide (old_mask = mask) then None   (* ASSERT(old_mask != mask) *)
  else
    u ← modify_entity entity (set_components mask) u;
    Some (emit (ComponentDestroyed entity component_type) u).

(** ** The components of an entity, one by one

    Modelled from the spec: a [ComponentUID] of [component.h] is an entity,
    a component type and the scene registered for that type, and
    [ComponentUID::INVALID] has no type.  Here it is the index of the
    type, [INVALID_COMPONENT_TYPE] for the invalid one. *)
Definition INVALID_COMPONENT_TYPE : Z := -1.

(** [for (int i = ...; i < MAX_TYPES_COUNT; ++i) if ((mask & (u64(1) << i)) != 0) return ...]:
    [n] types are left to look at, from [i] on *)
Fixpoint scan_components (n : nat) (i : Z) (mask : Z) : Z :=
  match n with
  | O => INVALID_COMPONENT_TYPE
  | S n' => if negb (Z.land mask (type_bit i) =? 0) then i
            else scan_components n' (i + 1) mask
  end.

Definition getFirstComponent (entity : Z) (u : Universe) : option Z :=
  d ← get (m_entities u) entity;
  Some (scan_components (Z.to_nat MAX_TYPES_COUNT) 0 (components d)).

Definition getNextComponent (entity type_ : Z) (u : Universe) : option Z :=
  d ← get (m_entities u) entity;
  Some (scan_components (Z.to_nat (MAX_TYPES_COUNT - (type_ + 1))) (type_ + 1)
          (components d)).

(** ** Transforms and hierarchy reads *)

Definition getTransform (entity : Z) (u : Universe) : option Transform :=
  get (m_transforms u) entity.

Definition getPosition (entity : Z) (u : Universe) : option DVec3 :=
  pos <$> get (m_transforms u) entity.

Definition getRotation (entity : Z) (u : Universe) : option Quat :=
  rot <$> get (m_transforms u) entity.

Definition getScale (entity : Z) (u : Universe) : option Float :=
  scale <$> get (m_transforms u) entity.

Definition hasEntity (entity : Z) (u : Universe) : bool :=
  bool_decide (0 ≤ entity) && bool_decide (entity < size (m_entities u))
  && match get (m_entities u) entity with Some d => valid d | None => false end.

Definition getParent (entity : Z) (u : Universe) : option Z :=
  d ← get (m_entities u) entity;
  let idx := hierarchy d in
  if bool_decide (idx < 0) then Some INVALID_ENTITY
  else parent <$> get (m_hierarchy u) idx.

Definition getFirstChild (entity : Z) (u : Universe) : option Z :=
  d ← get (m_entities u) entity;
  let idx := hierarchy d in
  if bool_decide (idx < 0) then Some INVALID_ENTITY
  else first_child <$> get (m_hierarchy u) idx.

Definition getNextSibling (entity : Z) (u : Universe) : option Z :=
  d ← get (m_entities u) entity;
  let idx := hierarchy d in
  if bool_decide (idx < 0) then Some INVALID_ENTITY
  else next_sibling <$> get (m_hierarchy u) idx.

Definition getLocalTransform (entity : Z) (u : Universe) : option Transform :=
  d ← get (m_entities u) entity;
  let hierarchy_idx := hierarchy d in
  if bool_decide (hierarchy_idx < 0) then getTransform entity u
  else local_transform <$> get (m_hierarchy u) hierarchy_idx.

Definition getLocalScale (entity : Z) (u : Universe) : option Float :=
  d ← get (m_entities u) entity;
  let hierarchy_idx := hierarchy d in
  if bool_decide (hierarchy_idx < 0) then getScale entity u
  else (λ h, scale (local_transform h)) <$> get (m_hierarchy u) hierarchy_idx.

Definition computeLocalTransform (parent : Z) (global_transform : Transform)
    (u : Universe) : option Transform :=
  parent_tr ← getTransform parent u;
  Some (tmul (inverted parent_tr) global_transform).

(** ** [Universe::transformEntity]

    The recursion of the source is on the hierarchy; here it is on the fuel:
    [transformEntity] is the body of the function, [transformChildren] its
    [while (child.isValid())] loop.  The references [h] and [child_h] of the
    source are the places [m_hierarchy[hierarchy_idx]], read again where the
    source reads through the reference. *)
Fixpoint transformEntity (fuel : nat) (entity : Z) (update_local : bool)
    (u : Universe) : option Universe :=
  match fuel with
  | O => None
  | S fuel' =>
    d ← get (m_entities u) entity;
    let hierarchy_idx := hierarchy d in
    let u := emit (EntityTransformed entity) u in
    if bool_decide (0 ≤ hierarchy_idx) then
      h ← get (m_hierarchy u) hierarchy_idx;
      my_transform ← getTransform entity u;
      u ← (if update_local && isValid (parent h) then
             parent_tr ← getTransform (parent h) u;
             modify_node hierarchy_idx
               (set_local_transform (tmul (inverted parent_tr) my_transform)) u
           else Some u);
      h ← get (m_hierarchy u) hierarchy_idx;
      transformChildren fuel' my_transform (first_child h) u
    else Some u
  end
with transformChildren (fuel : nat) (my_transform : Transform) (child : Z)
    (u : Universe) : option Universe :=
  match fuel with
  | O => None
  | S fuel' =>
    if isValid child then
      cd ← get (m_entities u) child;
      let child_idx := hierarchy cd in
      child_h ← get (m_hierarchy u) child_idx;
      let abs_tr := tmul my_transform (local_transform child_h) in
      u ← modify_transform child (λ _, abs_tr) u;
      u ← transformEntity fuel' child false u;
      child_h ← get (m_hierarchy u) child_idx;
      transformChildren fuel' my_transform (next_sibling child_h) u
    else Some u
  end.

Definition setRotation (fuel : nat) (entity : Z) (r : Quat) (u : Universe) : option Universe :=
  u ← modify_transform entity (set_rot r) u;
  transformEntity fuel entity true u.

Definition setTransform (fuel : nat) (entity : Z) (transform : Transform)
    (u : Universe) : option Universe :=
  u ← modify_transform entity (λ _, transform) u;
  transformEntity fuel entity true u.

(** the [RigidTransform] overload: position and rotation only *)
Definition setTransform_rigid (fuel : nat) (entity : Z) (p : DVec3) (r : Quat)
    (u : Universe) : option Universe :=
  u ← modify_transform entity (λ t, set_rot r (set_pos p t)) u;
  transformEntity fuel entity true u.

Definition setPosition (fuel : nat) (entity : Z) (p : DVec3) (u : Universe) : option Universe :=
  u ← modify_transform entity (set_pos p) u;
  transformEntity fuel entity true u.

Definition setScale (fuel : nat) (entity : Z) (s : Float) (u : Universe) : option Universe :=
  u ← modify_transform entity (set_scale s) u;
  transformEntity fuel entity true u.

Definition updateGlobalTransform (fuel : nat) (entity : Z) (u : Universe) : option Universe :=
  d ← get (m_entities u) entity;
  h ← get (m_hierarchy u) (hierarchy d);
  if isValid (parent h) then
    parent_tr ← getTransform (parent h) u;
    let new_tr := tmul parent_tr (local_transform h) in
    setTransform fuel entity new_tr u
  else None.   (* ASSERT(h.parent.isValid()) *)

Definition setLocalTransform (fuel : nat) (entity : Z) (transform : Transform)
    (u : Universe) : option Universe :=
  d ← get (m_entities u) entity;
  let hierarchy_idx := hierarchy d in
  if bool_decide (hierarchy_idx < 0) then setTransform fuel entity transform u
  else
    u ← modify_node hierarchy_idx (set_local_transform transform) u;
    updateGlobalTransform fuel entity u.

Definition setLocalPosition (fuel : nat) (entity : Z) (p : DVec3) (u : Universe) : option Universe :=
  d ← get (m_entities u) entity;
  let hierarchy_idx := hierarchy d in
  if bool_decide (hierarchy_idx < 0) then setPosition fuel entity p u
  else
    u ← modify_node hierarchy_idx (λ h, set_local_transform (set_pos p (local_transform h)) h) u;
    updateGlobalTransform fuel entity u.

Definition setLocalRotation (fuel : nat) (entity : Z) (r : Quat) (u : Universe) : option Universe :=
  d ← get (m_entities u) entity;
  let hierarchy_idx := hierarchy d in
  if bool_decide (hierarchy_idx < 0) then setRotation fuel entity r u
  else
    u ← modify_node hierarchy_idx (λ h, set_local_transform (set_rot r (local_transform h)) h) u;
    updateGlobalTransform fuel entity u.

(** ** [Universe::setTransformKeepChildren]

    [keepChildren] is its [while (child.isValid())] loop: the local
    transform of each child is computed again from the world transform of
    the child, which stays. *)
Fixpoint keepChildren (fuel : nat) (my_transform : Transform) (child : Z)
    (u : Universe) : option Universe :=
  match fuel with
  | O => None
  | S fuel' =>
    if isValid child then
      cd ← get (m_entities u) child;
      let child_idx := hierarchy cd in
      _ ← get (m_hierarchy u) child_idx;
      child_tr ← getTransform child u;
      u ← modify_node child_idx
            (set_local_transform (tmul (inverted my_transform) child_tr)) u;
      child_h ← get (m_hierarchy u) child_idx;
      keepChildren fuel' my_transform (next_sibling child_h) u
    else Some u
  end.

Definition setTransformKeepChildren (fuel : nat) (entity : Z) (transform : Transform)
    (u : Universe) : option Universe :=
  u ← modify_transform entity (λ _, transform) u;
  d ← get (m_entities u) entity;
  let hierarchy_idx := hierarchy d in
  let u := emit (EntityTransformed entity) u in
  if bool_decide (0 ≤ hierarchy_idx) then
    h ← get (m_hierarchy u) hierarchy_idx;
    my_transform ← getTransform entity u;
    u ← (if isValid (parent h) then
           parent_tr ← getTransform (parent h) u;
           modify_node hierarchy_idx
             (set_local_transform (tmul (inverted parent_tr) my_transform)) u
         else Some u);
    h ← get (m_hierarchy u) hierarchy_idx;
    keepChildren fuel my_transform (first_child h) u
  else Some u.

(** ** Names *)

(** [copyString] into the fixed-size [EntityName::name]: at most
    [ENTITY_NAME_MAX_LENGTH - 1] characters are kept. *)
Definition copyString (src : string) : string :=
  String.substring 0 (ENTITY_NAME_MAX_LENGTH - 1) src.

Definition equalStrings (a b : string) : bool := bool_decide (a = b).

Definition set_n_name (s : string) (n : EntityName) : EntityName :=
  mkEntityName (n_entity n) s.

Definition setEntityName (entity : Z) (name_ : string) (u : Universe) : option Universe :=
  d ← get (m_entities u) entity;
  let name_idx := name d in
  if bool_decide (name_idx < 0) then
    if bool_decide (name_ = EmptyString) then Some u
    else
      u ← modify_entity entity (set_name_idx (size (m_names u))) u;
      Some (with_names (m_names u ++ [mkEntityName entity (copyString name_)]) u)
  else
    n ← get (m_names u) name_idx;
    Some (with_names (set (m_names u) name_idx (set_n_name (copyString name_) n)) u).

Definition getEntityName (entity : Z) (u : Universe) : option string :=
  d ← get (m_entities u) entity;
  let name_idx := name d in
  if bool_decide (name_idx < 0) then Some EmptyString
  else n_name <$> get (m_names u) name_idx.

(** the loop over the children of [parent] *)
Fixpoint findByName_children (fuel : nat) (e : Z) (name_ : string)
    (u : Universe) : option Z :=
  match fuel with
  | O => None
  | S fuel' =>
    if isValid e then
      data ← get (m_entities u) e;
      let name_idx := name data in
      found ← (if bool_decide (0 ≤ name_idx) then
                 n ← get (m_names u) name_idx; Some (equalStrings (n_name n) name_)
               else Some false);
      if (found : bool) then Some e
      else
        h ← get (m_hierarchy u) (hierarchy data);
        findByName_children fuel' (next_sibling h) name_ u
    else Some INVALID_ENTITY
  end.

(** the loop over [m_names], from the entry [ns] on *)
Fixpoint findByName_roots (ns : list EntityName) (name_ : string) (u : Universe) : option Z :=
  match ns with
  | [] => Some INVALID_ENTITY
  | n :: ns' =>
    if equalStrings (n_name n) name_ then
      data ← get (m_entities u) (n_entity n);
      if bool_decide (hierarchy data < 0) then Some (n_entity n)
      else
        h ← get (m_hierarchy u) (hierarchy data);
        if negb (isValid (parent h)) then Some (n_entity n)
        else findByName_roots ns' name_ u
    else findByName_roots ns' name_ u
  end.

Definition findByName (fuel : nat) (parent_ : Z) (name_ : string) (u : Universe) : option Z :=
  if isValid parent_ then
    d ← get (m_entities u) parent_;
    let h_idx := hierarchy d in
    if bool_decide (h_idx < 0) then Some INVALID_ENTITY
    else
      h ← get (m_hierarchy u) h_idx;
      findByName_children fuel (first_child h) name_ u
  else findByName_roots (m_names u) name_ u.

(** ** The slot allocator *)

(** what [EntityData()] and [Transform()] leave in a new element *)
Definition indet_entity : EntityData :=
  mkEntityData indet_int indet_int indet_int indet_int indet_int false.
Definition indet_transform : Transform := mkTransform indet_vec indet_quat indet_float.

(** one turn of the [while] loop of [emplaceEntity] *)
Definition emplace_slot (u : Universe) : option Universe :=
  let data := mkEntityData (-1) (-1) (components indet_entity) (-1)
                (m_first_free_slot u) false in
  let tr := set_scale float_minus_one indet_transform in
  let u := with_transforms (m_transforms u ++ [tr])
             (with_entities (m_entities u ++ [data]) u) in
  u ← (if bool_decide (0 ≤ m_first_free_slot u) then
         modify_entity (m_first_free_slot u) (set_prev (size (m_entities u) - 1)) u
       else Some u);
  Some (with_first_free_slot (size (m_entities u) - 1) u).

Fixpoint emplace_slots (n : nat) (u : Universe) : option Universe :=
  match n with
  | O => Some u
  | S n' => u ← emplace_slot u; emplace_slots n' u
  end.

Definition emplaceEntity (entity : Z) (u : Universe) : option Universe :=
  (* while (m_entities.size() <= entity.index): one slot per turn *)
  u ← emplace_slots (Z.to_nat (entity + 1 - size (m_entities u))) u;
  d ← get (m_entities u) entity;
  let u := if bool_decide (m_first_free_slot u = entity)
           then with_first_free_slot (next d) u else u in
  d ← get (m_entities u) entity;
  u ← (if bool_decide (0 ≤ prev d) then modify_entity (prev d) (set_next (next d)) u
       else Some u);
  d ← get (m_entities u) entity;
  u ← (if bool_decide (0 ≤ next d) then modify_entity (next d) (set_prev (prev d)) u
       else Some u);
  u ← modify_transform entity
        (λ _, mkTransform vec_zero quat_identity float_one) u;
  u ← modify_entity entity
        (λ d, set_valid true (set_components 0 (set_hierarchy_idx (-1) (set_name_idx (-1) d)))) u;
  Some (emit (EntityCreated entity) u).

Definition createEntity (position : DVec3) (rotation : Quat) (u : Universe)
    : option (Z * Universe) :=
  '(entity, u) ←
    (if bool_decide (0 ≤ m_first_free_slot u) then
       let entity := m_first_free_slot u in
       data ← get (m_entities u) entity;
       _ ← get (m_transforms u) entity;
       u ← (if bool_decide (0 ≤ next data) then modify_entity (next data) (set_prev (-1)) u
            else Some u);
       Some (entity, with_first_free_slot (next data) u)
     else
       let entity := size (m_entities u) in
       Some (entity, with_transforms (m_transforms u ++ [indet_transform])
                       (with_entities (m_entities u ++ [indet_entity]) u)));
  u ← modify_transform entity (λ _, mkTransform position rotation float_one) u;
  u ← modify_entity entity
        (λ d, set_valid true (set_components 0 (set_hierarchy_idx (-1) (set_name_idx (-1) d)))) u;
  Some (entity, emit (EntityCreated entity) u).

(** [getFirstEntity] and [getNextEntity]: the first valid slot from [i] on *)
Fixpoint first_valid_from (i : Z) (es : list EntityData) : Z :=
  match es with
  | [] => INVALID_ENTITY
  | d :: es' => if valid d then i else first_valid_from (i + 1) es'
  end.

Definition getFirstEntity (u : Universe) : Z := first_valid_from 0 (m_entities u).

Definition getNextEntity (entity : Z) (u : Universe) : Z :=
  first_valid_from (Z.max 0 (entity + 1))
    (drop (Z.to_nat (Z.max 0 (entity + 1))) (m_entities u)).

(** ** [Universe::isDescendant] and [Universe::setParent] *)

(** [Universe::isDescendant]: [isDescendant_from] is the [for] loop over the
    children, entered at the child [e]. *)
Fixpoint isDescendant (fuel : nat) (ancestor descendant : Z) (u : Universe) : option bool :=
  match fuel with
  | O => None
  | S fuel' =>
    e ← getFirstChild ancestor u;
    isDescendant_from fuel' e descendant u
  end
with isDescendant_from (fuel : nat) (e descendant : Z) (u : Universe) : option bool :=
  match fuel with
  | O => None
  | S fuel' =>
    if isValid e then
      if bool_decide (e = descendant) then Some true
      else
        r ← isDescendant fuel' e descendant u;
        if (r : bool) then Some true
        else
          e' ← getNextSibling e u;
          isDescendant_from fuel' e' descendant u
    else Some false
  end.

(** the lambda [collectGarbage] of [setParent] *)
Definition collectGarbage (entity : Z) (u : Universe) : option Universe :=
  d ← get (m_entities u) entity;
  h ← get (m_hierarchy u) (hierarchy d);
  if isValid (parent h) then Some u
  else if isValid (first_child h) then Some u
  else
    last_ ← last (m_hierarchy u);
    u ← modify_entity (h_entity last_) (set_hierarchy_idx (hierarchy d)) u;
    u ← modify_entity entity (set_hierarchy_idx (-1)) u;
    (* h = last; m_hierarchy.pop() *)
    Some (with_hierarchy (removelast (set (m_hierarchy u) (hierarchy d) last_)) u).

(** The pointer [x] of the unlink loop of [setParent] points to the
    [first_child] or to the [next_sibling] member of a hierarchy node. *)
Inductive LinkPtr :=
  | FirstChildOf (node : Z)
  | NextSiblingOf (node : Z).

Definition read_link (x : LinkPtr) (u : Universe) : option Z :=
  match x with
  | FirstChildOf i => first_child <$> get (m_hierarchy u) i
  | NextSiblingOf i => next_sibling <$> get (m_hierarchy u) i
  end.

Definition write_link (x : LinkPtr) (v : Z) (u : Universe) : option Universe :=
  match x with
  | FirstChildOf i => modify_node i (set_first_child v) u
  | NextSiblingOf i => modify_node i (set_next_sibling v) u
  end.

(** [while (x->isValid())] of [setParent] *)
Fixpoint unlink (fuel : nat) (x : LinkPtr) (child : Z) (u : Universe) : option Universe :=
  match fuel with
  | O => None
  | S fuel' =>
    v ← read_link x u;
    if isValid v then
      if bool_decide (v = child) then
        s ← getNextSibling child u;
        write_link x s u
      else
        d ← get (m_entities u) v;
        _ ← get (m_hierarchy u) (hierarchy d);
        unlink fuel' (NextSiblingOf (hierarchy d)) child u
    else Some u
  end.

Definition new_node (entity : Z) : Hierarchy :=
  mkHierarchy entity INVALID_ENTITY INVALID_ENTITY INVALID_ENTITY indet_transform.

Definition would_create_cycle (fuel : nat) (new_parent child : Z) (u : Universe) : option bool :=
  if isValid new_parent then isDescendant fuel child new_parent u else Some false.

Definition cycle_message : string := "Hierarchy can not contains a cycle.".

(** [Universe::setParent], in the two parts of its body: the first takes
    [child] out of the list of its old parent (or gives it a node when it
    has none and gets a parent), the second puts it at the head of the list
    of [new_parent].  [child_idx] is the local variable of the source. *)
Definition setParent_old_parent (fuel : nat) (new_parent child : Z) (u : Universe)
    : option (Z * Universe) :=
  cd ← get (m_entities u) child;
  let child_idx := hierarchy cd in
  if bool_decide (0 ≤ child_idx) then
    ch ← get (m_hierarchy u) child_idx;
    let old_parent := parent ch in
    if isValid old_parent then
      opd ← get (m_entities u) old_parent;
      _ ← get (m_hierarchy u) (hierarchy opd);
      u ← unlink fuel (FirstChildOf (hierarchy opd)) child u;
      u ← modify_node child_idx (set_parent INVALID_ENTITY) u;
      u ← modify_node child_idx (set_next_sibling INVALID_ENTITY) u;
      u ← collectGarbage old_parent u;
      cd ← get (m_entities u) child;
      Some (hierarchy cd, u)
    else Some (child_idx, u)
  else if isValid new_parent then
    let child_idx := size (m_hierarchy u) in
    u ← modify_entity child (set_hierarchy_idx child_idx) u;
    Some (child_idx, with_hierarchy (m_hierarchy u ++ [new_node child]) u)
  else Some (child_idx, u).

Definition setParent_new_parent (new_parent child child_idx : Z) (u : Universe)
    : option Universe :=
  if isValid new_parent then
    npd ← get (m_entities u) new_parent;
    '(new_parent_idx, u) ←
      (if bool_decide (hierarchy npd < 0) then
         let new_parent_idx := size (m_hierarchy u) in
         u ← modify_entity new_parent (set_hierarchy_idx new_parent_idx) u;
         Some (new_parent_idx, with_hierarchy (m_hierarchy u ++ [new_node new_parent]) u)
       else Some (hierarchy npd, u));
    u ← modify_node child_idx (set_parent new_parent) u;
    parent_tr ← getTransform new_parent u;
    child_tr ← getTransform child u;
    u ← modify_node child_idx (set_local_transform (tmul (inverted parent_tr) child_tr)) u;
    nph ← get (m_hierarchy u) new_parent_idx;
    u ← modify_node child_idx (set_next_sibling (first_child nph)) u;
    modify_node new_parent_idx (set_first_child child) u
  else
    if bool_decide (0 ≤ child_idx) then collectGarbage child u else Some u.

Definition setParent (fuel : nat) (new_parent child : Z) (u : Universe) : option Universe :=
  cyc ← would_create_cycle fuel new_parent child u;
  if (cyc : bool) then Some (emit (LogError cycle_message) u)
  else
    '(child_idx, u) ← setParent_old_parent fuel new_parent child u;
    setParent_new_parent new_parent child child_idx u.

(** ** The component type table

    [m_component_type_map] holds, per component type, the scene that owns
    it and pointers to its methods.  The methods are code of the scenes:
    here they are functions on the registry.  [Blob] is the state of the
    deserializer a scene reads its component from. *)
Record ComponentTypeEntry (Blob : Type) := mkComponentTypeEntry {
  cmp_create : Z → Universe → option Universe;
  cmp_destroy : Z → Universe → option Universe;
  cmp_deserialize : Z → Z → Blob → Universe → option (Blob * Universe)
}.
Arguments cmp_create {Blob} _ _ _.
Arguments cmp_destroy {Blob} _ _ _.
Arguments cmp_deserialize {Blob} _ _ _ _ _.

Definition ComponentTypeMap (Blob : Type) : Type := Z → option (ComponentTypeEntry Blob).

Definition createComponent {Blob} (map : ComponentTypeMap Blob) (type entity : Z)
    (u : Universe) : option Universe :=
  c ← map type; cmp_create c entity u.

Definition destroyComponent {Blob} (map : ComponentTypeMap Blob) (entity type : Z)
    (u : Universe) : option Universe :=
  c ← map type; cmp_destroy c entity u.

Definition deserializeComponent {Blob} (map : ComponentTypeMap Blob) (blob : Blob)
    (entity type scene_version : Z) (u : Universe) : option (Blob * Universe) :=
  c ← map type; cmp_deserialize c entity scene_version blob u.

(** ** [Universe::destroyEntity] *)

(** [for (first_child = getFirstChild(entity); first_child.isValid(); ...)] *)
Fixpoint detach_children (fuel : nat) (entity : Z) (u : Universe) : option Universe :=
  match fuel with
  | O => None
  | S fuel' =>
    first_child_ ← getFirstChild entity u;
    if isValid first_child_ then
      u ← setParent fuel INVALID_ENTITY first_child_ u;
      detach_children fuel' entity u
    else Some u
  end.

(** the loop over the component types [i], [i + 1], ... (of which [n] are left) *)
Fixpoint destroy_components {Blob} (map : ComponentTypeMap Blob) (n : nat) (i : Z)
    (mask : Z) (entity : Z) (u : Universe) : option Universe :=
  match n with
  | O => Some u
  | S n' =>
    if negb (Z.land mask (type_bit i) =? 0) then
      let original_mask := mask in
      u ← destroyComponent map entity i u;
      d ← get (m_entities u) entity;
      let mask := components d in
      if bool_decide (original_mask = mask) then None   (* ASSERT(original_mask != mask) *)
      else destroy_components map n' (i + 1) mask entity u
    else destroy_components map n' (i + 1) mask entity u
  end.

(** the end of the body of [destroyEntity]: the slot is put at the head of
    the free list and the name of the entity is erased *)
Definition destroyEntity_release (entity : Z) (u : Universe) : option Universe :=
  let first_free := m_first_free_slot u in
  u ← modify_entity entity
        (λ d, set_valid false (set_hierarchy_idx (-1) (set_prev (-1) (set_next first_free d)))) u;
  u ← (if bool_decide (0 ≤ first_free) then modify_entity first_free (set_prev entity) u
       else Some u);
  entity_data ← get (m_entities u) entity;
  u ← (if bool_decide (0 ≤ name entity_data) then
         back ← last (m_names u);
         u ← modify_entity (n_entity back) (set_name_idx (name entity_data)) u;
         entity_data ← get (m_entities u) entity;
         let u := with_names (eraseFast (m_names u) (name entity_data)) u in
         modify_entity entity (set_name_idx (-1)) u
       else Some u);
  Some (emit (EntityDestroyed entity) (with_first_free_slot entity u)).

Definition destroyEntity {Blob} (map : ComponentTypeMap Blob) (fuel : nat) (entity : Z)
    (u : Universe) : option Universe :=
  entity_data ← get (m_entities u) entity;
  if negb (valid entity_data) then None   (* ASSERT(entity_data.valid) *)
  else
    u ← detach_children fuel entity u;
    u ← setParent fuel INVALID_ENTITY entity u;
    entity_data ← get (m_entities u) entity;
    u ← destroy_components map (Z.to_nat MAX_TYPES_COUNT) 0 (components entity_data) entity u;
    destroyEntity_release entity u.

(** ** Prefabs

    [TextDeserializer] ([engine/serializer.h]) is not part of the sources
    at hand: what a [read] gives and the blob that is left are the fields
    of a class.  [blob_has_data] is [blob.getPosition() < blob.size()]. *)
Class TextDeserializer := {
  Blob : Type;
  blob_has_data : Blob → bool;
  read_u32 : Blob → Z * Blob;
  read_int : Blob → Z * Blob;
  read_u64 : Blob → Z * Blob;
  read_guid : Blob → Z * Blob;                  (* the u64 of an EntityGUID *)
  read_rigid : Blob → (DVec3 * Quat) * Blob;    (* a RigidTransform *)
  read_float : Blob → Float * Blob
}.

Context {TD : TextDeserializer}.

(** [PrefabEntityGUIDMap::get] *)
Definition PrefabEntityGUIDMap_get (entities : list Z) (guid : Z) : option Z :=
  if bool_decide (size entities ≤ guid) then Some INVALID_ENTITY
  else get entities guid.

(** [for (int i = 0; i < count; ++i) entities.push(createEntity(...))] *)
Fixpoint prefab_create (n : nat) (entities : list Z) (u : Universe)
    : option (list Z * Universe) :=
  match n with
  | O => Some (entities, u)
  | S n' =>
    '(e, u) ← createEntity vec_zero quat_identity u;
    prefab_create n' (entities ++ [e]) u
  end.

(** [while (cmp_type_hash != 0)]; a blob holds finitely many components,
    [n] bounds their number *)
Fixpoint prefab_components (map : ComponentTypeMap Blob) (n : nat) (cmp_type_hash : Z)
    (entity : Z) (blob : Blob) (u : Universe) : option (Blob * Universe) :=
  match n with
  | O => None
  | S n' =>
    if bool_decide (cmp_type_hash = 0) then Some (blob, u)
    else
      let cmp_type := getComponentTypeFromHash cmp_type_hash in
      let '(scene_version, blob) := read_int blob in
      '(blob, u) ← deserializeComponent map blob entity cmp_type scene_version u;
      let '(cmp_type_hash, blob) := read_u32 blob in
      prefab_components map n' cmp_type_hash entity blob u
  end.

(** [while (blob.getPosition() < blob.size() && entity_idx < count)], of
    which at most [n] turns are left *)
Fixpoint prefab_entities (map : ComponentTypeMap Blob) (fuel : nat) (n : nat)
    (version : Z) (entities : list Z) (entity_idx : Z)
    (p : DVec3) (r : Quat) (s : Float) (blob : Blob) (u : Universe) : option Universe :=
  match n with
  | O => Some u
  | S n' =>
    if blob_has_data blob then
      let '(_, blob) := read_u64 blob in
      entity ← get entities entity_idx;
      u ← setTransform fuel entity (mkTransform p r s) u;
      '(blob, u) ←
        (if bool_decide (PrefabVersion_WITH_HIERARCHY mod 2 ^ 32 < version) then
           let '(guid, blob) := read_guid blob in
           parent_ ← PrefabEntityGUIDMap_get entities guid;
           if isValid parent_ then
             let '(local_tr, blob) := read_rigid blob in
             let '(scale_, blob) := read_float blob in
             u ← setParent fuel parent_ entity u;
             u ← setLocalTransform fuel entity (mkTransform local_tr.1 local_tr.2 scale_) u;
             Some (blob, u)
           else Some (blob, u)
         else Some (blob, u));
      let '(cmp_type_hash, blob) := read_u32 blob in
      '(blob, u) ← prefab_components map fuel cmp_type_hash entity blob u;
      prefab_entities map fuel n' version entities (entity_idx + 1) p r s blob u
    else Some u
  end.

Definition unsupported_version_message (path : string) : string :=
  "Prefab " +:+ path +:+ " has unsupported version.".

(** [Universe::instantiatePrefab]; [path] is [prefab.getPath()] and [blob]
    the deserializer on [prefab.data]. *)
Definition instantiatePrefab (map : ComponentTypeMap Blob) (fuel : nat)
    (path : string) (blob : Blob) (p : DVec3) (r : Quat) (s : Float)
    (u : Universe) : option (Z * Universe) :=
  let '(version, blob) := read_u32 blob in
  if bool_decide (PrefabVersion_LAST mod 2 ^ 32 < version) then
    Some (INVALID_ENTITY, emit (LogError (unsupported_version_message path)) u)
  else
    let '(count, blob) := read_int blob in
    '(entities, u) ← prefab_create (Z.to_nat count) [] u;
    u ← prefab_entities map fuel (Z.to_nat count) version entities 0 p r s blob u;
    root ← get entities 0;
    Some (root, u).

(** ** Serialization of the skeleton

    The bytes of a stream are a list (each a [Z] in [0, 256)).  The entity records, the
    transforms and the hierarchy nodes are written as raw memory: the bytes
    of one record are given by the compiler's layout, a class here. *)
Class Layout := {
  sizeof_EntityData : nat;
  bytes_of_EntityData : EntityData → list Z;
  EntityData_of_bytes : list Z → EntityData;
  sizeof_Transform : nat;
  bytes_of_Transform : Transform → list Z;
  Transform_of_bytes : list Z → Transform;
  sizeof_Hierarchy : nat;
  bytes_of_Hierarchy : Hierarchy → list Z;
  Hierarchy_of_bytes : list Z → Hierarchy
}.

Context {LY : Layout}.

(** the [n] bytes of [v], least significant first *)
Fixpoint le_bytes (n : nat) (v : Z) : list Z :=
  match n with
  | O => []
  | S n' => v mod 256 :: le_bytes n' (v / 256)
  end.

Fixpoint le_value (bs : list Z) : Z :=
  match bs with
  | [] => 0
  | b :: bs' => b + 256 * le_value bs'
  end.

(** the [i32] with the bits of [x] *)
Definition to_i32 (x : Z) : Z :=
  let y := x mod 2 ^ 32 in if bool_decide (y < 2 ^ 31) then y else y - 2 ^ 32.

(** [write(i32)], [write(int)], [write(EntityRef)]: four bytes *)
Definition write_i32 (v : Z) : list Z := le_bytes 4 v.

Definition bytes_of_string (s : string) : list Z :=
  (λ c, Z.of_N (Ascii.N_of_ascii c)) <$> String.list_ascii_of_string s.

Definition string_of_bytes (bs : list Z) : string :=
  String.string_of_list_ascii ((λ b, Ascii.ascii_of_N (Z.to_N b)) <$> bs).

(** [IOutputStream::writeString] of a string that is not null *)
Definition writeString (s : string) : list Z :=
  write_i32 (Z.of_nat (String.length s) + 1) ++ bytes_of_string s ++ [0].

Definition serialize (u : Universe) : list Z :=
  write_i32 (size (m_entities u))
  ++ (if bool_decide (m_entities u = []) then []
      else (m_entities u ≫= bytes_of_EntityData) ++ (m_transforms u ≫= bytes_of_Transform))
  ++ write_i32 (size (m_names u))
  ++ (m_names u ≫= λ n, write_i32 (n_entity n) ++ writeString (n_name n))
  ++ write_i32 (m_first_free_slot u)
  ++ write_i32 (size (m_hierarchy u))
  ++ (if bool_decide (m_hierarchy u = []) then []
      else m_hierarchy u ≫= bytes_of_Hierarchy).

(** Modelled from the spec: an [InputMemoryStream] is the block [m_data]
    of [m_size] bytes and the position [m_pos] in it.  [stream.h] is not
    part of the sources at hand: [m_size] and [m_pos] are taken as [u64],
    the type of the [size] that the constructors store, and [i_size] is
    the length of the block. *)
Record InputMemoryStream := mkInputMemoryStream {
  i_data : list Z;
  i_pos : Z
}.

Definition i_size (s : InputMemoryStream) : Z := size (i_data s).

(** [InputMemoryStream::read(void* data, u64 size)], with the [size] as a
    [u64].  The test is [m_pos + (int)size > m_size], in [u64] once the
    [int] is added to [m_pos]: when it holds, [data] is filled with zeros
    and the position stays (the [false] that is returned is not looked at
    by the callers here).  Otherwise [size] bytes are copied from
    [m_data + m_pos], and nothing is known of a copy that leaves the
    block. *)
Definition read (n : Z) (s : InputMemoryStream) : option (list Z * InputMemoryStream) :=
  if bool_decide (i_size s < (i_pos s + to_i32 n) mod 2 ^ 64) then
    Some (replicate (Z.to_nat n) 0, s)
  else if bool_decide (i_pos s + n ≤ i_size s) then
    Some (take (Z.to_nat n) (drop (Z.to_nat (i_pos s)) (i_data s)),
          mkInputMemoryStream (i_data s) ((i_pos s + n) mod 2 ^ 64))
  else None.

Definition read_i32 (s : InputMemoryStream) : option (Z * InputMemoryStream) :=
  '(bs, s) ← read 4 s; Some (to_i32 (le_value bs), s).

(** the characters of a buffer before its first zero byte *)
Fixpoint cstring (bs : list Z) : option (list Z) :=
  match bs with
  | [] => None
  | b :: bs' => if bool_decide (b = 0) then Some [] else (b ::.) <$> cstring bs'
  end.

(** [IInputStream::readString] into an [EntityName::name]; a buffer left
    without a terminating zero holds no string *)
Definition readString (max_size : nat) (s : InputMemoryStream)
    : option (string * InputMemoryStream) :=
  '(size_, s) ← read_i32 s;
  if bool_decide (Z.of_nat max_size < size_) then None   (* ASSERT(size <= max_size) *)
  else if bool_decide (size_ < 0) then None
  else
    '(bs, s) ← read size_ s;
    cs ← cstring bs;
    Some (string_of_bytes cs, s).

(** [count] records of [sz] bytes, read in one block of [byte_size()]
    bytes *)
Definition read_block {A} (of_bytes : list Z → A) (sz : nat) (count : nat)
    (s : InputMemoryStream) : option (list A * InputMemoryStream) :=
  '(bs, s) ← read (Z.of_nat (count * sz)) s;
  Some ((λ i, of_bytes (take sz (drop (i * sz) bs))) <$> seq 0 count, s).

Fixpoint deserialize_names (n : nat) (s : InputMemoryStream) (u : Universe)
    : option (InputMemoryStream * Universe) :=
  match n with
  | O => Some (s, u)
  | S n' =>
    '(entity, s) ← read_i32 s;
    '(name_, s) ← readString ENTITY_NAME_MAX_LENGTH s;
    let u := with_names (m_names u ++ [mkEntityName entity name_]) u in
    u ← modify_entity entity (set_name_idx (size (m_names u) - 1)) u;
    deserialize_names n' s u
  end.

(** [Universe::deserialize]; a negative count is taken as a fault *)
Definition deserialize (s : InputMemoryStream) (u : Universe) : option Universe :=
  '(count, s) ← read_i32 s;
  if bool_decide (count < 0) then None
  else
    '(es, s) ←
      (if bool_decide (0 < count)
       then read_block EntityData_of_bytes sizeof_EntityData (Z.to_nat count) s
       else Some ([], s));
    '(ts, s) ←
      (if bool_decide (0 < count)
       then read_block Transform_of_bytes sizeof_Transform (Z.to_nat count) s
       else Some ([], s));
    let u := with_transforms ts (with_entities es u) in
    '(count, s) ← read_i32 s;
    '(s, u) ← deserialize_names (Z.to_nat count) s u;
    '(first_free, s) ← read_i32 s;
    let u := with_first_free_slot first_free u in
    '(count, s) ← read_i32 s;
    if bool_decide (count < 0) then None
    else
      '(hs, s) ←
        (if bool_decide (0 < count)
         then read_block Hierarchy_of_bytes sizeof_Hierarchy (Z.to_nat count) s
         else Some ([], s));
      Some (with_hierarchy hs u).

End WithAlgebra.

Arguments cmp_create {TA Blob} _ _ _.
Arguments cmp_destroy {TA Blob} _ _ _.
Arguments cmp_deserialize {TA Blob} _ _ _ _ _.

(** * [OutputMemoryStream] ([engine/stream.cpp])

    The block of memory of a stream is the list of its bytes, [None] for a
    byte of allocated memory that was never written; [m_size] is the size
    of the block.  [o_allocator] tells whether the stream has an allocator
    (a stream over a buffer of the caller has none and cannot grow).
    Sizes and positions are [u64]. *)
Module OutputMemoryStream.

Record t : Type := mk {
  o_allocator : bool;
  o_data : list (option Z);
  o_pos : Z
}.

Definition u64 (x : Z) : Z := x mod 2 ^ 64.

Definition m_size (s : t) : Z := size (o_data s).

(** [InputMemoryStream(const OutputMemoryStream&)] reads the bytes before
    the position *)
Definition written (s : t) : list (option Z) := take (Z.to_nat (o_pos s)) (o_data s).

Definition reserve (sz : Z) (s : t) : option t :=
  if bool_decide (sz ≤ m_size s) then Some s
  else if o_allocator s then
    Some (mk true (o_data s ++ replicate (Z.to_nat (sz - m_size s)) None) (o_pos s))
  else None.   (* ASSERT(m_allocator) *)

(** the [memcpy] of [write] to [m_data + m_pos]; nothing is known of a copy
    that leaves the block *)
Definition store (data : list (option Z)) (pos : Z) (bs : list Z) : option (list (option Z)) :=
  if bool_decide (pos + size bs ≤ size data) then
    Some (take (Z.to_nat pos) data ++ (Some <$> bs)
          ++ drop (Z.to_nat (pos + size bs)) data)
  else None.

Definition write (bs : list Z) (s : t) : option t :=
  if bool_decide (bs = []) then Some s
  else
    s ← (if bool_decide (m_size s < u64 (o_pos s + size bs))
         then reserve (u64 (Z.shiftl (u64 (o_pos s + size bs)) 1)) s
         else Some s);
    data ← store (o_data s) (o_pos s) bs;
    Some (mk (o_allocator s) data (u64 (o_pos s + size bs))).

(** [skip(int size)]: the bytes skipped are left as they are *)
Definition skip (sz : Z) (s : t) : option t :=
  if bool_decide (0 < sz) then
    s ← (if bool_decide (m_size s < u64 (o_pos s + sz))
         then reserve (u64 (Z.shiftl (u64 (o_pos s + sz)) 1)) s
         else Some s);
    Some (mk (o_allocator s) (o_data s) (u64 (o_pos s + sz)))
  else None.   (* ASSERT(size > 0) *)

Definition clear (s : t) : t := mk (o_allocator s) (o_data s) 0.

Definition resize (sz : Z) (s : t) : option t :=
  let s := mk (o_allocator s) (o_data s) sz in
  if bool_decide (sz ≤ m_size s) then Some s
  else if o_allocator s then
    Some (mk true (o_data s ++ replicate (Z.to_nat (sz - m_size s)) None) sz)
  else None.   (* ASSERT(m_allocator) *)

End OutputMemoryStream.

(* ================================================================== *)
(** * A concrete instance

    Transforms over the rationals with the identity as only rotation, the
    product and the inverse being those of the engine in exact arithmetic:
    [(p * c).pos = p.pos + c.pos * p.scale], [(p * c).scale = p.scale * c.scale],
    [inverted(p).pos = -p.pos / p.scale], [inverted(p).scale = 1 / p.scale].
    Rationals are kept in lowest terms, so that equal numbers are equal
    terms. *)

Definition qadd (a b : Q) : Q := Qred (a + b).
Definition qmul (a b : Q) : Q := Qred (a * b).
Definition qdiv (a b : Q) : Q := Qred (a / b).
Definition qopp (a : Q) : Q := Qred (- a).

Definition QVec : Type := Q * Q * Q.

Definition qvec_map2 (f : Q → Q → Q) (a b : QVec) : QVec :=
  (f a.1.1 b.1.1, f a.1.2 b.1.2, f a.2 b.2).
Definition qvec_scale (f : Q → Q → Q) (a : QVec) (s : Q) : QVec :=
  (f a.1.1 s, f a.1.2 s, f a.2 s).

Definition exact_tmul (a b : Transform_of QVec unit Q) : Transform_of QVec unit Q :=
  mkTransform (qvec_map2 qadd (pos a) (qvec_scale qmul (pos b) (scale a))) tt
    (qmul (scale a) (scale b)).

Definition exact_inverted (a : Transform_of QVec unit Q) : Transform_of QVec unit Q :=
  mkTransform (qvec_scale qdiv (qvec_scale qmul (pos a) (-1)) (scale a)) tt
    (qdiv 1 (scale a)).

Definition exact_algebra : TransformAlgebra := {|
  DVec3 := QVec;
  Quat := unit;
  Float := Q;
  vec_zero := (0, 0, 0)%Q;
  quat_identity := tt;
  float_one := 1%Q;
  float_minus_one := (-1)%Q;
  indet_vec := (0, 0, 0)%Q;
  indet_quat := tt;
  indet_float := 0%Q;
  indet_int := 0;
  tmul := exact_tmul;
  inverted := exact_inverted
|}.

Definition example_constants : Constants := {|
  ENTITY_NAME_MAX_LENGTH := 32;
  PrefabVersion_WITH_HIERARCHY := 1;
  PrefabVersion_LAST := 2;
  getComponentTypeFromHash := λ h, h mod 64
|}.

(** A deserializer on a list of numbers: every read takes the next ones. *)
Definition next_number (blob : list Z) : Z * list Z :=
  match blob with
  | [] => (0, [])
  | x :: blob' => (x, blob')
  end.

Definition read_three (blob : list Z) : (QVec * unit) * list Z :=
  let '(x, blob) := next_number blob in
  let '(y, blob) := next_number blob in
  let '(z, blob) := next_number blob in
  (((inject_Z x, inject_Z y, inject_Z z), tt), blob).

Definition example_deserializer : @TextDeserializer exact_algebra :=
  @Build_TextDeserializer exact_algebra (list Z)
    (λ blob, negb (bool_decide (blob = [])))
    (λ blob, let '(x, blob) := next_number blob in (x mod 2 ^ 32, blob))
    next_number
    (λ blob, let '(x, blob) := next_number blob in (x mod 2 ^ 64, blob))
    (λ blob, let '(x, blob) := next_number blob in (x mod 2 ^ 64, blob))
    read_three
    (λ blob, let '(x, blob) := next_number blob in (inject_Z x, blob)).

(** a scene whose methods call back the universe, as the scenes of the
    engine do *)
Definition example_map : ComponentTypeMap (TA := exact_algebra) (list Z) :=
  λ type,
    if bool_decide (0 ≤ type < MAX_TYPES_COUNT) then
      Some (mkComponentTypeEntry (TA := exact_algebra) (list Z)
              (λ e u, onComponentCreated e type u)
              (λ e u, onComponentDestroyed e type u)
              (λ e _ blob u, u ← onComponentCreated e type u; Some (blob, u)))
    else None.

(** A family of three entities: 0 is the parent of 1, 1 the parent of 2;
    the entity 0 is named.  The world transforms are the products of the
    parents' world transforms and the local transforms. *)
Definition qtransform (x y z s : Q) : Transform (TA := exact_algebra) :=
  mkTransform (V := QVec) (Q := unit) (x, y, z) tt s.

Definition example_family : Universe (TA := exact_algebra) :=
  mkUniverse (TA := exact_algebra)
    [ mkEntityData 0 0 0 0 0 true;
      mkEntityData 1 (-1) 0 0 0 true;
      mkEntityData 2 (-1) 0 0 0 true ]
    [ qtransform 1 0 0 1; qtransform 1 1 0 1; qtransform 1 1 1 1 ]
    [ mkHierarchy (TA := exact_algebra) 0 (-1) 1 (-1) (qtransform 0 0 0 1);
      mkHierarchy (TA := exact_algebra) 1 0 2 (-1) (qtransform 0 1 0 1);
      mkHierarchy (TA := exact_algebra) 2 1 (-1) (-1) (qtransform 0 0 1 1) ]
    [ mkEntityName 0 "base" ]
    (-1)
    [].

(** A layout of the records for the exact transforms: the fields one after
    the other, the integers least significant byte first, a rational as
    its numerator and its denominator. *)
Definition i32_at (off : nat) (bs : list Z) : Z :=
  to_i32 (le_value (take 4 (drop off bs))).

Definition q_bytes (q : Q) : list Z :=
  le_bytes 4 (Qnum q) ++ le_bytes 4 (Z.pos (Qden q)).

Definition q_at (off : nat) (bs : list Z) : Q :=
  Qmake (i32_at off bs) (Z.to_pos (i32_at (off + 4) bs)).

Definition transform_bytes (t : Transform (TA := exact_algebra)) : list Z :=
  q_bytes (pos t).1.1 ++ q_bytes (pos t).1.2 ++ q_bytes (pos t).2 ++ q_bytes (scale t).

Definition transform_at (off : nat) (bs : list Z) : Transform (TA := exact_algebra) :=
  mkTransform (q_at off bs, q_at (off + 8) bs, q_at (off + 16) bs) tt (q_at (off + 24) bs).

Definition example_layout : Layout (TA := exact_algebra) := {|
  sizeof_EntityData := 25;
  bytes_of_EntityData := λ d,
    le_bytes 4 (hierarchy d) ++ le_bytes 4 (name d) ++ le_bytes 8 (components d)
    ++ le_bytes 4 (prev d) ++ le_bytes 4 (next d) ++ [if valid d then 1 else 0];
  EntityData_of_bytes := λ bs,
    mkEntityData (i32_at 0 bs) (i32_at 4 bs) (le_value (take 8 (drop 8 bs)))
      (i32_at 16 bs) (i32_at 20 bs) (bool_decide (bs !! 24%nat = Some 1));
  sizeof_Transform := 32;
  bytes_of_Transform := transform_bytes;
  Transform_of_bytes := transform_at 0;
  sizeof_Hierarchy := 48;
  bytes_of_Hierarchy := λ h,
    le_bytes 4 (h_entity h) ++ le_bytes 4 (parent h) ++ le_bytes 4 (first_child h)
    ++ le_bytes 4 (next_sibling h) ++ transform_bytes (local_transform h);
  Hierarchy_of_bytes := λ bs,
    mkHierarchy (i32_at 0 bs) (i32_at 4 bs) (i32_at 8 bs) (i32_at 12 bs) (transform_at 16 bs)
|}.

(** The same family with components and a second name: the entity 0 has
    the component of type 1, the entity 1 those of the types 0 and 2; the
    entity 0 holds the first entry of the name table and the entity 2 the
    last. *)
Definition example_scene : Universe (TA := exact_algebra) :=
  mkUniverse (TA := exact_algebra)
    [ mkEntityData 0 0 2 0 0 true;
      mkEntityData 1 (-1) 5 0 0 true;
      mkEntityData 2 1 0 0 0 true ]
    [ qtransform 1 0 0 1; qtransform 1 1 0 1; qtransform 1 1 1 1 ]
    [ mkHierarchy (TA := exact_algebra) 0 (-1) 1 (-1) (qtransform 0 0 0 1);
      mkHierarchy (TA := exact_algebra) 1 0 2 (-1) (qtransform 0 1 0 1);
      mkHierarchy (TA := exact_algebra) 2 1 (-1) (-1) (qtransform 0 0 1 1) ]
    [ mkEntityName 0 "base"; mkEntityName 2 "tip" ]
    (-1)
    [].

(** The family under a parent of scale 0: every world transform is the
    product of the parent's and of the local transform, and so has the
    scale 0 and the position of the root. *)
Definition example_collapsed : Universe (TA := exact_algebra) :=
  mkUniverse (TA := exact_algebra)
    [ mkEntityData 0 0 0 0 0 true;
      mkEntityData 1 (-1) 0 0 0 true;
      mkEntityData 2 (-1) 0 0 0 true ]
    [ qtransform 1 0 0 0; qtransform 1 0 0 0; qtransform 1 0 0 0 ]
    [ mkHierarchy (TA := exact_algebra) 0 (-1) 1 (-1) (qtransform 0 0 0 1);
      mkHierarchy (TA := exact_algebra) 1 0 2 (-1) (qtransform 0 1 0 1);
      mkHierarchy (TA := exact_algebra) 2 1 (-1) (-1) (qtransform 0 0 1 1) ]
    [ mkEntityName 0 "base" ]
    (-1)
    [].

(*INSTANCE-DEFS*)

(* ================================================================== *)
(** * Specification *)

Section Specification.
Context {TA : TransformAlgebra} {CS : Constants}.

(** ** The shape of the hierarchy

    The links [first_child] and [next_sibling] make the entities below a
    node a binary tree: [Sib e kids rest] is the child [e], the chain of its
    own children and the chain of the siblings that follow it. *)
Inductive Chain :=
  | NoEntity
  | Sib (e : Z) (kids : Chain) (rest : Chain).

Fixpoint ents (b : Chain) : list Z :=
  match b with
  | NoEntity => []
  | Sib e kids rest => e :: ents kids ++ ents rest
  end.

(** the entities of the chain itself, without their descendants *)
Fixpoint tops (b : Chain) : list Z :=
  match b with
  | NoEntity => []
  | Sib e _ rest => e :: tops rest
  end.

Fixpoint height (b : Chain) : nat :=
  match b with
  | NoEntity => 0
  | Sib _ kids rest => S (height kids `max` height rest)
  end.

(** [shape u c b]: followed from the entity [c], the links of [u] describe
    the chain [b]; every entity of the chain has a hierarchy node. *)
Fixpoint shape (u : Universe) (c : Z) (b : Chain) : Prop :=
  match b with
  | NoEntity => isValid c = false
  | Sib e kids rest =>
    c = e ∧ isValid c = true ∧
    ∃ d h, get (m_entities u) e = Some d ∧ get (m_hierarchy u) (hierarchy d) = Some h
           ∧ shape u (first_child h) kids ∧ shape u (next_sibling h) rest
  end.

(** [below u e b]: [b] is the chain of the children of [e] (empty when [e]
    has no hierarchy node). *)
Definition below (u : Universe) (e : Z) (b : Chain) : Prop :=
  ∃ c, getFirstChild e u = Some c ∧ shape u c b.

(** [d] is a descendant of [a]: it is among the entities below [a]. *)
Definition descendant (u : Universe) (a d : Z) : Prop :=
  ∃ b, below u a b ∧ d ∈ ents b.


(** ** The hierarchy node of an entity *)

(** the node of [e], if it has one *)
Definition node_of (u : Universe) (e : Z) : option Hierarchy :=
  d ← get (m_entities u) e;
  if bool_decide (hierarchy d < 0) then None else get (m_hierarchy u) (hierarchy d).

(** Entities and hierarchy nodes refer to each other: the node at the index
    an entity holds names that entity, and the entity a node names holds the
    index of that node. *)
Record backrefs (u : Universe) : Prop := {
  br_node : ∀ e d, get (m_entities u) e = Some d → 0 ≤ hierarchy d →
            ∃ h, get (m_hierarchy u) (hierarchy d) = Some h ∧ h_entity h = e;
  br_entity : ∀ i h, get (m_hierarchy u) i = Some h →
              ∃ d, get (m_entities u) (h_entity h) = Some d ∧ hierarchy d = i
}.


(** [links_only u u']: from [u] to [u'] nothing but the hierarchy table and
    the hierarchy indices of the entities has changed. *)
Record links_only (u u' : Universe) : Prop := {
  lo_transforms : m_transforms u' = m_transforms u;
  lo_names : m_names u' = m_names u;
  lo_first_free : m_first_free_slot u' = m_first_free_slot u;
  lo_events : m_events u' = m_events u;
  lo_size : size (m_entities u') = size (m_entities u);
  lo_entities : ∀ i d', get (m_entities u') i = Some d' →
                ∃ d, get (m_entities u) i = Some d ∧ d' = set_hierarchy_idx (hierarchy d') d
}.


(** two states of a node that differ in the links to children and siblings only *)
Definition same_kin (h h' : Hierarchy) : Prop :=
  h_entity h' = h_entity h ∧ parent h' = parent h
  ∧ local_transform h' = local_transform h.

(** [sibs u c l]: [l] is the list of the entities met from [c] on along
    [next_sibling]; each of them has a hierarchy node. *)
Fixpoint sibs (u : Universe) (c : Z) (l : list Z) : Prop :=
  match l with
  | [] => isValid c = false
  | x :: l' => c = x ∧ isValid c = true
               ∧ ∃ h, node_of u x = Some h ∧ sibs u (next_sibling h) l'
  end.


(** ** Well-formed hierarchies *)

(** [family u p b]: the entities of the chain [b] have the parent [p], and
    their children them. *)
Fixpoint family (u : Universe) (p : Z) (b : Chain) : Prop :=
  match b with
  | NoEntity => True
  | Sib e kids rest => getParent e u = Some p ∧ family u e kids ∧ family u p rest
  end.

(** The hierarchy is a forest: below every entity there is a finite tree
    in which no entity occurs twice and whose parent links agree with the
    child lists, and an entity with a parent is in the child list of that
    parent. *)
Record wf_hierarchy (u : Universe) : Prop := {
  wf_backrefs : backrefs u;
  wf_transforms : size (m_transforms u) = size (m_entities u);
  wf_below : ∀ e, 0 ≤ e < size (m_entities u) →
             ∃ b, below u e b ∧ NoDup (e :: ents b) ∧ family u e b;
  wf_parent : ∀ c h, node_of u c = Some h → isValid (parent h) = true →
              ∃ b, below u (parent h) b ∧ c ∈ tops b
}.

(** fuel that suffices for every walk through a well-formed hierarchy *)
Definition enough_fuel (u : Universe) (fuel : nat) : Prop :=
  (2 * length (m_hierarchy u) + 2 ≤ fuel)%nat.


(** [kids u e c l]: [l] is the list of the entities met from [c] on along
    [next_sibling], each of them a child of [e]. *)
Fixpoint kids (u : Universe) (e : Z) (c : Z) (l : list Z) : Prop :=
  match l with
  | [] => isValid c = false
  | x :: l' => c = x ∧ isValid c = true
               ∧ ∃ h, node_of u x = Some h ∧ parent h = e ∧ kids u e (next_sibling h) l'
  end.

(** A registry in which every component type is registered with a scene
    whose destroy method does nothing but call back
    [onComponentDestroyed]. *)
Definition scenes_call_back {Blob} (map : ComponentTypeMap Blob) : Prop :=
  ∀ i, 0 ≤ i < MAX_TYPES_COUNT →
       ∃ c, map i = Some c ∧ ∀ e u, cmp_destroy c e u = onComponentDestroyed e i u.

(** the free-list head and the name table refer to slots of the entity table *)
Record wf_tables (u : Universe) : Prop := {
  wt_first_free : m_first_free_slot u < size (m_entities u);
  wt_name_entity : ∀ n, n ∈ m_names u → 0 ≤ n_entity n < size (m_entities u);
  wt_name_index : ∀ e d, get (m_entities u) e = Some d → name d < size (m_names u)
}.


(** [rest_same e u u']: from [u] to [u'] only the entity record of [e],
    kept in its place, and the trace have changed. *)
Record rest_same (e : Z) (u u' : Universe) : Prop := {
  rs_hierarchy : m_hierarchy u' = m_hierarchy u;
  rs_transforms : m_transforms u' = m_transforms u;
  rs_names : m_names u' = m_names u;
  rs_first_free : m_first_free_slot u' = m_first_free_slot u;
  rs_size : size (m_entities u') = size (m_entities u);
  rs_others : ∀ x, x ≠ e → get (m_entities u') x = get (m_entities u) x
}.

(** [index_same e u u']: the hierarchy table, the transforms and the
    hierarchy indices of the entities other than [e] are the same. *)
Record index_same (e : Z) (u u' : Universe) : Prop := {
  is_hierarchy : m_hierarchy u' = m_hierarchy u;
  is_transforms : m_transforms u' = m_transforms u;
  is_size : size (m_entities u') = size (m_entities u);
  is_index : ∀ x, x ≠ e →
             hierarchy <$> get (m_entities u') x = hierarchy <$> get (m_entities u) x
}.


(** ** The free list *)

(** [free_seg es head p l tail]: followed from [head] along [next], the
    slots of [es] are those of [l], none of them valid, and then [tail];
    each holds in [prev] the slot before it ([p] for the first). *)
Fixpoint free_seg (es : list EntityData) (head p : Z) (l : list Z) (tail : Z) : Prop :=
  match l with
  | [] => head = tail
  | i :: l' => head = i
               ∧ ∃ d, get es i = Some d ∧ valid d = false ∧ prev d = p
                      ∧ free_seg es (next d) i l' tail
  end.

(** a whole list, up to the end mark *)
Definition free_chain (es : list EntityData) (head p : Z) (l : list Z) : Prop :=
  free_seg es head p l (-1).

(** two states of the slots that differ in the links of the free list only *)
Definition relinked (es es' : list EntityData) : Prop :=
  size es' = size es
  ∧ ∀ i x', get es' i = Some x' →
            ∃ x, get es i = Some x ∧ x' = set_next (next x') (set_prev (prev x') x).

(** the slots that are not valid are exactly the slots of the free list *)
Definition free_list (u : Universe) (l : list Z) : Prop :=
  free_chain (m_entities u) (m_first_free_slot u) (-1) l
  ∧ NoDup l
  ∧ ∀ i d, get (m_entities u) i = Some d → (valid d = false ↔ i ∈ l).

Definition count_valid (u : Universe) : nat :=
  length (filter (λ d, valid d = true) (m_entities u)).

Definition slots_consistent (u : Universe) (live : list Z) : Prop :=
  count_valid u = length live ∧ ∃ l, free_list u l.

(** The states reached from the empty universe by [createEntity],
    [destroyEntity] and [emplaceEntity], with the entities that are live:
    created or emplaced, and not destroyed since.  When [guarded],
    [emplaceEntity] is only called for an index that is not live. *)
Inductive reachable {Blob} (map : ComponentTypeMap Blob) (fuel : nat) (guarded : bool)
    : Universe → list Z → Prop :=
  | reach_empty : reachable map fuel guarded empty_universe []
  | reach_create u live p r e u' :
      reachable map fuel guarded u live →
      createEntity p r u = Some (e, u') →
      reachable map fuel guarded u' (e :: live)
  | reach_destroy u live e u' :
      reachable map fuel guarded u live →
      destroyEntity map fuel e u = Some u' →
      reachable map fuel guarded u' (filter (λ x, x ≠ e) live)
  | reach_emplace u live e u' :
      reachable map fuel guarded u live →
      (guarded = true → e ∉ live) →
      emplaceEntity e u = Some u' →
      reachable map fuel guarded u' (if bool_decide (e ∈ live) then live else e :: live).

(** the states of a universe in which no entity has a parent, a child, a
    name or a component *)
Record flat (u : Universe) : Prop := {
  flat_transforms : size (m_transforms u) = size (m_entities u);
  flat_hierarchy : m_hierarchy u = [];
  flat_names : m_names u = [];
  flat_entity : ∀ i d, get (m_entities u) i = Some d →
                hierarchy d = -1 ∧ name d = -1 ∧ (valid d = true → components d = 0)
}.


(** what holds of the slots in the states reached by the three calls: [l]
    is the free list, [live] the list of the live entities *)
Record slots_inv (u : Universe) (live l : list Z) : Prop := {
  si_flat : flat u;
  si_chain : free_chain (m_entities u) (m_first_free_slot u) (-1) l;
  si_nodup : NoDup l;
  si_free : ∀ i d, get (m_entities u) i = Some d → (valid d = false ↔ i ∈ l);
  si_live_nodup : NoDup live;
  si_live : ∀ i, i ∈ live ↔ ∃ d, get (m_entities u) i = Some d ∧ valid d = true
}.

(** the valid slots are counted by the list of the live entities *)
Fixpoint valid_from (i : Z) (es : list EntityData) : list Z :=
  match es with
  | [] => []
  | d :: es' => if valid d then i :: valid_from (i + 1) es' else valid_from (i + 1) es'
  end.

Context {LY : Layout}.

(** ** Serialization *)

(** a record that the raw copy of its memory gives back *)
Definition stored {A} (sz : nat) (bytes_of : A → list Z) (of_bytes : list Z → A) (x : A)
    : Prop :=
  length (bytes_of x) = sz ∧ of_bytes (bytes_of x) = x.

Definition is_i32 (v : Z) : Prop := - 2 ^ 31 ≤ v < 2 ^ 31.

(** what the types of the source give of a universe, the invariant of the
    name table (the [i]-th name is the name of an entity whose record
    holds [i]), and the bound that [InputMemoryStream::read] sets with its
    [(int)size]: each of the three raw blocks has less than [2^31] bytes *)
Record serializable (u : Universe) : Prop := {
  sz_entities : Forall (stored sizeof_EntityData bytes_of_EntityData EntityData_of_bytes)
                  (m_entities u);
  sz_transforms : Forall (stored sizeof_Transform bytes_of_Transform Transform_of_bytes)
                    (m_transforms u);
  sz_hierarchy : Forall (stored sizeof_Hierarchy bytes_of_Hierarchy Hierarchy_of_bytes)
                   (m_hierarchy u);
  sz_same_size : size (m_transforms u) = size (m_entities u);
  sz_entities_size : is_i32 (size (m_entities u));
  sz_entities_block : size (m_entities u) * Z.of_nat sizeof_EntityData < 2 ^ 31;
  sz_transforms_block : size (m_transforms u) * Z.of_nat sizeof_Transform < 2 ^ 31;
  sz_hierarchy_block : size (m_hierarchy u) * Z.of_nat sizeof_Hierarchy < 2 ^ 31;
  sz_names_size : is_i32 (size (m_names u));
  sz_hierarchy_size : is_i32 (size (m_hierarchy u));
  sz_first_free : is_i32 (m_first_free_slot u);
  sz_name_max : is_i32 (Z.of_nat ENTITY_NAME_MAX_LENGTH);
  sz_names : ∀ (i : nat) n, m_names u !! i = Some n →
               (String.length (n_name n) < ENTITY_NAME_MAX_LENGTH)%nat
               ∧ (0 ∉ bytes_of_string (n_name n))
               ∧ ∃ d, get (m_entities u) (n_entity n) = Some d ∧ name d = Z.of_nat i
}.

(** ** World and local transforms *)

(** the equation of the hierarchy at [c]: when [c] has a node with a valid
    parent, its world transform is the product of the world transform of
    the parent and of its local transform *)
Definition composed (u : Universe) (c : Z) : Prop :=
  ∀ h, node_of u c = Some h → isValid (parent h) = true →
       ∃ tp tc, getTransform (parent h) u = Some tp ∧ getTransform c u = Some tc
                ∧ tc = tmul tp (local_transform h).

Definition transforms_composed (u : Universe) : Prop := ∀ c, composed u c.

(** [placed u ts my b]: in the table [ts] the entities of the chain [b],
    under a parent whose world transform is [my], have the world transforms
    that their local transforms give, and so on below them *)
Fixpoint placed (u : Universe) (ts : list Transform) (my : Transform) (b : Chain) : Prop :=
  match b with
  | NoEntity => True
  | Sib e kids rest =>
    ∃ h, node_of u e = Some h
         ∧ get ts e = Some (tmul my (local_transform h))
         ∧ placed u ts (tmul my (local_transform h)) kids
         ∧ placed u ts my rest
  end.

(** two states of a node with the same links *)
Definition same_links (h h' : Hierarchy) : Prop :=
  h_entity h' = h_entity h ∧ parent h' = parent h
  ∧ first_child h' = first_child h ∧ next_sibling h' = next_sibling h.

(** two universes with the same entities and the same hierarchy, up to the
    transforms *)
Record same_tree (u u' : Universe) : Prop := {
  st_entities : m_entities u' = m_entities u;
  st_transforms : size (m_transforms u') = size (m_transforms u);
  st_hierarchy : length (m_hierarchy u') = length (m_hierarchy u);
  st_nodes : ∀ x, option_Forall2 same_links (node_of u x) (node_of u' x)
}.

(** the entity [x] has an entry of the name table, with the name [s] *)
Definition named (u : Universe) (x : Z) (s : string) : Prop :=
  ∃ d n, get (m_entities u) x = Some d ∧ 0 ≤ name d
         ∧ get (m_names u) (name d) = Some n ∧ n_name n = s.

(** the slots of [u], up to the links of the free list, are slots of [u'] *)
Definition kept_slots (u u' : Universe) : Prop :=
  ∀ x, x < size (m_entities u) →
       get (m_transforms u') x = get (m_transforms u) x
       ∧ option_Forall2 (λ a b, valid b = valid a)
           (get (m_entities u) x) (get (m_entities u') x).

(** the index into the name table that the record of [x] holds *)
Definition name_index (u : Universe) (x : Z) : option Z :=
  name <$> get (m_entities u) x.

(** the name table and the entities refer to each other: the [i]-th entry
    is the name of an entity whose record holds [i], and a record that
    holds an index holds the one of an entry for its entity *)
Record names_linked (u : Universe) : Prop := {
  nl_entry : ∀ i n, get (m_names u) i = Some n → name_index u (n_entity n) = Some i;
  nl_entity : ∀ x j, name_index u x = Some j → 0 ≤ j →
              ∃ n, get (m_names u) j = Some n ∧ n_entity n = x
}.

(** the components of the mask [m'] are components of the mask [m] *)
Definition mask_within (m' m : Z) : Prop :=
  ∀ j, 0 ≤ j < MAX_TYPES_COUNT →
       Z.land m' (type_bit j) ≠ 0 → Z.land m (type_bit j) ≠ 0.

(** what [destroyEntity] expects of the scene of the component type [i]
    for the entity [e]: the type is registered, and on a registry in which
    [e] has the component the destroy method of the scene returns, with
    the component gone from the mask of [e], no component added to it, and
    the rest of the registry (the trace apart) as it was *)
Definition scene_destroys {Blob} (map : ComponentTypeMap Blob) (e i : Z) : Prop :=
  ∃ c, map i = Some c
       ∧ ∀ u d, get (m_entities u) e = Some d →
                Z.land (components d) (type_bit i) ≠ 0 →
                ∃ u' d', cmp_destroy c e u = Some u'
                         ∧ rest_same e u u'
                         ∧ get (m_entities u') e = Some d'
                         ∧ d' = set_components (components d') d
                         ∧ Z.land (components d') (type_bit i) = 0
                         ∧ mask_within (components d') (components d).

(** the scenes of the components of [mask], and of no other type, do so *)
Definition scenes_destroy {Blob} (map : ComponentTypeMap Blob) (e mask : Z) : Prop :=
  ∀ i, 0 ≤ i < MAX_TYPES_COUNT → Z.land mask (type_bit i) ≠ 0 → scene_destroys map e i.

(** the bytes of the stream from its position on *)
Definition unread (s : InputMemoryStream) : list Z :=
  drop (Z.to_nat (i_pos s)) (i_data s).

(** what the types give of an [InputMemoryStream]: the position is in the
    block, and the size of the block is a [u64] *)
Definition stream_ok (s : InputMemoryStream) : Prop :=
  0 ≤ i_pos s ≤ i_size s ∧ i_size s < 2 ^ 64.

(** the transform [t] is found again when it is taken into the frame of
    [tp] and back: [tp * (inverted(tp) * t) = t] *)
Definition round_trip (tp t : Transform) : Prop :=
  tmul tp (tmul (inverted tp) t) = t.

(** the world transform [t] given to [e] goes through the frame of the
    parent of [e], when it has one *)
Definition fits_parent (u : Universe) (e : Z) (t : Transform) : Prop :=
  ∀ h tp, node_of u e = Some h → isValid (parent h) = true →
          getTransform (parent h) u = Some tp → round_trip tp t.

(*SPEC-DEFS*)

End Specification.

(* ================================================================== *)
(** * Properties *)

Section Properties.
Context {TA : TransformAlgebra} {CS : Constants} {TD : TextDeserializer} {LY : Layout}.

(** ** Arrays *)

Lemma bind_Some {A B} (x : A) (f : A → option B) : (Some x ≫= f) = f x.
Proof. done. Qed.

Lemma get_Some {A} (l : list A) (i : Z) (x : A) :
  get l i = Some x ↔ 0 ≤ i ∧ l !! Z.to_nat i = Some x.
Proof.
  unfold get. case_bool_decide; split; intros; try tauto; try done.
Qed.

Lemma get_lt {A} (l : list A) (i : Z) (x : A) :
  get l i = Some x → 0 ≤ i < size l.
Proof.
  intros [? H]%get_Some. apply lookup_lt_Some in H. unfold size. lia.
Qed.

Lemma get_is_Some {A} (l : list A) (i : Z) :
  0 ≤ i < size l → is_Some (get l i).
Proof.
  unfold size, get. intros. rewrite bool_decide_true by lia.
  apply lookup_lt_is_Some. lia.
Qed.

Lemma get_set_eq {A} (l : list A) (i : Z) (x : A) :
  0 ≤ i < size l → get (set l i x) i = Some x.
Proof.
  unfold size, get, set. intros. rewrite bool_decide_true by lia.
  apply list_lookup_insert_eq. lia.
Qed.

Lemma get_set_ne {A} (l : list A) (i j : Z) (x : A) :
  0 ≤ i → i ≠ j → get (set l i x) j = get l j.
Proof.
  unfold get, set. intros. case_bool_decide; [|done].
  apply list_lookup_insert_ne. lia.
Qed.

Lemma size_set {A} (l : list A) (i : Z) (x : A) : size (set l i x) = size l.
Proof. unfold size, set. by rewrite length_insert. Qed.

Lemma size_app {A} (l k : list A) : size (l ++ k) = size l + size k.
Proof. unfold size. rewrite length_app. lia. Qed.

Lemma size_nonneg {A} (l : list A) : 0 ≤ size l.
Proof. unfold size. lia. Qed.

(** ** Component masks *)

Lemma type_bit_pow (t : Z) : 0 ≤ t < MAX_TYPES_COUNT → type_bit t = 2 ^ t.
Proof.
  unfold type_bit, MAX_TYPES_COUNT. intros Ht.
  rewrite Z.shiftl_1_l. apply Z.mod_small. split; [lia|].
  apply Z.pow_lt_mono_r; lia.
Qed.

Lemma land_lor_type_bit (m t : Z) :
  0 ≤ t < MAX_TYPES_COUNT → Z.land (Z.lor m (type_bit t)) (type_bit t) = type_bit t.
Proof.
  intros Ht. rewrite type_bit_pow by done.
  apply Z.bits_inj'. intros n Hn.
  rewrite Z.land_spec, Z.lor_spec. destruct (Z.testbit (2 ^ t) n); simpl; [|apply andb_false_r].
  by rewrite orb_true_r.
Qed.

Lemma u64_not_type_bit_testbit (t i : Z) :
  0 ≤ t < MAX_TYPES_COUNT → 0 ≤ i →
  Z.testbit (u64_not (type_bit t)) i = bool_decide (i < 64) && negb (bool_decide (i = t)).
Proof.
  intros Ht Hi. rewrite type_bit_pow by done. unfold u64_not, MAX_TYPES_COUNT in *.
  replace (2 ^ 64 - 1 - 2 ^ t) with (Z.ones 64 - 2 ^ t) by (rewrite Z.ones_equiv; lia).
  rewrite Z.sub_nocarry_ldiff.
  - rewrite Z.ldiff_spec, Z.pow2_bits_eqb by lia.
    rewrite Z.testbit_ones_nonneg by lia.
    repeat case_bool_decide; destruct (Z.eqb_spec t i); simpl; try lia; try done.
    all: rewrite ?Z.ltb_lt, ?Z.ltb_ge in *; try lia.
    all: destruct (i <? 64) eqn:E; rewrite ?Z.ltb_lt, ?Z.ltb_ge in *; try lia; done.
  - apply Z.bits_inj'. intros n Hn.
    rewrite Z.ldiff_spec, Z.pow2_bits_eqb, Z.bits_0 by lia.
    destruct (Z.eqb_spec t n); [|done]. subst.
    rewrite Z.testbit_ones_nonneg by lia. simpl.
    destruct (n <? 64) eqn:E; rewrite ?Z.ltb_lt, ?Z.ltb_ge in *; try lia; done.
Qed.

Lemma land_clear_type_bit (m t : Z) :
  0 ≤ t < MAX_TYPES_COUNT →
  Z.land (Z.land m (u64_not (type_bit t))) (type_bit t) = 0.
Proof.
  intros Ht. apply Z.bits_inj'. intros n Hn.
  rewrite !Z.land_spec, u64_not_type_bit_testbit, Z.bits_0 by done.
  rewrite type_bit_pow, Z.pow2_bits_eqb by (done || lia).
  destruct (Z.eqb_spec t n); [subst|by rewrite andb_false_r].
  rewrite (bool_decide_true (n = n)) by done. simpl. by rewrite !andb_false_r.
Qed.

Lemma modify_entity_Some (u : Universe) (i : Z) f d :
  get (m_entities u) i = Some d →
  modify_entity i f u = Some (with_entities (set (m_entities u) i (f d)) u).
Proof. intros H. unfold modify_entity. by rewrite H. Qed.

Lemma hasComponent_true_iff (u : Universe) (e t : Z) (d : EntityData) :
  get (m_entities u) e = Some d → 0 ≤ t < MAX_TYPES_COUNT →
  hasComponent e t u = Some true ↔ Z.testbit (components d) t = true.
Proof.
  intros Hd Ht. unfold hasComponent. rewrite Hd. simpl.
  rewrite type_bit_pow by done.
  destruct (Z.testbit (components d) t) eqn:Hb.
  - split; [done|]. intros _. f_equal. apply negb_true_iff, Z.eqb_neq.
    intros H0. apply (f_equal (λ x, Z.testbit x t)) in H0.
    rewrite Z.land_spec, Hb, Z.pow2_bits_true, Z.bits_0 in H0 by lia. done.
  - split; [|done]. intros [=H]. apply negb_true_iff, Z.eqb_neq in H.
    exfalso. apply H. apply Z.bits_inj'. intros n Hn.
    rewrite Z.land_spec, Z.pow2_bits_eqb, Z.bits_0 by lia.
    destruct (Z.eqb_spec t n); [subst; by rewrite Hb|apply andb_false_r].
Qed.

(** C7: once the owning module has called back [onComponentCreated],
    [hasComponent] answers true and exactly one [componentAdded] event has
    been fired for the pair; when the bit of the type is set,
    [onComponentDestroyed] passes its assertion that the mask changes,
    after it [hasComponent] answers false and exactly one
    [componentDestroyed] event has been fired. *)
Theorem component_mask_dispatch (u : Universe) (e t : Z) (d : EntityData) :
  get (m_entities u) e = Some d →
  0 ≤ t < MAX_TYPES_COUNT →
  (∃ u', onComponentCreated e t u = Some u'
         ∧ hasComponent e t u' = Some true
         ∧ m_events u' = ComponentAdded e t :: m_events u)
  ∧ (hasComponent e t u = Some true →
     ∃ u', onComponentDestroyed e t u = Some u'
           ∧ hasComponent e t u' = Some false
           ∧ m_events u' = ComponentDestroyed e t :: m_events u).
Proof.
  intros Hd Ht. pose proof (get_lt _ _ _ Hd) as Hlt. split.
  - unfold onComponentCreated. rewrite (modify_entity_Some _ _ _ _ Hd). simpl.
    eexists. split; [done|]. split; [|done].
    unfold hasComponent. simpl. rewrite get_set_eq by done. simpl.
    rewrite land_lor_type_bit by done. rewrite type_bit_pow by done.
    f_equal. apply negb_true_iff, Z.eqb_neq. unfold MAX_TYPES_COUNT in Ht.
    pose proof (Z.pow_pos_nonneg 2 t). lia.
  - intros Hhas. apply (hasComponent_true_iff _ _ _ _ Hd Ht) in Hhas.
    unfold onComponentDestroyed. rewrite Hd. simpl.
    rewrite bool_decide_false.
    + rewrite (modify_entity_Some _ _ _ _ Hd). simpl.
      eexists. split; [done|]. split; [|done].
      unfold hasComponent. simpl. rewrite get_set_eq by done. simpl.
      by rewrite land_clear_type_bit.
    + intros Heq. apply (f_equal (λ x, Z.testbit x t)) in Heq.
      rewrite Z.land_spec, Hhas, u64_not_type_bit_testbit in Heq by (done || lia).
      rewrite (bool_decide_true (t = t)) in Heq by done.
      by rewrite andb_false_r in Heq.
Qed.

Lemma onComponentDestroyed_assert (u : Universe) (e t : Z) (d : EntityData) :
  get (m_entities u) e = Some d →
  0 ≤ t < MAX_TYPES_COUNT →
  0 ≤ components d < 2 ^ 64 →
  hasComponent e t u = Some false →
  onComponentDestroyed e t u = None.
Proof.
  intros Hd Ht Hm Hhas.
  assert (Z.testbit (components d) t = false) as Hb.
  { destruct (Z.testbit (components d) t) eqn:E; [|done].
    apply (hasComponent_true_iff _ _ _ _ Hd Ht) in E. congruence. }
  unfold onComponentDestroyed. rewrite Hd. simpl.
  rewrite bool_decide_true; [done|].
  apply Z.bits_inj'. intros n Hn.
  rewrite Z.land_spec, u64_not_type_bit_testbit by done.
  destruct (decide (n = t)) as [->|Hne].
  - rewrite Hb. done.
  - rewrite (bool_decide_false (n = t)) by done. simpl. rewrite andb_true_r.
    case_bool_decide as Hlt; [by rewrite andb_true_r|].
    rewrite andb_false_r. apply (Z.bits_above_log2 (components d) n); [lia|].
    destruct (decide (components d = 0)) as [E0|]; [rewrite E0; simpl|].
    { clear -Hlt. lia. }
    apply Z.log2_lt_pow2; [lia|]. 
    apply Z.lt_le_trans with (2 ^ 64); [lia|]. apply Z.pow_le_mono_r; lia.
Qed.

(** ** The cycle guard *)

Lemma shape_getNextSibling (u : Universe) (e : Z) (kids rest : Chain) :
  shape u e (Sib e kids rest) →
  ∃ k s, getFirstChild e u = Some k ∧ getNextSibling e u = Some s
         ∧ shape u k kids ∧ shape u s rest.
Proof.
  simpl. intros (_ & _ & d & h & Hd & Hh & Hk & Hr).
  pose proof (get_lt _ _ _ Hh) as Hlt.
  exists (first_child h), (next_sibling h).
  unfold getFirstChild, getNextSibling. rewrite Hd. simpl.
  rewrite bool_decide_false by lia. rewrite Hh. done.
Qed.

Lemma isDescendant_S (fuel : nat) (a target : Z) (u : Universe) :
  isDescendant (S fuel) a target u
  = (e ← getFirstChild a u; isDescendant_from fuel e target u).
Proof. done. Qed.

Lemma isDescendant_from_S (fuel : nat) (e target : Z) (u : Universe) :
  isDescendant_from (S fuel) e target u
  = if isValid e then
      if bool_decide (e = target) then Some true
      else r ← isDescendant fuel e target u;
           if (r : bool) then Some true
           else e' ← getNextSibling e u; isDescendant_from fuel e' target u
    else Some false.
Proof. done. Qed.

Lemma isDescendant_from_shape (u : Universe) (target : Z) (b : Chain) :
  ∀ (fuel : nat) (c : Z),
    shape u c b → (2 * height b < fuel)%nat →
    isDescendant_from fuel c target u = Some (bool_decide (target ∈ ents b)).
Proof.
  induction b as [|e kids IHk rest IHr]; intros fuel c Hs Hf.
  - destruct fuel; [lia|]. simpl in *. by rewrite Hs.
  - destruct fuel as [|fuel]; [lia|].
    pose proof Hs as (-> & Hv & _).
    destruct (shape_getNextSibling _ _ _ _ Hs) as (k & s & Hfc & Hns & Hk & Hr).
    simpl in Hf. rewrite isDescendant_from_S, Hv. clear Hs.
    destruct (decide (e = target)) as [->|He].
    + rewrite bool_decide_true by done.
      f_equal. symmetry. apply bool_decide_true. simpl. apply elem_of_cons. by left.
    + rewrite bool_decide_false by done.
      destruct fuel as [|fuel]; [lia|].
      rewrite isDescendant_S, Hfc, bind_Some.
      rewrite (IHk fuel k Hk), bind_Some by lia.
      destruct (decide (target ∈ ents kids)) as [Hin|Hin].
      * rewrite bool_decide_true by done.
        f_equal. symmetry. apply bool_decide_true. simpl.
        rewrite elem_of_cons, elem_of_app. tauto.
      * rewrite bool_decide_false by done.
        rewrite Hns, bind_Some, (IHr (S fuel) s Hr) by lia.
        f_equal. apply bool_decide_ext. simpl.
        rewrite elem_of_cons, elem_of_app. intuition congruence.
Qed.

Lemma isDescendant_below (u : Universe) (a target : Z) (b : Chain) (fuel : nat) :
  below u a b → (S (2 * height b) < fuel)%nat →
  isDescendant fuel a target u = Some (bool_decide (target ∈ ents b)).
Proof.
  intros (c & Hc & Hs) Hf. destruct fuel as [|fuel]; [lia|].
  simpl. rewrite Hc. simpl. apply isDescendant_from_shape; [done|lia].
Qed.

Lemma shape_ents_valid (u : Universe) (b : Chain) :
  ∀ c e, shape u c b → e ∈ ents b → isValid e = true.
Proof.
  induction b as [|e' kids IHk rest IHr]; intros c e Hs Hin.
  - by apply elem_of_nil in Hin.
  - simpl in Hs. destruct Hs as (-> & Hv & d & h & _ & _ & Hk & Hr).
    simpl in Hin. apply elem_of_cons in Hin as [->|Hin]; [done|].
    apply elem_of_app in Hin as [Hin|Hin]; eauto.
Qed.

(** C4: when [new_parent] is a descendant of [child], [setParent] logs the
    error and returns with every part of the registry as it was. *)
Theorem setParent_cycle_rejected (u : Universe) (fuel : nat) (new_parent child : Z)
    (b : Chain) :
  below u child b →
  new_parent ∈ ents b →
  (S (2 * height b) < fuel)%nat →
  ∃ u', setParent fuel new_parent child u = Some u'
        ∧ m_events u' = LogError cycle_message :: m_events u
        ∧ m_entities u' = m_entities u
        ∧ m_transforms u' = m_transforms u
        ∧ m_hierarchy u' = m_hierarchy u
        ∧ m_names u' = m_names u
        ∧ m_first_free_slot u' = m_first_free_slot u.
Proof.
  intros Hb Hin Hf.
  assert (isValid new_parent = true) as Hv.
  { destruct Hb as (c & _ & Hs). eapply shape_ents_valid; eauto. }
  exists (emit (LogError cycle_message) u).
  split; [|done].
  unfold setParent, would_create_cycle. rewrite Hv.
  rewrite (isDescendant_below _ _ _ b) by done. simpl.
  by rewrite bool_decide_true.
Qed.

(** ** Prefabs of an unsupported version *)

(** C8: a prefab whose version is above the last supported one is reported
    in the log, [instantiatePrefab] returns [INVALID_ENTITY], and no part of
    the registry is changed: no entity is created or modified. *)
Theorem instantiatePrefab_unsupported_version (map : ComponentTypeMap Blob)
    (fuel : nat) (path : string) (blob : Blob) (p : DVec3) (r : Quat) (s : Float)
    (u : Universe) :
  PrefabVersion_LAST mod 2 ^ 32 < (read_u32 blob).1 →
  ∃ u', instantiatePrefab map fuel path blob p r s u = Some (INVALID_ENTITY, u')
        ∧ m_events u' = LogError (unsupported_version_message path) :: m_events u
        ∧ m_entities u' = m_entities u
        ∧ m_transforms u' = m_transforms u
        ∧ m_hierarchy u' = m_hierarchy u
        ∧ m_names u' = m_names u
        ∧ m_first_free_slot u' = m_first_free_slot u.
Proof.
  intros Hv. unfold instantiatePrefab.
  destruct (read_u32 blob) as [version blob'] eqn:Hr. simpl in Hv.
  rewrite bool_decide_true by done.
  eexists. split; [done|]. done.
Qed.

(** ** Names *)

Lemma copyString_empty : copyString EmptyString = EmptyString.
Proof. unfold copyString. by destruct (ENTITY_NAME_MAX_LENGTH - 1)%nat. Qed.

Lemma findByName_roots_skip (u : Universe) (name_ : string) (ns1 ns2 : list EntityName) :
  (∀ m, m ∈ ns1 → n_name m ≠ name_) →
  findByName_roots (ns1 ++ ns2) name_ u = findByName_roots ns2 name_ u.
Proof.
  induction ns1 as [|m ns1 IH]; intros Hne; [done|].
  simpl. unfold equalStrings. rewrite bool_decide_false.
  - apply IH. intros m' Hm'. apply Hne. by right.
  - apply Hne. by left.
Qed.

(** C10: [setEntityName] with the empty string on a named entity keeps the
    entity's place in the name table and overwrites the string: the name
    read back is the empty string, as for an entity without a name, and a
    search of the root level for the empty string finds the entity when no
    entry before its own carries the empty string. *)
Theorem setEntityName_empty_keeps_slot (u : Universe) (fuel : nat) (e : Z)
    (d : EntityData) (n : EntityName) :
  get (m_entities u) e = Some d →
  0 ≤ name d →
  get (m_names u) (name d) = Some n →
  ∃ u', setEntityName e EmptyString u = Some u'
        ∧ getEntityName e u' = Some EmptyString
        ∧ get (m_entities u') e = Some d
        ∧ size (m_names u') = size (m_names u)
        ∧ get (m_names u') (name d) = Some (mkEntityName (n_entity n) EmptyString)
        ∧ (n_entity n = e →
           getParent e u = Some INVALID_ENTITY →
           (∀ j m, 0 ≤ j < name d → get (m_names u) j = Some m → n_name m ≠ EmptyString) →
           findByName fuel INVALID_ENTITY EmptyString u' = Some e).
Proof.
  intros Hd Hnm Hn. pose proof (get_lt _ _ _ Hn) as Hlt.
  unfold setEntityName. rewrite Hd, bind_Some.
  rewrite bool_decide_false by lia. rewrite Hn, bind_Some.
  eexists. split; [done|].
  rewrite copyString_empty.
  assert (get (set (m_names u) (name d) (set_n_name EmptyString n)) (name d)
          = Some (mkEntityName (n_entity n) EmptyString)) as Hget
    by (by rewrite get_set_eq).
  split; [|split; [|split; [|split]]].
  - unfold getEntityName. simpl. rewrite Hd, bind_Some.
    rewrite bool_decide_false by lia. by rewrite Hget.
  - done.
  - simpl. apply size_set.
  - done.
  - intros He Hp Hfirst. unfold findByName. simpl (isValid _).
    cbn [m_names with_names].
    unfold set.
    apply get_Some in Hn as [_ Hn].
    rewrite insert_take_drop by (by eapply lookup_lt_Some).
    rewrite findByName_roots_skip.
    + simpl. rewrite He, Hd, bind_Some.
      unfold getParent in Hp. rewrite Hd, bind_Some in Hp.
      destruct (bool_decide (hierarchy d < 0)); [done|].
      destruct (get (m_hierarchy u) (hierarchy d)) as [h|]; [|done].
      simpl in Hp. injection Hp as Hp. rewrite bind_Some, Hp. done.
    + intros m Hm. apply list_elem_of_lookup in Hm as [j Hj].
      pose proof (lookup_lt_Some _ _ _ Hj) as Hjlt. rewrite length_take in Hjlt.
      rewrite lookup_take_lt in Hj by lia.
      apply (Hfirst (Z.of_nat j)); [lia|].
      apply get_Some. split; [lia|]. by rewrite Nat2Z.id.
Qed.

Lemma getEntityName_unnamed (u : Universe) (e : Z) (d : EntityData) :
  get (m_entities u) e = Some d → name d < 0 → getEntityName e u = Some EmptyString.
Proof.
  intros Hd Hn. unfold getEntityName. rewrite Hd, bind_Some.
  by rewrite bool_decide_true.
Qed.

(** ** Hierarchy nodes under the primitive updates *)

Lemma get_app_l {A} (l k : list A) (i : Z) :
  i < size l → get (l ++ k) i = get l i.
Proof.
  unfold get, size. intros. case_bool_decide; [|done].
  apply lookup_app_l. lia.
Qed.

Lemma get_app_size {A} (l : list A) (x : A) : get (l ++ [x]) (size l) = Some x.
Proof.
  unfold get, size. rewrite bool_decide_true by lia.
  rewrite Nat2Z.id. by rewrite lookup_app_r, Nat.sub_diag by lia.
Qed.

Lemma get_app_Some {A} (l : list A) (x y : A) (i : Z) :
  get (l ++ [x]) i = Some y → get l i = Some y ∨ (i = size l ∧ y = x).
Proof.
  intros H. pose proof (get_lt _ _ _ H) as Hlt. rewrite size_app in Hlt.
  change (size [x]) with 1 in Hlt.
  destruct (decide (i = size l)) as [->|].
  - rewrite get_app_size in H. right. split; congruence.
  - left. rewrite get_app_l in H by lia. done.
Qed.

Lemma get_removelast {A} (l : list A) (i : Z) :
  i < size l - 1 → get (removelast l) i = get l i.
Proof.
  intros Hi. destruct (decide (l = [])) as [->|Hne]; [done|].
  destruct (exists_last Hne) as (l' & x & ->).
  rewrite removelast_last. rewrite size_app in Hi. change (size [x]) with 1 in Hi.
  rewrite get_app_l by lia. done.
Qed.

Lemma size_removelast {A} (l : list A) : l ≠ [] → size (removelast l) = size l - 1.
Proof.
  intros Hne. destruct (exists_last Hne) as (l' & x & ->).
  rewrite removelast_last, size_app. change (size [x]) with 1. lia.
Qed.

Lemma last_get {A} (l : list A) (x : A) :
  last l = Some x → get l (size l - 1) = Some x.
Proof.
  intros H. rewrite last_lookup in H. unfold get, size.
  destruct l as [|y l]; [done|].
  rewrite bool_decide_true by (simpl; lia).
  replace (Z.to_nat (Z.of_nat (length (y :: l)) - 1)) with (pred (length (y :: l))); [done|].
  simpl. lia.
Qed.

Lemma node_of_Some (u : Universe) (e : Z) (h : Hierarchy) :
  node_of u e = Some h ↔
  ∃ d, get (m_entities u) e = Some d ∧ 0 ≤ hierarchy d
       ∧ get (m_hierarchy u) (hierarchy d) = Some h.
Proof.
  unfold node_of. split.
  - destruct (get (m_entities u) e) as [d|]; [|done]. rewrite bind_Some.
    case_bool_decide; [done|]. intros. exists d. split; [done|]. split; [lia|done].
  - intros (d & -> & Hd & Hh). rewrite bind_Some. by rewrite bool_decide_false by lia.
Qed.

Lemma node_of_None (u : Universe) (e : Z) (d : EntityData) :
  get (m_entities u) e = Some d → hierarchy d < 0 → node_of u e = None.
Proof. intros Hd Hh. unfold node_of. rewrite Hd, bind_Some. by rewrite bool_decide_true. Qed.

Lemma node_of_entity (u : Universe) (e : Z) (h : Hierarchy) :
  backrefs u → node_of u e = Some h → h_entity h = e.
Proof.
  intros Hbr (d & Hd & Hi & Hh)%node_of_Some.
  destruct (br_node _ Hbr _ _ Hd Hi) as (h' & Hh' & He). congruence.
Qed.

Lemma backrefs_index_inj (u : Universe) (x y : Z) (dx dy : EntityData) :
  backrefs u → get (m_entities u) x = Some dx → get (m_entities u) y = Some dy →
  0 ≤ hierarchy dx → hierarchy dx = hierarchy dy → x = y.
Proof.
  intros Hbr Hx Hy Hi Heq.
  destruct (br_node _ Hbr _ _ Hx Hi) as (h & Hh & He).
  destruct (br_node _ Hbr _ _ Hy ltac:(lia)) as (h' & Hh' & He').
  rewrite <- Heq in Hh'. congruence.
Qed.

(** a node is rewritten in place, its entity kept *)
Lemma modify_node_backrefs (u : Universe) (i : Z) (h0 h1 : Hierarchy) :
  backrefs u → get (m_hierarchy u) i = Some h0 → h_entity h1 = h_entity h0 →
  backrefs (with_hierarchy (set (m_hierarchy u) i h1) u).
Proof.
  intros Hbr Hi He. pose proof (get_lt _ _ _ Hi) as Hlt. split; simpl.
  - intros e d Hd Hh. destruct (br_node _ Hbr _ _ Hd Hh) as (h & Hh' & Hhe).
    destruct (decide (hierarchy d = i)) as [Heq|Hne].
    + rewrite Heq, get_set_eq by done. exists h1. split; [done|]. congruence.
    + rewrite get_set_ne by lia. eauto.
  - intros j h Hj. destruct (decide (j = i)) as [->|Hne].
    + rewrite get_set_eq in Hj by done. injection Hj as <-. rewrite He.
      eapply br_entity; eauto.
    + rewrite get_set_ne in Hj by lia. eapply br_entity; eauto.
Qed.

Lemma modify_node_node_of (u : Universe) (i : Z) (h0 h1 : Hierarchy) (x : Z) :
  backrefs u → get (m_hierarchy u) i = Some h0 →
  node_of (with_hierarchy (set (m_hierarchy u) i h1) u) x
  = if bool_decide (x = h_entity h0) then Some h1 else node_of u x.
Proof.
  intros Hbr Hi. pose proof (get_lt _ _ _ Hi) as Hlt.
  destruct (br_entity _ Hbr _ _ Hi) as (d0 & Hd0 & Hi0).
  unfold node_of. simpl.
  case_bool_decide as Hx.
  - subst x. rewrite Hd0, bind_Some, Hi0. rewrite bool_decide_false by lia.
    by rewrite get_set_eq.
  - destruct (get (m_entities u) x) as [d|] eqn:Hd; [|done]. rewrite !bind_Some.
    case_bool_decide as Hneg; [done|].
    destruct (decide (hierarchy d = i)) as [Heq|Hne].
    + exfalso. apply Hx. eapply (backrefs_index_inj u x (h_entity h0)); eauto; lia.
    + by rewrite get_set_ne by lia.
Qed.

(** a node is appended for an entity without one *)
Lemma alloc_backrefs (u : Universe) (e : Z) (d : EntityData) :
  backrefs u → get (m_entities u) e = Some d → hierarchy d < 0 →
  backrefs (with_hierarchy (m_hierarchy u ++ [new_node e])
              (with_entities (set (m_entities u) e
                                (set_hierarchy_idx (size (m_hierarchy u)) d)) u)).
Proof.
  intros Hbr Hd Hneg. pose proof (get_lt _ _ _ Hd) as Hlt.
  pose proof (size_nonneg (m_hierarchy u)) as Hsz. split; simpl.
  - intros x dx Hx Hh. destruct (decide (x = e)) as [->|Hne].
    + rewrite get_set_eq in Hx by done. injection Hx as <-. simpl.
      rewrite get_app_size. by exists (new_node e).
    + rewrite get_set_ne in Hx by lia.
      destruct (br_node _ Hbr _ _ Hx Hh) as (h & Hh' & Hhe).
      pose proof (get_lt _ _ _ Hh'). rewrite get_app_l by lia. eauto.
  - intros j h Hj. apply get_app_Some in Hj as [Hj|[-> ->]].
    + destruct (br_entity _ Hbr _ _ Hj) as (dj & Hdj & Hij).
      destruct (decide (h_entity h = e)) as [Heq|Hne].
      * rewrite Heq in Hdj. pose proof (get_lt _ _ _ Hj). assert (dj = d) by congruence.
        subst. lia.
      * rewrite get_set_ne by lia. eauto.
    + simpl. rewrite get_set_eq by done. eauto.
Qed.

Lemma alloc_node_of (u : Universe) (e : Z) (d : EntityData) (x : Z) :
  backrefs u → get (m_entities u) e = Some d → hierarchy d < 0 →
  node_of (with_hierarchy (m_hierarchy u ++ [new_node e])
             (with_entities (set (m_entities u) e
                               (set_hierarchy_idx (size (m_hierarchy u)) d)) u)) x
  = if bool_decide (x = e) then Some (new_node e) else node_of u x.
Proof.
  intros Hbr Hd Hneg. pose proof (get_lt _ _ _ Hd) as Hlt.
  pose proof (size_nonneg (m_hierarchy u)) as Hsz.
  unfold node_of. simpl. case_bool_decide as Hx.
  - subst. rewrite get_set_eq, bind_Some by done. simpl.
    rewrite bool_decide_false by lia. apply get_app_size.
  - rewrite get_set_ne by lia.
    destruct (get (m_entities u) x) as [dx|] eqn:Hdx; [|done]. rewrite !bind_Some.
    case_bool_decide as Hh; [done|].
    destruct (br_node _ Hbr _ _ Hdx ltac:(lia)) as (h & Hh' & Hhe).
    pose proof (get_lt _ _ _ Hh'). by rewrite get_app_l by lia.
Qed.

Lemma links_only_refl (u : Universe) : links_only u u.
Proof.
  split; try done. intros i d' Hd. exists d'. split; [done|]. by destruct d'.
Qed.

Lemma links_only_trans (u1 u2 u3 : Universe) :
  links_only u1 u2 → links_only u2 u3 → links_only u1 u3.
Proof.
  intros H12 H23. split.
  - by rewrite (lo_transforms _ _ H23), (lo_transforms _ _ H12).
  - by rewrite (lo_names _ _ H23), (lo_names _ _ H12).
  - by rewrite (lo_first_free _ _ H23), (lo_first_free _ _ H12).
  - by rewrite (lo_events _ _ H23), (lo_events _ _ H12).
  - by rewrite (lo_size _ _ H23), (lo_size _ _ H12).
  - intros i d3 H3. destruct (lo_entities _ _ H23 _ _ H3) as (d2 & H2 & E3).
    destruct (lo_entities _ _ H12 _ _ H2) as (d1 & H1 & E2).
    exists d1. split; [done|]. rewrite E3, E2. done.
Qed.

Lemma links_only_hierarchy (u : Universe) (hs : list Hierarchy) :
  links_only u (with_hierarchy hs u).
Proof.
  split; try done. intros i d' Hd. exists d'. split; [done|]. by destruct d'.
Qed.

Lemma links_only_set_index (u : Universe) (e k : Z) (d : EntityData) :
  get (m_entities u) e = Some d →
  links_only u (with_entities (set (m_entities u) e (set_hierarchy_idx k d)) u).
Proof.
  intros Hd. pose proof (get_lt _ _ _ Hd) as Hlt. split; try done.
  - simpl. apply size_set.
  - simpl. intros i d' Hi. destruct (decide (i = e)) as [->|Hne].
    + rewrite get_set_eq in Hi by done. injection Hi as <-. eauto.
    + rewrite get_set_ne in Hi by lia. exists d'. split; [done|]. by destruct d'.
Qed.

Lemma links_only_modify_node (u u' : Universe) (i : Z) f :
  modify_node i f u = Some u' → links_only u u'.
Proof.
  unfold modify_node. destruct (get (m_hierarchy u) i); [|done].
  rewrite bind_Some. intros [= <-]. apply links_only_hierarchy.
Qed.

Lemma links_only_modify_index (u u' : Universe) (e k : Z) :
  modify_entity e (set_hierarchy_idx k) u = Some u' → links_only u u'.
Proof.
  unfold modify_entity. destruct (get (m_entities u) e) eqn:Hd; [|done].
  rewrite bind_Some. intros [= <-]. by apply links_only_set_index.
Qed.

Lemma collectGarbage_links_only (u u' : Universe) (e : Z) :
  collectGarbage e u = Some u' → links_only u u'.
Proof.
  unfold collectGarbage. intros H.
  destruct (get (m_entities u) e) as [d|]; [|done]. rewrite bind_Some in H.
  destruct (get (m_hierarchy u) (hierarchy d)) as [h|]; [|done]. rewrite bind_Some in H.
  destruct (isValid (parent h)); [injection H as <-; apply links_only_refl|].
  destruct (isValid (first_child h)); [injection H as <-; apply links_only_refl|].
  destruct (last (m_hierarchy u)) as [l|]; [|done]. rewrite bind_Some in H.
  destruct (modify_entity (h_entity l) _ u) as [u1|] eqn:H1; [|done]. rewrite bind_Some in H.
  destruct (modify_entity e _ u1) as [u2|] eqn:H2; [|done]. rewrite bind_Some in H.
  injection H as <-.
  eapply links_only_trans; [by eapply links_only_modify_index|].
  eapply links_only_trans; [by eapply links_only_modify_index|].
  apply links_only_hierarchy.
Qed.

Lemma get_ge_None {A} (l : list A) (i : Z) : size l ≤ i → get l i = None.
Proof.
  intros Hi. destruct (get l i) eqn:E; [|done].
  apply get_lt in E. lia.
Qed.

Lemma get_set {A} (l : list A) (i j : Z) (x : A) :
  0 ≤ i < size l →
  get (set l i x) j = if bool_decide (j = i) then Some x else get l j.
Proof.
  intros Hi. case_bool_decide as Hj.
  - subst. by apply get_set_eq.
  - apply get_set_ne; lia.
Qed.

(** the effect of [collectGarbage] on the nodes of the entities *)
Lemma collectGarbage_node_of (u : Universe) (e : Z) (h : Hierarchy) :
  backrefs u → node_of u e = Some h →
  ∃ u', collectGarbage e u = Some u' ∧ backrefs u'
        ∧ ∀ x, node_of u' x
               = if bool_decide (x = e) && negb (isValid (parent h))
                    && negb (isValid (first_child h))
                 then None else node_of u x.
Proof.
  intros Hbr Hn. pose proof Hn as (d & Hd & Hidx & Hh)%node_of_Some.
  unfold collectGarbage. rewrite Hd, bind_Some, Hh, bind_Some.
  destruct (isValid (parent h)) eqn:Hp.
  { exists u. split; [done|]. split; [done|]. intros x. by rewrite andb_false_r. }
  destruct (isValid (first_child h)) eqn:Hc.
  { exists u. split; [done|]. split; [done|]. intros x. by rewrite andb_false_r. }
  simpl. setoid_rewrite andb_true_r.
  pose proof (get_lt _ _ _ Hh) as Hidx_lt.
  pose proof (get_lt _ _ _ Hd) as He_lt.
  destruct (last (m_hierarchy u)) as [l|] eqn:Hlast.
  2:{ apply last_None in Hlast. rewrite Hlast in Hidx_lt.
      change (size []) with 0 in Hidx_lt. lia. }
  rewrite bind_Some. apply last_get in Hlast.
  set (n := size (m_hierarchy u)) in *.
  destruct (br_entity _ Hbr _ _ Hlast) as (dl & Hdl & Hil).
  pose proof (get_lt _ _ _ Hdl) as Hle_lt.
  rewrite (modify_entity_Some _ _ _ _ Hdl), bind_Some.
  unfold modify_entity at 1. cbn [m_entities with_entities].
  rewrite get_set by done.
  set (dl1 := set_hierarchy_idx (hierarchy d) dl).
  set (de := if bool_decide (e = h_entity l) then dl1 else d).
  assert ((if bool_decide (e = h_entity l) then Some dl1 else get (m_entities u) e)
          = Some de) as -> by (unfold de; case_bool_decide; done).
  rewrite bind_Some. cbn [bind_Some].
  eexists. split; [done|].
  set (E2 := set (set (m_entities u) (h_entity l) dl1) e (set_hierarchy_idx (-1) de)).
  set (H' := removelast (set (m_hierarchy u) (hierarchy d) l)).
  assert (∀ x, get E2 x = if bool_decide (x = e) then Some (set_hierarchy_idx (-1) de)
                          else if bool_decide (x = h_entity l) then Some dl1
                          else get (m_entities u) x) as HE2.
  { intros x. unfold E2. rewrite get_set by (rewrite size_set; done).
    case_bool_decide; [done|]. by rewrite get_set by done. }
  assert (m_hierarchy u ≠ []) as Hne.
  { intros E. unfold n in Hidx_lt. rewrite E in Hidx_lt.
    change (size []) with 0 in Hidx_lt. lia. }
  assert (∀ j, get H' j = if bool_decide (j < n - 1)
                          then if bool_decide (j = hierarchy d) then Some l
                               else get (m_hierarchy u) j
                          else None) as HH'.
  { intros j. unfold H'. case_bool_decide as Hj.
    - rewrite get_removelast by (rewrite size_set; fold n; lia).
      by rewrite get_set by done.
    - apply get_ge_None. rewrite size_removelast, size_set; [fold n; lia|].
      intros E. apply (f_equal size) in E. rewrite size_set in E.
      fold n in E. change (size []) with 0 in E. lia. }
  assert (e ≠ h_entity l → hierarchy d < n - 1) as Hlt.
  { intros Hne'. destruct (decide (hierarchy d = n - 1)) as [Heq|]; [|lia].
    exfalso. apply Hne'. eapply (backrefs_index_inj u e (h_entity l)); eauto; lia. }
  split; [split|]; cbn [m_entities m_hierarchy with_entities with_hierarchy].
  - (* br_node *)
    intros x dx Hx Hix. fold E2 in Hx. fold H'. rewrite HE2 in Hx. rewrite HH'.
    case_bool_decide as Hxe; [injection Hx as <-; simpl in Hix; lia|].
    case_bool_decide as Hxl.
    + injection Hx as <-. subst x. simpl.
      rewrite bool_decide_true by (apply Hlt; congruence).
      rewrite bool_decide_true by done. eauto.
    + destruct (br_node _ Hbr _ _ Hx Hix) as (hx & Hhx & Hex).
      pose proof (get_lt _ _ _ Hhx) as Hjlt. fold n in Hjlt.
      assert (hierarchy dx ≠ n - 1).
      { intros Heq. apply Hxl. eapply (backrefs_index_inj u x (h_entity l)); eauto; lia. }
      assert (hierarchy dx ≠ hierarchy d).
      { intros Heq. apply Hxe. eapply (backrefs_index_inj u x e); eauto; lia. }
      rewrite bool_decide_true by lia. rewrite bool_decide_false by done. eauto.
  - (* br_entity *)
    intros j hj Hj. fold H' in Hj. fold E2. rewrite HH' in Hj. rewrite HE2.
    case_bool_decide as Hjn; [|done].
    case_bool_decide as Hji.
    + injection Hj as <-. subst j.
      assert (h_entity l ≠ e) as Hle.
      { intros Heq. assert (dl = d) by congruence. subst dl. lia. }
      rewrite bool_decide_false by done. rewrite bool_decide_true by done.
      exists dl1. done.
    + destruct (br_entity _ Hbr _ _ Hj) as (dj & Hdj & Hij).
      assert (h_entity hj ≠ e) by (intros Heq; rewrite Heq in Hdj; congruence).
      assert (h_entity hj ≠ h_entity l).
      { intros Heq. rewrite Heq in Hdj. assert (dj = dl) by congruence. subst. lia. }
      rewrite !bool_decide_false by done. eauto.
  - (* node_of *)
    intros x. unfold node_of. cbn [m_entities m_hierarchy with_entities with_hierarchy].
    fold E2 H'. rewrite HE2.
    case_bool_decide as Hxe; [done|]. simpl.
    case_bool_decide as Hxl.
    + subst x. rewrite bind_Some. simpl. rewrite bool_decide_false by lia.
      rewrite HH'. rewrite bool_decide_true by (apply Hlt; congruence).
      rewrite bool_decide_true by done.
      rewrite Hdl, bind_Some, Hil. rewrite bool_decide_false by lia. done.
    + destruct (get (m_entities u) x) as [dx|] eqn:Hx; [|done]. rewrite !bind_Some.
      case_bool_decide as Hneg; [done|].
      destruct (br_node _ Hbr _ _ Hx ltac:(lia)) as (hx & Hhx & Hex).
      pose proof (get_lt _ _ _ Hhx) as Hjlt. fold n in Hjlt.
      assert (hierarchy dx ≠ n - 1).
      { intros Heq. apply Hxl. eapply (backrefs_index_inj u x (h_entity l)); eauto; lia. }
      assert (hierarchy dx ≠ hierarchy d).
      { intros Heq. apply Hxe. eapply (backrefs_index_inj u x e); eauto; lia. }
      rewrite HH'. rewrite bool_decide_true by lia. by rewrite bool_decide_false by done.
Qed.

Lemma same_kin_refl (h : Hierarchy) : same_kin h h.
Proof. done. Qed.

Lemma same_kin_trans (h1 h2 h3 : Hierarchy) :
  same_kin h1 h2 → same_kin h2 h3 → same_kin h1 h3.
Proof. unfold same_kin. intros (?&?&?) (?&?&?). repeat split; congruence. Qed.

Lemma modify_node_Some (u : Universe) (i : Z) f h :
  get (m_hierarchy u) i = Some h →
  modify_node i f u = Some (with_hierarchy (set (m_hierarchy u) i (f h)) u).
Proof. intros H. unfold modify_node. by rewrite H. Qed.

(** rewriting the node of the entity [e] *)
Lemma modify_node_of_entity (u : Universe) (e : Z) (d : EntityData) (h : Hierarchy) f :
  backrefs u → get (m_entities u) e = Some d → node_of u e = Some h →
  h_entity (f h) = h_entity h →
  ∃ u', modify_node (hierarchy d) f u = Some u' ∧ backrefs u'
        ∧ m_entities u' = m_entities u ∧ m_transforms u' = m_transforms u
        ∧ ∀ x, node_of u' x = if bool_decide (x = e) then Some (f h) else node_of u x.
Proof.
  intros Hbr Hd Hn Hf. pose proof Hn as (d' & Hd' & Hi & Hh)%node_of_Some.
  assert (d' = d) as -> by congruence.
  rewrite (modify_node_Some _ _ _ _ Hh). eexists. split; [done|].
  split; [by eapply modify_node_backrefs|]. split; [done|]. split; [done|].
  intros x. rewrite (modify_node_node_of _ _ h) by done.
  by rewrite (node_of_entity _ _ _ Hbr Hn).
Qed.

Lemma read_link_owner (u : Universe) (x : LinkPtr) (v : Z) :
  read_link x u = Some v →
  ∃ i h, get (m_hierarchy u) i = Some h
         ∧ ((x = FirstChildOf i ∧ v = first_child h)
            ∨ (x = NextSiblingOf i ∧ v = next_sibling h)).
Proof.
  destruct x as [i|i]; simpl; destruct (get (m_hierarchy u) i) as [h|] eqn:Hh;
    simpl; intros [= <-]; exists i, h; eauto.
Qed.

(** what the unlink loop leaves of the nodes *)
Lemma unlink_frame (fuel : nat) :
  ∀ (x : LinkPtr) (child : Z) (u u' : Universe),
    backrefs u → unlink fuel x child u = Some u' →
    backrefs u' ∧ m_entities u' = m_entities u ∧ links_only u u'
    ∧ ∀ y, option_Forall2 same_kin (node_of u y) (node_of u' y).
Proof.
  induction fuel as [|fuel IH]; intros x child u u' Hbr Hu; [done|].
  simpl in Hu.
  destruct (read_link x u) as [v|] eqn:Hv; [|done]. rewrite bind_Some in Hu.
  destruct (isValid v).
  2:{ injection Hu as <-. split; [done|]. split; [done|]. split; [apply links_only_refl|].
      intros y. destruct (node_of u y); constructor. apply same_kin_refl. }
  case_bool_decide as Hc.
  - destruct (getNextSibling child u) as [s|]; [|done]. rewrite bind_Some in Hu.
    destruct (read_link_owner _ _ _ Hv) as (i & h & Hh & Hx).
    assert (∃ f, write_link x s u = modify_node i f u ∧ h_entity (f h) = h_entity h
                 ∧ same_kin h (f h)) as (f & Hw & Hf & Hk).
    { destruct Hx as [[-> _]|[-> _]]; eexists; (split; [done|]); done. }
    rewrite Hw, (modify_node_Some _ _ _ _ Hh) in Hu. injection Hu as <-.
    split; [by eapply modify_node_backrefs|]. split; [done|].
    split; [apply links_only_hierarchy|].
    intros y. rewrite (modify_node_node_of _ _ h) by done.
    case_bool_decide as Hy.
    + destruct (br_entity _ Hbr _ _ Hh) as (dy & Hdy & Hiy).
      assert (node_of u y = Some h) as ->.
      { subst y. apply node_of_Some. exists dy. pose proof (get_lt _ _ _ Hh).
        split; [done|]. split; [lia|]. by rewrite Hiy. }
      by constructor.
    + destruct (node_of u y); constructor. apply same_kin_refl.
  - destruct (get (m_entities u) v) as [d|]; [|done]. rewrite bind_Some in Hu.
    destruct (get (m_hierarchy u) (hierarchy d)); [|done]. rewrite bind_Some in Hu.
    eauto.
Qed.

(** the unlink loop stops when the list it walks is finite *)
Lemma unlink_total (l : list Z) :
  ∀ (fuel : nat) (x : LinkPtr) (c child : Z) (u : Universe),
    read_link x u = Some c → sibs u c l →
    is_Some (get (m_entities u) child) →
    (length l < fuel)%nat →
    is_Some (unlink fuel x child u).
Proof.
  induction l as [|v l IH]; intros fuel x c child u Hx Hs Hchild Hf.
  - destruct fuel; [simpl in Hf; lia|]. simpl. rewrite Hx, bind_Some.
    simpl in Hs. by rewrite Hs.
  - destruct fuel as [|fuel]; [simpl in Hf; lia|]. simpl in Hf. simpl.
    rewrite Hx, bind_Some. destruct Hs as (-> & Hv & h & Hn & Hs). rewrite Hv.
    apply node_of_Some in Hn as (d & Hd & Hi & Hh).
    case_bool_decide as Hc.
    + subst. unfold getNextSibling. rewrite Hd, bind_Some.
      rewrite bool_decide_false by lia. rewrite Hh. simpl.
      destruct (read_link_owner _ _ _ Hx) as (i & h0 & Hh0 & [[-> _]|[-> _]]);
        simpl; unfold modify_node; rewrite Hh0; done.
    + rewrite Hd, bind_Some, Hh, bind_Some.
      apply (IH fuel _ (next_sibling h)); [|done|done|lia].
      simpl. by rewrite Hh.
Qed.

(** ** The two parts of [setParent] *)

Lemma modify_node_of_entity_inv (u u' : Universe) (e : Z) (d : EntityData)
    (h : Hierarchy) f :
  backrefs u → get (m_entities u) e = Some d → node_of u e = Some h →
  h_entity (f h) = h_entity h →
  modify_node (hierarchy d) f u = Some u' →
  backrefs u' ∧ m_entities u' = m_entities u ∧ m_transforms u' = m_transforms u
  ∧ ∀ x, node_of u' x = if bool_decide (x = e) then Some (f h) else node_of u x.
Proof.
  intros Hbr Hd Hn Hf Hm.
  destruct (modify_node_of_entity u e d h f Hbr Hd Hn Hf) as (u'' & Hm' & H).
  rewrite Hm in Hm'. injection Hm' as <-. done.
Qed.

Lemma collectGarbage_node_of_inv (u u' : Universe) (e : Z) (h : Hierarchy) :
  backrefs u → node_of u e = Some h → collectGarbage e u = Some u' →
  backrefs u'
  ∧ ∀ x, node_of u' x
         = if bool_decide (x = e) && negb (isValid (parent h))
              && negb (isValid (first_child h))
           then None else node_of u x.
Proof.
  intros Hbr Hn Hc.
  destruct (collectGarbage_node_of u e h Hbr Hn) as (u'' & Hc' & H).
  rewrite Hc in Hc'. injection Hc' as <-. done.
Qed.

Lemma node_of_get (u : Universe) (e : Z) (d : EntityData) (h : Hierarchy) :
  get (m_entities u) e = Some d → get (m_hierarchy u) (hierarchy d) = Some h →
  node_of u e = Some h.
Proof.
  intros Hd Hh. apply node_of_Some. exists d. pose proof (get_lt _ _ _ Hh).
  split; [done|]. split; [lia|done].
Qed.

Lemma option_Forall2_Some_l {A B} (R : A → B → Prop) (x : A) (o : option B) :
  option_Forall2 R (Some x) o → ∃ y, o = Some y ∧ R x y.
Proof. inversion 1; eauto. Qed.

Lemma option_Forall2_Some_r {A B} (R : A → B → Prop) (o : option A) (y : B) :
  option_Forall2 R o (Some y) → ∃ x, o = Some x ∧ R x y.
Proof. inversion 1; eauto. Qed.

Lemma setParent_old_parent_frame (fuel : nat) (np c idx : Z) (u u1 : Universe) :
  backrefs u → setParent_old_parent fuel np c u = Some (idx, u1) →
  backrefs u1 ∧ links_only u u1
  ∧ (∃ d1, get (m_entities u1) c = Some d1 ∧ hierarchy d1 = idx)
  ∧ (∀ h1, node_of u1 c = Some h1 → isValid (parent h1) = false)
  ∧ (∀ x h1, x ≠ c → node_of u1 x = Some h1 →
             ∃ h, node_of u x = Some h ∧ same_kin h h1).
Proof.
  intros Hbr H. unfold setParent_old_parent in H.
  destruct (get (m_entities u) c) as [cd|] eqn:Hcd; [|done]. rewrite bind_Some in H.
  pose proof (get_lt _ _ _ Hcd) as Hc_lt.
  case_bool_decide as Hidx.
  - destruct (get (m_hierarchy u) (hierarchy cd)) as [ch|] eqn:Hch; [|done].
    rewrite bind_Some in H.
    pose proof (node_of_get _ _ _ _ Hcd Hch) as Hnc.
    destruct (isValid (parent ch)) eqn:Hop.
    2:{ injection H as <- <-. split; [done|]. split; [apply links_only_refl|].
        split; [eauto|]. split; [intros h1 Hh1; congruence|].
        intros x h1 _ Hx. exists h1. split; [done|apply same_kin_refl]. }
    destruct (get (m_entities u) (parent ch)) as [opd|] eqn:Hopd; [|done].
    rewrite bind_Some in H.
    destruct (get (m_hierarchy u) (hierarchy opd)) as [oph|] eqn:Hoph; [|done].
    rewrite bind_Some in H.
    pose proof (node_of_get _ _ _ _ Hopd Hoph) as Hnop.
    destruct (unlink fuel _ c u) as [ua|] eqn:Hua; [|done]. rewrite bind_Some in H.
    destruct (unlink_frame _ _ _ _ _ Hbr Hua) as (Hbra & HEa & Hloa & Hka).
    destruct (modify_node _ _ ua) as [ub|] eqn:Hub; [|done]. rewrite bind_Some in H.
    destruct (modify_node _ _ ub) as [uc|] eqn:Huc; [|done]. rewrite bind_Some in H.
    destruct (collectGarbage _ uc) as [ud|] eqn:Hud; [|done]. rewrite bind_Some in H.
    destruct (get (m_entities ud) c) as [cd'|] eqn:Hcd'; [|done]. rewrite bind_Some in H.
    injection H as <- <-.
    pose proof (Hka c) as Hkc. rewrite Hnc in Hkc.
    apply option_Forall2_Some_l in Hkc as (hca & Hnca & Hkin).
    assert (get (m_entities ua) c = Some cd) as Hcda by congruence.
    destruct (modify_node_of_entity_inv ua ub c cd hca (set_parent INVALID_ENTITY)
                Hbra Hcda Hnca eq_refl Hub)
      as (Hbrb & HEb & _ & Hnb).
    assert (get (m_entities ub) c = Some cd) as Hcdb by congruence.
    assert (node_of ub c = Some (set_parent INVALID_ENTITY hca)) as Hncb.
    { rewrite Hnb. by rewrite bool_decide_true. }
    destruct (modify_node_of_entity_inv ub uc c cd _ (set_next_sibling INVALID_ENTITY)
                Hbrb Hcdb Hncb eq_refl Huc)
      as (Hbrc & HEc & _ & Hnc').
    assert (is_Some (node_of uc (parent ch))) as [ophc Hnopc].
    { rewrite Hnc'. case_bool_decide; [eauto|]. rewrite Hnb.
      case_bool_decide; [eauto|]. pose proof (Hka (parent ch)) as Hko.
      rewrite Hnop in Hko. apply option_Forall2_Some_l in Hko as (? & -> & _). eauto. }
    destruct (collectGarbage_node_of_inv _ _ _ _ Hbrc Hnopc Hud) as (Hbrd & Hnd).
    split; [done|]. split.
    { eapply links_only_trans; [exact Hloa|].
      eapply links_only_trans; [by eapply links_only_modify_node|].
      eapply links_only_trans; [by eapply links_only_modify_node|].
      by eapply collectGarbage_links_only. }
    split; [eauto|]. split.
    + intros h1 Hh1. rewrite Hnd in Hh1.
      destruct (bool_decide (c = parent ch) && _ && _); [done|].
      rewrite Hnc' in Hh1. rewrite bool_decide_true in Hh1 by done.
      injection Hh1 as <-. done.
    + intros x h1 Hx Hh1. rewrite Hnd in Hh1.
      destruct (bool_decide (x = parent ch) && _ && _); [done|].
      rewrite Hnc', bool_decide_false in Hh1 by done.
      rewrite Hnb, bool_decide_false in Hh1 by done.
      pose proof (Hka x) as Hkx. rewrite Hh1 in Hkx.
      apply option_Forall2_Some_r in Hkx as (h & Hh & Hk). eauto.
  - destruct (isValid np).
    + destruct (modify_entity c _ u) as [ua|] eqn:Hua; [|done]. rewrite bind_Some in H.
      injection H as <- <-.
      rewrite (modify_entity_Some _ _ _ _ Hcd) in Hua. injection Hua as <-.
      cbn [m_hierarchy with_entities].
      pose proof (alloc_backrefs u c cd Hbr Hcd ltac:(lia)) as Hbr'.
      pose proof (λ x, alloc_node_of u c cd x Hbr Hcd ltac:(lia)) as Hn'.
      split; [done|]. split.
      { eapply links_only_trans; [by apply (links_only_set_index u c (size (m_hierarchy u)))|].
        apply links_only_hierarchy. }
      split.
      { cbn [m_entities with_hierarchy with_entities]. rewrite get_set_eq by done. eauto. }
      split.
      * intros h1. rewrite Hn', bool_decide_true by done. by intros [= <-].
      * intros x h1 Hx. rewrite Hn', bool_decide_false by done. intros Hh1.
        exists h1. split; [done|apply same_kin_refl].
    + injection H as <- <-. split; [done|]. split; [apply links_only_refl|].
      split; [eauto|]. split.
      * intros h1. rewrite (node_of_None _ _ _ Hcd) by lia. done.
      * intros x h1 _ Hx. exists h1. split; [done|apply same_kin_refl].
Qed.

Lemma setParent_new_parent_frame (np c idx : Z) (u1 u' : Universe) (d1 : EntityData) :
  backrefs u1 → get (m_entities u1) c = Some d1 → hierarchy d1 = idx →
  setParent_new_parent np c idx u1 = Some u' →
  backrefs u' ∧ links_only u1 u'
  ∧ (isValid np = true →
     ∃ tp tc h', getTransform np u1 = Some tp ∧ getTransform c u1 = Some tc
                 ∧ node_of u' c = Some h' ∧ parent h' = np
                 ∧ local_transform h' = tmul (inverted tp) tc
                 ∧ (np = c → first_child h' = c))
  ∧ (∀ x h', x ≠ c → node_of u' x = Some h' →
             (∃ h, node_of u1 x = Some h ∧ same_kin h h')
             ∨ parent h' = INVALID_ENTITY).
Proof.
  intros Hbr Hd1 Hidx H. unfold setParent_new_parent in H.
  destruct (isValid np) eqn:Hnp.
  - destruct (get (m_entities u1) np) as [npd|] eqn:Hnpd; [|done]. rewrite bind_Some in H.
    (* the state with a node for the new parent *)
    cbv zeta in H.
    assert (∃ u2 npi npd2 hnp,
              (if bool_decide (hierarchy npd < 0)
               then u ← modify_entity np (set_hierarchy_idx (size (m_hierarchy u1))) u1;
                    Some (size (m_hierarchy u1),
                          with_hierarchy (m_hierarchy u ++ [new_node np]) u)
               else Some (hierarchy npd, u1)) = Some (npi, u2)
              ∧ backrefs u2 ∧ links_only u1 u2
              ∧ get (m_entities u2) np = Some npd2 ∧ hierarchy npd2 = npi
              ∧ node_of u2 np = Some hnp
              ∧ ((npd2 = npd ∧ node_of u1 np = Some hnp)
                 ∨ (hierarchy npd < 0 ∧ hnp = new_node np))
              ∧ ∀ x, x ≠ np → node_of u2 x = node_of u1 x
                             ∧ get (m_entities u2) x = get (m_entities u1) x)
      as (u2 & npi & npd2 & hnp & Hstep & Hbr2 & Hlo2 & Hnpd2 & Hnpi & Hnnp & Hcase & Hn2).
    { pose proof (get_lt _ _ _ Hnpd) as Hnp_lt. case_bool_decide as Hneg.
      - rewrite (modify_entity_Some _ _ _ _ Hnpd), bind_Some.
        cbn [m_hierarchy with_entities].
        eexists _, _, _, (new_node np). split; [done|].
        split; [by apply alloc_backrefs|]. split.
        { eapply links_only_trans;
            [by apply (links_only_set_index u1 np (size (m_hierarchy u1)))|].
          apply links_only_hierarchy. }
        split. { cbn [m_entities with_hierarchy with_entities]. by rewrite get_set_eq. }
        split; [done|]. split.
        { rewrite alloc_node_of by done. by rewrite bool_decide_true. }
        split; [by right|].
        intros x Hx. split.
        + rewrite alloc_node_of by done. by rewrite bool_decide_false.
        + cbn [m_entities with_hierarchy with_entities]. rewrite get_set_ne by lia. done.
      - destruct (br_node _ Hbr _ _ Hnpd ltac:(lia)) as (hnp & Hhnp & _).
        exists u1, (hierarchy npd), npd, hnp. split; [done|]. split; [done|].
        split; [apply links_only_refl|]. split; [done|]. split; [done|].
        pose proof (node_of_get _ _ _ _ Hnpd Hhnp).
        split; [done|]. split; [by left|]. done. }
    rewrite Hstep, bind_Some in H. cbn beta iota in H. clear Hstep.
    destruct (modify_node idx _ u2) as [u3|] eqn:Hu3; [|done]. rewrite bind_Some in H.
    (* the child has a node *)
    assert (get (m_entities u2) c = Some d1 ∧ ∃ hc, node_of u2 c = Some hc
            ∧ (node_of u1 c = Some hc ∨ np = c)) as (Hd2 & hc & Hnc2 & Hnc1).
    { unfold modify_node in Hu3.
      destruct (get (m_hierarchy u2) idx) as [hc|] eqn:Hhc; [|done].
      pose proof (get_lt _ _ _ Hhc) as Hidx_lt.
      destruct (decide (np = c)) as [->|Hne].
      - assert (npd = d1) as -> by congruence.
        destruct Hcase as [[-> _]|[Hneg _]]; [|lia].
        split; [done|]. exists hc. split; [|by right].
        eapply node_of_get; [done|]. by rewrite Hidx.
      - destruct (Hn2 c ltac:(done)) as [Hnc HEc]. rewrite Hd1 in HEc.
        split; [done|]. exists hc.
        assert (node_of u2 c = Some hc) as Hq
          by (eapply node_of_get; [done|]; by rewrite Hidx).
        split; [done|]. left. by rewrite <- Hnc. }
    rewrite <- Hidx in Hu3.
    destruct (modify_node_of_entity_inv u2 u3 c d1 hc (set_parent np)
                Hbr2 Hd2 Hnc2 eq_refl Hu3) as (Hbr3 & HE3 & HT3 & Hn3).
    destruct (getTransform np u3) as [tp|] eqn:Htp; [|done]. rewrite bind_Some in H.
    destruct (getTransform c u3) as [tc|] eqn:Htc; [|done]. rewrite bind_Some in H.
    destruct (modify_node idx _ u3) as [u4|] eqn:Hu4; [|done]. rewrite bind_Some in H.
    rewrite <- Hidx in Hu4.
    assert (get (m_entities u3) c = Some d1) as Hd3 by congruence.
    assert (node_of u3 c = Some (set_parent np hc)) as Hnc3
      by (rewrite Hn3; by rewrite bool_decide_true).
    destruct (modify_node_of_entity_inv u3 u4 c d1 _
                (set_local_transform (tmul (inverted tp) tc))
                Hbr3 Hd3 Hnc3 eq_refl Hu4) as (Hbr4 & HE4 & HT4 & Hn4).
    destruct (get (m_hierarchy u4) npi) as [nph|] eqn:Hnph; [|done]. rewrite bind_Some in H.
    destruct (modify_node idx _ u4) as [u5|] eqn:Hu5; [|done]. rewrite bind_Some in H.
    rewrite <- Hidx in Hu5.
    assert (get (m_entities u4) c = Some d1) as Hd4 by congruence.
    assert (node_of u4 c = Some (set_local_transform (tmul (inverted tp) tc)
                                   (set_parent np hc))) as Hnc4
      by (rewrite Hn4; by rewrite bool_decide_true).
    destruct (modify_node_of_entity_inv u4 u5 c d1 _
                (set_next_sibling (first_child nph))
                Hbr4 Hd4 Hnc4 eq_refl Hu5) as (Hbr5 & HE5 & HT5 & Hn5).
    assert (get (m_entities u5) np = Some npd2) as Hnpd5 by congruence.
    assert (∃ h5, node_of u5 np = Some h5
                  ∧ (np = c ∧ h5 = set_next_sibling (first_child nph)
                                     (set_local_transform (tmul (inverted tp) tc)
                                        (set_parent np hc))
                     ∨ np ≠ c ∧ h5 = hnp)) as (h5 & Hn5np & Hh5).
    { rewrite Hn5. case_bool_decide as Ec.
      - eexists. split; [done|]. left. done.
      - rewrite Hn4, bool_decide_false by done. rewrite Hn3, bool_decide_false by done.
        exists hnp. split; [done|]. right. done. }
    rewrite <- Hnpi in H.
    destruct (modify_node_of_entity_inv u5 u' np npd2 h5 (set_first_child c)
                Hbr5 Hnpd5 Hn5np eq_refl H) as (Hbr' & HE' & HT' & Hn').
    split; [done|]. split.
    { eapply links_only_trans; [exact Hlo2|].
      eapply links_only_trans; [by eapply links_only_modify_node|].
      eapply links_only_trans; [by eapply links_only_modify_node|].
      eapply links_only_trans; [by eapply links_only_modify_node|].
      by eapply links_only_modify_node. }
    split.
    + intros _. exists tp, tc.
      assert (m_transforms u3 = m_transforms u1) as HT31
        by (rewrite HT3; apply (lo_transforms _ _ Hlo2)).
      unfold getTransform in *. rewrite <- HT31.
      destruct Hh5 as [[-> ->]|[Hne ->]].
      * eexists. split; [done|]. split; [done|]. split.
        { rewrite Hn'. by rewrite bool_decide_true. }
        done.
      * eexists. split; [done|]. split; [done|]. split.
        { rewrite Hn', bool_decide_false by done. rewrite Hn5. by rewrite bool_decide_true. }
        done.
    + intros x h' Hx Hh'. rewrite Hn' in Hh'. case_bool_decide as Exnp.
      * injection Hh' as <-. destruct Hh5 as [[-> _]|[_ ->]]; [done|].
        destruct Hcase as [[_ Hn1]|[_ ->]]; [|by right].
        left. exists hnp. subst x. done.
      * rewrite Hn5, bool_decide_false in Hh' by done.
        rewrite Hn4, bool_decide_false in Hh' by done.
        rewrite Hn3, bool_decide_false in Hh' by done.
        left. exists h'. destruct (Hn2 x Exnp) as [<- _]. done.
  - case_bool_decide as Hi.
    + destruct (br_node _ Hbr _ _ Hd1 ltac:(lia)) as (hc & Hhc & _).
      pose proof (node_of_get _ _ _ _ Hd1 Hhc) as Hnc.
      destruct (collectGarbage_node_of_inv _ _ _ _ Hbr Hnc H) as (Hbr' & Hn').
      split; [done|]. split; [by eapply collectGarbage_links_only|].
      split; [done|].
      intros x h' Hx Hh'. rewrite Hn' in Hh'. rewrite bool_decide_false in Hh' by done.
      left. exists h'. done.
    + injection H as <-. split; [done|]. split; [apply links_only_refl|].
      split; [done|]. intros x h' Hx Hh'. left. exists h'. done.
Qed.

(** ** [setParent] as a whole *)

Lemma links_only_emit_inv (u u' : Universe) :
  links_only u u' → m_events u' = m_events u.
Proof. apply lo_events. Qed.

Lemma getLocalTransform_node (u : Universe) (e : Z) (h : Hierarchy) :
  node_of u e = Some h → getLocalTransform e u = Some (local_transform h).
Proof.
  intros (d & Hd & Hi & Hh)%node_of_Some. unfold getLocalTransform.
  rewrite Hd, bind_Some. rewrite bool_decide_false by lia. by rewrite Hh.
Qed.

Lemma getParent_node (u : Universe) (e : Z) (h : Hierarchy) :
  node_of u e = Some h → getParent e u = Some (parent h).
Proof.
  intros (d & Hd & Hi & Hh)%node_of_Some. unfold getParent.
  rewrite Hd, bind_Some. rewrite bool_decide_false by lia. by rewrite Hh.
Qed.

Lemma getFirstChild_node (u : Universe) (e : Z) (h : Hierarchy) :
  node_of u e = Some h → getFirstChild e u = Some (first_child h).
Proof.
  intros (d & Hd & Hi & Hh)%node_of_Some. unfold getFirstChild.
  rewrite Hd, bind_Some. rewrite bool_decide_false by lia. by rewrite Hh.
Qed.

Lemma getNextSibling_node (u : Universe) (e : Z) (h : Hierarchy) :
  node_of u e = Some h → getNextSibling e u = Some (next_sibling h).
Proof.
  intros (d & Hd & Hi & Hh)%node_of_Some. unfold getNextSibling.
  rewrite Hd, bind_Some. rewrite bool_decide_false by lia. by rewrite Hh.
Qed.

(** a call of [setParent] that the cycle guard lets pass *)
Lemma setParent_accepted (fuel : nat) (np c : Z) (u u' : Universe) :
  backrefs u →
  would_create_cycle fuel np c u = Some false →
  setParent fuel np c u = Some u' →
  backrefs u' ∧ links_only u u'
  ∧ (isValid np = true →
     ∃ tp tc h', getTransform np u = Some tp ∧ getTransform c u = Some tc
                 ∧ node_of u' c = Some h' ∧ parent h' = np
                 ∧ local_transform h' = tmul (inverted tp) tc
                 ∧ (np = c → first_child h' = c))
  ∧ (∀ x h', x ≠ c → node_of u' x = Some h' →
             (∃ h, node_of u x = Some h ∧ same_kin h h')
             ∨ parent h' = INVALID_ENTITY).
Proof.
  intros Hbr Hcyc H. unfold setParent in H. rewrite Hcyc, bind_Some in H.
  destruct (setParent_old_parent fuel np c u) as [[idx u1]|] eqn:H1; [|done].
  rewrite bind_Some in H.
  destruct (setParent_old_parent_frame _ _ _ _ _ _ Hbr H1)
    as (Hbr1 & Hlo1 & (d1 & Hd1 & Hidx) & _ & Hk1).
  destruct (setParent_new_parent_frame _ _ _ _ _ _ Hbr1 Hd1 Hidx H)
    as (Hbr' & Hlo' & Hc & Hk').
  split; [done|]. split; [by eapply links_only_trans|]. split.
  - intros Hnp. destruct (Hc Hnp) as (tp & tc & h' & Htp & Htc & Hrest).
    exists tp, tc, h'. unfold getTransform in *.
    rewrite <- (lo_transforms _ _ Hlo1). done.
  - intros x h' Hx Hh'. destruct (Hk' x h' Hx Hh') as [(h1 & Hh1 & Hk)|Hinv]; [|by right].
    destruct (Hk1 x h1 Hx Hh1) as (h & Hh & Hk0). left. exists h.
    split; [done|]. by eapply same_kin_trans.
Qed.

(** ** Walks through a well-formed hierarchy *)

Lemma height_le_ents (b : Chain) : (height b ≤ length (ents b))%nat.
Proof.
  induction b as [|e kids IHk rest IHr]; simpl; [lia|].
  rewrite length_app. lia.
Qed.

Lemma tops_ents (b : Chain) (x : Z) : x ∈ tops b → x ∈ ents b.
Proof.
  induction b as [|e kids IHk rest IHr]; simpl; [done|].
  rewrite !elem_of_cons, elem_of_app. intros [->|?]; auto.
Qed.

Lemma length_tops_ents (b : Chain) : (length (tops b) ≤ length (ents b))%nat.
Proof.
  induction b as [|e kids IHk rest IHr]; simpl; [lia|].
  rewrite length_app. lia.
Qed.

Lemma shape_node (u : Universe) (b : Chain) :
  ∀ c x, shape u c b → x ∈ ents b → is_Some (node_of u x).
Proof.
  induction b as [|e kids IHk rest IHr]; intros c x Hs Hx; [by apply elem_of_nil in Hx|].
  simpl in Hs. destruct Hs as (-> & Hv & d & h & Hd & Hh & Hk & Hr).
  simpl in Hx. apply elem_of_cons in Hx as [->|Hx].
  - exists h. by eapply node_of_get.
  - apply elem_of_app in Hx as [Hx|Hx]; eauto.
Qed.

Lemma shape_sibs (u : Universe) (b : Chain) :
  ∀ c, shape u c b → sibs u c (tops b).
Proof.
  induction b as [|e kids IHk rest IHr]; intros c Hs; [done|].
  simpl in Hs. destruct Hs as (-> & Hv & d & h & Hd & Hh & Hk & Hr).
  simpl. split; [done|]. split; [done|]. exists h. split; [by eapply node_of_get|].
  by apply IHr.
Qed.

(** the entities of a chain hold different nodes: there are no more of
    them than nodes *)
Lemma ents_le_nodes (u : Universe) (c : Z) (b : Chain) :
  backrefs u → shape u c b → NoDup (ents b) →
  (length (ents b) ≤ length (m_hierarchy u))%nat.
Proof.
  intros Hbr Hs Hnd.
  set (idx := λ e : Z, match get (m_entities u) e with
                      | Some d => Z.to_nat (hierarchy d)
                      | None => O
                      end).
  assert (∀ x, x ∈ ents b → ∃ d h, get (m_entities u) x = Some d ∧ 0 ≤ hierarchy d
                                   ∧ get (m_hierarchy u) (hierarchy d) = Some h) as Hnode.
  { intros x Hx. destruct (shape_node _ _ _ _ Hs Hx) as [h Hh].
    apply node_of_Some in Hh as (d & ? & ? & ?). eauto. }
  rewrite <- (length_fmap idx (ents b)).
  etrans; [|apply Nat.eq_le_incl, (length_seq (length (m_hierarchy u)) 0%nat)].
  apply submseteq_length, NoDup_submseteq.
  - apply NoDup_fmap_2_strong; [|done].
    intros x y Hx Hy Heq. unfold idx in Heq.
    destruct (Hnode x Hx) as (dx & hx & Hdx & Hix & Hhx).
    destruct (Hnode y Hy) as (dy & hy & Hdy & Hiy & Hhy).
    rewrite Hdx, Hdy in Heq.
    eapply (backrefs_index_inj u x y); eauto. lia.
  - intros i Hi. apply list_elem_of_fmap in Hi as (x & -> & Hx).
    destruct (Hnode x Hx) as (dx & hx & Hdx & Hix & Hhx).
    unfold idx. rewrite Hdx. apply elem_of_seq.
    apply get_lt in Hhx. unfold size in Hhx. lia.
Qed.

Lemma wf_height (u : Universe) (e : Z) (b : Chain) (fuel : nat) :
  wf_hierarchy u → below u e b → NoDup (ents b) → enough_fuel u fuel →
  (S (2 * height b) < fuel)%nat ∧ (length (tops b) < fuel)%nat.
Proof.
  intros Hwf (c & _ & Hs) Hnd Hf.
  pose proof (ents_le_nodes _ _ _ (wf_backrefs _ Hwf) Hs Hnd).
  pose proof (height_le_ents b). pose proof (length_tops_ents b).
  unfold enough_fuel in Hf. lia.
Qed.

Lemma shape_det (u : Universe) (b1 : Chain) :
  ∀ c b2, shape u c b1 → shape u c b2 → b1 = b2.
Proof.
  induction b1 as [|e kids IHk rest IHr]; intros c b2 H1 H2.
  - destruct b2; [done|]. simpl in *. destruct H2 as (_ & ? & _). congruence.
  - destruct b2 as [|e2 kids2 rest2]; simpl in *.
    + destruct H1 as (_ & ? & _). congruence.
    + destruct H1 as (-> & _ & d & h & Hd & Hh & Hk & Hr).
      destruct H2 as (<- & _ & d2 & h2 & Hd2 & Hh2 & Hk2 & Hr2).
      assert (d2 = d) as -> by congruence. assert (h2 = h) as -> by congruence.
      f_equal; eauto.
Qed.

Lemma below_det (u : Universe) (e : Z) (b1 b2 : Chain) :
  below u e b1 → below u e b2 → b1 = b2.
Proof.
  intros (c1 & Hc1 & H1) (c2 & Hc2 & H2).
  assert (c2 = c1) as -> by congruence. by eapply shape_det.
Qed.

(** a parent has a node, and the child is in the finite list of its children *)
Lemma wf_parent_node (u : Universe) (c : Z) (h : Hierarchy) :
  wf_hierarchy u → node_of u c = Some h → isValid (parent h) = true →
  ∃ hp b, node_of u (parent h) = Some hp ∧ shape u (first_child hp) b
          ∧ c ∈ tops b ∧ NoDup (parent h :: ents b).
Proof.
  intros Hwf Hn Hv.
  destruct (wf_parent _ Hwf _ _ Hn Hv) as (b & Hb & Hin).
  pose proof Hb as (c0 & Hc0 & Hs).
  assert (0 ≤ parent h < size (m_entities u)) as Hrange.
  { unfold getFirstChild in Hc0. destruct (get (m_entities u) (parent h)) eqn:E; [|done].
    by eapply get_lt. }
  destruct (wf_below _ Hwf _ Hrange) as (b' & Hb' & Hnd & _).
  rewrite (below_det _ _ _ _ Hb' Hb) in Hnd.
  unfold getFirstChild in Hc0.
  destruct (get (m_entities u) (parent h)) as [pd|] eqn:Hpd; [|done].
  rewrite bind_Some in Hc0.
  case_bool_decide as Hneg.
  { injection Hc0 as <-. destruct b; [by apply elem_of_nil in Hin|].
    simpl in Hs. destruct Hs as (_ & ? & _). done. }
  destruct (get (m_hierarchy u) (hierarchy pd)) as [hp|] eqn:Hhp; [|done].
  injection Hc0 as <-. exists hp, b. split; [by eapply node_of_get|]. done.
Qed.

(** the first part of [setParent] returns when the old parent of the child,
    if there is one, has a node and a finite list of children *)
Lemma setParent_old_parent_returns (fuel : nat) (np c : Z) (u : Universe) :
  backrefs u → 0 ≤ c < size (m_entities u) →
  (∀ ch, node_of u c = Some ch → isValid (parent ch) = true →
         c ≠ parent ch
         ∧ ∃ hp l, node_of u (parent ch) = Some hp ∧ sibs u (first_child hp) l
                   ∧ (length l < fuel)%nat) →
  ∃ idx u1, setParent_old_parent fuel np c u = Some (idx, u1)
            ∧ (isValid np = true → is_Some (node_of u1 c)).
Proof.
  intros Hbr Hc Hold.
  unfold setParent_old_parent.
  destruct (get_is_Some _ _ Hc) as [cd Hcd]. rewrite Hcd, bind_Some.
  case_bool_decide as Hidx.
  - destruct (br_node _ Hbr _ _ Hcd Hidx) as (ch & Hch & _).
    rewrite Hch, bind_Some.
    pose proof (node_of_get _ _ _ _ Hcd Hch) as Hnc.
    destruct (isValid (parent ch)) eqn:Hop; [|by eauto].
    destruct (Hold _ Hnc Hop) as (Hne & hp & l & Hnp & Hs & Hlen).
    pose proof Hnp as (opd & Hopd & Hiop & Hhp)%node_of_Some.
    rewrite Hopd, bind_Some, Hhp, bind_Some.
    destruct (unlink_total l fuel (FirstChildOf (hierarchy opd)) (first_child hp) c u)
      as [ua Hua]; [by simpl; rewrite Hhp|done|by eauto|done|].
    rewrite Hua, bind_Some.
    destruct (unlink_frame _ _ _ _ _ Hbr Hua) as (Hbra & HEa & Hloa & Hka).
    pose proof (Hka c) as Hkc. rewrite Hnc in Hkc.
    apply option_Forall2_Some_l in Hkc as (hca & Hnca & Hkin).
    assert (get (m_entities ua) c = Some cd) as Hcda by congruence.
    destruct (modify_node_of_entity ua c cd hca (set_parent INVALID_ENTITY)
                Hbra Hcda Hnca eq_refl) as (ub & Hub & Hbrb & HEb & _ & Hnb).
    rewrite Hub, bind_Some.
    assert (get (m_entities ub) c = Some cd) as Hcdb by congruence.
    assert (node_of ub c = Some (set_parent INVALID_ENTITY hca)) as Hncb
      by (rewrite Hnb; by rewrite bool_decide_true).
    destruct (modify_node_of_entity ub c cd _ (set_next_sibling INVALID_ENTITY)
                Hbrb Hcdb Hncb eq_refl) as (uc & Huc & Hbrc & HEc & _ & Hnc').
    rewrite Huc, bind_Some.
    assert (∃ ophc, node_of uc (parent ch) = Some ophc) as [ophc Hnopc].
    { rewrite Hnc', bool_decide_false by done. rewrite Hnb, bool_decide_false by done.
      pose proof (Hka (parent ch)) as Hko. rewrite Hnp in Hko.
      apply option_Forall2_Some_l in Hko as (? & -> & _). eauto. }
    destruct (collectGarbage_node_of uc (parent ch) ophc Hbrc Hnopc)
      as (ud & Hud & Hbrd & Hnd').
    rewrite Hud, bind_Some.
    assert (is_Some (get (m_entities ud) c)) as [cd' Hcd'].
    { apply get_is_Some. rewrite (lo_size _ _ (collectGarbage_links_only _ _ _ Hud)).
      rewrite HEc, HEb, HEa. done. }
    rewrite Hcd', bind_Some. eexists _, _. split; [done|].
    intros _. rewrite Hnd'. rewrite (bool_decide_false (c = parent ch)) by done.
    simpl. rewrite Hnc'. rewrite bool_decide_true by done. eauto.
  - destruct (isValid np) eqn:Hnp.
    + rewrite (modify_entity_Some _ _ _ _ Hcd), bind_Some.
      cbn [m_hierarchy with_entities].
      eexists _, _. split; [done|]. intros _.
      rewrite alloc_node_of by (done || lia). rewrite bool_decide_true by done. eauto.
    + eexists _, _. split; [done|]. done.
Qed.

Lemma wf_old_parent (u : Universe) (c : Z) (ch : Hierarchy) (fuel : nat) :
  wf_hierarchy u → enough_fuel u fuel →
  node_of u c = Some ch → isValid (parent ch) = true →
  c ≠ parent ch
  ∧ ∃ hp l, node_of u (parent ch) = Some hp ∧ sibs u (first_child hp) l
            ∧ (length l < fuel)%nat.
Proof.
  intros Hwf Hf Hnc Hop.
  destruct (wf_parent_node _ _ _ Hwf Hnc Hop) as (hp & b & Hnp & Hs & Hin & Hnd).
  split.
  { intros ->. apply NoDup_cons in Hnd as [Hnot _]. apply Hnot. by apply tops_ents. }
  exists hp, (tops b). split; [done|]. split; [by apply shape_sibs|].
  apply NoDup_cons in Hnd as [_ Hnd].
  pose proof (ents_le_nodes _ _ _ (wf_backrefs _ Hwf) Hs Hnd).
  pose proof (length_tops_ents b). unfold enough_fuel in Hf. lia.
Qed.

Lemma setParent_old_parent_total (fuel : nat) (np c : Z) (u : Universe) :
  wf_hierarchy u → 0 ≤ c < size (m_entities u) → enough_fuel u fuel →
  ∃ idx u1, setParent_old_parent fuel np c u = Some (idx, u1)
            ∧ (isValid np = true → is_Some (node_of u1 c)).
Proof.
  intros Hwf Hc Hf. apply setParent_old_parent_returns; [apply Hwf|done|].
  intros ch Hnc Hop. by eapply wf_old_parent.
Qed.

Lemma setParent_new_parent_total (np c idx : Z) (u1 : Universe) (d1 : EntityData) :
  backrefs u1 → size (m_transforms u1) = size (m_entities u1) →
  get (m_entities u1) c = Some d1 → hierarchy d1 = idx →
  (isValid np = true → np < size (m_entities u1) ∧ is_Some (node_of u1 c)) →
  is_Some (setParent_new_parent np c idx u1).
Proof.
  intros Hbr HT Hd1 Hidx Hnp. unfold setParent_new_parent.
  destruct (isValid np) eqn:Hv.
  - destruct (Hnp eq_refl) as (Hlt & hc & Hnc). clear Hnp.
    apply bool_decide_eq_true in Hv.
    destruct (get_is_Some (m_entities u1) np ltac:(lia)) as [npd Hnpd].
    rewrite Hnpd, bind_Some. cbv zeta.
    pose proof Hnc as (d1' & Hd1' & Hi1 & Hhc)%node_of_Some.
    assert (d1' = d1) as -> by congruence.
    pose proof (get_lt _ _ _ Hd1) as Hc_lt.
    assert (∃ u2 npi npd2 hnp,
              (if bool_decide (hierarchy npd < 0)
               then u ← modify_entity np (set_hierarchy_idx (size (m_hierarchy u1))) u1;
                    Some (size (m_hierarchy u1),
                          with_hierarchy (m_hierarchy u ++ [new_node np]) u)
               else Some (hierarchy npd, u1)) = Some (npi, u2)
              ∧ backrefs u2 ∧ m_transforms u2 = m_transforms u1
              ∧ get (m_entities u2) np = Some npd2 ∧ hierarchy npd2 = npi
              ∧ node_of u2 np = Some hnp
              ∧ get (m_entities u2) c = Some d1 ∧ node_of u2 c = Some hc)
      as (u2 & npi & npd2 & hnp & -> & Hbr2 & HT2 & Hnpd2 & Hnpi & Hnnp & Hd2 & Hnc2).
    { case_bool_decide as Hneg.
      - assert (np ≠ c) as Hne by (intros ->; assert (npd = d1) by congruence; subst; lia).
        rewrite (modify_entity_Some _ _ _ _ Hnpd), bind_Some.
        cbn [m_hierarchy with_entities].
        eexists _, _, _, (new_node np). split; [done|].
        split; [by apply alloc_backrefs|]. split; [done|].
        split. { cbn [m_entities with_hierarchy with_entities].
                 rewrite get_set_eq; [done|]. lia. }
        split; [done|]. split.
        { rewrite alloc_node_of by done. by rewrite bool_decide_true. }
        split.
        + cbn [m_entities with_hierarchy with_entities]. rewrite get_set_ne by lia. done.
        + rewrite alloc_node_of by done. by rewrite bool_decide_false.
      - destruct (br_node _ Hbr _ _ Hnpd ltac:(lia)) as (hnp & Hhnp & _).
        exists u1, (hierarchy npd), npd, hnp. split; [done|]. split; [done|].
        split; [done|]. split; [done|]. split; [done|].
        split; [by eapply node_of_get|]. done. }
    rewrite bind_Some. cbn beta iota. rewrite <- Hidx.
    destruct (modify_node_of_entity u2 c d1 hc (set_parent np) Hbr2 Hd2 Hnc2 eq_refl)
      as (u3 & -> & Hbr3 & HE3 & HT3 & Hn3).
    rewrite bind_Some.
    assert (size (m_transforms u3) = size (m_entities u1)) as HT3' by congruence.
    destruct (get_is_Some (m_transforms u3) np ltac:(lia)) as [tp Htp].
    destruct (get_is_Some (m_transforms u3) c ltac:(lia)) as [tc Htc].
    unfold getTransform. rewrite Htp, bind_Some, Htc, bind_Some.
    assert (get (m_entities u3) c = Some d1) as Hd3 by congruence.
    assert (node_of u3 c = Some (set_parent np hc)) as Hnc3
      by (rewrite Hn3; by rewrite bool_decide_true).
    destruct (modify_node_of_entity u3 c d1 _ (set_local_transform (tmul (inverted tp) tc))
                Hbr3 Hd3 Hnc3 eq_refl) as (u4 & -> & Hbr4 & HE4 & HT4 & Hn4).
    rewrite bind_Some.
    assert (get (m_entities u4) np = Some npd2) as Hnpd4 by congruence.
    assert (is_Some (node_of u4 np)) as [h4 Hn4np].
    { rewrite Hn4. case_bool_decide; [eauto|]. rewrite Hn3. case_bool_decide; eauto. }
    pose proof Hn4np as (dd & Hdd & _ & Hh4)%node_of_Some.
    assert (dd = npd2) as -> by congruence. rewrite Hnpi in Hh4.
    rewrite Hh4, bind_Some.
    assert (get (m_entities u4) c = Some d1) as Hd4 by congruence.
    assert (node_of u4 c = Some (set_local_transform (tmul (inverted tp) tc)
                                   (set_parent np hc))) as Hnc4
      by (rewrite Hn4; by rewrite bool_decide_true).
    destruct (modify_node_of_entity u4 c d1 _ (set_next_sibling (first_child h4))
                Hbr4 Hd4 Hnc4 eq_refl) as (u5 & -> & Hbr5 & HE5 & HT5 & Hn5).
    rewrite bind_Some.
    assert (get (m_entities u5) np = Some npd2) as Hnpd5 by congruence.
    assert (is_Some (node_of u5 np)) as [h5 Hn5np].
    { rewrite Hn5. case_bool_decide; eauto. }
    rewrite <- Hnpi.
    destruct (modify_node_of_entity u5 np npd2 h5 (set_first_child c)
                Hbr5 Hnpd5 Hn5np eq_refl) as (u6 & -> & _). eauto.
  - case_bool_decide as Hi; [|eauto].
    destruct (br_node _ Hbr _ _ Hd1 ltac:(lia)) as (hc & Hhc & _).
    pose proof (node_of_get _ _ _ _ Hd1 Hhc) as Hnc.
    destruct (collectGarbage_node_of u1 c hc Hbr Hnc) as (u' & -> & _). eauto.
Qed.

(** [setParent] returns on a well-formed hierarchy *)
Lemma setParent_total (fuel : nat) (np c : Z) (u : Universe) :
  wf_hierarchy u → 0 ≤ c < size (m_entities u) → np < size (m_entities u) →
  enough_fuel u fuel →
  is_Some (would_create_cycle fuel np c u) ∧ is_Some (setParent fuel np c u).
Proof.
  intros Hwf Hc Hnp Hf. pose proof (wf_backrefs _ Hwf) as Hbr.
  assert (is_Some (would_create_cycle fuel np c u)) as [cyc Hcyc].
  { unfold would_create_cycle. destruct (isValid np); [|eauto].
    destruct (wf_below _ Hwf _ Hc) as (b & Hb & Hnd & _).
    apply NoDup_cons in Hnd as [_ Hnd].
    rewrite (isDescendant_below _ _ _ b); [eauto|done|].
    by eapply wf_height. }
  split; [eauto|]. unfold setParent. rewrite Hcyc, bind_Some.
  destruct cyc; [eauto|].
  destruct (setParent_old_parent_total fuel np c u Hwf Hc Hf) as (idx & u1 & H1 & Hn1).
  rewrite H1, bind_Some.
  destruct (setParent_old_parent_frame _ _ _ _ _ _ Hbr H1)
    as (Hbr1 & Hlo1 & (d1 & Hd1 & Hidx) & _).
  eapply setParent_new_parent_total; eauto.
  - rewrite (lo_transforms _ _ Hlo1), (lo_size _ _ Hlo1). apply (wf_transforms _ Hwf).
  - intros Hv. split; [|by apply Hn1]. by rewrite (lo_size _ _ Hlo1).
Qed.

(** C3: on a well-formed hierarchy a [setParent] that the cycle guard lets
    pass returns, and it changes nothing but the hierarchy table and the
    hierarchy indices of the entities: the world transforms of the child
    and of every other entity are as before; when there is a new parent,
    the child is a child of it and its local transform becomes
    [inverted(world(new_parent)) * world(child)]. *)
Theorem setParent_no_jump (fuel : nat) (new_parent child : Z) (u : Universe) :
  wf_hierarchy u → enough_fuel u fuel →
  0 ≤ child < size (m_entities u) → new_parent < size (m_entities u) →
  would_create_cycle fuel new_parent child u = Some false →
  ∃ u', setParent fuel new_parent child u = Some u'
        ∧ m_transforms u' = m_transforms u
        ∧ getTransform child u' = getTransform child u
        ∧ links_only u u'
        ∧ (isValid new_parent = true →
           ∃ parent_tr child_tr,
             getTransform new_parent u = Some parent_tr
             ∧ getTransform child u = Some child_tr
             ∧ getParent child u' = Some new_parent
             ∧ getLocalTransform child u' = Some (tmul (inverted parent_tr) child_tr)).
Proof.
  intros Hwf Hfuel Hc Hnp Hcyc.
  destruct (setParent_total fuel new_parent child u Hwf Hc Hnp Hfuel) as [_ [u' H]].
  exists u'. split; [done|].
  destruct (setParent_accepted _ _ _ _ _ (wf_backrefs _ Hwf) Hcyc H) as (_ & Hlo & Hn & _).
  split; [apply (lo_transforms _ _ Hlo)|].
  split; [unfold getTransform; by rewrite (lo_transforms _ _ Hlo)|].
  split; [done|].
  intros Hv. destruct (Hn Hv) as (tp & tc & h' & Htp & Htc & Hnode & Hp & Hl & _).
  exists tp, tc. split; [done|]. split; [done|].
  split; [by rewrite (getParent_node _ _ _ Hnode), Hp|].
  by rewrite (getLocalTransform_node _ _ _ Hnode), Hl.
Qed.

(** C9: in a well-formed (acyclic) hierarchy [setParent(e, e)] is not
    rejected, [isDescendant(e, e)] being false; after the call the entity
    is its own parent and its own first child. *)
Theorem setParent_self_loop (fuel : nat) (e : Z) (u : Universe) :
  wf_hierarchy u → 0 ≤ e < size (m_entities u) → enough_fuel u fuel →
  isDescendant fuel e e u = Some false
  ∧ ∃ u', setParent fuel e e u = Some u'
          ∧ m_events u' = m_events u
          ∧ getParent e u' = Some e
          ∧ getFirstChild e u' = Some e.
Proof.
  intros Hwf He Hf. pose proof (wf_backrefs _ Hwf) as Hbr.
  assert (isDescendant fuel e e u = Some false) as Hdesc.
  { destruct (wf_below _ Hwf _ He) as (b & Hb & Hnd & _).
    apply NoDup_cons in Hnd as [Hnot Hnd].
    rewrite (isDescendant_below _ _ _ b); [|done|by eapply wf_height].
    by rewrite bool_decide_false. }
  split; [done|].
  assert (isValid e = true) as Hv by (apply bool_decide_eq_true; lia).
  assert (would_create_cycle fuel e e u = Some false) as Hcyc.
  { unfold would_create_cycle. by rewrite Hv. }
  destruct (setParent_total fuel e e u Hwf He ltac:(lia) Hf) as [_ [u' Hu']].
  exists u'. split; [done|].
  destruct (setParent_accepted _ _ _ _ _ Hbr Hcyc Hu') as (_ & Hlo & Hc & _).
  destruct (Hc Hv) as (tp & tc & h' & _ & _ & Hn & Hp & _ & Hfc).
  split; [apply (lo_events _ _ Hlo)|].
  split; [by rewrite (getParent_node _ _ _ Hn), Hp|].
  by rewrite (getFirstChild_node _ _ _ Hn), Hfc.
Qed.

(** ** Detaching the first child of an entity *)

Lemma getParent_via_node (u : Universe) (e : Z) :
  is_Some (get (m_entities u) e) → backrefs u →
  getParent e u = Some (from_option parent INVALID_ENTITY (node_of u e)).
Proof.
  intros [d Hd] Hbr. unfold getParent, node_of. rewrite Hd, !bind_Some.
  case_bool_decide as Hi; [done|].
  destruct (br_node _ Hbr _ _ Hd ltac:(lia)) as (h & -> & _). done.
Qed.

Lemma getFirstChild_via_node (u : Universe) (e : Z) :
  is_Some (get (m_entities u) e) → backrefs u →
  getFirstChild e u = Some (from_option first_child INVALID_ENTITY (node_of u e)).
Proof.
  intros [d Hd] Hbr. unfold getFirstChild, node_of. rewrite Hd, !bind_Some.
  case_bool_decide as Hi; [done|].
  destruct (br_node _ Hbr _ _ Hd ltac:(lia)) as (h & -> & _). done.
Qed.

Lemma node_of_range (u : Universe) (e : Z) (h : Hierarchy) :
  node_of u e = Some h → 0 ≤ e < size (m_entities u).
Proof. intros (d & Hd & _)%node_of_Some. by eapply get_lt. Qed.

Lemma unlink_first (fuel : nat) (u : Universe) (e c : Z) (d : EntityData)
    (he hc : Hierarchy) :
  backrefs u → get (m_entities u) e = Some d → node_of u e = Some he →
  first_child he = c → node_of u c = Some hc →
  ∃ u', unlink (S fuel) (FirstChildOf (hierarchy d)) c u = Some u'
        ∧ backrefs u' ∧ m_entities u' = m_entities u
        ∧ ∀ x, node_of u' x = if bool_decide (x = e)
                              then Some (set_first_child (next_sibling hc) he)
                              else node_of u x.
Proof.
  intros Hbr Hd Hne Hfc Hnc.
  pose proof Hne as (d' & Hd' & Hi & Hhe)%node_of_Some.
  assert (d' = d) as -> by congruence.
  assert (isValid c = true) as Hv.
  { apply bool_decide_eq_true. by eapply node_of_range. }
  simpl. rewrite Hhe. simpl. rewrite Hfc, Hv. rewrite bool_decide_true by done.
  rewrite (getNextSibling_node _ _ _ Hnc), bind_Some.
  destruct (modify_node_of_entity u e d he (set_first_child (next_sibling hc))
              Hbr Hd Hne eq_refl) as (u' & Hu' & Hbr' & HE' & _ & Hn').
  exists u'. done.
Qed.

(** [setParent(INVALID_ENTITY, c)] for the first child [c] of [e] *)
Lemma setParent_detach_first (fuel : nat) (u : Universe) (e c : Z) (he hc : Hierarchy) :
  backrefs u → node_of u e = Some he → first_child he = c →
  node_of u c = Some hc → parent hc = e → c ≠ e →
  ∃ u', setParent (S fuel) INVALID_ENTITY c u = Some u'
        ∧ backrefs u' ∧ links_only u u'
        ∧ (∀ x, x ≠ c → x ≠ e → node_of u' x = node_of u x)
        ∧ from_option parent INVALID_ENTITY (node_of u' c) = INVALID_ENTITY
        ∧ node_of u' e
          = (if isValid (parent he) || isValid (next_sibling hc)
             then Some (set_first_child (next_sibling hc) he) else None).
Proof.
  intros Hbr Hne Hfc Hnc Hp Hce.
  pose proof Hne as (de & Hde & Hie & Hhe)%node_of_Some.
  pose proof Hnc as (dc & Hdc & Hic & Hhc)%node_of_Some.
  assert (isValid e = true) as Hve.
  { apply bool_decide_eq_true. by eapply node_of_range. }
  unfold setParent.
  change (would_create_cycle (S fuel) INVALID_ENTITY c u) with (Some false).
  rewrite bind_Some.
  unfold setParent_old_parent. rewrite Hdc, bind_Some.
  rewrite bool_decide_true by done. rewrite Hhc, bind_Some, Hp, Hve.
  rewrite Hde, bind_Some, Hhe, bind_Some.
  destruct (unlink_first fuel u e c de he hc Hbr Hde Hne Hfc Hnc)
    as (ua & Hua & Hbra & HEa & Hna).
  rewrite Hua, bind_Some.
  assert (get (m_entities ua) c = Some dc) as Hdca by congruence.
  assert (node_of ua c = Some hc) as Hnca by (by rewrite Hna, bool_decide_false).
  destruct (modify_node_of_entity ua c dc hc (set_parent INVALID_ENTITY)
              Hbra Hdca Hnca eq_refl) as (ub & Hub & Hbrb & HEb & _ & Hnb).
  rewrite Hub, bind_Some.
  assert (get (m_entities ub) c = Some dc) as Hdcb by congruence.
  assert (node_of ub c = Some (set_parent INVALID_ENTITY hc)) as Hncb
    by (by rewrite Hnb, bool_decide_true).
  destruct (modify_node_of_entity ub c dc _ (set_next_sibling INVALID_ENTITY)
              Hbrb Hdcb Hncb eq_refl) as (uc & Huc & Hbrc & HEc & _ & Hnc').
  rewrite Huc, bind_Some.
  assert (node_of uc e = Some (set_first_child (next_sibling hc) he)) as Hnec.
  { rewrite Hnc', bool_decide_false by done. rewrite Hnb, bool_decide_false by done.
    by rewrite Hna, bool_decide_true. }
  destruct (collectGarbage_node_of uc e _ Hbrc Hnec) as (ud & Hud & Hbrd & Hnd).
  rewrite Hud, bind_Some.
  pose proof (collectGarbage_links_only _ _ _ Hud) as Hlod.
  assert (is_Some (get (m_entities ud) c)) as [dc' Hdc'].
  { apply get_is_Some. rewrite (lo_size _ _ Hlod), HEc, HEb, HEa. by eapply get_lt. }
  rewrite Hdc', !bind_Some. cbn beta iota.
  assert (node_of ud c = Some (set_next_sibling INVALID_ENTITY
                                 (set_parent INVALID_ENTITY hc))) as Hncd.
  { rewrite Hnd, (bool_decide_false (c = e)) by done. simpl.
    by rewrite Hnc', bool_decide_true. }
  pose proof Hncd as (dd & Hdd & Hidd & _)%node_of_Some.
  assert (dd = dc') as -> by congruence.
  unfold setParent_new_parent. simpl (isValid INVALID_ENTITY).
  rewrite bool_decide_true by done.
  destruct (collectGarbage_node_of ud c _ Hbrd Hncd) as (u' & Hu' & Hbr' & Hn').
  exists u'. split; [done|]. split; [done|].
  split.
  { destruct (unlink_frame _ _ _ _ _ Hbr Hua) as (_ & _ & Hloa & _).
    eapply links_only_trans; [exact Hloa|].
    eapply links_only_trans; [by eapply links_only_modify_node|].
    eapply links_only_trans; [by eapply links_only_modify_node|].
    eapply links_only_trans; [exact Hlod|].
    by eapply collectGarbage_links_only. }
  split; [|split].
  - intros x Hxc Hxe. rewrite Hn', bool_decide_false by done. simpl.
    rewrite Hnd, bool_decide_false by done. simpl.
    rewrite Hnc', bool_decide_false by done. rewrite Hnb, bool_decide_false by done.
    by rewrite Hna, bool_decide_false.
  - rewrite Hn'. rewrite bool_decide_true by done. simpl.
    destruct (isValid (first_child hc)); simpl; [|done]. by rewrite Hncd.
  - rewrite Hn', bool_decide_false by done. simpl.
    rewrite Hnd, bool_decide_true by done. simpl.
    destruct (isValid (parent he)), (isValid (next_sibling hc)); simpl; try done.
Qed.
Lemma kids_frame (u u' : Universe) (e : Z) (l : list Z) :
  ∀ c, (∀ x, x ∈ l → node_of u' x = node_of u x) → kids u e c l → kids u' e c l.
Proof.
  induction l as [|x l IH]; intros c Hn Hk; [done|].
  simpl in *. destruct Hk as (-> & Hv & h & Hh & Hp & Hk).
  split; [done|]. split; [done|]. exists h.
  split; [rewrite Hn; [done|by left]|]. split; [done|].
  apply IH; [|done]. intros y Hy. apply Hn. by right.
Qed.

Lemma kids_invalid (u : Universe) (e c : Z) (l : list Z) :
  kids u e c l → isValid c = false → l = [].
Proof. destruct l; [done|]. simpl. intros (_ & ? & _) ?. congruence. Qed.

(** the loop of [destroyEntity] that detaches the children *)
Lemma detach_children_spec (e : Z) (l : list Z) :
  ∀ (fuel : nat) (u : Universe) (c0 : Z),
    backrefs u → is_Some (get (m_entities u) e) →
    getFirstChild e u = Some c0 → kids u e c0 l → NoDup (e :: l) →
    (length l < fuel)%nat →
    ∃ u', detach_children fuel e u = Some u' ∧ backrefs u' ∧ links_only u u'
          ∧ (∀ x, x ≠ e → x ∉ l → node_of u' x = node_of u x)
          ∧ (∀ x, x ∈ l → from_option parent INVALID_ENTITY (node_of u' x) = INVALID_ENTITY)
          ∧ (∀ he', node_of u' e = Some he' →
                    ∃ he, node_of u e = Some he ∧ parent he' = parent he
                          ∧ next_sibling he' = next_sibling he)
          ∧ (∀ he, node_of u e = Some he → isValid (parent he) = true →
                   is_Some (node_of u' e)).
Proof.
  induction l as [|c l IH]; intros fuel u c0 Hbr He Hfc Hk Hnd Hf.
  - destruct fuel as [|fuel]; [simpl in Hf; lia|]. simpl in Hk. simpl.
    rewrite Hfc, bind_Some, Hk. exists u. split; [done|]. split; [done|].
    split; [apply links_only_refl|]. split; [done|]. split; [|split].
    + intros x Hx. by apply elem_of_nil in Hx.
    + intros he' Hhe'. exists he'. done.
    + intros he Hhe _. eauto.
  - destruct fuel as [|fuel]; [simpl in Hf; lia|]. simpl in Hf.
    simpl in Hk. destruct Hk as (-> & Hv & hc & Hnc & Hp & Hk).
    apply NoDup_cons in Hnd as [Hel Hnd]. apply NoDup_cons in Hnd as [Hcl Hnd].
    assert (c ≠ e) as Hce by (intros ->; apply Hel; by left).
    rewrite (getFirstChild_via_node _ _ He Hbr) in Hfc. injection Hfc as Hfc.
    destruct (node_of u e) as [he|] eqn:Hne; simpl in Hfc; [|by subst c].
    destruct (setParent_detach_first fuel u e c he hc Hbr Hne Hfc Hnc Hp Hce)
      as (u1 & Hu1 & Hbr1 & Hlo1 & Hn1 & Hpc1 & Hne1).
    assert (is_Some (get (m_entities u1) e)) as He1.
    { apply get_is_Some. rewrite (lo_size _ _ Hlo1). destruct He as [? He].
      by eapply get_lt. }
    assert (kids u1 e (next_sibling hc) l) as Hk1.
    { apply (kids_frame u); [|done]. intros x Hx. apply Hn1.
      - intros ->. done.
      - intros ->. apply Hel. by right. }
    assert (∃ c1, getFirstChild e u1 = Some c1 ∧ kids u1 e c1 l) as (c1 & Hfc1 & Hk1').
    { rewrite (getFirstChild_via_node _ _ He1 Hbr1), Hne1.
      destruct (isValid (parent he) || isValid (next_sibling hc)) eqn:Hor; simpl.
      - exists (next_sibling hc). done.
      - apply orb_false_iff in Hor as [_ Hns].
        rewrite (kids_invalid _ _ _ _ Hk1 Hns). exists INVALID_ENTITY. done. }
    destruct (IH fuel u1 c1 Hbr1 He1 Hfc1 Hk1')
      as (u' & Hu' & Hbr' & Hlo' & Hn' & Hp' & He' & Hkeep).
    { apply NoDup_cons. split; [|done]. intros Hin. apply Hel. by right. }
    { lia. }
    exists u'. split.
    { simpl. rewrite (getFirstChild_via_node _ _ He Hbr), Hne, bind_Some. simpl.
      rewrite Hfc, Hv, Hu1, bind_Some. done. }
    split; [done|]. split; [by eapply links_only_trans|]. split; [|split; [|split]].
    + intros x Hxe Hx. rewrite Hn'; [|done|].
      * apply Hn1; [|done]. intros ->. apply Hx. by left.
      * intros Hin. apply Hx. by right.
    + intros x Hx. apply elem_of_cons in Hx as [->|Hx]; [|by apply Hp'].
      rewrite Hn' by done. done.
    + intros he' Hhe'. destruct (He' _ Hhe') as (he1 & Hhe1 & Hp1 & Hs1).
      rewrite Hne1 in Hhe1. destruct (isValid (parent he) || _); [|done].
      injection Hhe1 as <-. exists he. done.
    + intros he0 [= <-] Hvp. rewrite Hvp in Hne1. simpl in Hne1.
      by apply (Hkeep _ Hne1).
Qed.

(** ** Destroying an entity *)

Lemma land_type_bit_testbit (m t : Z) :
  0 ≤ t < MAX_TYPES_COUNT → Z.land m (type_bit t) ≠ 0 → Z.testbit m t = true.
Proof.
  intros Ht Hne. rewrite type_bit_pow in Hne by done.
  destruct (Z.testbit m t) eqn:Hb; [done|]. exfalso. apply Hne.
  apply Z.bits_inj'. intros n Hn.
  rewrite Z.land_spec, Z.pow2_bits_eqb, Z.bits_0 by lia.
  destruct (Z.eqb_spec t n); [subst; by rewrite Hb|apply andb_false_r].
Qed.

Lemma clear_type_bit_changes (m t : Z) :
  0 ≤ t < MAX_TYPES_COUNT → Z.testbit m t = true →
  m ≠ Z.land m (u64_not (type_bit t)).
Proof.
  intros Ht Hb Heq. apply (f_equal (λ x, Z.testbit x t)) in Heq.
  rewrite Z.land_spec, Hb, u64_not_type_bit_testbit in Heq by (done || lia).
  rewrite (bool_decide_true (t = t)) in Heq by done.
  by rewrite andb_false_r in Heq.
Qed.



Lemma rest_same_trans (e : Z) (u1 u2 u3 : Universe) :
  rest_same e u1 u2 → rest_same e u2 u3 → rest_same e u1 u3.
Proof.
  intros [H1 T1 N1 F1 S1 O1] [H2 T2 N2 F2 S2 O2]. split; try congruence.
  intros x Hx. by rewrite O2, O1.
Qed.

Lemma mask_within_clear (m i : Z) :
  mask_within (Z.land m (u64_not (type_bit i))) m.
Proof.
  intros j _ Hj Hm. apply Hj.
  rewrite <- Z.land_assoc, (Z.land_comm (u64_not _)), Z.land_assoc, Hm. apply Z.land_0_l.
Qed.

(** a scene that calls back [onComponentDestroyed] does what
    [destroyEntity] expects of it *)
Lemma scenes_call_back_destroy {Blob} (map : ComponentTypeMap Blob) (e mask : Z) :
  scenes_call_back map → scenes_destroy map e mask.
Proof.
  intros Hmap i Hi _. destruct (Hmap i Hi) as (c & Hc & Hcb).
  exists c. split; [done|]. intros u d Hd Hbit.
  rewrite Hcb. unfold onComponentDestroyed. rewrite Hd, bind_Some. cbv zeta.
  pose proof (clear_type_bit_changes (components d) i Hi
                (land_type_bit_testbit _ _ Hi Hbit)) as Hch.
  rewrite bool_decide_false by done.
  rewrite (modify_entity_Some _ _ _ _ Hd), bind_Some.
  pose proof (get_lt _ _ _ Hd) as Hlt.
  eexists _, _. split; [done|].
  cbn [m_entities emit with_entities]. rewrite get_set_eq by done.
  split; [|split; [done|]].
  - split; try done.
    + cbn [m_entities emit with_entities]. apply size_set.
    + intros x Hx. cbn [m_entities emit with_entities]. apply get_set_ne; lia.
  - cbn [components set_components]. split; [by destruct d|].
    split; [by apply land_clear_type_bit|apply mask_within_clear].
Qed.

(** the loop over the component types: every component of the entity is
    destroyed by its scene *)
Lemma destroy_components_spec {Blob} (map : ComponentTypeMap Blob) (e all : Z) (n : nat) :
  ∀ (i mask : Z) (u : Universe) (d : EntityData),
    scenes_destroy map e all → mask_within mask all →
    get (m_entities u) e = Some d → components d = mask →
    0 ≤ i → i + Z.of_nat n ≤ MAX_TYPES_COUNT →
    ∃ u' d', destroy_components map n i mask e u = Some u'
             ∧ rest_same e u u'
             ∧ get (m_entities u') e = Some d'
             ∧ d' = set_components (components d') d.
Proof.
  induction n as [|n IH]; intros i mask u d Hmap Hin Hd Hmask Hi Hn.
  - exists u, d. split; [done|]. split; [by split|]. split; [done|]. by destruct d.
  - simpl. destruct (Z.land mask (type_bit i) =? 0) eqn:Hbit; simpl.
    + apply (IH (i + 1) mask u d); auto; lia.
    + apply Z.eqb_neq in Hbit.
      assert (0 ≤ i < MAX_TYPES_COUNT) as Hrange by lia.
      destruct (Hmap i Hrange (Hin i Hrange Hbit)) as (c & Hc & Hdestroy).
      rewrite <- Hmask in Hbit.
      destruct (Hdestroy u d Hd Hbit) as (u1 & d1 & Hu1 & Hrs1 & Hd1 & Hd1eq & Hgone & Hsub).
      unfold destroyComponent. rewrite Hc, bind_Some, Hu1, bind_Some, Hd1, bind_Some.
      cbv zeta. rewrite bool_decide_false.
      2:{ intros Heq. rewrite Hmask, Heq in Hbit. done. }
      destruct (IH (i + 1) (components d1) u1 d1) as (u' & d' & Hu' & Hrs & Hd' & Hd'eq);
        auto; try lia.
      { intros j Hj Hbj. apply Hin; [done|]. rewrite <- Hmask. by apply Hsub. }
      exists u', d'. split; [done|]. split; [by eapply rest_same_trans|]. split; [done|].
      rewrite Hd'eq, Hd1eq. by destruct d.
Qed.



Lemma index_same_refl (e : Z) (u : Universe) : index_same e u u.
Proof. by split. Qed.

Lemma index_same_trans (e : Z) (u1 u2 u3 : Universe) :
  index_same e u1 u2 → index_same e u2 u3 → index_same e u1 u3.
Proof.
  intros [H1 T1 S1 I1] [H2 T2 S2 I2]. split; try congruence.
  intros x Hx. rewrite I2, I1 by done. done.
Qed.

Lemma rest_same_index_same (e : Z) (u u' : Universe) :
  rest_same e u u' → index_same e u u'.
Proof.
  intros [? ? ? ? ? Hoth]. split; try done. intros x Hx. by rewrite Hoth.
Qed.

Lemma index_same_modify (e i : Z) (u u' : Universe) f :
  modify_entity i f u = Some u' →
  (i = e ∨ ∀ d, hierarchy (f d) = hierarchy d) →
  index_same e u u'.
Proof.
  unfold modify_entity. destruct (get (m_entities u) i) as [d|] eqn:Hd; [|done].
  rewrite bind_Some. intros [= <-] Hf. pose proof (get_lt _ _ _ Hd).
  split; try done.
  - simpl. apply size_set.
  - intros x Hx. simpl. rewrite get_set by done. case_bool_decide as Hxi; [|done].
    subst x. rewrite Hd. simpl. destruct Hf as [->|Hf]; [done|]. by rewrite Hf.
Qed.

Lemma index_same_node_of (e x : Z) (u u' : Universe) :
  index_same e u u' → x ≠ e → node_of u' x = node_of u x.
Proof.
  intros [HH _ _ HI] Hx. unfold node_of. specialize (HI x Hx).
  destruct (get (m_entities u') x) as [d'|], (get (m_entities u) x) as [d|];
    simpl in HI; try done.
  injection HI as HI. rewrite !bind_Some, HI, HH. done.
Qed.

Lemma index_same_range (e x : Z) (u u' : Universe) :
  index_same e u u' → is_Some (get (m_entities u) x) → is_Some (get (m_entities u') x).
Proof.
  intros [_ _ HS _] [d Hd]. apply get_is_Some. rewrite HS. by eapply get_lt.
Qed.

Lemma last_is_Some_size {A} (l : list A) : 0 < size l → is_Some (last l).
Proof. destruct l as [|x l]; [unfold size; simpl; lia|]. intros _. apply last_is_Some. done. Qed.

Lemma destroyEntity_release_spec (e : Z) (u : Universe) :
  wf_tables u → is_Some (get (m_entities u) e) →
  ∃ u', destroyEntity_release e u = Some u' ∧ index_same e u u'.
Proof.
  intros Hwt [d Hd]. pose proof (get_lt _ _ _ Hd) as Hlt.
  unfold destroyEntity_release.
  destruct (modify_entity e _ u) as [u1|] eqn:H1.
  2:{ unfold modify_entity in H1. by rewrite Hd in H1. }
  rewrite bind_Some.
  pose proof (index_same_modify e e _ _ _ H1 ltac:(by left)) as HI1.
  assert (m_names u1 = m_names u ∧ ∃ d1, get (m_entities u1) e = Some d1 ∧ name d1 = name d)
    as (HN1 & d1 & Hd1 & Hnm1).
  { rewrite (modify_entity_Some _ _ _ _ Hd) in H1. injection H1 as <-. split; [done|].
    simpl. rewrite get_set_eq by done. eauto. }
  assert (∃ u2, (if bool_decide (0 ≤ m_first_free_slot u)
                 then modify_entity (m_first_free_slot u) (set_prev e) u1
                 else Some u1) = Some u2
                ∧ index_same e u1 u2 ∧ m_names u2 = m_names u1
                ∧ ∃ d2, get (m_entities u2) e = Some d2 ∧ name d2 = name d)
    as (u2 & -> & HI2 & HN2 & d2 & Hd2 & Hnm2).
  { case_bool_decide as Hff.
    - assert (is_Some (get (m_entities u1) (m_first_free_slot u))) as [df Hdf].
      { apply get_is_Some. rewrite (is_size _ _ _ HI1). split; [done|apply Hwt]. }
      rewrite (modify_entity_Some _ _ _ _ Hdf). eexists. split; [done|].
      split; [eapply (index_same_modify e); [by apply modify_entity_Some|by right]|].
      split; [done|]. simpl. pose proof (get_lt _ _ _ Hdf). rewrite get_set by done.
      case_bool_decide as He.
      + exists (set_prev e df). split; [done|]. simpl. congruence.
      + eauto.
    - exists u1. split; [done|]. split; [apply index_same_refl|]. eauto. }
  rewrite bind_Some, Hd2, bind_Some.
  assert (∃ u3, (if bool_decide (0 ≤ name d2)
                 then back ← last (m_names u2);
                      u ← modify_entity (n_entity back) (set_name_idx (name d2)) u2;
                      entity_data ← get (m_entities u) e;
                      modify_entity e (set_name_idx (-1))
                        (with_names (eraseFast (m_names u) (name entity_data)) u)
                 else Some u2) = Some u3 ∧ index_same e u2 u3)
    as (u3 & -> & HI3).
  { case_bool_decide as Hnm; [|exists u2; split; [done|apply index_same_refl]].
    pose proof (wt_name_index _ Hwt _ _ Hd) as Hnlt.
    destruct (last_is_Some_size (m_names u2)) as [back Hback].
    { rewrite HN2, HN1. lia. }
    rewrite Hback, bind_Some.
    assert (is_Some (get (m_entities u2) (n_entity back))) as [db Hdb].
    { apply get_is_Some. rewrite (is_size _ _ _ HI2), (is_size _ _ _ HI1).
      apply (wt_name_entity _ Hwt). rewrite <- HN1, <- HN2.
      rewrite last_lookup in Hback. by eapply list_elem_of_lookup_2. }
    rewrite (modify_entity_Some _ _ _ _ Hdb), bind_Some.
    pose proof (get_lt _ _ _ Hdb) as Hblt. pose proof (get_lt _ _ _ Hd2) as He2.
    cbn [m_entities with_entities]. rewrite get_set by done.
    assert (∃ d3, (if bool_decide (e = n_entity back)
                   then Some (set_name_idx (name d2) db)
                   else get (m_entities u2) e) = Some d3) as [d3 ->].
    { case_bool_decide; eauto. }
    rewrite bind_Some. unfold modify_entity at 1.
    cbn [m_entities with_entities with_names]. rewrite get_set by done.
    assert (∃ d4, (if bool_decide (e = n_entity back)
                   then Some (set_name_idx (name d2) db)
                   else get (m_entities u2) e) = Some d4) as [d4 ->].
    { case_bool_decide; eauto. }
    rewrite bind_Some. eexists. split; [done|].
    split; try done.
    - cbn [m_entities with_entities with_names]. by rewrite !size_set.
    - intros x Hx. cbn [m_entities with_entities with_names].
      rewrite get_set by (by rewrite size_set). rewrite bool_decide_false by done.
      rewrite get_set by done. case_bool_decide as Hxb; [|done].
      subst x. by rewrite Hdb. }
  rewrite bind_Some. eexists. split; [done|].
  eapply index_same_trans; [exact HI1|]. eapply index_same_trans; [exact HI2|].
  eapply index_same_trans; [exact HI3|]. by split.
Qed.

(** [setParent] returns when the cycle guard and the unlink loop stop *)
Lemma setParent_returns (fuel : nat) (np c : Z) (u : Universe) :
  backrefs u → size (m_transforms u) = size (m_entities u) →
  0 ≤ c < size (m_entities u) → np < size (m_entities u) →
  would_create_cycle fuel np c u = Some false →
  (∀ ch, node_of u c = Some ch → isValid (parent ch) = true →
         c ≠ parent ch
         ∧ ∃ hp l, node_of u (parent ch) = Some hp ∧ sibs u (first_child hp) l
                   ∧ (length l < fuel)%nat) →
  is_Some (setParent fuel np c u).
Proof.
  intros Hbr HT Hc Hnp Hcyc Hold. unfold setParent. rewrite Hcyc, bind_Some.
  destruct (setParent_old_parent_returns fuel np c u Hbr Hc Hold) as (idx & u1 & H1 & Hn1).
  rewrite H1, bind_Some.
  destruct (setParent_old_parent_frame _ _ _ _ _ _ Hbr H1)
    as (Hbr1 & Hlo1 & (d1 & Hd1 & Hidx) & _).
  eapply setParent_new_parent_total; eauto.
  - by rewrite (lo_transforms _ _ Hlo1), (lo_size _ _ Hlo1).
  - intros Hv. split; [|by apply Hn1]. by rewrite (lo_size _ _ Hlo1).
Qed.

Lemma tops_sublist (b : Chain) : tops b `sublist_of` ents b.
Proof.
  induction b as [|e ks IHk rest IHr]; simpl; [done|].
  apply sublist_skip. by apply sublist_inserts_l.
Qed.

Lemma shape_family_kids (u : Universe) (e : Z) (b : Chain) :
  ∀ c, shape u c b → family u e b → kids u e c (tops b).
Proof.
  induction b as [|x ks IHk rest IHr]; intros c Hs Hf; [done|].
  simpl in Hs, Hf. destruct Hs as (-> & Hv & d & h & Hd & Hh & Hk & Hr).
  destruct Hf as (Hp & _ & Hfr).
  pose proof (node_of_get _ _ _ _ Hd Hh) as Hn.
  simpl. split; [done|]. split; [done|]. exists h. split; [done|].
  split; [|by apply IHr].
  rewrite (getParent_node _ _ _ Hn) in Hp. congruence.
Qed.

(** the entities below a member of a chain are entities of the chain, and
    not members of the chain itself *)
Lemma shape_below_member (u : Universe) (e : Z) (be : Chain) (b : Chain) :
  ∀ c, shape u c b → NoDup (ents b) → e ∈ tops b → below u e be →
       ∀ x, x ∈ ents be → x ∈ ents b ∧ x ∉ tops b.
Proof.
  induction b as [|y ks IHk rest IHr]; intros c Hs Hnd He Hbe x Hx.
  { by apply elem_of_nil in He. }
  simpl in Hs. destruct Hs as (-> & Hv & d & h & Hd & Hh & Hk & Hr).
  simpl in Hnd. apply NoDup_cons in Hnd as [Hy Hnd].
  apply NoDup_app in Hnd as (Hndk & Hdisj & Hndr).
  rewrite elem_of_app in Hy.
  simpl in He. apply elem_of_cons in He as [->|He].
  - assert (be = ks) as ->.
    { destruct Hbe as (c' & Hc' & Hs').
      rewrite (getFirstChild_node _ _ _ (node_of_get _ _ _ _ Hd Hh)) in Hc'.
      injection Hc' as <-. by eapply shape_det. }
    split.
    + simpl. rewrite elem_of_cons, elem_of_app. auto.
    + simpl. rewrite elem_of_cons. intros [->|Ht]; [tauto|].
      apply (Hdisj x Hx). by apply tops_ents.
  - destruct (IHr _ Hr Hndr He Hbe x Hx) as [Hin Hnot]. split.
    + simpl. rewrite elem_of_cons, elem_of_app. auto.
    + simpl. rewrite elem_of_cons. intros [->|Ht]; [tauto|done].
Qed.

Lemma sibs_transport (u u' : Universe) (l : list Z) :
  ∀ c, (∀ x h, x ∈ l → node_of u x = Some h →
               ∃ h', node_of u' x = Some h' ∧ next_sibling h' = next_sibling h) →
       sibs u c l → sibs u' c l.
Proof.
  induction l as [|x l IH]; intros c Hn Hs; [done|].
  simpl in *. destruct Hs as (-> & Hv & h & Hh & Hs).
  split; [done|]. split; [done|].
  destruct (Hn x h ltac:(by left) Hh) as (h' & Hh' & Hns).
  exists h'. split; [done|]. rewrite Hns. apply IH; [|done].
  intros y hy Hy. apply Hn. by right.
Qed.

Lemma wf_tables_links_only (u u' : Universe) :
  links_only u u' → wf_tables u → wf_tables u'.
Proof.
  intros Hlo [Hff Hne Hni]. split.
  - by rewrite (lo_first_free _ _ Hlo), (lo_size _ _ Hlo).
  - rewrite (lo_names _ _ Hlo), (lo_size _ _ Hlo). done.
  - intros e d' Hd'. rewrite (lo_names _ _ Hlo).
    destruct (lo_entities _ _ Hlo _ _ Hd') as (d & Hd & ->). simpl. by eapply Hni.
Qed.

Lemma wf_tables_rest_same (e : Z) (u u' : Universe) (d d' : EntityData) :
  rest_same e u u' → get (m_entities u) e = Some d → get (m_entities u') e = Some d' →
  name d' = name d → wf_tables u → wf_tables u'.
Proof.
  intros [_ _ HN HF HS HO] Hd Hd' Hnm [Hff Hne Hni]. split.
  - by rewrite HF, HS.
  - by rewrite HN, HS.
  - intros x dx Hx. rewrite HN. destruct (decide (x = e)) as [->|Hxe].
    + assert (dx = d') as -> by congruence. rewrite Hnm. by eapply Hni.
    + rewrite HO in Hx by done. by eapply Hni.
Qed.

Lemma index_same_getParent (e x : Z) (u u' : Universe) :
  index_same e u u' → x ≠ e → getParent x u' = getParent x u.
Proof.
  intros [HH _ _ HI] Hx. unfold getParent. specialize (HI x Hx).
  destruct (get (m_entities u') x) as [d'|], (get (m_entities u) x) as [d|];
    simpl in HI; try done.
  injection HI as HI. rewrite !bind_Some, HI, HH. done.
Qed.

(** the hierarchy part of [destroyEntity]: the children, then the entity
    itself, are detached *)
Lemma destroyEntity_detach (fuel : nat) (e : Z) (b : Chain) (u : Universe) :
  wf_hierarchy u → 0 ≤ e < size (m_entities u) → enough_fuel u fuel → below u e b →
  ∃ u1 u2, detach_children fuel e u = Some u1
           ∧ setParent fuel INVALID_ENTITY e u1 = Some u2
           ∧ backrefs u2 ∧ links_only u u2
           ∧ ∀ c, c ∈ tops b →
                  from_option parent INVALID_ENTITY (node_of u2 c) = INVALID_ENTITY.
Proof.
  intros Hwf He Hf Hb. pose proof (wf_backrefs _ Hwf) as Hbr.
  destruct (wf_below _ Hwf _ He) as (b' & Hb' & Hnd & Hfam).
  rewrite (below_det _ _ _ _ Hb' Hb) in Hnd, Hfam. clear b' Hb'.
  pose proof Hb as (c0 & Hc0 & Hs).
  apply NoDup_cons in Hnd as [Heb Hnd].
  assert (NoDup (e :: tops b)) as Hndt.
  { apply NoDup_cons. split.
    - intros Hin. apply Heb. by apply tops_ents.
    - exact (sublist_NoDup _ _ Hnd (tops_sublist b)). }
  pose proof (ents_le_nodes _ _ _ Hbr Hs Hnd) as Hlen.
  pose proof (length_tops_ents b) as Hlen'.
  destruct (detach_children_spec e (tops b) fuel u c0 Hbr (get_is_Some _ _ He) Hc0
              (shape_family_kids _ _ _ _ Hs Hfam) Hndt)
    as (u1 & Hu1 & Hbr1 & Hlo1 & Hn1 & Hp1 & He1 & Hkeep).
  { unfold enough_fuel in Hf. lia. }
  exists u1.
  assert (is_Some (setParent fuel INVALID_ENTITY e u1)) as [u2 Hu2].
  { apply setParent_returns; try done.
    - rewrite (lo_transforms _ _ Hlo1), (lo_size _ _ Hlo1). apply Hwf.
    - by rewrite (lo_size _ _ Hlo1).
    - rewrite (lo_size _ _ Hlo1). unfold INVALID_ENTITY. lia.
    - intros ch Hch Hv.
      destruct (He1 _ Hch) as (he & Hhe & Hpe & Hnse). rewrite Hpe in Hv |- *.
      destruct (wf_parent_node _ _ _ Hwf Hhe Hv) as (hq & bq & Hnq & Hsq & Hin & Hndq).
      apply NoDup_cons in Hndq as [Hq Hndq].
      assert (e ≠ parent he) as Hne by (intros Heq; apply Hq; rewrite <- Heq; by apply tops_ents).
      split; [done|].
      assert (∀ x, x ∈ ents b → x ∈ ents bq ∧ x ∉ tops bq) as Hsub
        by (by eapply shape_below_member).
      exists hq, (tops bq). split; [|split].
      + rewrite Hn1; [done|congruence|].
        intros Hin'. apply Hq. by apply Hsub, tops_ents.
      + apply (sibs_transport u); [|by apply shape_sibs].
        intros x h Hx Hh. destruct (decide (x = e)) as [->|Hxe].
        * assert (h = he) as -> by congruence.
          destruct (Hkeep _ Hhe Hv) as [he1 Hhe1].
          destruct (He1 _ Hhe1) as (he' & Hhe' & _ & Hns).
          exists he1. split; [done|]. congruence.
        * exists h. split; [|done]. rewrite Hn1; [done|done|].
          intros Hin'. by apply (Hsub x (tops_ents _ _ Hin')).
      + pose proof (ents_le_nodes _ _ _ Hbr Hsq Hndq).
        pose proof (length_tops_ents bq). unfold enough_fuel in Hf. lia. }
  exists u2. split; [done|]. split; [done|].
  destruct (setParent_accepted fuel INVALID_ENTITY e u1 u2 Hbr1 eq_refl Hu2)
    as (Hbr2 & Hlo2 & _ & Hfr).
  split; [done|]. split; [by eapply links_only_trans|].
  intros c Hc.
  assert (c ≠ e) as Hce.
  { intros ->. apply Heb. by apply tops_ents. }
  destruct (node_of u2 c) as [h2|] eqn:Hh2; [|done]. simpl.
  destruct (Hfr c h2 Hce Hh2) as [(h1 & Hh1 & _ & Hp & _)|Hp]; [|done].
  rewrite Hp. specialize (Hp1 c Hc). by rewrite Hh1 in Hp1.
Qed.

(** C6: [destroyEntity(e)] of a valid entity returns, and after it every
    entity that was a child of [e] has no parent, and its world transform
    is the one it had before.  Of the scenes no more is asked than that
    those of the components [e] has destroy them ([scenes_destroy]): an
    entity without components can be destroyed whatever is registered. *)
Theorem destroyEntity_orphans {Blob} (map : ComponentTypeMap Blob) (fuel : nat)
    (e : Z) (d : EntityData) (b : Chain) (u : Universe) :
  wf_hierarchy u → wf_tables u → scenes_destroy map e (components d) →
  enough_fuel u fuel →
  get (m_entities u) e = Some d → valid d = true →
  below u e b →
  ∃ u', destroyEntity map fuel e u = Some u'
        ∧ ∀ c, c ∈ tops b →
               getParent c u' = Some INVALID_ENTITY
               ∧ getTransform c u' = getTransform c u.
Proof.
  intros Hwf Hwt Hmap Hf Hd Hvalid Hb.
  pose proof (get_lt _ _ _ Hd) as He.
  destruct (destroyEntity_detach fuel e b u Hwf He Hf Hb)
    as (u1 & u2 & Hu1 & Hu2 & Hbr2 & Hlo2 & Hp2).
  assert (is_Some (get (m_entities u2) e)) as [d2 Hd2].
  { apply get_is_Some. by rewrite (lo_size _ _ Hlo2). }
  assert (components d2 = components d) as Hmask2.
  { destruct (lo_entities _ _ Hlo2 _ _ Hd2) as (d0 & Hd0 & ->).
    rewrite Hd in Hd0. by injection Hd0 as <-. }
  assert (mask_within (components d2) (components d)) as Hin2.
  { rewrite Hmask2. by intros j _ Hj. }
  destruct (destroy_components_spec map e (components d) (Z.to_nat MAX_TYPES_COUNT) 0
              (components d2) u2 d2 Hmap Hin2 Hd2 eq_refl ltac:(done) ltac:(done))
    as (u3 & d3 & Hu3 & Hrs3 & Hd3 & Hd3eq).
  pose proof (wf_tables_links_only _ _ Hlo2 Hwt) as Hwt2.
  assert (wf_tables u3) as Hwt3.
  { eapply wf_tables_rest_same; eauto. by rewrite Hd3eq. }
  destruct (destroyEntity_release_spec e u3 Hwt3 ltac:(eauto)) as (u4 & Hu4 & HI4).
  exists u4. split.
  { unfold destroyEntity. rewrite Hd, bind_Some, Hvalid. cbn [negb].
    rewrite Hu1, bind_Some, Hu2, bind_Some, Hd2, bind_Some, Hu3, bind_Some. done. }
  pose proof (rest_same_index_same _ _ _ Hrs3) as HI3.
  pose proof (index_same_trans _ _ _ _ HI3 HI4) as HI.
  intros c Hc.
  assert (c ≠ e) as Hce.
  { destruct (wf_below _ Hwf _ He) as (b' & Hb' & Hnd & _).
    rewrite (below_det _ _ _ _ Hb' Hb) in Hnd. apply NoDup_cons in Hnd as [Heb _].
    intros ->. apply Heb. by apply tops_ents. }
  assert (is_Some (get (m_entities u2) c)) as Hc2.
  { apply get_is_Some. rewrite (lo_size _ _ Hlo2).
    destruct Hb as (c0 & _ & Hs).
    destruct (shape_node _ _ _ _ Hs (tops_ents _ _ Hc)) as [h Hh].
    by eapply node_of_range. }
  split.
  - rewrite (index_same_getParent _ _ _ _ HI Hce).
    rewrite (getParent_via_node _ _ Hc2 Hbr2). by rewrite (Hp2 c Hc).
  - unfold getTransform.
    by rewrite (is_transforms _ _ _ HI), (lo_transforms _ _ Hlo2).
Qed.

(** ** The free list under the three calls *)

Lemma free_seg_ext (es es' : list EntityData) (l : list Z) :
  ∀ head p t, (∀ i, i ∈ l → get es' i = get es i) →
              free_seg es head p l t → free_seg es' head p l t.
Proof.
  induction l as [|i l IH]; intros head p t Hext Hc; [done|].
  simpl in *. destruct Hc as (-> & d & Hd & Hv & Hp & Hc).
  split; [done|]. exists d. rewrite Hext by (by left).
  repeat split; try done. apply IH; [|done]. intros j Hj. apply Hext. by right.
Qed.

Lemma free_seg_range (es : list EntityData) (l : list Z) :
  ∀ head p t i, free_seg es head p l t → i ∈ l → 0 ≤ i < size es.
Proof.
  induction l as [|j l IH]; intros head p t i Hc Hi; [by apply elem_of_nil in Hi|].
  simpl in Hc. destruct Hc as (-> & d & Hd & _ & _ & Hc).
  apply elem_of_cons in Hi as [->|Hi]; [by eapply get_lt|by eapply IH].
Qed.

Lemma free_seg_invalid (es : list EntityData) (l : list Z) :
  ∀ head p t i d, free_seg es head p l t → i ∈ l → get es i = Some d → valid d = false.
Proof.
  induction l as [|j l IH]; intros head p t i d Hc Hi Hd; [by apply elem_of_nil in Hi|].
  simpl in Hc. destruct Hc as (-> & d' & Hd' & Hv & _ & Hc).
  apply elem_of_cons in Hi as [->|Hi]; [congruence|by eapply IH].
Qed.

Lemma default_last_cons (p i : Z) (l : list Z) :
  default p (last (i :: l)) = default i (last l).
Proof.
  destruct l as [|j l]; [done|]. rewrite last_cons_cons.
  destruct (last_is_Some (j :: l)) as [_ H]. destruct (H ltac:(done)) as [x ->]. done.
Qed.

Lemma free_seg_app (es : list EntityData) (l1 l2 : list Z) :
  ∀ head p t,
    free_seg es head p (l1 ++ l2) t
    ↔ ∃ mid, free_seg es head p l1 mid ∧ free_seg es mid (default p (last l1)) l2 t.
Proof.
  induction l1 as [|i l1 IH]; intros head p t; simpl.
  - split; [intros H; exists head; done|]. intros (mid & -> & H). done.
  - split.
    + intros (-> & d & Hd & Hv & Hp & Hc). apply IH in Hc as (mid & H1 & H2).
      exists mid. split; [split; [done|]; exists d; done|].
      by rewrite default_last_cons.
    + intros (mid & (-> & d & Hd & Hv & Hp & H1) & H2). split; [done|].
      exists d. repeat split; try done. apply IH. exists mid. split; [done|].
      by rewrite default_last_cons in H2.
Qed.

(** the first slot of a segment may hold any [prev] *)
Lemma free_seg_set_prev (es : list EntityData) (l : list Z) (i : Z) (d : EntityData)
    (head p q t : Z) :
  NoDup (i :: l) → get es i = Some d → free_seg es head p (i :: l) t →
  free_seg (set es i (set_prev q d)) head q (i :: l) t.
Proof.
  intros Hnd Hd Hc. simpl in Hc.
  destruct Hc as (-> & d' & Hd' & Hv & Hp & Hc). assert (d' = d) as -> by congruence.
  apply NoDup_cons in Hnd as [Hi Hnd]. pose proof (get_lt _ _ _ Hd).
  simpl. split; [done|]. exists (set_prev q d). rewrite get_set_eq by done.
  repeat split; try done. simpl. apply (free_seg_ext es); [|done].
  intros j Hj. apply get_set_ne; [lia|]. intros ->. done.
Qed.

(** the last slot of a segment may be followed by any slot *)
Lemma free_seg_set_next (es : list EntityData) (l : list Z) :
  ∀ (head p t t' j : Z) (d : EntityData),
    NoDup l → last l = Some j → get es j = Some d → free_seg es head p l t →
    free_seg (set es j (set_next t' d)) head p l t'.
Proof.
  induction l as [|i l IH]; intros head p t t' j d Hnd Hl Hd Hc; [done|].
  apply NoDup_cons in Hnd as [Hi Hnd].
  simpl in Hc. destruct Hc as (-> & di & Hdi & Hv & Hp & Hc).
  pose proof (get_lt _ _ _ Hd) as Hlt.
  destruct l as [|i' l].
  - simpl in Hl. injection Hl as <-. assert (di = d) as -> by congruence.
    simpl. split; [done|]. exists (set_next t' d). rewrite get_set_eq by done. done.
  - rewrite last_cons_cons in Hl.
    assert (j ≠ i).
    { intros ->. apply Hi. rewrite last_lookup in Hl. by eapply list_elem_of_lookup_2. }
    split; [done|]. exists di. rewrite get_set_ne by lia.
    split; [done|]. split; [done|]. split; [done|].
    apply (IH _ _ t); done.
Qed.

Lemma relinked_refl (es : list EntityData) : relinked es es.
Proof. split; [done|]. intros i x Hx. exists x. split; [done|]. by destruct x. Qed.

Lemma relinked_trans (es1 es2 es3 : list EntityData) :
  relinked es1 es2 → relinked es2 es3 → relinked es1 es3.
Proof.
  intros [S1 H1] [S2 H2]. split; [congruence|]. intros i x3 Hx3.
  destruct (H2 _ _ Hx3) as (x2 & Hx2 & E3). destruct (H1 _ _ Hx2) as (x1 & Hx1 & E2).
  exists x1. split; [done|]. rewrite E3, E2. done.
Qed.

Lemma relinked_set_prev (es : list EntityData) (i q : Z) (d : EntityData) :
  get es i = Some d → relinked es (set es i (set_prev q d)).
Proof.
  intros Hd. pose proof (get_lt _ _ _ Hd). split; [apply size_set|].
  intros j x Hx. rewrite get_set in Hx by done. case_bool_decide; [|by apply relinked_refl].
  injection Hx as <-. subst. exists d. split; [done|]. by destruct d.
Qed.

Lemma relinked_set_next (es : list EntityData) (i q : Z) (d : EntityData) :
  get es i = Some d → relinked es (set es i (set_next q d)).
Proof.
  intros Hd. pose proof (get_lt _ _ _ Hd). split; [apply size_set|].
  intros j x Hx. rewrite get_set in Hx by done. case_bool_decide; [|by apply relinked_refl].
  injection Hx as <-. subst. exists d. split; [done|]. by destruct d.
Qed.

Lemma relinked_get (es es' : list EntityData) (i : Z) (x : EntityData) :
  relinked es es' → get es i = Some x →
  ∃ x', get es' i = Some x' ∧ x' = set_next (next x') (set_prev (prev x') x).
Proof.
  intros [HS HR] Hx. destruct (get_is_Some es' i) as [x' Hx'].
  { rewrite HS. by eapply get_lt. }
  destruct (HR _ _ Hx') as (x0 & Hx0 & E). exists x'. split; [done|]. congruence.
Qed.

Lemma free_seg_head (es : list EntityData) (l : list Z) (head p t : Z) :
  free_seg es head p l t → t < 0 → (0 ≤ head ↔ l ≠ []).
Proof.
  destruct l as [|i l]; simpl.
  - intros -> Ht. split; [lia|done].
  - intros (-> & d & Hd & _) _. apply get_lt in Hd. split; [done|lia].
Qed.

(** taking the slot [e] out of the list, as [emplaceEntity] and
    [createEntity] do: the slot before it, if any, gets its [next], the slot
    after it, if any, its [prev] *)
Lemma free_chain_unlink (es : list EntityData) (l1 l2 : list Z) (head e : Z)
    (de : EntityData) :
  free_chain es head (-1) (l1 ++ e :: l2) → NoDup (l1 ++ e :: l2) →
  get es e = Some de →
  ∃ es_a es_b,
    (if bool_decide (0 ≤ prev de)
     then d ← get es (prev de); Some (set es (prev de) (set_next (next de) d))
     else Some es) = Some es_a
    ∧ get es_a e = Some de
    ∧ (if bool_decide (0 ≤ next de)
       then d ← get es_a (next de); Some (set es_a (next de) (set_prev (prev de) d))
       else Some es_a) = Some es_b
    ∧ get es_b e = Some de
    ∧ relinked es es_b
    ∧ (head = e ↔ l1 = [])
    ∧ free_chain es_b (if bool_decide (head = e) then next de else head) (-1) (l1 ++ l2).
Proof.
  unfold free_chain. intros Hc Hnd Hde.
  apply free_seg_app in Hc as (mid & H1 & H2).
  simpl in H2. destruct H2 as (-> & de' & Hde' & Hv & Hp & H2).
  assert (de' = de) as -> by congruence. clear Hde'.
  apply NoDup_app in Hnd as (Hnd1 & Hdisj & Hnd2).
  apply NoDup_cons in Hnd2 as [He2 Hnd2].
  assert (e ∉ l1) as He1 by (intros Hin; apply (Hdisj e Hin); by left).
  pose proof (get_lt _ _ _ Hde) as He.
  assert (head = e ↔ l1 = []) as Hhead.
  { destruct l1 as [|i l1]; simpl in H1; [done|].
    destruct H1 as (-> & _). split; [|done]. intros ->. exfalso. apply He1. by left. }
  (* the slot before *)
  assert (∃ es_a, (if bool_decide (0 ≤ prev de)
                   then d ← get es (prev de); Some (set es (prev de) (set_next (next de) d))
                   else Some es) = Some es_a
                  ∧ get es_a e = Some de ∧ relinked es es_a
                  ∧ (∀ i, i ∈ l2 → get es_a i = get es i)
                  ∧ (l1 ≠ [] → free_seg es_a head (-1) l1 (next de)))
    as (es_a & Ha & Hde_a & Hrel_a & Hext_a & Hseg_a).
  { destruct (last l1) as [j|] eqn:Hlast; simpl in Hp.
    - assert (j ∈ l1) as Hj.
      { rewrite last_lookup in Hlast. by eapply list_elem_of_lookup_2. }
      pose proof (free_seg_range _ _ _ _ _ _ H1 Hj) as Hjr.
      destruct (get_is_Some es j Hjr) as [dj Hdj].
      rewrite Hp. rewrite bool_decide_true by lia. rewrite Hdj, bind_Some.
      eexists. split; [done|].
      assert (j ≠ e) by (intros ->; done).
      split; [by rewrite get_set_ne by lia|].
      split; [by apply relinked_set_next|]. split.
      + intros i Hi. apply get_set_ne; [lia|]. intros ->. apply (Hdisj i Hj). by right.
      + intros _. by eapply free_seg_set_next.
    - rewrite Hp. rewrite bool_decide_false by lia. exists es. split; [done|].
      split; [done|]. split; [apply relinked_refl|]. split; [done|].
      intros Hne. apply last_None in Hlast. done. }
  exists es_a. 
  (* the slot after *)
  assert (∃ es_b, (if bool_decide (0 ≤ next de)
                   then d ← get es_a (next de);
                        Some (set es_a (next de) (set_prev (prev de) d))
                   else Some es_a) = Some es_b
                  ∧ get es_b e = Some de ∧ relinked es_a es_b
                  ∧ (∀ i, i ∈ l1 → get es_b i = get es_a i)
                  ∧ free_seg es_b (next de) (prev de) l2 (-1))
    as (es_b & Hb & Hde_b & Hrel_b & Hext_b & Hseg_b).
  { assert (free_seg es_a (next de) e l2 (-1)) as H2a by (by apply (free_seg_ext es)).
    destruct l2 as [|n l2].
    - simpl in H2. rewrite H2. rewrite bool_decide_false by lia.
      exists es_a. split; [done|]. split; [done|]. split; [apply relinked_refl|]. done.
    - pose proof H2a as (Hn & dn & Hdn & _). pose proof (get_lt _ _ _ Hdn) as Hnr.
      rewrite bool_decide_true by lia. rewrite Hn, Hdn, bind_Some.
      assert (n ≠ e) by (intros ->; apply He2; by left).
      eexists. split; [done|]. split; [by rewrite get_set_ne by lia|].
      split; [by apply relinked_set_prev|]. split.
      + intros i Hi. apply get_set_ne; [lia|]. intros ->. apply (Hdisj i Hi).
        right. by left.
      + rewrite Hn in H2a. by apply (free_seg_set_prev es_a l2 n dn n e). }
  exists es_b. split; [done|]. split; [done|]. split; [done|]. split; [done|].
  split; [by eapply relinked_trans|]. split; [done|].
  apply free_seg_app. exists (next de). split.
  - destruct l1 as [|i l1].
    + simpl. rewrite bool_decide_true; [done|]. by apply Hhead.
    + rewrite bool_decide_false by (intros Heq; by apply Hhead in Heq).
      apply (free_seg_ext es_a); [done|]. by apply Hseg_a.
  - by rewrite <- Hp.
Qed.

Lemma with_entities_id (u : Universe) : with_entities (m_entities u) u = u.
Proof. by destruct u. Qed.

Lemma cond_modify_entity (c : bool) (u : Universe) (i : Z) f (es' : list EntityData) :
  (if c then d ← get (m_entities u) i; Some (set (m_entities u) i (f d))
   else Some (m_entities u)) = Some es' →
  (if c then modify_entity i f u else Some u) = Some (with_entities es' u).
Proof.
  destruct c.
  - unfold modify_entity. destruct (get (m_entities u) i); [|done].
    rewrite !bind_Some. by intros [= <-].
  - intros [= <-]. by rewrite with_entities_id.
Qed.

(** pushing the slot [e] at the head of the list, as [destroyEntity] and
    the loop of [emplaceEntity] do *)
Lemma free_chain_push (es : list EntityData) (l : list Z) (head e : Z) (d : EntityData) :
  NoDup l → e ∉ l → free_chain es head (-1) l → get es e = Some d →
  valid d = false → prev d = -1 → next d = head →
  ∃ es2, (if bool_decide (0 ≤ head)
          then d0 ← get es head; Some (set es head (set_prev e d0))
          else Some es) = Some es2
         ∧ relinked es es2
         ∧ get es2 e = Some d
         ∧ free_chain es2 e (-1) (e :: l).
Proof.
  unfold free_chain. intros Hnd He Hc Hd Hv Hp Hn. pose proof (get_lt _ _ _ Hd) as Hlt.
  destruct l as [|h l].
  - simpl in Hc. subst head. rewrite bool_decide_false by lia.
    exists es. split; [done|]. split; [apply relinked_refl|]. split; [done|].
    simpl. split; [done|]. exists d. done.
  - pose proof Hc as (-> & d0 & Hd0 & Hv0 & Hp0 & Hc0).
    pose proof (get_lt _ _ _ Hd0) as Hlt0.
    rewrite bool_decide_true by lia. rewrite Hd0, bind_Some.
    assert (h ≠ e) as Hhe by (intros ->; apply He; by left).
    eexists. split; [done|]. split; [by apply relinked_set_prev|].
    split; [by rewrite get_set_ne by lia|].
    split; [done|]. exists d. rewrite get_set_ne by lia.
    split; [done|]. split; [done|]. split; [done|]. rewrite Hn.
    by apply (free_seg_set_prev es l h d0 h (-1)).
Qed.

Lemma relinked_flat_entity (es es' : list EntityData) (i : Z) (x' : EntityData) :
  relinked es es' → get es' i = Some x' →
  ∃ x, get es i = Some x ∧ hierarchy x' = hierarchy x ∧ name x' = name x
       ∧ components x' = components x ∧ valid x' = valid x.
Proof.
  intros [_ HR] Hx'. destruct (HR _ _ Hx') as (x & Hx & ->). exists x. done.
Qed.

(** a slot taken out of the free list becomes a live entity *)
Lemma slots_inv_activate (u u' : Universe) (live l l' : list Z) (e head' : Z)
    (de d_new : EntityData) (es_b : list EntityData) :
  slots_inv u live l → get (m_entities u) e = Some de → valid de = false →
  relinked (m_entities u) es_b →
  free_chain es_b head' (-1) l' → NoDup l' → (∀ i, i ∈ l' ↔ i ∈ l ∧ i ≠ e) →
  m_entities u' = set es_b e d_new →
  valid d_new = true → hierarchy d_new = -1 → name d_new = -1 → components d_new = 0 →
  m_first_free_slot u' = head' → m_hierarchy u' = [] → m_names u' = [] →
  size (m_transforms u') = size (m_entities u) →
  slots_inv u' (e :: live) l'.
Proof.
  intros [Hflat Hchain Hnd Hfree Hlnd Hlive] Hde Hv Hrel Hchain' Hnd' Hl' HE' Hvn Hhn Hnn Hcn
    Hff HH HN HT.
  pose proof (get_lt _ _ _ Hde) as He. pose proof Hrel as [Hsz _].
  assert (∀ i x', get (m_entities u') i = Some x' →
                  (i = e ∧ x' = d_new)
                  ∨ (i ≠ e ∧ ∃ x, get (m_entities u) i = Some x
                              ∧ hierarchy x' = hierarchy x ∧ name x' = name x
                              ∧ components x' = components x ∧ valid x' = valid x))
    as Hcases.
  { intros i x' Hx'. rewrite HE' in Hx'. rewrite get_set in Hx' by lia.
    case_bool_decide as Hi; [left; split; congruence|]. right. split; [done|].
    by eapply relinked_flat_entity. }
  split.
  - split; [by rewrite HE', size_set, Hsz|done|done|].
    intros i x' Hx'. destruct (Hcases _ _ Hx') as [[-> ->]|(Hi & x & Hx & Hh & Hn & Hc & Hvx)].
    + done.
    + destruct (flat_entity _ Hflat _ _ Hx) as (? & ? & ?).
      rewrite Hh, Hn, Hc, Hvx. done.
  - rewrite Hff, HE'. apply (free_seg_ext es_b); [|done].
    intros i Hi. apply get_set_ne; [lia|]. intros ->. by apply Hl' in Hi as [_ ?].
  - done.
  - intros i x' Hx'. rewrite Hl'.
    destruct (Hcases _ _ Hx') as [[-> ->]|(Hi & x & Hx & _ & _ & _ & Hvx)].
    + rewrite Hvn. split; [done|]. intros [_ ?]. done.
    + rewrite Hvx, (Hfree _ _ Hx). tauto.
  - apply NoDup_cons. split; [|done]. intros Hin. apply Hlive in Hin as (d & Hd & Hvd).
    congruence.
  - intros i. rewrite elem_of_cons, Hlive. split.
    + intros [->|(d & Hd & Hvd)].
      * exists d_new. rewrite HE', get_set_eq by lia. done.
      * destruct (decide (i = e)) as [->|Hi]; [congruence|].
        destruct (relinked_get _ _ _ _ Hrel Hd) as (x' & Hx' & Ex').
        exists x'. rewrite HE', get_set_ne by lia. split; [done|].
        rewrite Ex'. done.
    + intros (x' & Hx' & Hvx').
      destruct (Hcases _ _ Hx') as [[-> ->]|(Hi & x & Hx & _ & _ & _ & Hvx)]; [by left|].
      right. exists x. split; [done|]. congruence.
Qed.

Lemma free_chain_nil_head (es : list EntityData) (head : Z) (l : list Z) :
  free_chain es head (-1) l → ¬ 0 ≤ head → l = [] ∧ head = -1.
Proof.
  unfold free_chain. destruct l as [|i l]; simpl; [done|].
  intros (-> & d & Hd & _) Hneg. apply get_lt in Hd. lia.
Qed.

Lemma createEntity_inv (p : DVec3) (r : Quat) (u : Universe) (live l : list Z) :
  slots_inv u live l →
  ∃ e u' l', createEntity p r u = Some (e, u') ∧ slots_inv u' (e :: live) l'.
Proof.
  intros Hinv. pose proof Hinv as [Hflat Hchain Hnd Hfree Hlnd Hlive].
  unfold createEntity. case_bool_decide as Hff.
  - (* a slot of the free list *)
    destruct l as [|e l].
    { unfold free_chain in Hchain. simpl in Hchain. lia. }
    pose proof Hchain as (Hhead & de & Hde & Hv & Hp & Hc).
    pose proof (get_lt _ _ _ Hde) as He.
    destruct (free_chain_unlink (m_entities u) [] l (m_first_free_slot u) e de
                Hchain Hnd Hde)
      as (es_a & es_b & Ha & Hde_a & Hb & Hde_b & Hrel & _ & Hchain_b).
    rewrite Hp in Ha, Hb. rewrite bool_decide_false in Ha by lia. injection Ha as <-.
    rewrite bool_decide_true in Hchain_b by done.
    cbv zeta. rewrite Hhead, Hde, bind_Some.
    destruct (get_is_Some (m_transforms u) e) as [te Hte].
    { by rewrite (flat_transforms _ Hflat). }
    rewrite Hte, bind_Some.
    rewrite (cond_modify_entity _ u (next de) (set_prev (-1)) es_b Hb), !bind_Some.
    cbn beta iota.
    unfold modify_transform. cbn [m_transforms with_first_free_slot with_entities].
    rewrite Hte, !bind_Some. cbn beta.
    unfold modify_entity. cbn [m_entities with_transforms with_first_free_slot with_entities].
    rewrite Hde_b, !bind_Some.
    eexists _, _, l. split; [done|].
    apply NoDup_cons in Hnd as [Hel Hnd].
    eapply (slots_inv_activate u _ live (e :: l) l e (next de) de); try done.
    + intros i. rewrite elem_of_cons. split; [|tauto].
      intros Hi. split; [by right|]. intros ->. done.
    + apply (flat_hierarchy _ Hflat).
    + apply (flat_names _ Hflat).
    + cbn. rewrite size_set. apply (flat_transforms _ Hflat).
  - (* a new slot *)
    destruct (free_chain_nil_head _ _ _ Hchain Hff) as [-> Hhead].
    cbv zeta. rewrite !bind_Some. cbn beta iota.
    pose proof (size_nonneg (m_entities u)) as Hsz.
    unfold modify_transform. cbn [m_transforms with_transforms with_entities].
    assert (get (m_transforms u ++ [indet_transform]) (size (m_entities u))
            = Some indet_transform) as ->.
    { rewrite <- (flat_transforms _ Hflat). apply get_app_size. }
    rewrite !bind_Some. cbn beta.
    unfold modify_entity. cbn [m_entities with_transforms with_entities].
    rewrite get_app_size, !bind_Some.
    eexists _, _, []. split; [done|].
    set (n := size (m_entities u)) in *.
    set (d_new := set_valid true _).
    assert (∀ i x, get (set (m_entities u ++ [indet_entity]) n d_new) i = Some x →
                   (i = n ∧ x = d_new) ∨ (i ≠ n ∧ get (m_entities u) i = Some x)) as Hcases.
    { intros i x Hx. rewrite get_set in Hx by (rewrite size_app; change (size [_]) with 1; lia).
      case_bool_decide as Hi; [left; split; congruence|]. right. split; [done|].
      apply get_app_Some in Hx as [Hx|[? _]]; done. }
    split; cbn [m_entities m_transforms m_hierarchy m_names m_first_free_slot
                emit with_transforms with_entities].
    + split; cbn [m_entities m_transforms m_hierarchy m_names m_first_free_slot
                  emit with_transforms with_entities].
      * rewrite !size_set, !size_app. rewrite (flat_transforms _ Hflat). done.
      * apply (flat_hierarchy _ Hflat).
      * apply (flat_names _ Hflat).
      * intros i x Hx. destruct (Hcases _ _ Hx) as [[-> ->]|[Hi Hx']]; [done|].
        by eapply flat_entity.
    + done.
    + constructor.
    + intros i x Hx. destruct (Hcases _ _ Hx) as [[-> ->]|[Hi Hx']].
      * split; [done|]. intros Hin. by apply elem_of_nil in Hin.
      * apply (Hfree _ _ Hx').
    + apply NoDup_cons. split; [|done]. intros Hin.
      apply Hlive in Hin as (d & Hd & _). apply get_lt in Hd. lia.
    + intros i. rewrite elem_of_cons, Hlive. split.
      * intros [->|(d & Hd & Hvd)].
        -- exists d_new. rewrite get_set_eq; [done|].
           rewrite size_app. change (size [_]) with 1. lia.
        -- exists d. pose proof (get_lt _ _ _ Hd). rewrite get_set_ne by lia.
           rewrite get_app_l by lia. done.
      * intros (x & Hx & Hvx). destruct (Hcases _ _ Hx) as [[-> ->]|[Hi Hx']]; [by left|].
        right. eauto.
Qed.

(** one turn of the loop of [emplaceEntity] puts a new slot at the head of
    the free list *)
Lemma emplace_slot_inv (u : Universe) (live l : list Z) :
  slots_inv u live l →
  ∃ u', emplace_slot u = Some u'
        ∧ slots_inv u' live (size (m_entities u) :: l)
        ∧ size (m_entities u') = size (m_entities u) + 1.
Proof.
  intros [Hflat Hchain Hnd Hfree Hlnd Hlive].
  unfold emplace_slot. cbv zeta.
  cbn [m_first_free_slot m_entities with_transforms with_entities].
  set (data := mkEntityData _ _ _ _ _ _).
  set (tr := set_scale _ _).
  set (n := size (m_entities u)).
  pose proof (size_nonneg (m_entities u)) as Hn. fold n in Hn.
  assert (size (m_entities u ++ [data]) - 1 = n) as ->.
  { rewrite size_app. change (size [data]) with 1. lia. }
  assert (∀ i, i ∈ l → 0 ≤ i < n) as Hrange.
  { intros i Hi. eapply free_seg_range; eauto. }
  assert (n ∉ l) as Hnl by (intros Hin; apply Hrange in Hin; lia).
  destruct (free_chain_push (m_entities u ++ [data]) l (m_first_free_slot u) n data)
    as (es2 & Hpush & Hrel & Hdata & Hchain'); try done.
  { apply (free_seg_ext (m_entities u)); [|done].
    intros i Hi. apply get_app_l. apply Hrange in Hi. lia. }
  { apply get_app_size. }
  set (u0 := with_transforms (m_transforms u ++ [tr])
               (with_entities (m_entities u ++ [data]) u)).
  rewrite (cond_modify_entity _ u0 (m_first_free_slot u) (set_prev n) es2 Hpush), bind_Some.
  eexists. split; [done|].
  pose proof Hrel as [Hsz _].
  assert (∀ i x', get es2 i = Some x' →
            ∃ x, hierarchy x' = hierarchy x ∧ name x' = name x
                 ∧ components x' = components x ∧ valid x' = valid x
                 ∧ ((i ≠ n ∧ get (m_entities u) i = Some x) ∨ (i = n ∧ x = data)))
    as Hcases.
  { intros i x' Hx'.
    destruct (relinked_flat_entity _ _ _ _ Hrel Hx') as (x & Hx & Hh & Hnm & Hc & Hv).
    exists x. repeat (split; [done|]).
    apply get_app_Some in Hx as [Hx|[? ?]]; [left|by right].
    split; [|done]. apply get_lt in Hx. fold n in Hx. lia. }
  split; [|cbn [m_entities with_first_free_slot with_entities];
           rewrite Hsz, size_app; by change (size [data]) with 1].
  split; cbn [m_entities m_transforms m_hierarchy m_names m_first_free_slot
              with_first_free_slot with_transforms with_entities u0].
  - split; cbn [m_entities m_transforms m_hierarchy m_names m_first_free_slot
                with_first_free_slot with_transforms with_entities u0].
    + rewrite Hsz, !size_app, (flat_transforms _ Hflat). done.
    + apply (flat_hierarchy _ Hflat).
    + apply (flat_names _ Hflat).
    + intros i x' Hx'.
      destruct (Hcases _ _ Hx') as (x & Hh & Hnm & Hc & Hv & [[_ Hx]|[_ ->]]).
      * destruct (flat_entity _ Hflat _ _ Hx) as (? & ? & ?).
        rewrite Hh, Hnm, Hc, Hv. done.
      * rewrite Hh, Hnm, Hv. done.
  - replace (size es2 - 1) with n; [done|].
    rewrite Hsz, size_app. change (size [data]) with 1. lia.
  - apply NoDup_cons. done.
  - intros i x' Hx'. rewrite elem_of_cons.
    destruct (Hcases _ _ Hx') as (x & _ & _ & _ & Hv & [[Hi Hx]|[-> ->]]).
    + rewrite Hv, (Hfree _ _ Hx). tauto.
    + rewrite Hv. split; [by left|done].
  - done.
  - intros i. rewrite Hlive. split.
    + intros (d & Hd & Hvd).
      assert (get (m_entities u ++ [data]) i = Some d) as Hd'.
      { rewrite get_app_l; [done|]. apply get_lt in Hd. lia. }
      destruct (relinked_get _ _ _ _ Hrel Hd') as (x' & Hx' & Ex').
      exists x'. split; [done|]. rewrite Ex'. done.
    + intros (x' & Hx' & Hvx').
      destruct (Hcases _ _ Hx') as (x & _ & _ & _ & Hv & [[Hi Hx]|[-> ->]]).
      * exists x. split; [done|]. congruence.
      * rewrite Hv in Hvx'. done.
Qed.

Lemma emplace_slots_inv (n : nat) :
  ∀ (u : Universe) (live l : list Z),
    slots_inv u live l →
    ∃ u' l', emplace_slots n u = Some u'
             ∧ slots_inv u' live l'
             ∧ size (m_entities u') = size (m_entities u) + Z.of_nat n.
Proof.
  induction n as [|n IH]; intros u live l Hinv.
  - exists u, l. split; [done|]. split; [done|]. lia.
  - destruct (emplace_slot_inv u live l Hinv) as (u1 & E1 & Hinv1 & Hsz1).
    destruct (IH _ _ _ Hinv1) as (u2 & l2 & E2 & Hinv2 & Hsz2).
    exists u2, l2. cbn [emplace_slots]. rewrite E1, bind_Some.
    split; [done|]. split; [done|]. lia.
Qed.

Lemma NoDup_middle (la lb : list Z) (e : Z) :
  NoDup (la ++ e :: lb) →
  NoDup (la ++ lb) ∧ ∀ i, i ∈ la ++ lb ↔ i ∈ la ++ e :: lb ∧ i ≠ e.
Proof.
  intros Hnd. rewrite <- Permutation_middle in Hnd. apply NoDup_cons in Hnd as [Hel Hnd].
  split; [done|]. intros i. rewrite !elem_of_app, elem_of_cons. rewrite elem_of_app in Hel.
  split.
  - intros Hi. split; [tauto|]. intros ->. tauto.
  - tauto.
Qed.

(** [emplaceEntity] of an index that is not live *)
Lemma emplaceEntity_inv (e : Z) (u : Universe) (live l : list Z) :
  slots_inv u live l → e ∉ live →
  (0 ≤ e → ∃ u' l', emplaceEntity e u = Some u' ∧ slots_inv u' (e :: live) l')
  ∧ (e < 0 → emplaceEntity e u = None).
Proof.
  intros Hinv Hel.
  destruct (emplace_slots_inv (Z.to_nat (e + 1 - size (m_entities u))) u live l Hinv)
    as (u1 & l1 & E1 & Hinv1 & Hsz1).
  unfold emplaceEntity. rewrite E1, bind_Some. split.
  - intros He.
    destruct (get_is_Some (m_entities u1) e) as [de Hde]; [lia|].
    assert (valid de = false) as Hv.
    { destruct (valid de) eqn:Hv; [|done]. exfalso. apply Hel, (si_live _ _ _ Hinv1). eauto. }
    pose proof Hv as Hin. apply (si_free _ _ _ Hinv1 _ _ Hde) in Hin.
    apply list_elem_of_split in Hin as (la & lb & ->).
    destruct (free_chain_unlink (m_entities u1) la lb (m_first_free_slot u1) e de
                (si_chain _ _ _ Hinv1) (si_nodup _ _ _ Hinv1) Hde)
      as (es_a & es_b & Ha & Hde_a & Hb & Hde_b & Hrel & _ & Hchain_b).
    destruct (NoDup_middle _ _ _ (si_nodup _ _ _ Hinv1)) as [Hnd' Hl'].
    rewrite Hde, bind_Some. cbv zeta.
    set (u2 := if bool_decide (m_first_free_slot u1 = e)
               then with_first_free_slot (next de) u1 else u1).
    assert (m_entities u2 = m_entities u1) as HE2 by (unfold u2; by case_bool_decide).
    assert (m_transforms u2 = m_transforms u1) as HT2 by (unfold u2; by case_bool_decide).
    assert (m_hierarchy u2 = m_hierarchy u1) as HH2 by (unfold u2; by case_bool_decide).
    assert (m_names u2 = m_names u1) as HN2 by (unfold u2; by case_bool_decide).
    assert (m_first_free_slot u2
            = if bool_decide (m_first_free_slot u1 = e) then next de
              else m_first_free_slot u1) as HF2 by (unfold u2; by case_bool_decide).
    clearbody u2.
    rewrite HE2, Hde, bind_Some.
    rewrite <- HE2 in Ha.
    rewrite (cond_modify_entity _ u2 (prev de) (set_next (next de)) es_a Ha), bind_Some.
    cbn [m_entities with_entities]. rewrite Hde_a, bind_Some.
    rewrite (cond_modify_entity _ (with_entities es_a u2) (next de) (set_prev (prev de))
               es_b Hb), bind_Some.
    destruct (get_is_Some (m_transforms u1) e) as [te Hte].
    { rewrite (flat_transforms _ (si_flat _ _ _ Hinv1)). by apply get_lt in Hde. }
    unfold modify_transform. cbn [m_transforms with_entities]. rewrite HT2, Hte, !bind_Some.
    cbn beta. unfold modify_entity. cbn [m_entities with_entities with_transforms].
    rewrite Hde_b, !bind_Some.
    eexists _, (la ++ lb). split; [done|].
    eapply (slots_inv_activate u1 _ live (la ++ e :: lb) (la ++ lb) e _ de); try done.
    + cbn. rewrite HH2. apply (flat_hierarchy _ (si_flat _ _ _ Hinv1)).
    + cbn. rewrite HN2. apply (flat_names _ (si_flat _ _ _ Hinv1)).
    + cbn. rewrite size_set. apply (flat_transforms _ (si_flat _ _ _ Hinv1)).
  - intros He.
    assert (get (m_entities u1) e = None) as ->.
    { unfold get. by rewrite bool_decide_false by lia. }
    done.
Qed.

(** ** [destroyEntity] in a flat state *)

Lemma setParent_flat (fuel : nat) (e : Z) (u : Universe) (d : EntityData) :
  get (m_entities u) e = Some d → hierarchy d = -1 →
  setParent fuel INVALID_ENTITY e u = Some u.
Proof.
  intros Hd Hh. unfold setParent, would_create_cycle, setParent_old_parent,
    setParent_new_parent.
  change (isValid INVALID_ENTITY) with false. cbn iota. rewrite bind_Some. cbn iota.
  rewrite Hd, bind_Some. cbv zeta. rewrite Hh.
  rewrite !(bool_decide_false (0 ≤ -1)) by lia. done.
Qed.

Lemma detach_children_flat (fuel : nat) (e : Z) (u : Universe) (d : EntityData) :
  get (m_entities u) e = Some d → hierarchy d = -1 →
  detach_children (S fuel) e u = Some u.
Proof.
  intros Hd Hh. cbn [detach_children]. unfold getFirstChild.
  rewrite Hd, bind_Some. cbv zeta. rewrite Hh.
  rewrite (bool_decide_true (-1 < 0)) by lia. done.
Qed.

Lemma destroy_components_none {B} (map : ComponentTypeMap B) (n : nat) :
  ∀ (i e : Z) (u : Universe), destroy_components map n i 0 e u = Some u.
Proof.
  induction n as [|n IH]; intros i e u; cbn [destroy_components]; [done|].
  rewrite Z.land_0_l. change (negb (0 =? 0)) with false. cbn iota. apply IH.
Qed.

Lemma destroyEntity_inv {B} (map : ComponentTypeMap B) (fuel : nat) (e : Z)
    (u : Universe) (live l : list Z) (d : EntityData) :
  slots_inv u live l → get (m_entities u) e = Some d → valid d = true →
  ∃ u', destroyEntity map (S fuel) e u = Some u'
        ∧ slots_inv u' (filter (λ x, x ≠ e) live) (e :: l).
Proof.
  intros [Hflat Hchain Hnd Hfree Hlnd Hlive] Hd Hv.
  destruct (flat_entity _ Hflat _ _ Hd) as (Hh & Hnm & Hc). specialize (Hc Hv).
  pose proof (get_lt _ _ _ Hd) as He.
  unfold destroyEntity. rewrite Hd, bind_Some, Hv. cbn [negb].
  rewrite (detach_children_flat fuel e u d Hd Hh), bind_Some.
  rewrite (setParent_flat (S fuel) e u d Hd Hh), bind_Some.
  rewrite Hd, bind_Some, Hc, destroy_components_none, bind_Some.
  unfold destroyEntity_release. cbv zeta.
  set (d' := set_valid false (set_hierarchy_idx (-1) (set_prev (-1)
               (set_next (m_first_free_slot u) d)))).
  rewrite (modify_entity_Some u e _ d Hd), bind_Some. fold d'.
  set (es1 := set (m_entities u) e d').
  assert (e ∉ l) as Hel.
  { intros Hin. apply (Hfree _ _ Hd) in Hin. congruence. }
  destruct (free_chain_push es1 l (m_first_free_slot u) e d')
    as (es2 & Hpush & Hrel & Hd2 & Hchain'); try done.
  { apply (free_seg_ext (m_entities u)); [|done].
    intros i Hi. apply get_set_ne; [lia|]. intros ->. done. }
  { apply get_set_eq. lia. }
  rewrite (cond_modify_entity _ (with_entities es1 u) (m_first_free_slot u) (set_prev e)
             es2 Hpush), bind_Some.
  cbn [m_entities with_entities]. rewrite Hd2, bind_Some.
  assert (name d' = -1) as -> by done.
  rewrite (bool_decide_false (0 ≤ -1)) by lia. rewrite bind_Some.
  eexists. split; [done|].
  pose proof Hrel as [Hsz _].
  assert (∀ i x', get es2 i = Some x' →
            ∃ x, hierarchy x' = hierarchy x ∧ name x' = name x
                 ∧ components x' = components x ∧ valid x' = valid x
                 ∧ ((i ≠ e ∧ get (m_entities u) i = Some x) ∨ (i = e ∧ x = d')))
    as Hcases.
  { intros i x' Hx'.
    destruct (relinked_flat_entity _ _ _ _ Hrel Hx') as (x & Hx & Hh' & Hnm' & Hc' & Hv').
    exists x. repeat (split; [done|]).
    unfold es1 in Hx. rewrite get_set in Hx by lia.
    case_bool_decide; [right; split; congruence|by left]. }
  split; cbn [m_entities m_transforms m_hierarchy m_names m_first_free_slot emit
              with_first_free_slot with_entities].
  - split; cbn [m_entities m_transforms m_hierarchy m_names m_first_free_slot emit
                with_first_free_slot with_entities].
    + unfold es1 in Hsz. rewrite Hsz, size_set. apply (flat_transforms _ Hflat).
    + apply (flat_hierarchy _ Hflat).
    + apply (flat_names _ Hflat).
    + intros i x' Hx'.
      destruct (Hcases _ _ Hx') as (x & Hh' & Hnm' & Hc' & Hv' & [[_ Hx]|[_ ->]]).
      * destruct (flat_entity _ Hflat _ _ Hx) as (? & ? & ?).
        rewrite Hh', Hnm', Hc', Hv'. done.
      * rewrite Hh', Hnm', Hv'. done.
  - done.
  - apply NoDup_cons. done.
  - intros i x' Hx'. rewrite elem_of_cons.
    destruct (Hcases _ _ Hx') as (x & _ & _ & _ & Hv' & [[Hi Hx]|[-> ->]]).
    + rewrite Hv', (Hfree _ _ Hx). tauto.
    + rewrite Hv'. split; [by left|done].
  - by apply NoDup_filter.
  - intros i. rewrite list_elem_of_filter, Hlive. split.
    + intros (Hi & x & Hx & Hvx).
      assert (get es1 i = Some x) as Hx1 by (unfold es1; rewrite get_set_ne; [done|lia|done]).
      destruct (relinked_get _ _ _ _ Hrel Hx1) as (x' & Hx' & Ex').
      exists x'. split; [done|]. rewrite Ex'. done.
    + intros (x' & Hx' & Hvx').
      destruct (Hcases _ _ Hx') as (x & _ & _ & _ & Hv' & [[Hi Hx]|[-> ->]]).
      * split; [done|]. exists x. split; [done|]. congruence.
      * rewrite Hv' in Hvx'. done.
Qed.

Lemma valid_from_length (es : list EntityData) :
  ∀ i, length (valid_from i es) = length (filter (λ d, valid d = true) es).
Proof.
  induction es as [|d es IH]; intros i; [done|].
  cbn [valid_from]. rewrite filter_cons.
  destruct (valid d) eqn:Hv.
  - rewrite decide_True by done. cbn [length]. by rewrite IH.
  - rewrite decide_False by done. apply IH.
Qed.

Lemma valid_from_elem (es : list EntityData) :
  ∀ i x, x ∈ valid_from i es
         ↔ i ≤ x ∧ ∃ d, es !! Z.to_nat (x - i) = Some d ∧ valid d = true.
Proof.
  induction es as [|d es IH]; intros i x; cbn [valid_from].
  - rewrite elem_of_nil. split; [done|]. intros (_ & ? & ? & _). done.
  - assert (x ∈ valid_from (i + 1) es
            ↔ i < x ∧ ∃ d0, (d :: es) !! Z.to_nat (x - i) = Some d0 ∧ valid d0 = true) as Htl.
    { rewrite IH. split; intros (Hx & d0 & Hd0 & Hv); (split; [lia|]); exists d0;
        (split; [|done]).
      - replace (Z.to_nat (x - i)) with (S (Z.to_nat (x - (i + 1)))) by lia. done.
      - replace (Z.to_nat (x - i)) with (S (Z.to_nat (x - (i + 1)))) in Hd0 by lia. done. }
    destruct (valid d) eqn:Hv.
    + rewrite elem_of_cons, Htl. split.
      * intros [->|(Hx & Hd0)]; [|split; [lia|done]].
        split; [lia|]. exists d. rewrite Z.sub_diag. done.
      * intros (Hx & d0 & Hd0 & Hv0).
        destruct (decide (x = i)) as [->|Hne]; [by left|]. right.
        split; [lia|]. eauto.
    + rewrite Htl. split.
      * intros (Hx & Hd0). split; [lia|done].
      * intros (Hx & d0 & Hd0 & Hv0). split; [|eauto].
        destruct (decide (x = i)) as [->|Hne]; [|lia].
        rewrite Z.sub_diag in Hd0. injection Hd0 as <-. congruence.
Qed.

Lemma valid_from_NoDup (es : list EntityData) : ∀ i, NoDup (valid_from i es).
Proof.
  induction es as [|d es IH]; intros i; cbn [valid_from]; [constructor|].
  destruct (valid d); [|apply IH].
  apply NoDup_cons. split; [|apply IH].
  rewrite valid_from_elem. intros [? _]. lia.
Qed.

Lemma slots_inv_count (u : Universe) (live l : list Z) :
  slots_inv u live l → count_valid u = length live.
Proof.
  intros Hinv. unfold count_valid. rewrite <- (valid_from_length _ 0).
  apply Permutation_length, NoDup_Permutation.
  - apply valid_from_NoDup.
  - apply (si_live_nodup _ _ _ Hinv).
  - intros x. rewrite valid_from_elem, (si_live _ _ _ Hinv). unfold get.
    rewrite Z.sub_0_r. case_bool_decide; [tauto|].
    split; [lia|]. intros (? & ? & _). done.
Qed.

Lemma empty_universe_inv : slots_inv empty_universe [] [].
Proof.
  split.
  - split; [done..|]. intros i d Hd. apply get_lt in Hd.
    change (size (m_entities empty_universe)) with 0 in Hd. lia.
  - done.
  - constructor.
  - intros i d Hd. apply get_lt in Hd.
    change (size (m_entities empty_universe)) with 0 in Hd. lia.
  - constructor.
  - intros i. rewrite elem_of_nil. split; [done|].
    intros (d & Hd & _). apply get_lt in Hd.
    change (size (m_entities empty_universe)) with 0 in Hd. lia.
Qed.

Lemma reachable_inv {B} (map : ComponentTypeMap B) (fuel : nat) (u : Universe)
    (live : list Z) :
  reachable map fuel true u live → ∃ l, slots_inv u live l.
Proof.
  induction 1 as [|u live p r e u' _ [l IH] Hc|u live e u' _ [l IH] Hd
                  |u live e u' _ [l IH] Hg He].
  - exists []. apply empty_universe_inv.
  - destruct (createEntity_inv p r u live l IH) as (e0 & u0 & l0 & E0 & Hinv0).
    rewrite E0 in Hc. injection Hc as <- <-. eauto.
  - pose proof Hd as Hd'. unfold destroyEntity in Hd'.
    destruct (get (m_entities u) e) as [d|] eqn:Hde; [|done].
    rewrite bind_Some in Hd'. destruct (valid d) eqn:Hv; [|done].
    destruct fuel as [|fuel]; [done|]. clear Hd'.
    destruct (destroyEntity_inv map fuel e u live l d IH Hde Hv) as (u0 & E0 & Hinv0).
    rewrite E0 in Hd. injection Hd as <-. eauto.
  - specialize (Hg eq_refl). rewrite bool_decide_false by done.
    destruct (emplaceEntity_inv e u live l IH Hg) as [Hpos Hneg].
    destruct (decide (0 ≤ e)) as [Hnn|Hn].
    + destruct (Hpos Hnn) as (u0 & l0 & E0 & Hinv0).
      rewrite E0 in He. injection He as <-. eauto.
    + rewrite Hneg in He by lia. done.
Qed.

(** C2: after a sequence of [createEntity], [destroyEntity] and
    [emplaceEntity] calls in which [emplaceEntity] is only called for an
    index that is not live, the number of valid slots is the number of live
    entities, and the slots that are not valid are exactly those of the
    free list, followed from [m_first_free_slot] along [next], with [prev]
    the slot before; in such a state [createEntity] returns, and so do
    [destroyEntity] of a live entity and [emplaceEntity] of an index that
    is not live. *)
Theorem free_list_consistent {B} (map : ComponentTypeMap B) (fuel : nat) (u : Universe)
    (live : list Z) :
  reachable map fuel true u live →
  slots_consistent u live
  ∧ (∀ p r, is_Some (createEntity p r u))
  ∧ (∀ e, e ∈ live → fuel ≠ O → is_Some (destroyEntity map fuel e u))
  ∧ (∀ e, 0 ≤ e → e ∉ live → is_Some (emplaceEntity e u)).
Proof.
  intros [l Hinv]%reachable_inv. split; [|split; [|split]].
  - split; [by eapply slots_inv_count|].
    exists l. split; [apply (si_chain _ _ _ Hinv)|].
    split; [apply (si_nodup _ _ _ Hinv)|apply (si_free _ _ _ Hinv)].
  - intros p r. destruct (createEntity_inv p r u live l Hinv) as (e & u' & _ & -> & _).
    done.
  - intros e (d & Hd & Hv)%(si_live _ _ _ Hinv) Hfuel.
    destruct fuel as [|fuel]; [done|].
    destruct (destroyEntity_inv map fuel e u live l d Hinv Hd Hv) as (u' & -> & _). done.
  - intros e He Hel. destruct (emplaceEntity_inv e u live l Hinv Hel) as [Hpos _].
    destruct (Hpos He) as (u' & _ & -> & _). done.
Qed.

(** ** Serialization *)

Lemma le_bytes_length (n : nat) : ∀ v, length (le_bytes n v) = n.
Proof. induction n as [|n IH]; intros v; simpl; [done|]. by rewrite IH. Qed.

Lemma le_value_le_bytes (n : nat) : ∀ v, le_value (le_bytes n v) = v mod 256 ^ Z.of_nat n.
Proof.
  induction n as [|n IH]; intros v.
  - simpl. by rewrite Z.mod_1_r.
  - cbn [le_bytes le_value]. rewrite IH.
    rewrite Nat2Z.inj_succ, Z.pow_succ_r by lia.
    rewrite (Z.rem_mul_r v 256 (256 ^ Z.of_nat n)) by lia. done.
Qed.

Lemma to_i32_mod (v : Z) : is_i32 v → to_i32 (v mod 2 ^ 32) = v.
Proof.
  unfold is_i32, to_i32. intros Hv. cbv zeta. rewrite Z.mod_mod by lia.
  destruct (decide (0 ≤ v)) as [Hpos|Hneg].
  - rewrite Z.mod_small by lia. rewrite bool_decide_true by lia. done.
  - assert (v mod 2 ^ 32 = v + 2 ^ 32) as ->.
    { symmetry. apply (Z.mod_unique v (2 ^ 32) (-1)); lia. }
    rewrite bool_decide_false by lia. lia.
Qed.

Lemma to_i32_small (n : Z) : 0 ≤ n < 2 ^ 31 → to_i32 n = n.
Proof.
  intros Hn. unfold to_i32. cbv zeta. rewrite Z.mod_small by lia.
  by rewrite bool_decide_true by lia.
Qed.

(** a read of bytes that are there, less than [2^31] of them: the bytes
    are given and the position moves past them *)
Lemma read_unread (n : Z) (st : InputMemoryStream) (bs s : list Z) :
  stream_ok st → unread st = bs ++ s → size bs = n → n < 2 ^ 31 →
  ∃ st', read n st = Some (bs, st') ∧ stream_ok st' ∧ unread st' = s
         ∧ i_data st' = i_data st ∧ i_pos st' = i_pos st + n.
Proof.
  intros [Hpos Hsz] Hun <- Hn. pose proof (size_nonneg bs) as Hbs.
  assert (i_pos st + size bs ≤ i_size st) as Hfit.
  { apply (f_equal length) in Hun. unfold unread in Hun.
    rewrite length_drop, length_app in Hun. unfold i_size, size in *. lia. }
  unfold read. rewrite to_i32_small by lia.
  rewrite (Z.mod_small (i_pos st + size bs)) by lia.
  rewrite bool_decide_false by lia. rewrite bool_decide_true by done.
  eexists. split.
  { f_equal. f_equal. fold (unread st). rewrite Hun. unfold size. rewrite Nat2Z.id.
    apply take_app_length. }
  unfold stream_ok, i_size in *. cbn. split; [lia|]. split; [|done].
  unfold unread. cbn. rewrite Z2Nat.inj_add by lia. rewrite <- drop_drop.
  fold (unread st). rewrite Hun. unfold size. rewrite Nat2Z.id. apply drop_app_length.
Qed.

Lemma read_i32_unread (v : Z) (st : InputMemoryStream) (s : list Z) :
  stream_ok st → unread st = write_i32 v ++ s →
  ∃ st', read_i32 st = Some (to_i32 v, st') ∧ stream_ok st' ∧ unread st' = s
         ∧ i_data st' = i_data st ∧ i_pos st' = i_pos st + 4.
Proof.
  intros Hok Hun.
  destruct (read_unread 4 st (write_i32 v) s Hok Hun) as (st' & Hr & Hrest);
    [unfold size, write_i32; by rewrite le_bytes_length|done|].
  exists st'. split; [|done]. unfold read_i32. rewrite Hr, bind_Some.
  unfold write_i32. rewrite le_value_le_bytes. change (256 ^ Z.of_nat 4) with (2 ^ 32).
  unfold to_i32. cbv zeta. by rewrite Z.mod_mod by lia.
Qed.

Lemma read_i32_write_i32 (v : Z) (st : InputMemoryStream) (s : list Z) :
  is_i32 v → stream_ok st → unread st = write_i32 v ++ s →
  ∃ st', read_i32 st = Some (v, st') ∧ stream_ok st' ∧ unread st' = s.
Proof.
  intros Hv Hok Hun.
  destruct (read_i32_unread v st s Hok Hun) as (st' & Hr & Hok' & Hun' & _).
  exists st'. split; [|done]. rewrite Hr. f_equal. f_equal.
  rewrite <- (to_i32_mod v) at 2 by done.
  unfold to_i32. cbv zeta. by rewrite Z.mod_mod by lia.
Qed.

(** a block of records *)
Lemma read_records {A} (bytes_of : A → list Z) (of_bytes : list Z → A) (sz : nat)
    (l : list A) :
  Forall (stored sz bytes_of of_bytes) l →
  length (l ≫= bytes_of) = (length l * sz)%nat
  ∧ (λ i, of_bytes (take sz (drop (i * sz) (l ≫= bytes_of)))) <$> seq 0 (length l) = l.
Proof.
  induction 1 as [|x l [Hlen Hx] _ [IHlen IH]]; [done|].
  rewrite bind_cons. split.
  - rewrite length_app, IHlen, Hlen. simpl. lia.
  - cbn [length seq fmap list_fmap]. f_equal.
    + change (0 * sz)%nat with 0%nat. rewrite drop_0, take_app_length' by done. done.
    + rewrite <- fmap_S_seq, <- list_fmap_compose. rewrite <- IH at 2.
      apply list_fmap_ext. intros _ i _. simpl. f_equal. f_equal.
      rewrite <- Hlen at 1. apply drop_app_add.
Qed.

Lemma read_block_records {A} (bytes_of : A → list Z) (of_bytes : list Z → A) (sz : nat)
    (l : list A) (st : InputMemoryStream) (s : list Z) :
  Forall (stored sz bytes_of of_bytes) l →
  size l * Z.of_nat sz < 2 ^ 31 →
  stream_ok st → unread st = (l ≫= bytes_of) ++ s →
  ∃ st', read_block of_bytes sz (length l) st = Some (l, st') ∧ stream_ok st'
         ∧ unread st' = s.
Proof.
  intros Hl Hsmall Hok Hun.
  destruct (read_records bytes_of of_bytes sz l Hl) as [Hlen Hfmap].
  destruct (read_unread (Z.of_nat (length l * sz)) st (l ≫= bytes_of) s Hok Hun)
    as (st' & Hr & Hok' & Hun' & _).
  { unfold size. by rewrite Hlen. }
  { unfold size in Hsmall. lia. }
  exists st'. split; [|done]. unfold read_block. rewrite Hr, bind_Some. by rewrite Hfmap.
Qed.

(** strings *)
Lemma bytes_of_string_length (s : string) :
  length (bytes_of_string s) = String.length s.
Proof.
  unfold bytes_of_string. rewrite length_fmap.
  induction s as [|c s IH]; simpl; [done|]. by rewrite IH.
Qed.

Lemma string_of_bytes_of_string (s : string) : string_of_bytes (bytes_of_string s) = s.
Proof.
  unfold string_of_bytes, bytes_of_string. rewrite <- list_fmap_compose.
  rewrite (list_fmap_ext _ id).
  - rewrite list_fmap_id. apply String.string_of_list_ascii_of_string.
  - intros _ c _. simpl. by rewrite N2Z.id, Ascii.ascii_N_embedding.
Qed.

Lemma cstring_app (bs rest : list Z) : 0 ∉ bs → cstring (bs ++ 0 :: rest) = Some bs.
Proof.
  induction bs as [|b bs IH]; intros Hz; [done|].
  apply not_elem_of_cons in Hz as [Hb Hz].
  cbn [app cstring]. rewrite bool_decide_false by done. by rewrite IH.
Qed.

Lemma readString_writeString (max_size : nat) (str : string) (st : InputMemoryStream)
    (rest : list Z) :
  is_i32 (Z.of_nat max_size) → (String.length str < max_size)%nat →
  0 ∉ bytes_of_string str →
  stream_ok st → unread st = writeString str ++ rest →
  ∃ st', readString max_size st = Some (str, st') ∧ stream_ok st' ∧ unread st' = rest.
Proof.
  intros Hmax Hlen Hz Hok Hun. unfold readString. unfold writeString in Hun.
  rewrite <- app_assoc in Hun.
  assert (is_i32 (Z.of_nat (String.length str) + 1)) as Hv by (unfold is_i32 in *; lia).
  destruct (read_i32_write_i32 _ st _ Hv Hok Hun) as (st1 & -> & Hok1 & Hun1).
  rewrite bind_Some. cbn beta iota.
  rewrite bool_decide_false by lia. rewrite bool_decide_false by lia.
  rewrite <- app_assoc in Hun1. rewrite (app_assoc (bytes_of_string str)) in Hun1.
  destruct (read_unread (Z.of_nat (String.length str) + 1) st1
              (bytes_of_string str ++ [0]) rest Hok1 Hun1) as (st2 & -> & Hok2 & Hun2 & _).
  { unfold size. rewrite length_app, bytes_of_string_length. simpl. lia. }
  { unfold is_i32 in Hmax. lia. }
  exists st2. split; [|done]. rewrite bind_Some. cbn beta iota.
  rewrite (cstring_app _ [] Hz), bind_Some. by rewrite string_of_bytes_of_string.
Qed.

Lemma with_names_with_names (ns ns' : list EntityName) (u : Universe) :
  with_names ns (with_names ns' u) = with_names ns u.
Proof. done. Qed.

(** the loop over the names puts back in each entity record the index it
    holds already *)
Lemma deserialize_names_spec (rest : list EntityName) :
  ∀ (u : Universe) (st : InputMemoryStream) (s : list Z),
    is_i32 (Z.of_nat ENTITY_NAME_MAX_LENGTH) →
    (∀ (i : nat) n, rest !! i = Some n →
       (String.length (n_name n) < ENTITY_NAME_MAX_LENGTH)%nat
       ∧ (0 ∉ bytes_of_string (n_name n))
       ∧ is_i32 (n_entity n)
       ∧ ∃ d, get (m_entities u) (n_entity n) = Some d
              ∧ name d = Z.of_nat (length (m_names u) + i)) →
    stream_ok st →
    unread st = (rest ≫= λ n, write_i32 (n_entity n) ++ writeString (n_name n)) ++ s →
    ∃ st', deserialize_names (length rest) st u
           = Some (st', with_names (m_names u ++ rest) u)
           ∧ stream_ok st' ∧ unread st' = s.
Proof.
  induction rest as [|n rest IH]; intros u st s Hmax Hrest Hok Hun.
  - cbn [length deserialize_names]. rewrite app_nil_r. exists st.
    split; [by destruct u|done].
  - destruct (Hrest 0%nat n eq_refl) as (Hlen & Hz & He & d & Hd & Hname).
    rewrite bind_cons, <- !app_assoc in Hun. cbn [length deserialize_names].
    destruct (read_i32_write_i32 _ st _ He Hok Hun) as (st1 & -> & Hok1 & Hun1).
    rewrite bind_Some. cbn beta iota.
    destruct (readString_writeString _ _ st1 _ Hmax Hlen Hz Hok1 Hun1)
      as (st2 & -> & Hok2 & Hun2).
    rewrite bind_Some. cbn beta iota. cbv zeta.
    unfold modify_entity. cbn [m_entities m_names with_names].
    rewrite Hd, bind_Some.
    assert (set_name_idx (size (m_names u ++ [mkEntityName (n_entity n) (n_name n)]) - 1) d
            = d) as ->.
    { rewrite size_app. change (size [_]) with 1. unfold size.
      replace (Z.of_nat (length (m_names u)) + 1 - 1) with (name d) by lia.
      by destruct d. }
    assert (set (m_entities u) (n_entity n) d = m_entities u) as ->.
    { unfold set. apply list_insert_id. by apply get_Some in Hd as [_ ?]. }
    rewrite bind_Some.
    lazymatch goal with
    | |- ∃ st', deserialize_names _ _ ?u1 = _ ∧ _ =>
        destruct (IH u1 st2 s Hmax) as (st' & E' & Hok' & Hun'); [|exact Hok2|exact Hun2|]
    end.
    + intros i n' Hn'. destruct (Hrest (S i) n' Hn') as (? & ? & ? & d' & Hd' & Hname').
      repeat (split; [done|]). exists d'. split; [done|].
      cbn [m_names with_names with_entities]. rewrite length_app. simpl. lia.
    + exists st'. split; [|done]. rewrite E'.
      cbn [m_names with_names with_entities m_entities].
      rewrite <- app_assoc. destruct n. done.
Qed.

Lemma read_block_if {A} (bytes_of : A → list Z) (of_bytes : list Z → A) (sz : nat)
    (l : list A) (n : Z) (st : InputMemoryStream) (s : list Z) :
  Forall (stored sz bytes_of of_bytes) l → size l = n →
  size l * Z.of_nat sz < 2 ^ 31 →
  stream_ok st → unread st = (l ≫= bytes_of) ++ s →
  ∃ st', (if bool_decide (0 < n)
          then read_block of_bytes sz (Z.to_nat n) st
          else Some ([], st)) = Some (l, st')
         ∧ stream_ok st' ∧ unread st' = s.
Proof.
  intros Hl <- Hsmall Hok Hun. case_bool_decide as Hn.
  - unfold size. rewrite Nat2Z.id. by apply (read_block_records bytes_of).
  - destruct l; [|unfold size in Hn; simpl in Hn; lia]. exists st. done.
Qed.

Lemma size_nil_inv {A} (l : list A) : size l = 0 → l = [].
Proof. destruct l; [done|]. unfold size. simpl. lia. Qed.

Lemma size_bind_le {A} (f : A → list Z) (bound : Z) (l : list A) :
  (∀ x, x ∈ l → size (f x) ≤ bound) → size (l ≫= f) ≤ size l * bound.
Proof.
  induction l as [|x l IH]; intros Hb; [done|].
  rewrite bind_cons, size_app. change (x :: l) with ([x] ++ l). rewrite (size_app [x]).
  change (size [x]) with 1.
  pose proof (Hb x ltac:(by left)). pose proof (IH (λ y Hy, Hb y ltac:(by right))). lia.
Qed.

(** the stream of a universe is a block that a [u64] measures *)
Lemma serialize_size (u : Universe) : serializable u → size (serialize u) < 2 ^ 64.
Proof.
  intros Hs. unfold serialize. rewrite !size_app.
  assert (∀ v, size (write_i32 v) = 4) as Hint.
  { intros v. unfold size, write_i32. by rewrite le_bytes_length. }
  rewrite !Hint.
  assert (∀ {A} (bytes_of : A → list Z) of_bytes sz (l : list A),
            Forall (stored sz bytes_of of_bytes) l →
            size (l ≫= bytes_of) = size l * Z.of_nat sz) as Hblock.
  { intros A bytes_of of_bytes sz l Hl.
    destruct (read_records bytes_of of_bytes sz l Hl) as [Hlen _].
    unfold size. rewrite Hlen. lia. }
  assert (size (if bool_decide (m_entities u = []) then []
                else (m_entities u ≫= bytes_of_EntityData)
                     ++ (m_transforms u ≫= bytes_of_Transform)) < 2 ^ 32) as HE.
  { destruct (bool_decide (m_entities u = [])); [change (size []) with 0; lia|].
    rewrite size_app.
    rewrite (Hblock _ _ _ _ _ (sz_entities _ Hs)), (Hblock _ _ _ _ _ (sz_transforms _ Hs)).
    pose proof (sz_entities_block _ Hs). pose proof (sz_transforms_block _ Hs). lia. }
  assert (size (if bool_decide (m_hierarchy u = []) then []
                else m_hierarchy u ≫= bytes_of_Hierarchy) < 2 ^ 31) as HH.
  { destruct (bool_decide (m_hierarchy u = [])); [change (size []) with 0; lia|].
    rewrite (Hblock _ _ _ _ _ (sz_hierarchy _ Hs)).
    apply (sz_hierarchy_block _ Hs). }
  assert (size (m_names u ≫= λ n, write_i32 (n_entity n) ++ writeString (n_name n))
          ≤ size (m_names u) * (2 ^ 31 + 8)) as HN.
  { apply size_bind_le. intros n Hn. apply list_elem_of_lookup in Hn as [i Hi].
    destruct (sz_names _ Hs i n Hi) as (Hlen & _).
    pose proof (sz_name_max _ Hs) as Hmax. unfold is_i32 in Hmax.
    unfold writeString. rewrite !size_app, !Hint.
    unfold size at 1. rewrite bytes_of_string_length. change (size [0]) with 1. lia. }
  pose proof (sz_names_size _ Hs) as Hcount. unfold is_i32 in Hcount.
  assert (size (m_names u) * (2 ^ 31 + 8) ≤ 2 ^ 31 * (2 ^ 31 + 8)) as Hprod.
  { apply Z.mul_le_mono_nonneg_r; lia. }
  lia.
Qed.

(** C5: a universe that is serialized and then deserialized into a new
    universe from the start of the stream has the entity records (and so
    the indices), the world transforms, the names with the indices the
    entity records hold of them, the hierarchy nodes and the head of the
    free list it had.  [InputMemoryStream::read] tests [(int)size]: the
    round trip is that of a universe whose raw blocks have less than
    [2^31] bytes each ([serializable]). *)
Theorem serialize_deserialize (u : Universe) :
  serializable u →
  deserialize (mkInputMemoryStream (serialize u) 0) empty_universe
  = Some (mkUniverse (m_entities u) (m_transforms u) (m_hierarchy u) (m_names u)
            (m_first_free_slot u) []).
Proof.
  intros Hs.
  set (st0 := mkInputMemoryStream (serialize u) 0).
  assert (stream_ok st0) as Hok0.
  { split; [|apply (serialize_size _ Hs)]. unfold i_size, st0. cbn [i_pos i_data].
    pose proof (size_nonneg (serialize u)). lia. }
  assert (unread st0 = serialize u) as Hun0 by done.
  unfold serialize in Hun0.
  assert ((if bool_decide (m_entities u = []) then []
           else (m_entities u ≫= bytes_of_EntityData) ++ (m_transforms u ≫= bytes_of_Transform))
          = (m_entities u ≫= bytes_of_EntityData) ++ (m_transforms u ≫= bytes_of_Transform))
    as HE.
  { destruct (decide (m_entities u = [])) as [HE|HE]; [|by rewrite bool_decide_false].
    rewrite bool_decide_true by done. pose proof (sz_same_size _ Hs) as HT.
    rewrite HE in HT |- *. apply size_nil_inv in HT. by rewrite HT. }
  assert ((if bool_decide (m_hierarchy u = []) then [] else m_hierarchy u ≫= bytes_of_Hierarchy)
          = m_hierarchy u ≫= bytes_of_Hierarchy) as HH.
  { destruct (decide (m_hierarchy u = [])) as [HH|HH]; [|by rewrite bool_decide_false].
    rewrite bool_decide_true by done. by rewrite HH. }
  rewrite HE, HH in Hun0. rewrite <- !app_assoc in Hun0.
  unfold deserialize.
  destruct (read_i32_write_i32 _ st0 _ (sz_entities_size _ Hs) Hok0 Hun0)
    as (st1 & -> & Hok1 & Hun1).
  rewrite bind_Some. cbn beta iota.
  rewrite bool_decide_false by (pose proof (size_nonneg (m_entities u)); lia).
  edestruct (read_block_if bytes_of_EntityData EntityData_of_bytes sizeof_EntityData
               (m_entities u) (size (m_entities u)) st1) as (st2 & -> & Hok2 & Hun2);
    [apply (sz_entities _ Hs)|done|apply (sz_entities_block _ Hs)|exact Hok1|exact Hun1|].
  rewrite bind_Some. cbn beta iota.
  edestruct (read_block_if bytes_of_Transform Transform_of_bytes sizeof_Transform
               (m_transforms u) (size (m_entities u)) st2) as (st3 & -> & Hok3 & Hun3);
    [apply (sz_transforms _ Hs)|apply (sz_same_size _ Hs)|apply (sz_transforms_block _ Hs)
    |exact Hok2|exact Hun2|].
  rewrite bind_Some. cbn beta iota. cbv zeta.
  destruct (read_i32_write_i32 _ st3 _ (sz_names_size _ Hs) Hok3 Hun3)
    as (st4 & -> & Hok4 & Hun4).
  rewrite bind_Some. cbn beta iota.
  set (u0 := with_transforms (m_transforms u) (with_entities (m_entities u) empty_universe)).
  unfold size at 1. rewrite Nat2Z.id.
  edestruct (deserialize_names_spec (m_names u) u0 st4) as (st5 & -> & Hok5 & Hun5);
    [apply (sz_name_max _ Hs)| |exact Hok4|exact Hun4|].
  { intros i n Hn. destruct (sz_names _ Hs i n Hn) as (Hlen & Hz & d & Hd & Hname).
    repeat (split; [done|]). split.
    + apply get_lt in Hd. pose proof (sz_entities_size _ Hs). unfold is_i32 in *. lia.
    + exists d. done. }
  rewrite bind_Some. cbn beta iota.
  destruct (read_i32_write_i32 _ st5 _ (sz_first_free _ Hs) Hok5 Hun5)
    as (st6 & -> & Hok6 & Hun6).
  rewrite bind_Some. cbn beta iota. cbv zeta.
  destruct (read_i32_write_i32 _ st6 _ (sz_hierarchy_size _ Hs) Hok6 Hun6)
    as (st7 & -> & Hok7 & Hun7).
  rewrite bind_Some. cbn beta iota.
  rewrite bool_decide_false by (pose proof (size_nonneg (m_hierarchy u)); lia).
  rewrite <- (app_nil_r (m_hierarchy u ≫= bytes_of_Hierarchy)) in Hun7.
  edestruct (read_block_if bytes_of_Hierarchy Hierarchy_of_bytes sizeof_Hierarchy
               (m_hierarchy u) (size (m_hierarchy u)) st7) as (st8 & -> & _);
    [apply (sz_hierarchy _ Hs)|done|apply (sz_hierarchy_block _ Hs)|exact Hok7|exact Hun7|].
  rewrite bind_Some. done.
Qed.

(** ** World and local transforms *)

Lemma transformEntity_S (fuel : nat) (entity : Z) (update_local : bool) (u : Universe) :
  transformEntity (S fuel) entity update_local u
  = (d ← get (m_entities u) entity;
     let hierarchy_idx := hierarchy d in
     let u := emit (EntityTransformed entity) u in
     if bool_decide (0 ≤ hierarchy_idx) then
       h ← get (m_hierarchy u) hierarchy_idx;
       my_transform ← getTransform entity u;
       u ← (if update_local && isValid (parent h) then
              parent_tr ← getTransform (parent h) u;
              modify_node hierarchy_idx
                (set_local_transform (tmul (inverted parent_tr) my_transform)) u
            else Some u);
       h ← get (m_hierarchy u) hierarchy_idx;
       transformChildren fuel my_transform (first_child h) u
     else Some u).
Proof. done. Qed.

Lemma transformChildren_S (fuel : nat) (my_transform : Transform) (child : Z)
    (u : Universe) :
  transformChildren (S fuel) my_transform child u
  = (if isValid child then
       cd ← get (m_entities u) child;
       let child_idx := hierarchy cd in
       child_h ← get (m_hierarchy u) child_idx;
       let abs_tr := tmul my_transform (local_transform child_h) in
       u ← modify_transform child (λ _, abs_tr) u;
       u ← transformEntity fuel child false u;
       child_h ← get (m_hierarchy u) child_idx;
       transformChildren fuel my_transform (next_sibling child_h) u
     else Some u).
Proof. done. Qed.

Lemma same_tree_refl (u : Universe) : same_tree u u.
Proof.
  split; try done. intros x. destruct (node_of u x); constructor. done.
Qed.

Lemma same_tree_trans (u1 u2 u3 : Universe) :
  same_tree u1 u2 → same_tree u2 u3 → same_tree u1 u3.
Proof.
  intros [HE1 HT1 HH1 HN1] [HE2 HT2 HH2 HN2].
  split; [congruence..|].
  intros x. specialize (HN1 x). specialize (HN2 x).
  destruct HN1 as [h1 h2 (? & ? & ? & ?)|]; inversion HN2 as [? h3 (? & ? & ? & ?)|];
    subst; constructor.
  repeat split; congruence.
Qed.

(** states that differ in the transforms and the trace only *)
Lemma same_tree_tables (u u' : Universe) :
  m_entities u' = m_entities u → m_hierarchy u' = m_hierarchy u →
  size (m_transforms u') = size (m_transforms u) →
  same_tree u u' ∧ ∀ x, node_of u' x = node_of u x.
Proof.
  intros HE HH HT.
  assert (∀ x, node_of u' x = node_of u x) as Hn.
  { intros x. unfold node_of. by rewrite HE, HH. }
  split; [|done]. split; [done|done|by rewrite HH|].
  intros x. rewrite Hn. destruct (node_of u x); constructor. done.
Qed.

Lemma shape_same_tree (u u' : Universe) (b : Chain) :
  same_tree u u' → ∀ c, shape u c b → shape u' c b.
Proof.
  intros Hst. induction b as [|e kids IHk rest IHr]; intros c; [done|].
  intros (-> & Hv & d & h & Hd & Hh & Hk & Hr).
  pose proof (node_of_get _ _ _ _ Hd Hh) as Hn.
  pose proof (st_nodes _ _ Hst e) as Hn'. rewrite Hn in Hn'.
  inversion Hn' as [? h' (_ & _ & Hfc & Hns) Heq1 Heq2|]. subst.
  symmetry in Heq2. apply node_of_Some in Heq2 as (d' & Hd' & _ & Hh').
  split; [done|]. split; [done|]. exists d', h'.
  rewrite Hfc, Hns. auto.
Qed.

Lemma placed_ext (u u' : Universe) (ts ts' : list Transform) (b : Chain) :
  (∀ x, x ∈ ents b → node_of u' x = node_of u x) →
  (∀ x, x ∈ ents b → get ts' x = get ts x) →
  ∀ my, placed u ts my b → placed u' ts' my b.
Proof.
  induction b as [|e kids IHk rest IHr]; intros Hn Ht my; [done|].
  intros (h & Hh & He & Hk & Hr).
  assert (∀ x, x ∈ ents kids → x ∈ ents (Sib e kids rest)) as Hik.
  { intros x Hx. cbn [ents]. rewrite elem_of_cons, elem_of_app. tauto. }
  assert (∀ x, x ∈ ents rest → x ∈ ents (Sib e kids rest)) as Hir.
  { intros x Hx. cbn [ents]. rewrite elem_of_cons, elem_of_app. tauto. }
  assert (e ∈ ents (Sib e kids rest)) as Hie by (cbn [ents]; by left).
  exists h. rewrite (Hn e Hie), (Ht e Hie). repeat split; [done|done|..].
  - apply IHk; [intros; apply Hn|intros; apply Ht|]; auto.
  - apply IHr; [intros; apply Hn|intros; apply Ht|]; auto.
Qed.

(** the loop over the children, and under them: every entity of the chain
    gets the product of the world transform of its parent and of its local
    transform *)
Lemma transformChildren_placed (b : Chain) :
  ∀ (fuel : nat) (my : Transform) (c : Z) (u : Universe),
    shape u c b → NoDup (ents b) →
    size (m_transforms u) = size (m_entities u) →
    (2 * height b < fuel)%nat →
    ∃ u', transformChildren fuel my c u = Some u'
          ∧ m_entities u' = m_entities u ∧ m_hierarchy u' = m_hierarchy u
          ∧ (m_names u' = m_names u ∧ m_first_free_slot u' = m_first_free_slot u)
          ∧ size (m_transforms u') = size (m_transforms u)
          ∧ (∀ x, x ∉ ents b → get (m_transforms u') x = get (m_transforms u) x)
          ∧ placed u (m_transforms u') my b.
Proof.
  induction b as [|e kids IHk rest IHr]; intros fuel my c u Hshape Hnd Hsz Hfuel.
  - destruct fuel as [|fuel]; [simpl in Hfuel; lia|].
    rewrite transformChildren_S. simpl in Hshape. rewrite Hshape.
    exists u. done.
  - destruct Hshape as (-> & Hv & d & h & Hd & Hh & Hk & Hr).
    cbn [ents] in Hnd. apply NoDup_cons in Hnd as [Hek Hnd].
    apply NoDup_app in Hnd as (Hndk & Hkr & Hndr).
    rewrite elem_of_app in Hek.
    cbn [height] in Hfuel.
    destruct fuel as [|[|fuel]]; [lia..|].
    pose proof (get_lt _ _ _ Hd) as He. pose proof (get_lt _ _ _ Hh) as Hidx.
    rewrite transformChildren_S, Hv, Hd, bind_Some. cbv zeta. rewrite Hh, bind_Some.
    set (abs_tr := tmul my (local_transform h)).
    destruct (get_is_Some (m_transforms u) e) as [t0 Ht0]; [lia|].
    unfold modify_transform. rewrite Ht0, !bind_Some. cbn beta.
    set (u1 := with_transforms (set (m_transforms u) e abs_tr) u).
    rewrite transformEntity_S.
    change (m_entities u1) with (m_entities u). rewrite Hd, bind_Some. cbv zeta.
    rewrite bool_decide_true by lia.
    change (m_hierarchy (emit (EntityTransformed e) u1)) with (m_hierarchy u).
    rewrite Hh, bind_Some.
    assert (getTransform e (emit (EntityTransformed e) u1) = Some abs_tr) as ->.
    { unfold getTransform. cbn. apply get_set_eq. lia. }
    rewrite bind_Some. cbn [andb]. rewrite bind_Some.
    change (m_hierarchy (emit (EntityTransformed e) u1)) with (m_hierarchy u).
    rewrite Hh, bind_Some.
    destruct (IHk fuel abs_tr (first_child h) (emit (EntityTransformed e) u1))
      as (u2 & E2 & HE2 & HH2 & [HN2 HF2] & HT2 & Hout2 & Hpl2); [|done|..].
    { apply (shape_same_tree u); [|done]. apply same_tree_tables; [done|done|].
      cbn. by rewrite size_set. }
    { cbn. rewrite size_set. done. }
    { lia. }
    rewrite E2, bind_Some, HH2.
    change (m_hierarchy (emit (EntityTransformed e) u1)) with (m_hierarchy u).
    rewrite Hh, bind_Some.
    destruct (IHr (S fuel) my (next_sibling h) u2)
      as (u3 & E3 & HE3 & HH3 & [HN3 HF3] & HT3 & Hout3 & Hpl3).
    { apply (shape_same_tree u); [|done]. apply same_tree_tables; [done|done|].
      rewrite HT2. cbn. by rewrite size_set. }
    { done. }
    { rewrite HT2, HE2. cbn. rewrite size_set. done. }
    { lia. }
    exists u3. split; [done|]. split; [by rewrite HE3, HE2|].
    split; [by rewrite HH3, HH2|].
    split; [by rewrite HN3, HN2, HF3, HF2|].
    split; [rewrite HT3, HT2; cbn; by rewrite size_set|].
    assert (∀ x, node_of u2 x = node_of u x) as Hn2.
    { intros x. unfold node_of. by rewrite HE2, HH2. }
    split.
    + intros x Hx. cbn [ents] in Hx. rewrite not_elem_of_cons, not_elem_of_app in Hx.
      destruct Hx as (Hxe & Hxk & Hxr).
      rewrite (Hout3 x Hxr), (Hout2 x Hxk). cbn. apply get_set_ne; [lia|done].
    + cbn [placed]. exists h. split; [by eapply node_of_get|].
      split; [|split].
      * rewrite Hout3 by tauto. rewrite Hout2 by tauto. cbn. apply get_set_eq. lia.
      * apply (placed_ext (emit (EntityTransformed e) u1) _ (m_transforms u2)); [done| |done].
        intros x Hx. apply Hout3. intros Hxr. by apply (Hkr x).
      * apply (placed_ext u2 _ (m_transforms u3)); [|done|done].
        intros x _. symmetry. apply Hn2.
Qed.

Lemma placed_composed (b : Chain) :
  ∀ (u : Universe) (p : Z) (my : Transform),
    placed u (m_transforms u) my b → family u p b → getTransform p u = Some my →
    ∀ x, x ∈ ents b → composed u x.
Proof.
  induction b as [|e kids IHk rest IHr]; intros u p my Hpl Hfam Hp x Hx.
  - by apply elem_of_nil in Hx.
  - destruct Hpl as (h & Hh & He & Hk & Hr). destruct Hfam as (Hpar & Hfk & Hfr).
    cbn [ents] in Hx. rewrite elem_of_cons, elem_of_app in Hx.
    destruct Hx as [->|[Hx|Hx]].
    + intros h0 Hh0 Hv. rewrite Hh in Hh0. injection Hh0 as <-.
      rewrite (getParent_node _ _ _ Hh) in Hpar. injection Hpar as Hpar.
      rewrite Hpar. eauto.
    + by apply (IHk u e (tmul my (local_transform h))).
    + by apply (IHr u p my).
Qed.

Lemma getParent_same_tree (u u' : Universe) (x : Z) :
  same_tree u u' → getParent x u' = getParent x u.
Proof.
  intros Hst. pose proof (st_nodes _ _ Hst x) as Hn. unfold node_of in Hn.
  unfold getParent. rewrite (st_entities _ _ Hst) in Hn |- *.
  destruct (get (m_entities u) x) as [d|]; [|done].
  rewrite !bind_Some in *. cbv zeta.
  destruct (bool_decide (hierarchy d < 0)); [done|].
  destruct (get (m_hierarchy u) (hierarchy d)) as [h|],
    (get (m_hierarchy u') (hierarchy d)) as [h'|];
    inversion Hn as [? ? (_ & Hp & _)|]; simpl; congruence.
Qed.

Lemma getFirstChild_same_tree (u u' : Universe) (x : Z) :
  same_tree u u' → getFirstChild x u' = getFirstChild x u.
Proof.
  intros Hst. pose proof (st_nodes _ _ Hst x) as Hn. unfold node_of in Hn.
  unfold getFirstChild. rewrite (st_entities _ _ Hst) in Hn |- *.
  destruct (get (m_entities u) x) as [d|]; [|done].
  rewrite !bind_Some in *. cbv zeta.
  destruct (bool_decide (hierarchy d < 0)); [done|].
  destruct (get (m_hierarchy u) (hierarchy d)) as [h|],
    (get (m_hierarchy u') (hierarchy d)) as [h'|];
    inversion Hn as [? ? (_ & _ & Hfc & _)|]; simpl; congruence.
Qed.

Lemma family_same_tree (u u' : Universe) (b : Chain) :
  same_tree u u' → ∀ p, family u p b → family u' p b.
Proof.
  intros Hst. induction b as [|e kids IHk rest IHr]; intros p; [done|].
  intros (Hp & Hk & Hr). cbn [family]. rewrite (getParent_same_tree u u') by done. auto.
Qed.

Lemma below_same_tree (u u' : Universe) (e : Z) (b : Chain) :
  same_tree u u' → below u e b → below u' e b.
Proof.
  intros Hst (c & Hc & Hs). exists c.
  rewrite (getFirstChild_same_tree u u') by done. split; [done|].
  by apply (shape_same_tree u).
Qed.

Lemma backrefs_same_tree (u u' : Universe) :
  same_tree u u' → backrefs u → backrefs u'.
Proof.
  intros Hst [Hnode Hent]. split.
  - intros e d Hd Hidx. rewrite (st_entities _ _ Hst) in Hd.
    destruct (Hnode e d Hd Hidx) as (h & Hh & He).
    pose proof (st_nodes _ _ Hst e) as Hn.
    rewrite (node_of_get _ _ _ _ Hd Hh) in Hn.
    inversion Hn as [? h' (Hent' & _) Heq1 Heq2|]. subst.
    symmetry in Heq2. apply node_of_Some in Heq2 as (d' & Hd' & _ & Hh').
    rewrite (st_entities _ _ Hst) in Hd'. assert (d' = d) as -> by congruence.
    exists h'. split; [done|]. congruence.
  - intros i h' Hh'.
    destruct (get_is_Some (m_hierarchy u) i) as [h Hh].
    { apply get_lt in Hh'. unfold size in *. rewrite <- (st_hierarchy _ _ Hst). done. }
    destruct (Hent i h Hh) as (d & Hd & Hidx).
    pose proof (st_nodes _ _ Hst (h_entity h)) as Hn.
    assert (get (m_hierarchy u) (hierarchy d) = Some h) as Hh0 by (by rewrite Hidx).
    rewrite (node_of_get _ _ _ _ Hd Hh0) in Hn.
    inversion Hn as [? h'' (Hent' & _) Heq1 Heq2|]. subst.
    symmetry in Heq2. apply node_of_Some in Heq2 as (d' & Hd' & _ & Hh'').
    rewrite (st_entities _ _ Hst) in Hd'. assert (d' = d) as -> by congruence.
    assert (h'' = h') as -> by congruence.
    exists d. rewrite (st_entities _ _ Hst), Hent'. done.
Qed.

Lemma wf_same_tree (u u' : Universe) :
  same_tree u u' → wf_hierarchy u → wf_hierarchy u'.
Proof.
  intros Hst [Hbr Hsz Hbelow Hparent]. split.
  - by apply (backrefs_same_tree u).
  - by rewrite (st_transforms _ _ Hst), (st_entities _ _ Hst).
  - intros e He. rewrite (st_entities _ _ Hst) in He.
    destruct (Hbelow e He) as (b & Hb & Hnd & Hfam).
    exists b. split; [by apply (below_same_tree u)|]. split; [done|].
    by apply (family_same_tree u).
  - intros c h' Hh' Hv.
    pose proof (st_nodes _ _ Hst c) as Hn. rewrite Hh' in Hn.
    inversion Hn as [h ? (_ & Hp & _) Heq1 Heq2|]. subst.
    rewrite Hp in Hv |- *. symmetry in Heq1.
    destruct (Hparent c h Heq1 Hv) as (b & Hb & Hc).
    exists b. split; [by apply (below_same_tree u)|done].
Qed.

Lemma enough_fuel_same_tree (u u' : Universe) (fuel : nat) :
  same_tree u u' → enough_fuel u fuel → enough_fuel u' fuel.
Proof. intros Hst. unfold enough_fuel. by rewrite (st_hierarchy _ _ Hst). Qed.

(** the entities below an entity of a chain are entities of that chain *)
Lemma shape_ents_below (u : Universe) (q : Z) (bq : Chain) (b : Chain) :
  below u q bq → ∀ c, shape u c b → q ∈ ents b → ∀ x, x ∈ ents bq → x ∈ ents b.
Proof.
  intros Hbq. induction b as [|e kids IHk rest IHr]; intros c Hs Hq x Hx.
  - by apply elem_of_nil in Hq.
  - destruct Hs as (-> & Hv & d & h & Hd & Hh & Hk & Hr).
    cbn [ents] in *. rewrite elem_of_cons, elem_of_app in *.
    destruct Hq as [->|[Hq|Hq]].
    + right. left. destruct Hbq as (c' & Hc' & Hs').
      rewrite (getFirstChild_node _ _ _ (node_of_get _ _ _ _ Hd Hh)) in Hc'.
      injection Hc' as <-. by rewrite (shape_det _ _ _ _ Hk Hs').
    + right. left. by apply (IHk _ Hk).
    + right. right. by apply (IHr _ Hr).
Qed.

Lemma node_of_tables (u u' : Universe) (x : Z) :
  m_entities u' = m_entities u → m_hierarchy u' = m_hierarchy u →
  node_of u' x = node_of u x.
Proof. intros HE HH. unfold node_of. by rewrite HE, HH. Qed.

Lemma below_no_node (u : Universe) (e : Z) (d : EntityData) (b : Chain) :
  get (m_entities u) e = Some d → hierarchy d < 0 → below u e b → b = NoEntity.
Proof.
  intros Hd Hh (c & Hc & Hs). unfold getFirstChild in Hc.
  rewrite Hd, bind_Some in Hc. cbv zeta in Hc. rewrite bool_decide_true in Hc by done.
  injection Hc as <-. destruct b as [|e0 kids rest]; [done|].
  destruct Hs as (_ & Hv & _). done.
Qed.

(** [transformEntity(entity, true)]: the local transform of the entity is
    computed from its world transform, and the world transforms of the
    entities below it from their local transforms; nothing else changes *)
Lemma transformEntity_top (fuel : nat) (e : Z) (u : Universe) (d : EntityData) (b : Chain) :
  wf_hierarchy u → enough_fuel u fuel →
  get (m_entities u) e = Some d → below u e b →
  ∃ u', transformEntity fuel e true u = Some u'
        ∧ same_tree u u'
        ∧ m_names u' = m_names u ∧ m_first_free_slot u' = m_first_free_slot u
        ∧ (∀ x, x ∉ ents b → get (m_transforms u') x = get (m_transforms u) x)
        ∧ (∀ x, x ≠ e → node_of u' x = node_of u x)
        ∧ (∀ h, node_of u e = Some h →
             ∃ h', node_of u' e = Some h' ∧ same_links h h'
                   ∧ if isValid (parent h)
                     then ∃ tp tc, getTransform (parent h) u = Some tp
                                   ∧ getTransform e u = Some tc
                                   ∧ local_transform h' = tmul (inverted tp) tc
                     else h' = h)
        ∧ (∀ x, x ∈ ents b → composed u' x).
Proof.
  intros Hwf Hfuel Hd Hb.
  pose proof (get_lt _ _ _ Hd) as He.
  destruct (wf_below _ Hwf e He) as (b' & Hb' & Hnd & Hfam).
  rewrite (below_det _ _ _ _ Hb' Hb) in *. clear b' Hb'.
  apply NoDup_cons in Hnd as [Heb Hnd].
  destruct (wf_height u e b fuel Hwf Hb Hnd Hfuel) as [Hheight _].
  destruct fuel as [|fuel]; [lia|].
  rewrite transformEntity_S, Hd, bind_Some. cbv zeta.
  set (u0 := emit (EntityTransformed e) u).
  assert (same_tree u u0 ∧ ∀ x, node_of u0 x = node_of u x) as [Hst0 Hn0]
    by (by apply same_tree_tables).
  case_bool_decide as Hidx.
  - (* the entity has a node *)
    destruct (br_node _ (wf_backrefs _ Hwf) e d Hd Hidx) as (h & Hh & Hhe).
    pose proof (node_of_get _ _ _ _ Hd Hh) as Hnode.
    change (m_hierarchy u0) with (m_hierarchy u). rewrite Hh, bind_Some.
    destruct (get_is_Some (m_transforms u) e) as [my Hmy].
    { by rewrite (wf_transforms _ Hwf). }
    assert (getTransform e u0 = Some my) as -> by done. rewrite bind_Some.
    cbn [andb].
    assert (∃ u_m h_m,
              (if isValid (parent h)
               then parent_tr ← getTransform (parent h) u0;
                    modify_node (hierarchy d)
                      (set_local_transform (tmul (inverted parent_tr) my)) u0
               else Some u0) = Some u_m
              ∧ m_entities u_m = m_entities u ∧ m_transforms u_m = m_transforms u
              ∧ m_names u_m = m_names u ∧ m_first_free_slot u_m = m_first_free_slot u
              ∧ m_hierarchy u_m = set (m_hierarchy u) (hierarchy d) h_m
              ∧ same_links h h_m
              ∧ if isValid (parent h)
                then ∃ tp, getTransform (parent h) u = Some tp
                           ∧ local_transform h_m = tmul (inverted tp) my
                else h_m = h) as (u_m & h_m & -> & HEm & HTm & HNm & HFm & HHm & Hsl & Hloc).
    { destruct (isValid (parent h)) eqn:Hv.
      - destruct (wf_parent_node u e h Hwf Hnode Hv) as (hp & _ & Hhp & _).
        apply node_of_range in Hhp.
        destruct (get_is_Some (m_transforms u) (parent h)) as [tp Htp].
        { by rewrite (wf_transforms _ Hwf). }
        assert (getTransform (parent h) u0 = Some tp) as -> by done.
        rewrite bind_Some.
        rewrite (modify_node_Some u0 (hierarchy d) _ h Hh).
        eexists _, _. split; [done|]. repeat (split; [done|]). eauto.
      - exists u0, h. split; [done|]. repeat (split; [done|]).
        split; [|done]. unfold set. symmetry. apply list_insert_id.
        by apply get_Some in Hh as [_ ?]. }
    rewrite bind_Some.
    assert (∀ x, node_of u_m x = if bool_decide (x = e) then Some h_m else node_of u x)
      as Hnm.
    { intros x. rewrite <- Hhe.
      rewrite <- (modify_node_node_of u (hierarchy d) h h_m x (wf_backrefs _ Hwf) Hh).
      unfold node_of. cbn [m_entities m_hierarchy with_hierarchy]. by rewrite HEm, HHm. }
    assert (same_tree u u_m) as Hstm.
    { split; [done|by rewrite HTm| |].
      - rewrite HHm. unfold set. by rewrite length_insert.
      - intros x. rewrite Hnm. case_bool_decide as Hx.
        + subst x. rewrite Hnode. by constructor.
        + destruct (node_of u x); constructor. done. }
    assert (get (m_hierarchy u_m) (hierarchy d) = Some h_m) as ->.
    { rewrite HHm. apply get_set_eq. by apply get_lt in Hh. }
    rewrite bind_Some.
    destruct Hsl as (Hsl_e & Hsl_p & Hsl_c & Hsl_s). rewrite Hsl_c.
    destruct Hb as (c & Hc & Hshape).
    rewrite (getFirstChild_node _ _ _ Hnode) in Hc. injection Hc as <-.
    destruct (transformChildren_placed b fuel my (first_child h) u_m)
      as (u' & E' & HE' & HH' & [HN' HF'] & HT' & Hout & Hpl).
    { by apply (shape_same_tree u). }
    { done. }
    { rewrite HTm, HEm. apply (wf_transforms _ Hwf). }
    { lia. }
    assert (same_tree u_m u' ∧ ∀ x, node_of u' x = node_of u_m x) as [Hst' Hn']
      by (by apply same_tree_tables).
    assert (same_tree u u') as Hst by (by eapply same_tree_trans).
    exists u'. split; [done|]. split; [done|].
    split; [by rewrite HN'|]. split; [by rewrite HF'|].
    split; [intros x Hx; rewrite (Hout x Hx); by rewrite HTm|].
    split; [intros x Hx; rewrite Hn', Hnm; by rewrite bool_decide_false|].
    split.
    + intros h1 Hh1. rewrite Hnode in Hh1. injection Hh1 as <-.
      exists h_m. rewrite Hn', Hnm, bool_decide_true by done.
      split; [done|]. split; [done|].
      destruct (isValid (parent h)); [|done].
      destruct Hloc as (tp & Htp & Hl). eauto.
    + apply (placed_composed b u' e my).
      * apply (placed_ext u_m _ (m_transforms u')); [|done|done].
        intros x _. apply Hn'.
      * by apply (family_same_tree u).
      * unfold getTransform. rewrite (Hout e Heb), HTm. done.
  - (* no node: nothing below *)
    assert (b = NoEntity) as -> by (eapply below_no_node; [done| |done]; lia).
    exists u0. split; [done|]. split; [done|]. split; [done|]. split; [done|].
    split; [done|]. split; [intros; apply Hn0|].
    split.
    + intros h Hh. rewrite (node_of_None _ _ _ Hd) in Hh by lia. done.
    + intros x Hx. by apply elem_of_nil in Hx.
Qed.

(** an entity outside the tree below [e] has its parent outside of it *)
Lemma parent_outside (u : Universe) (e x : Z) (b : Chain) (h : Hierarchy) :
  wf_hierarchy u → below u e b → x ∉ ents b →
  node_of u x = Some h → isValid (parent h) = true →
  (parent h ∉ ents b) ∧ (x ≠ e → parent h ≠ e).
Proof.
  intros Hwf Hb Hx Hh Hv.
  destruct (wf_parent _ Hwf x h Hh Hv) as (bq & Hbq & Hxq). split.
  - intros Hq. apply Hx. destruct Hb as (c & _ & Hs).
    apply (shape_ents_below u (parent h) bq b Hbq c Hs Hq). by apply tops_ents.
  - intros _ Heq. rewrite Heq in Hbq. rewrite (below_det _ _ _ _ Hbq Hb) in Hxq.
    apply Hx. by apply tops_ents.
Qed.

(** what the setters of the world transform have in common: the entry of
    the entity is changed by [f], then [transformEntity(entity, true)] *)
Lemma set_world_spec (fuel : nat) (e : Z) (f : Transform → Transform) (u : Universe) :
  wf_hierarchy u → enough_fuel u fuel → 0 ≤ e < size (m_entities u) →
  ∃ u' t0 b,
    (u1 ← modify_transform e f u; transformEntity fuel e true u1) = Some u'
    ∧ getTransform e u = Some t0 ∧ below u e b ∧ (e ∉ ents b)
    ∧ same_tree u u'
    ∧ m_names u' = m_names u ∧ m_first_free_slot u' = m_first_free_slot u
    ∧ getTransform e u' = Some (f t0)
    ∧ (∀ x, x ≠ e → x ∉ ents b → getTransform x u' = getTransform x u)
    ∧ (∀ x, x ≠ e → node_of u' x = node_of u x)
    ∧ (∀ h, node_of u e = Some h →
         ∃ h', node_of u' e = Some h' ∧ same_links h h'
               ∧ if isValid (parent h)
                 then ∃ tp, getTransform (parent h) u = Some tp
                            ∧ getTransform (parent h) u' = Some tp
                            ∧ local_transform h' = tmul (inverted tp) (f t0)
                 else h' = h)
    ∧ (∀ x, x ∈ ents b → composed u' x).
Proof.
  intros Hwf Hfuel He.
  destruct (get_is_Some (m_transforms u) e) as [t0 Ht0].
  { by rewrite (wf_transforms _ Hwf). }
  destruct (get_is_Some (m_entities u) e) as [d Hd]; [done|].
  destruct (wf_below _ Hwf e He) as (b & Hb & Hnd & Hfam).
  apply NoDup_cons in Hnd as [Heb Hnd].
  unfold modify_transform. rewrite Ht0, !bind_Some.
  set (u1 := with_transforms (set (m_transforms u) e (f t0)) u).
  assert (same_tree u u1 ∧ ∀ x, node_of u1 x = node_of u x) as [Hst1 Hn1].
  { apply same_tree_tables; [done|done|]. cbn. by rewrite size_set. }
  destruct (transformEntity_top fuel e u1 d b)
    as (u' & E' & Hst' & HN' & HF' & Hout & Hnodes & Hnode & Hcomp).
  { by apply (wf_same_tree u). }
  { by apply (enough_fuel_same_tree u). }
  { done. }
  { by apply (below_same_tree u). }
  exists u', t0, b. split; [done|]. split; [done|]. split; [done|]. split; [done|].
  split; [by eapply same_tree_trans|]. split; [done|]. split; [done|].
  assert (0 ≤ e < size (m_transforms u)) as He' by (by rewrite (wf_transforms _ Hwf)).
  split.
  { unfold getTransform. rewrite (Hout e Heb). cbn. by apply get_set_eq. }
  assert (∀ x, x ≠ e → x ∉ ents b → getTransform x u' = getTransform x u) as Hsame.
  { intros x Hxe Hxb. unfold getTransform. rewrite (Hout x Hxb). cbn.
    apply get_set_ne; [lia|done]. }
  split; [done|].
  split; [intros x Hx; by rewrite Hnodes, Hn1|].
  split; [|done].
  intros h Hh. rewrite <- Hn1 in Hh.
  destruct (Hnode h Hh) as (h' & Hh' & Hsl & Hloc).
  exists h'. split; [done|]. split; [done|].
  destruct (isValid (parent h)) eqn:Hv; [|done].
  destruct Hloc as (tp & tc & Htp & Htc & Hl).
  rewrite Hn1 in Hh.
  destruct (wf_parent_node u e h Hwf Hh Hv) as (hp & bp & Hhp & Hsp & Hep & Hndp).
  assert (parent h ≠ e) as Hpe.
  { intros Heq. apply NoDup_cons in Hndp as [Hp _]. apply Hp. rewrite Heq.
    by apply tops_ents. }
  destruct (parent_outside u e e b h Hwf Hb Heb Hh Hv) as [Hpb _].
  assert (getTransform e u1 = Some (f t0)) as Htc'.
  { unfold getTransform. cbn. by apply get_set_eq. }
  rewrite Htc' in Htc. injection Htc as <-.
  assert (getTransform (parent h) u1 = getTransform (parent h) u) as Hp1.
  { unfold getTransform. cbn. apply get_set_ne; [lia|done]. }
  exists tp. rewrite (Hsame _ Hpe Hpb), <- Hp1. done.
Qed.

(** X1: [setTransform(entity, transform)]: the entity gets the transform, the
    entities below it the products of the world transforms of their
    parents and of their local transforms; the other world transforms and
    all parent links are kept. *)
Theorem setTransform_propagates (fuel : nat) (e : Z) (t : Transform) (u : Universe) :
  wf_hierarchy u → enough_fuel u fuel → 0 ≤ e < size (m_entities u) →
  ∃ u', setTransform fuel e t u = Some u'
        ∧ getTransform e u' = Some t
        ∧ (∀ c, descendant u e c → composed u' c)
        ∧ (∀ x, x ≠ e → ¬ descendant u e x → getTransform x u' = getTransform x u)
        ∧ (∀ x, getParent x u' = getParent x u).
Proof.
  intros Hwf Hfuel He.
  destruct (set_world_spec fuel e (λ _, t) u Hwf Hfuel He)
    as (u' & t0 & b & E' & Ht0 & Hb & Heb & Hst & _ & _ & Hte & Hsame & _ & _ & Hcomp).
  exists u'. split; [done|]. split; [done|]. split; [|split].
  - intros c (b' & Hb' & Hc). rewrite (below_det _ _ _ _ Hb' Hb) in Hc. by apply Hcomp.
  - intros x Hxe Hx. apply Hsame; [done|]. intros Hxb. apply Hx. by exists b.
  - intros x. by apply getParent_same_tree.
Qed.

(** X2: [setPosition], [setRotation] and [setScale] change that part of the
    world transform of the entity, and nothing else of it. *)
Theorem set_part_of_transform (fuel : nat) (e : Z) (p : DVec3) (r : Quat) (s : Float)
    (u : Universe) :
  wf_hierarchy u → enough_fuel u fuel → 0 ≤ e < size (m_entities u) →
  ∃ t0, getTransform e u = Some t0
        ∧ (∃ u', setPosition fuel e p u = Some u'
                 ∧ getTransform e u' = Some (mkTransform p (rot t0) (scale t0)))
        ∧ (∃ u', setRotation fuel e r u = Some u'
                 ∧ getTransform e u' = Some (mkTransform (pos t0) r (scale t0)))
        ∧ (∃ u', setScale fuel e s u = Some u'
                 ∧ getTransform e u' = Some (mkTransform (pos t0) (rot t0) s)).
Proof.
  intros Hwf Hfuel He.
  destruct (set_world_spec fuel e (set_pos p) u Hwf Hfuel He)
    as (u1 & t0 & _ & E1 & Ht0 & _ & _ & _ & _ & _ & H1 & _).
  destruct (set_world_spec fuel e (set_rot r) u Hwf Hfuel He)
    as (u2 & t2 & _ & E2 & Ht2 & _ & _ & _ & _ & _ & H2 & _).
  destruct (set_world_spec fuel e (set_scale s) u Hwf Hfuel He)
    as (u3 & t3 & _ & E3 & Ht3 & _ & _ & _ & _ & _ & H3 & _).
  assert (t2 = t0) as -> by congruence. assert (t3 = t0) as -> by congruence.
  exists t0. split; [done|]. split; [|split]; eexists; (split; [eassumption|done]).
Qed.

(** X3: [setTransform] of an entity with a parent computes its local transform
    from the new world transform: it is the product of the inverse of the
    world transform of the parent and of the new transform. *)
Theorem setTransform_local (fuel : nat) (e : Z) (t : Transform) (u : Universe)
    (h : Hierarchy) :
  wf_hierarchy u → enough_fuel u fuel →
  node_of u e = Some h → isValid (parent h) = true →
  ∃ u' tp, setTransform fuel e t u = Some u'
           ∧ getTransform (parent h) u = Some tp
           ∧ getTransform (parent h) u' = Some tp
           ∧ getParent e u' = Some (parent h)
           ∧ getLocalTransform e u' = Some (tmul (inverted tp) t).
Proof.
  intros Hwf Hfuel Hh Hv. pose proof (node_of_range _ _ _ Hh) as He.
  destruct (set_world_spec fuel e (λ _, t) u Hwf Hfuel He)
    as (u' & t0 & b & E' & _ & _ & _ & _ & _ & _ & _ & _ & _ & Hnode & _).
  destruct (Hnode h Hh) as (h' & Hh' & (_ & Hp & _) & Hloc). rewrite Hv in Hloc.
  destruct Hloc as (tp & Htp & Htp' & Hl).
  exists u', tp. split; [done|]. split; [done|]. split; [done|].
  rewrite (getParent_node _ _ _ Hh'), (getLocalTransform_node _ _ _ Hh'), Hp, Hl. done.
Qed.

(** X4: If the world transform of every entity with a parent is the product of
    the world transform of the parent and of its local transform, it is so
    after [setTransform(entity, transform)] too, as long as the product of
    the world transform [tp] of the parent of the entity, of its inverse
    and of the new transform is the new transform. *)
Theorem setTransform_keeps_composition (fuel : nat) (e : Z) (t : Transform)
    (u : Universe) :
  wf_hierarchy u → enough_fuel u fuel → 0 ≤ e < size (m_entities u) →
  transforms_composed u →
  (∀ h tp, node_of u e = Some h → isValid (parent h) = true →
           getTransform (parent h) u = Some tp →
           tmul tp (tmul (inverted tp) t) = t) →
  ∃ u', setTransform fuel e t u = Some u' ∧ transforms_composed u'.
Proof.
  intros Hwf Hfuel He Hall Hround.
  destruct (set_world_spec fuel e (λ _, t) u Hwf Hfuel He)
    as (u' & t0 & b & E' & Ht0 & Hb & Heb & Hst & _ & _ & Hte & Hsame & Hnodes & Hnode
        & Hcomp).
  exists u'. split; [done|]. intros c.
  destruct (decide (c ∈ ents b)) as [Hcb|Hcb]; [by apply Hcomp|].
  destruct (decide (c = e)) as [->|Hce].
  - intros h' Hh' Hv'.
    pose proof (st_nodes _ _ Hst e) as Hn. rewrite Hh' in Hn.
    inversion Hn as [h ? _ Heq1 Heq2|]. subst. symmetry in Heq1.
    destruct (Hnode h Heq1) as (h2 & Hh2 & (_ & Hp & _) & Hloc).
    assert (h2 = h') as -> by congruence.
    rewrite Hp in Hv'. rewrite Hv' in Hloc. destruct Hloc as (tp & Htp & Htp' & Hl).
    exists tp, t. rewrite Hp. split; [done|]. split; [done|].
    rewrite Hl. symmetry. by apply (Hround h tp).
  - intros h Hh Hv. rewrite (Hnodes c Hce) in Hh.
    destruct (Hall c h Hh Hv) as (tp & tc & Htp & Htc & Heq).
    destruct (parent_outside u e c b h Hwf Hb Hcb Hh Hv) as [Hpb Hpe].
    exists tp, tc. rewrite (Hsame c Hce Hcb), (Hsame (parent h) (Hpe Hce) Hpb). done.
Qed.

(** a node rewritten with the same links *)
Lemma set_node_same_tree (u : Universe) (e : Z) (d : EntityData) (h h_m : Hierarchy) :
  backrefs u → get (m_entities u) e = Some d → 0 ≤ hierarchy d →
  get (m_hierarchy u) (hierarchy d) = Some h → same_links h h_m →
  same_tree u (with_hierarchy (set (m_hierarchy u) (hierarchy d) h_m) u)
  ∧ ∀ x, node_of (with_hierarchy (set (m_hierarchy u) (hierarchy d) h_m) u) x
         = if bool_decide (x = e) then Some h_m else node_of u x.
Proof.
  intros Hbr Hd Hidx Hh Hsl.
  destruct (br_node _ Hbr e d Hd Hidx) as (h0 & Hh0 & Hhe).
  assert (h0 = h) as -> by congruence.
  assert (∀ x, node_of (with_hierarchy (set (m_hierarchy u) (hierarchy d) h_m) u) x
               = if bool_decide (x = e) then Some h_m else node_of u x) as Hn.
  { intros x. rewrite <- Hhe. by apply modify_node_node_of. }
  split; [|done]. split; [done|done| |].
  - cbn. unfold set. by rewrite length_insert.
  - intros x. rewrite Hn. case_bool_decide as Hx.
    + subst x. rewrite (node_of_get _ _ _ _ Hd Hh). by constructor.
    + destruct (node_of u x); constructor. done.
Qed.

(** what [setLocalTransform], [setLocalPosition] and [setLocalRotation]
    have in common, for an entity with a parent: the local transform is
    changed by [g], then [updateGlobalTransform] *)
Lemma set_local_spec (fuel : nat) (e : Z) (g : Transform → Transform) (u : Universe)
    (d : EntityData) (h : Hierarchy) :
  wf_hierarchy u → enough_fuel u fuel →
  get (m_entities u) e = Some d → 0 ≤ hierarchy d →
  get (m_hierarchy u) (hierarchy d) = Some h → isValid (parent h) = true →
  ∃ u' tp,
    (u1 ← modify_node (hierarchy d)
            (λ h, set_local_transform (g (local_transform h)) h) u;
     updateGlobalTransform fuel e u1) = Some u'
    ∧ getTransform (parent h) u = Some tp
    ∧ getTransform (parent h) u' = Some tp
    ∧ getTransform e u' = Some (tmul tp (g (local_transform h)))
    ∧ getParent e u' = Some (parent h)
    ∧ (∀ c, descendant u e c → composed u' c)
    ∧ (∀ x, x ≠ e → ¬ descendant u e x → getTransform x u' = getTransform x u).
Proof.
  intros Hwf Hfuel Hd Hidx Hh Hv.
  pose proof (node_of_get _ _ _ _ Hd Hh) as Hnode.
  pose proof (get_lt _ _ _ Hd) as He.
  rewrite (modify_node_Some u (hierarchy d) _ h Hh), bind_Some.
  set (h_l := set_local_transform (g (local_transform h)) h).
  set (u_l := with_hierarchy (set (m_hierarchy u) (hierarchy d) h_l) u).
  destruct (set_node_same_tree u e d h h_l (wf_backrefs _ Hwf) Hd Hidx Hh) as [Hst Hn];
    [done|]. fold u_l in Hst, Hn.
  destruct (wf_parent_node u e h Hwf Hnode Hv) as (hp & _ & Hhp & _).
  apply node_of_range in Hhp.
  destruct (get_is_Some (m_transforms u) (parent h)) as [tp Htp].
  { by rewrite (wf_transforms _ Hwf). }
  unfold updateGlobalTransform.
  change (m_entities u_l) with (m_entities u). rewrite Hd, bind_Some.
  assert (get (m_hierarchy u_l) (hierarchy d) = Some h_l) as ->.
  { apply get_set_eq. by apply get_lt in Hh. }
  rewrite bind_Some. change (parent h_l) with (parent h). rewrite Hv.
  assert (getTransform (parent h) u_l = Some tp) as -> by done.
  rewrite bind_Some. cbv zeta. change (local_transform h_l) with (g (local_transform h)).
  destruct (set_world_spec fuel e (λ _, tmul tp (g (local_transform h))) u_l)
    as (u' & t0 & b & E' & _ & Hb & Heb & Hst' & _ & _ & Hte & Hsame & _ & Hnode' & Hcomp).
  { by apply (wf_same_tree u). }
  { by apply (enough_fuel_same_tree u). }
  { done. }
  exists u', tp. split; [done|]. split; [done|].
  assert (node_of u_l e = Some h_l) as Hnl by (by rewrite Hn, bool_decide_true).
  destruct (Hnode' h_l Hnl) as (h' & Hh' & (_ & Hp & _) & Hloc).
  change (parent h_l) with (parent h) in Hloc, Hp. rewrite Hv in Hloc.
  destruct Hloc as (tp' & Htp1 & Htp2 & _).
  assert (tp' = tp) as ->.
  { change (get (m_transforms u) (parent h) = Some tp') in Htp1. congruence. }
  split; [done|]. split; [done|].
  split; [by rewrite (getParent_node _ _ _ Hh'), Hp|].
  assert (∀ b', below u e b' → b' = b) as Hdet.
  { intros b' Hb'. apply (below_det u_l e); [|done]. by apply (below_same_tree u). }
  split.
  - intros c (b' & Hb' & Hc). rewrite (Hdet b' Hb') in Hc. by apply Hcomp.
  - intros x Hxe Hx. apply (Hsame x Hxe). intros Hxb. apply Hx. exists b.
    split; [|done]. apply (below_same_tree u_l); [|done].
    split; [done|done|by rewrite (st_hierarchy _ _ Hst)|].
    intros y. pose proof (st_nodes _ _ Hst y) as Hy.
    destruct Hy as [? ? (? & ? & ? & ?)|]; constructor. done.
Qed.

(** X5: [setLocalTransform], [setLocalPosition] and [setLocalRotation] of an
    entity with a parent: the world transform of the entity becomes the
    product of the world transform of the parent and of the new local
    transform. *)
Theorem setLocal_world (fuel : nat) (e : Z) (t : Transform) (p : DVec3) (r : Quat)
    (u : Universe) (h : Hierarchy) :
  wf_hierarchy u → enough_fuel u fuel →
  node_of u e = Some h → isValid (parent h) = true →
  ∃ tp, getTransform (parent h) u = Some tp
        ∧ (∃ u', setLocalTransform fuel e t u = Some u'
                 ∧ getTransform e u' = Some (tmul tp t)
                 ∧ getTransform (parent h) u' = Some tp)
        ∧ (∃ u', setLocalPosition fuel e p u = Some u'
                 ∧ getTransform e u' = Some (tmul tp (set_pos p (local_transform h)))
                 ∧ getTransform (parent h) u' = Some tp)
        ∧ (∃ u', setLocalRotation fuel e r u = Some u'
                 ∧ getTransform e u' = Some (tmul tp (set_rot r (local_transform h)))
                 ∧ getTransform (parent h) u' = Some tp).
Proof.
  intros Hwf Hfuel Hnode Hv.
  pose proof Hnode as (d & Hd & Hidx & Hh)%node_of_Some.
  destruct (set_local_spec fuel e (λ _, t) u d h Hwf Hfuel Hd Hidx Hh Hv)
    as (u1 & tp & E1 & Htp & Hp1 & He1 & _).
  destruct (set_local_spec fuel e (set_pos p) u d h Hwf Hfuel Hd Hidx Hh Hv)
    as (u2 & tp2 & E2 & Htp2 & Hp2 & He2 & _).
  destruct (set_local_spec fuel e (set_rot r) u d h Hwf Hfuel Hd Hidx Hh Hv)
    as (u3 & tp3 & E3 & Htp3 & Hp3 & He3 & _).
  assert (tp2 = tp) as -> by congruence. assert (tp3 = tp) as -> by congruence.
  exists tp. split; [done|].
  unfold setLocalTransform, setLocalPosition, setLocalRotation.
  rewrite Hd, !bind_Some. cbv zeta. rewrite !(bool_decide_false (hierarchy d < 0)) by lia.
  split; [|split]; eexists; (split; [eassumption|done]).
Qed.

(** X6: [updateGlobalTransform] asserts that the entity has a parent:
    [setLocalTransform] of an entity that has a hierarchy node (children)
    and no parent gives nothing. *)
Theorem setLocalTransform_without_parent (fuel : nat) (e : Z) (t : Transform)
    (u : Universe) (h : Hierarchy) :
  node_of u e = Some h → isValid (parent h) = false →
  setLocalTransform fuel e t u = None.
Proof.
  intros (d & Hd & Hidx & Hh)%node_of_Some Hv.
  unfold setLocalTransform. rewrite Hd, bind_Some. cbv zeta.
  rewrite bool_decide_false by lia.
  rewrite (modify_node_Some u (hierarchy d) _ h Hh), bind_Some.
  unfold updateGlobalTransform. cbn [m_entities with_hierarchy m_hierarchy].
  rewrite Hd, bind_Some.
  rewrite get_set_eq by (by apply get_lt in Hh). rewrite bind_Some.
  change (parent (set_local_transform t h)) with (parent h). by rewrite Hv.
Qed.

(** ** Names and searches *)

(** X7: the name read after [setEntityName(entity, name)] is the copy of
    [name] that fits [EntityName::name], whether the entity had a name
    before or not; the names of the entities that do not share the entry
    of the name table are the ones they had. *)
Theorem setEntityName_getEntityName (e : Z) (s : string) (u : Universe) (d : EntityData) :
  wf_tables u → get (m_entities u) e = Some d →
  ∃ u', setEntityName e s u = Some u'
        ∧ getEntityName e u' = Some (copyString s)
        ∧ ∀ x dx, x ≠ e → get (m_entities u) x = Some dx → name dx ≠ name d →
                  getEntityName x u' = getEntityName x u.
Proof.
  intros Hwt Hd. pose proof (wt_name_index _ Hwt e d Hd) as Hlt.
  pose proof (get_lt _ _ _ Hd) as He.
  unfold setEntityName. rewrite Hd, bind_Some. cbv zeta.
  case_bool_decide as Hneg; [case_bool_decide as Hs|].
  - (* no name, and none given *)
    exists u. split; [done|]. split; [|done].
    unfold getEntityName. rewrite Hd, bind_Some. cbv zeta.
    rewrite bool_decide_true by done. by rewrite Hs, copyString_empty.
  - (* a new entry of the table *)
    rewrite (modify_entity_Some u e _ d Hd), bind_Some.
    eexists. split; [done|]. split.
    + unfold getEntityName. cbn [m_entities m_names with_names with_entities].
      rewrite get_set_eq by done. rewrite bind_Some. cbv zeta.
      change (name (set_name_idx (size (m_names u)) d)) with (size (m_names u)).
      rewrite bool_decide_false by (pose proof (size_nonneg (m_names u)); lia).
      by rewrite get_app_size.
    + intros x dx Hx Hdx _. unfold getEntityName.
      cbn [m_entities m_names with_names with_entities].
      rewrite get_set_ne by (done || lia). rewrite Hdx, !bind_Some. cbv zeta.
      case_bool_decide; [done|].
      rewrite get_app_l; [done|]. apply (wt_name_index _ Hwt x dx Hdx).
  - (* the entry the entity has *)
    destruct (get_is_Some (m_names u) (name d)) as [n Hn]; [lia|].
    rewrite Hn, bind_Some. eexists. split; [done|]. split.
    + unfold getEntityName. cbn [m_entities m_names with_names].
      rewrite Hd, bind_Some. cbv zeta. rewrite bool_decide_false by done.
      rewrite get_set_eq by lia. done.
    + intros x dx Hx Hdx Hne. unfold getEntityName. cbn [m_entities m_names with_names].
      rewrite Hdx, !bind_Some. cbv zeta. case_bool_decide; [done|].
      rewrite get_set_ne by (lia || done). done.
Qed.

(** the search of the root level, entry by entry *)
Lemma findByName_roots_spec (name_ : string) (u : Universe) (ns : list EntityName) :
  (∀ n, n ∈ ns → is_Some (getParent (n_entity n) u)) →
  ∃ r, findByName_roots ns name_ u = Some r
       ∧ (isValid r = true →
          ∃ n p, n ∈ ns ∧ n_entity n = r ∧ n_name n = name_
                 ∧ getParent r u = Some p ∧ isValid p = false)
       ∧ (isValid r = false →
          ∀ n, n ∈ ns → n_name n = name_ →
               ∃ p, getParent (n_entity n) u = Some p ∧ isValid p = true).
Proof.
  induction ns as [|n ns IH]; intros Hns.
  - exists INVALID_ENTITY. split; [done|]. split; [done|].
    intros _ n Hn. by apply elem_of_nil in Hn.
  - destruct IH as (r & Hr & Hfound & Hnone).
    { intros m Hm. apply Hns. by right. }
    assert (∃ r', findByName_roots ns name_ u = Some r'
                  ∧ (isValid r' = true →
                     ∃ m p, m ∈ n :: ns ∧ n_entity m = r' ∧ n_name m = name_
                            ∧ getParent r' u = Some p ∧ isValid p = false)
                  ∧ (isValid r' = false →
                     ∀ m, m ∈ ns → n_name m = name_ →
                          ∃ p, getParent (n_entity m) u = Some p ∧ isValid p = true))
      as Hrest.
    { exists r. split; [done|]. split; [|done].
      intros Hv. destruct (Hfound Hv) as (m & p & Hm & ?). exists m, p.
      split; [by right|done]. }
    clear Hr Hfound Hnone.
    cbn [findByName_roots]. unfold equalStrings. case_bool_decide as Hname.
    + destruct (Hns n) as [p Hp]; [by left|].
      pose proof Hp as Hp'. unfold getParent in Hp'.
      destruct (get (m_entities u) (n_entity n)) as [d|] eqn:Hd; [|done].
      rewrite bind_Some in Hp' |- *. cbv zeta in Hp'.
      pose proof (get_lt _ _ _ Hd) as Hrange.
      assert (isValid (n_entity n) = true) as Hvn.
      { unfold isValid. apply bool_decide_eq_true. lia. }
      case_bool_decide as Hidx.
      * injection Hp' as <-. exists (n_entity n). split; [done|].
        split; [|congruence]. intros _. exists n, INVALID_ENTITY. split; [by left|done].
      * destruct (get (m_hierarchy u) (hierarchy d)) as [h|]; [|done].
        rewrite bind_Some. simpl in Hp'. injection Hp' as <-.
        destruct (isValid (parent h)) eqn:Hv; cbn [negb].
        -- destruct Hrest as (r' & Hr' & Hfound & Hnone). exists r'.
           split; [done|]. split; [done|].
           intros Hv' m Hm Hmn. apply elem_of_cons in Hm as [->|Hm]; [eauto|].
           by apply Hnone.
        -- exists (n_entity n). split; [done|]. split; [|congruence].
           intros _. exists n, (parent h). split; [by left|done].
    + destruct Hrest as (r' & Hr' & Hfound & Hnone). exists r'.
      split; [done|]. split; [done|].
      intros Hv' m Hm Hmn. apply elem_of_cons in Hm as [->|Hm]; [done|].
      by apply Hnone.
Qed.

(** X8: [findByName(INVALID_ENTITY, name)] gives the entity of an entry of
    the name table that carries [name] and whose entity has no parent; it
    gives [INVALID_ENTITY] only when every entity with that name in the
    table has a parent. *)
Theorem findByName_root (fuel : nat) (name_ : string) (u : Universe) :
  (∀ n, n ∈ m_names u → is_Some (getParent (n_entity n) u)) →
  ∃ r, findByName fuel INVALID_ENTITY name_ u = Some r
       ∧ (isValid r = true →
          ∃ n p, n ∈ m_names u ∧ n_entity n = r ∧ n_name n = name_
                 ∧ getParent r u = Some p ∧ isValid p = false)
       ∧ (isValid r = false →
          ∀ n, n ∈ m_names u → n_name n = name_ →
               ∃ p, getParent (n_entity n) u = Some p ∧ isValid p = true).
Proof.
  intros Hns. unfold findByName. change (isValid INVALID_ENTITY) with false. cbn iota.
  by apply findByName_roots_spec.
Qed.

Lemma kids_parent (u : Universe) (p : Z) (l : list Z) :
  ∀ c x, kids u p c l → x ∈ l → getParent x u = Some p.
Proof.
  induction l as [|y l IH]; intros c x Hk Hx; [by apply elem_of_nil in Hx|].
  destruct Hk as (-> & _ & h & Hh & Hp & Hk).
  apply elem_of_cons in Hx as [->|Hx]; [|by eapply IH].
  by rewrite (getParent_node _ _ _ Hh), Hp.
Qed.

(** the search among the children, child by child *)
Lemma findByName_children_spec (name_ : string) (u : Universe) (p : Z) (l : list Z) :
  wf_tables u →
  ∀ (fuel : nat) (c : Z), kids u p c l → (length l < fuel)%nat →
    ∃ r, findByName_children fuel c name_ u = Some r
         ∧ (isValid r = true → r ∈ l ∧ named u r name_)
         ∧ (isValid r = false → ∀ x, x ∈ l → ¬ named u x name_).
Proof.
  intros Hwt. induction l as [|x l IH]; intros fuel c Hk Hfuel.
  - destruct fuel as [|fuel]; [simpl in Hfuel; lia|].
    simpl in Hk. cbn [findByName_children]. rewrite Hk.
    exists INVALID_ENTITY. split; [done|]. split; [done|].
    intros _ x Hx. by apply elem_of_nil in Hx.
  - destruct fuel as [|fuel]; [simpl in Hfuel; lia|]. cbn [length] in Hfuel.
    destruct Hk as (-> & Hv & h & Hh & Hp & Hk).
    pose proof Hh as (d & Hd & Hidx & Hnode)%node_of_Some.
    cbn [findByName_children]. rewrite Hv, Hd, bind_Some. cbv zeta.
    destruct (IH fuel (next_sibling h) Hk) as (r & Hr & Hfound & Hnone); [lia|].
    case_bool_decide as Hname.
    + destruct (get_is_Some (m_names u) (name d)) as [n Hn].
      { split; [done|]. apply (wt_name_index _ Hwt x d Hd). }
      rewrite Hn, !bind_Some. unfold equalStrings. case_bool_decide as Heq.
      * exists x. split; [done|]. split; [|congruence].
        intros _. split; [by left|]. by exists d, n.
      * rewrite Hnode, bind_Some. exists r. split; [done|]. split.
        -- intros Hvr. destruct (Hfound Hvr) as [? ?]. split; [by right|done].
        -- intros Hvr z Hz. apply elem_of_cons in Hz as [->|Hz]; [|by apply Hnone].
           intros (d' & n' & Hd' & _ & Hn' & Heq').
           rewrite Hd in Hd'. injection Hd' as <-.
           rewrite Hn in Hn'. injection Hn' as <-. done.
    + rewrite bind_Some, Hnode, bind_Some. exists r. split; [done|]. split.
      * intros Hvr. destruct (Hfound Hvr) as [? ?]. split; [by right|done].
      * intros Hvr z Hz. apply elem_of_cons in Hz as [->|Hz]; [|by apply Hnone].
        intros (d' & n' & Hd' & Hpos & _).
        rewrite Hd in Hd'. injection Hd' as <-. done.
Qed.

(** X9: [findByName(parent, name)] with a valid [parent] gives a child of
    [parent] that carries [name] in the name table, or [INVALID_ENTITY]
    when no child of [parent] carries it. *)
Theorem findByName_child (fuel : nat) (p : Z) (name_ : string) (u : Universe) :
  wf_hierarchy u → wf_tables u → enough_fuel u fuel →
  0 ≤ p < size (m_entities u) →
  ∃ r, findByName fuel p name_ u = Some r
       ∧ (isValid r = true → getParent r u = Some p ∧ named u r name_)
       ∧ (isValid r = false → ∀ c, getParent c u = Some p → ¬ named u c name_).
Proof.
  intros Hwf Hwt Hfuel Hp.
  assert (isValid p = true) as Hvp by (apply bool_decide_eq_true; lia).
  destruct (get_is_Some (m_entities u) p) as [d Hd]; [done|].
  destruct (wf_below _ Hwf p Hp) as (b & Hb & Hnd & Hfam).
  assert (∀ c, getParent c u = Some p → c ∈ tops b) as Hchildren.
  { intros c Hc. unfold getParent in Hc.
    destruct (get (m_entities u) c) as [dc|] eqn:Hdc; [|done].
    rewrite bind_Some in Hc. cbv zeta in Hc.
    case_bool_decide as Hidx; [injection Hc as <-; done|].
    destruct (get (m_hierarchy u) (hierarchy dc)) as [h|] eqn:Hh; [|done].
    injection Hc as Hc.
    assert (node_of u c = Some h) as Hnode by (by eapply node_of_get).
    destruct (wf_parent _ Hwf c h Hnode) as (b' & Hb' & Hcb); [by rewrite Hc|].
    rewrite Hc in Hb'. by rewrite (below_det _ _ _ _ Hb Hb'). }
  unfold findByName. rewrite Hvp, Hd, bind_Some. cbv zeta.
  case_bool_decide as Hidx.
  - rewrite (below_no_node u p d b Hd Hidx Hb) in Hchildren.
    exists INVALID_ENTITY. split; [done|]. split; [done|].
    intros _ c Hc. apply Hchildren in Hc. by apply elem_of_nil in Hc.
  - destruct (br_node _ (wf_backrefs _ Hwf) p d Hd) as (h & Hh & _); [lia|].
    rewrite Hh, bind_Some.
    pose proof (node_of_get _ _ _ _ Hd Hh) as Hnode.
    destruct Hb as (c0 & Hc0 & Hshape).
    rewrite (getFirstChild_node _ _ _ Hnode) in Hc0. injection Hc0 as <-.
    pose proof (shape_family_kids u p b _ Hshape Hfam) as Hkids.
    apply NoDup_cons in Hnd as [_ Hnd].
    destruct (wf_height u p b fuel Hwf) as [_ Hlen]; [|done|done|].
    { exists (first_child h). split; [by apply getFirstChild_node|done]. }
    destruct (findByName_children_spec name_ u p (tops b) Hwt fuel _ Hkids Hlen)
      as (r & Hr & Hfound & Hnone).
    exists r. split; [done|]. split.
    + intros Hv. destruct (Hfound Hv) as [Hin Hnamed]. split; [|done].
      by apply (kids_parent u p (tops b) _ r Hkids).
    + intros Hv c Hc. apply (Hnone Hv). by apply Hchildren.
Qed.

(** ** The entities of a universe *)

Lemma hasEntity_true (x : Z) (u : Universe) :
  hasEntity x u = true ↔ ∃ d, get (m_entities u) x = Some d ∧ valid d = true.
Proof.
  unfold hasEntity. split.
  - intros H. apply andb_true_iff in H as [_ H].
    destruct (get (m_entities u) x) as [d|]; [eauto|done].
  - intros (d & Hd & Hv). pose proof (get_lt _ _ _ Hd) as Hx. rewrite Hd, Hv.
    rewrite !bool_decide_true by lia. done.
Qed.

Lemma hasEntity_false (x : Z) (u : Universe) :
  hasEntity x u = false ↔ ∀ d, get (m_entities u) x = Some d → valid d = false.
Proof.
  rewrite <- not_true_iff_false, hasEntity_true. split.
  - intros H d Hd. destruct (valid d) eqn:Hv; [|done]. exfalso. eauto.
  - intros H (d & Hd & Hv). rewrite (H d Hd) in Hv. done.
Qed.

(** the scan for a valid slot, from the slot [i] on *)
Lemma first_valid_from_spec (es : list EntityData) :
  ∀ i, 0 ≤ i →
    (first_valid_from i es = INVALID_ENTITY
     ∧ ∀ k d, es !! k = Some d → valid d = false)
    ∨ ∃ (k : nat) d, first_valid_from i es = i + Z.of_nat k
                     ∧ es !! k = Some d ∧ valid d = true
                     ∧ ∀ (j : nat) dj, (j < k)%nat → es !! j = Some dj → valid dj = false.
Proof.
  induction es as [|d es IH]; intros i Hi.
  - left. split; [done|]. intros k d Hd. done.
  - cbn [first_valid_from]. destruct (valid d) eqn:Hv.
    + right. exists 0%nat, d. split; [lia|]. split; [done|]. split; [done|].
      intros j dj Hj. lia.
    + destruct (IH (i + 1)) as [[Hr Hall]|(k & dk & Hr & Hk & Hvk & Hbefore)]; [lia|..].
      * left. split; [done|]. intros [|k] d' Hd'; [by injection Hd' as <-|].
        by apply (Hall k).
      * right. exists (S k), dk. split; [lia|]. split; [done|]. split; [done|].
        intros [|j] dj Hj Hdj; [by injection Hdj as <-|].
        apply (Hbefore j); [lia|done].
Qed.

(** X10: [getFirstEntity] gives the first valid slot, [getNextEntity] the
    first valid slot after the entity; they give [INVALID_ENTITY] when
    there is none.  So the two walk through the entities of the universe,
    each once, in the order of their indices. *)
Theorem entity_iteration (u : Universe) (e : Z) :
  0 ≤ e →
  (if isValid (getFirstEntity u)
   then hasEntity (getFirstEntity u) u = true
        ∧ ∀ x, x < getFirstEntity u → hasEntity x u = false
   else ∀ x, hasEntity x u = false)
  ∧ (if isValid (getNextEntity e u)
     then e < getNextEntity e u ∧ hasEntity (getNextEntity e u) u = true
          ∧ ∀ x, e < x < getNextEntity e u → hasEntity x u = false
     else ∀ x, e < x → hasEntity x u = false).
Proof.
  intros He. split.
  - unfold getFirstEntity.
    destruct (first_valid_from_spec (m_entities u) 0)
      as [[-> Hall]|(k & dk & -> & Hk & Hvk & Hbefore)]; [lia|..].
    + change (isValid INVALID_ENTITY) with false. cbn iota.
      intros x. apply hasEntity_false. intros d (_ & Hd)%get_Some. by eapply Hall.
    + rewrite Z.add_0_l.
      assert (isValid (Z.of_nat k) = true) as -> by (apply bool_decide_eq_true; lia).
      split.
      * apply hasEntity_true. exists dk. split; [|done].
        apply get_Some. split; [lia|]. by rewrite Nat2Z.id.
      * intros x Hx. apply hasEntity_false. intros d (Hx0 & Hd)%get_Some.
        apply (Hbefore (Z.to_nat x)); [lia|done].
  - unfold getNextEntity. rewrite Z.max_r by lia.
    set (es := drop (Z.to_nat (e + 1)) (m_entities u)).
    assert (∀ (k : nat) d, es !! k = Some d ↔ get (m_entities u) (e + 1 + Z.of_nat k) = Some d)
      as Hes.
    { intros k d. unfold es. rewrite lookup_drop, get_Some.
      replace (Z.to_nat (e + 1 + Z.of_nat k)) with (Z.to_nat (e + 1) + k)%nat by lia.
      split; [intros ?; split; [lia|done]|by intros [_ ?]]. }
    destruct (first_valid_from_spec es (e + 1))
      as [[-> Hall]|(k & dk & -> & Hk & Hvk & Hbefore)]; [lia|..].
    + change (isValid INVALID_ENTITY) with false. cbn iota.
      intros x Hx. apply hasEntity_false. intros d Hd.
      apply (Hall (Z.to_nat (x - (e + 1)))). apply Hes.
      by replace (e + 1 + Z.of_nat (Z.to_nat (x - (e + 1)))) with x by lia.
    + assert (isValid (e + 1 + Z.of_nat k) = true) as ->
        by (apply bool_decide_eq_true; lia).
      split; [lia|]. split.
      * apply hasEntity_true. exists dk. split; [|done]. by apply Hes.
      * intros x Hx. apply hasEntity_false. intros d Hd.
        apply (Hbefore (Z.to_nat (x - (e + 1)))); [lia|]. apply Hes.
        by replace (e + 1 + Z.of_nat (Z.to_nat (x - (e + 1)))) with x by lia.
Qed.

(** X11: [createEntity(position, rotation)] takes the head of the free
    list, or a new slot when the list is empty; the entity it returns is
    valid, at the position and rotation given, with the scale 1, no
    component, no name and no parent, and the event is sent.  No other
    entity comes or goes, and no other world transform changes. *)
Theorem createEntity_contract (p : DVec3) (r : Quat) (u : Universe) :
  size (m_transforms u) = size (m_entities u) →
  m_first_free_slot u < size (m_entities u) →
  (∀ d, get (m_entities u) (m_first_free_slot u) = Some d → next d < size (m_entities u)) →
  ∃ e u', createEntity p r u = Some (e, u')
          ∧ e = (if bool_decide (0 ≤ m_first_free_slot u) then m_first_free_slot u
                 else size (m_entities u))
          ∧ hasEntity e u' = true
          ∧ getTransform e u' = Some (mkTransform p r float_one)
          ∧ getComponentsMask e u' = Some 0
          ∧ getEntityName e u' = Some EmptyString
          ∧ getParent e u' = Some INVALID_ENTITY
          ∧ m_events u' = EntityCreated e :: m_events u
          ∧ ∀ x, x ≠ e → hasEntity x u' = hasEntity x u
                         ∧ getTransform x u' = getTransform x u.
Proof.
  intros Hsz Hhead Hnext. pose proof (size_nonneg (m_entities u)) as Hnn.
  unfold createEntity.
  lazymatch goal with
  | |- ∃ e u', ?first ≫= ?k = @?R e u' ∧ @?P e u' => set (phase := first)
  end.
  assert (∃ e es ts ff d0,
            phase
            = Some (e, with_first_free_slot ff (with_transforms ts (with_entities es u)))
            ∧ e = (if bool_decide (0 ≤ m_first_free_slot u) then m_first_free_slot u
                   else size (m_entities u))
            ∧ get es e = Some d0 ∧ 0 ≤ e < size ts
            ∧ (∀ x, x ≠ e → get ts x = get (m_transforms u) x)
            ∧ (∀ x, x ≠ e →
                 option_Forall2 (λ a b, valid b = valid a) (get (m_entities u) x) (get es x)))
    as (e & es & ts & ff & d0 & -> & He & Hd0 & Hrange & Hts & Hes).
  { unfold phase. case_bool_decide as Hff.
    - destruct (get_is_Some (m_entities u) (m_first_free_slot u)) as [d Hd]; [lia|].
      destruct (get_is_Some (m_transforms u) (m_first_free_slot u)) as [t Ht]; [lia|].
      cbv zeta. rewrite Hd, Ht, !bind_Some. specialize (Hnext d Hd).
      case_bool_decide as Hn.
      + destruct (get_is_Some (m_entities u) (next d)) as [dn Hdn]; [lia|].
        rewrite (modify_entity_Some u _ _ dn Hdn), bind_Some.
        exists (m_first_free_slot u), (set (m_entities u) (next d) (set_prev (-1) dn)),
          (m_transforms u), (next d).
        destruct (decide (next d = m_first_free_slot u)) as [Heq|Hne].
        * exists (set_prev (-1) dn). split; [done|]. split; [done|].
          split; [rewrite Heq; by apply get_set_eq|]. split; [lia|]. split; [done|].
          intros x Hx. rewrite get_set_ne by (lia || congruence).
          destruct (get (m_entities u) x); constructor. done.
        * exists d. split; [done|]. split; [done|].
          split; [by rewrite get_set_ne by (lia || done)|]. split; [lia|].
          split; [done|]. intros x Hx. rewrite get_set by lia.
          case_bool_decide as Hxn; [subst x; rewrite Hdn; by constructor|].
          destruct (get (m_entities u) x); constructor. done.
      + rewrite bind_Some.
        exists (m_first_free_slot u), (m_entities u), (m_transforms u), (next d), d.
        split; [by destruct u|]. split; [done|]. split; [done|]. split; [lia|].
        split; [done|]. intros x Hx. destruct (get (m_entities u) x); constructor. done.
    - cbv zeta.
      exists (size (m_entities u)), (m_entities u ++ [indet_entity]),
        (m_transforms u ++ [indet_transform]), (m_first_free_slot u), indet_entity.
      split; [done|]. split; [done|]. split; [apply get_app_size|].
      split; [rewrite size_app; change (size [_]) with 1; lia|].
      assert (∀ {A} (l : list A) (y : A) x, x ≠ size l → get (l ++ [y]) x = get l x) as Happ.
      { intros A l y x Hx. destruct (decide (x < size l)) as [Hlt|Hge];
          [by apply get_app_l|].
        unfold get. destruct (bool_decide (0 ≤ x)) eqn:Hb; [|done].
        apply bool_decide_eq_true in Hb. unfold size in Hx, Hge.
        rewrite !lookup_ge_None_2; [done|lia|rewrite length_app; simpl; lia]. }
      split.
      + intros x Hx. apply Happ. lia.
      + intros x Hx. rewrite Happ by done.
        destruct (get (m_entities u) x); constructor. done. }
  match goal with |- context [ (Some (e, ?u1) ≫= _) ] => set (u_1 := u1) end.
  rewrite bind_Some. cbn beta iota.
  destruct (get_is_Some ts e) as [t0 Ht0]; [done|].
  unfold modify_transform. change (m_transforms u_1) with ts. rewrite Ht0, !bind_Some.
  unfold modify_entity. cbn [m_entities with_transforms]. change (m_entities u_1) with es.
  rewrite Hd0, !bind_Some.
  pose proof (get_lt _ _ _ Hd0) as He'.
  eexists _, _. split; [done|]. split; [done|].
  split; [|split; [|split; [|split; [|split; [|split]]]]].
  - apply hasEntity_true. cbn. eexists. split; [by apply get_set_eq|done].
  - unfold getTransform. cbn. by apply get_set_eq.
  - unfold getComponentsMask. cbn. by rewrite get_set_eq.
  - unfold getEntityName. cbn. by rewrite get_set_eq.
  - unfold getParent. cbn. by rewrite get_set_eq.
  - done.
  - intros x Hx. split.
    + specialize (Hes x Hx).
      destruct (hasEntity x u) eqn:Hold.
      * apply hasEntity_true in Hold as (d & Hd & Hv). rewrite Hd in Hes.
        apply option_Forall2_Some_l in Hes as (d' & Hd' & Hvd).
        apply hasEntity_true. cbn.
        exists d'. rewrite get_set_ne by (lia || done). split; [done|congruence].
      * apply hasEntity_false. cbn. intros d' Hd'.
        rewrite get_set_ne in Hd' by (lia || done). rewrite Hd' in Hes.
        apply option_Forall2_Some_r in Hes as (d & Hd & Hvd).
        rewrite hasEntity_false in Hold. rewrite Hvd. by apply Hold.
    + unfold getTransform. cbn. rewrite get_set_ne by (lia || done). by apply Hts.
Qed.

Lemma modify_entity_keeps_invalid (i e : Z) (g : EntityData → EntityData)
    (u u' : Universe) :
  (∀ d, valid (g d) = valid d) → modify_entity i g u = Some u' →
  (∃ d, get (m_entities u) e = Some d ∧ valid d = false) →
  ∃ d', get (m_entities u') e = Some d' ∧ valid d' = false.
Proof.
  intros Hg Hm (d & Hd & Hv). unfold modify_entity in Hm.
  destruct (get (m_entities u) i) as [di|] eqn:Hdi; [|done].
  injection Hm as <-. cbn. pose proof (get_lt _ _ _ Hdi) as Hi.
  rewrite get_set by done. case_bool_decide as Hei; [|eauto].
  subst i. exists (g di). split; [done|]. rewrite Hg. congruence.
Qed.

(** the end of [destroyEntity]: the slot is not valid any more, and it is
    the head of the free list *)
Lemma destroyEntity_release_invalid (e : Z) (u u' : Universe) :
  destroyEntity_release e u = Some u' →
  (∃ d', get (m_entities u') e = Some d' ∧ valid d' = false)
  ∧ m_first_free_slot u' = e
  ∧ ∃ evs, m_events u' = EntityDestroyed e :: evs.
Proof.
  unfold destroyEntity_release. cbv zeta. intros H.
  destruct (modify_entity e _ u) as [ua|] eqn:Ha; [|done]. rewrite bind_Some in H.
  assert (∃ d, get (m_entities ua) e = Some d ∧ valid d = false) as Hinv_a.
  { unfold modify_entity in Ha. destruct (get (m_entities u) e) as [d|] eqn:Hd; [|done].
    injection Ha as <-. cbn. rewrite get_set_eq by (by eapply get_lt). eauto. }
  destruct (if bool_decide (0 ≤ m_first_free_slot u) then _ else _) as [ub|] eqn:Hb;
    [|done].
  rewrite bind_Some in H.
  assert (∃ d, get (m_entities ub) e = Some d ∧ valid d = false) as Hinv_b.
  { case_bool_decide; [|by injection Hb as <-].
    eapply (modify_entity_keeps_invalid _ _ _ ua ub); [|exact Hb|exact Hinv_a]. done. }
  destruct Hinv_b as (db & Hdb & Hvb). rewrite Hdb, bind_Some in H.
  destruct (if bool_decide (0 ≤ name db) then _ else _) as [uc|] eqn:Hc; [|done].
  rewrite bind_Some in H. injection H as <-.
  split; [|split; [done|by eexists]].
  cbn [m_entities emit with_first_free_slot].
  case_bool_decide; [|injection Hc as <-; eauto].
  destruct (last (m_names ub)) as [back|]; [|done]. rewrite bind_Some in Hc.
  destruct (modify_entity (n_entity back) _ ub) as [u1|] eqn:H1; [|done].
  rewrite bind_Some in Hc.
  assert (∃ d, get (m_entities u1) e = Some d ∧ valid d = false) as (d1 & Hd1 & Hv1).
  { eapply (modify_entity_keeps_invalid _ _ _ ub u1); [|exact H1|eauto]. done. }
  rewrite Hd1, bind_Some in Hc. cbv zeta in Hc.
  eapply (modify_entity_keeps_invalid _ _ _ _ uc); [|exact Hc|]; [done|].
  cbn [m_entities with_names]. eauto.
Qed.

(** X12: [destroyEntity] is not reentrant: after it the entity is not an
    entity of the universe any more, its slot is the head of the free list,
    and a second [destroyEntity] of it runs into the assertion
    [ASSERT(entity_data.valid)]. *)
Theorem destroyEntity_not_reentrant {B} (map : ComponentTypeMap B) (fuel fuel' : nat)
    (e : Z) (u u' : Universe) :
  destroyEntity map fuel e u = Some u' →
  hasEntity e u = true
  ∧ hasEntity e u' = false
  ∧ m_first_free_slot u' = e
  ∧ (∃ evs, m_events u' = EntityDestroyed e :: evs)
  ∧ destroyEntity map fuel' e u' = None.
Proof.
  unfold destroyEntity at 1. intros H.
  destruct (get (m_entities u) e) as [d|] eqn:Hd; [|done]. rewrite bind_Some in H.
  destruct (valid d) eqn:Hv; [|done]. cbn [negb] in H.
  destruct (detach_children fuel e u) as [u1|]; [|done]. rewrite bind_Some in H.
  destruct (setParent fuel INVALID_ENTITY e u1) as [u2|]; [|done]. rewrite bind_Some in H.
  destruct (get (m_entities u2) e) as [d2|]; [|done]. rewrite bind_Some in H.
  destruct (destroy_components map _ 0 (components d2) e u2) as [u3|]; [|done].
  rewrite bind_Some in H.
  destruct (destroyEntity_release_invalid e u3 u' H) as ((d' & Hd' & Hv') & Hff & Hev).
  split; [apply hasEntity_true; eauto|].
  split; [apply hasEntity_false; intros d0 Hd0; congruence|].
  split; [done|]. split; [done|].
  unfold destroyEntity. rewrite Hd', bind_Some, Hv'. done.
Qed.

(** ** Components *)

Lemma scan_components_spec (mask : Z) (n : nat) :
  ∀ i, 0 ≤ i →
    let r := scan_components n i mask in
    (r = INVALID_COMPONENT_TYPE
     ∧ ∀ x, i ≤ x < i + Z.of_nat n → Z.land mask (type_bit x) = 0)
    ∨ (i ≤ r < i + Z.of_nat n ∧ Z.land mask (type_bit r) ≠ 0
       ∧ ∀ x, i ≤ x < r → Z.land mask (type_bit x) = 0).
Proof.
  induction n as [|n IH]; intros i Hi; cbn [scan_components].
  - left. split; [done|]. intros x Hx. lia.
  - destruct (Z.land mask (type_bit i) =? 0) eqn:Hbit; cbn [negb].
    + apply Z.eqb_eq in Hbit.
      destruct (IH (i + 1)) as [[Hr Hall]|(Hr & Hset & Hbefore)]; [lia|..].
      * left. split; [done|]. intros x Hx.
        destruct (decide (x = i)) as [->|]; [done|]. apply Hall. lia.
      * right. split; [lia|]. split; [done|]. intros x Hx.
        destruct (decide (x = i)) as [->|]; [done|]. apply Hbefore. lia.
    + apply Z.eqb_neq in Hbit. right. split; [lia|]. split; [done|]. intros x Hx. lia.
Qed.

Lemma hasComponent_land (u : Universe) (e t : Z) (d : EntityData) :
  get (m_entities u) e = Some d →
  (hasComponent e t u = Some true ↔ Z.land (components d) (type_bit t) ≠ 0)
  ∧ (hasComponent e t u = Some false ↔ Z.land (components d) (type_bit t) = 0).
Proof.
  intros Hd. unfold hasComponent. rewrite Hd, bind_Some. cbv zeta.
  destruct (Z.land (components d) (type_bit t) =? 0) eqn:Hbit; cbn [negb].
  - apply Z.eqb_eq in Hbit. split; split; done.
  - apply Z.eqb_neq in Hbit. split; split; done.
Qed.

(** X13: [getFirstComponent] gives the lowest component type of the
    entity, [getNextComponent] the lowest one above the type given, and
    the invalid component when there is none: the two walk through the
    components of the entity, each once. *)
Theorem component_iteration (u : Universe) (e t : Z) (d : EntityData) :
  get (m_entities u) e = Some d → 0 ≤ t < MAX_TYPES_COUNT →
  (∃ r, getFirstComponent e u = Some r
        ∧ if bool_decide (r = INVALID_COMPONENT_TYPE)
          then ∀ x, 0 ≤ x < MAX_TYPES_COUNT → hasComponent e x u = Some false
          else 0 ≤ r < MAX_TYPES_COUNT ∧ hasComponent e r u = Some true
               ∧ ∀ x, 0 ≤ x < r → hasComponent e x u = Some false)
  ∧ (∃ r, getNextComponent e t u = Some r
          ∧ if bool_decide (r = INVALID_COMPONENT_TYPE)
            then ∀ x, t < x < MAX_TYPES_COUNT → hasComponent e x u = Some false
            else t < r < MAX_TYPES_COUNT ∧ hasComponent e r u = Some true
                 ∧ ∀ x, t < x < r → hasComponent e x u = Some false).
Proof.
  intros Hd Ht.
  pose proof (λ x, proj1 (hasComponent_land u e x d Hd)) as Htrue.
  pose proof (λ x, proj2 (hasComponent_land u e x d Hd)) as Hfalse.
  unfold getFirstComponent, getNextComponent. rewrite Hd, !bind_Some.
  unfold MAX_TYPES_COUNT in *. split; eexists; (split; [done|]).
  - destruct (scan_components_spec (components d) (Z.to_nat 64) 0)
      as [[-> Hall]|(Hr & Hset & Hbefore)]; [lia|..].
    + rewrite bool_decide_true by done. intros x Hx. apply Hfalse, Hall. lia.
    + rewrite bool_decide_false by (unfold INVALID_COMPONENT_TYPE; lia).
      split; [lia|]. split; [by apply Htrue|]. intros x Hx. apply Hfalse, Hbefore. lia.
  - destruct (scan_components_spec (components d) (Z.to_nat (64 - (t + 1))) (t + 1))
      as [[-> Hall]|(Hr & Hset & Hbefore)]; [lia|..].
    + rewrite bool_decide_true by done. intros x Hx. apply Hfalse, Hall. lia.
    + rewrite bool_decide_false by (unfold INVALID_COMPONENT_TYPE; lia).
      split; [lia|]. split; [by apply Htrue|]. intros x Hx. apply Hfalse, Hbefore. lia.
Qed.

Lemma hasComponent_testbit (u : Universe) (e t : Z) (d : EntityData) :
  get (m_entities u) e = Some d → 0 ≤ t < MAX_TYPES_COUNT →
  hasComponent e t u = Some (Z.testbit (components d) t).
Proof.
  intros Hd Ht. pose proof (hasComponent_true_iff u e t d Hd Ht) as Hiff.
  assert (∃ b, hasComponent e t u = Some b) as [b Hb].
  { unfold hasComponent. rewrite Hd, bind_Some. eauto. }
  rewrite Hb in Hiff |- *. f_equal.
  destruct b, (Z.testbit (components d) t); try done.
  - by destruct (proj1 Hiff eq_refl).
  - by injection (proj2 Hiff eq_refl).
Qed.

(** X14: a component that comes or goes changes one bit of one mask:
    after [onComponentCreated] or [onComponentDestroyed] of the type [t]
    for the entity [e], [hasComponent] is as before for every other type
    and for every other entity. *)
Theorem component_bits_independent (u u' : Universe) (e t x t' : Z) :
  0 ≤ t < MAX_TYPES_COUNT → 0 ≤ t' < MAX_TYPES_COUNT →
  onComponentCreated e t u = Some u' ∨ onComponentDestroyed e t u = Some u' →
  x ≠ e ∨ t' ≠ t →
  hasComponent x t' u' = hasComponent x t' u.
Proof.
  intros Ht Ht' Hop Hother.
  assert (∃ d m, get (m_entities u) e = Some d
                 ∧ m_entities u' = set (m_entities u) e (set_components m d)
                 ∧ (t' ≠ t → Z.testbit m t' = Z.testbit (components d) t'))
    as (d & m & Hd & HE & Hbits).
  { destruct Hop as [Hop|Hop].
    - unfold onComponentCreated, modify_entity in Hop.
      destruct (get (m_entities u) e) as [d|] eqn:Hd; [|done].
      injection Hop as <-. exists d, (Z.lor (components d) (type_bit t)).
      split; [done|]. split; [done|]. intros Hne.
      rewrite Z.lor_spec, type_bit_pow, Z.pow2_bits_eqb by lia.
      rewrite (proj2 (Z.eqb_neq t t')) by done. apply orb_false_r.
    - unfold onComponentDestroyed in Hop.
      destruct (get (m_entities u) e) as [d|] eqn:Hd; [|done].
      rewrite bind_Some in Hop. cbv zeta in Hop. case_bool_decide; [done|].
      unfold modify_entity in Hop. rewrite Hd in Hop. injection Hop as <-.
      exists d, (Z.land (components d) (u64_not (type_bit t))).
      split; [done|]. split; [done|]. intros Hne.
      rewrite Z.land_spec, u64_not_type_bit_testbit by lia.
      unfold MAX_TYPES_COUNT in Ht'.
      rewrite bool_decide_true, bool_decide_false by (lia || done). apply andb_true_r. }
  pose proof (get_lt _ _ _ Hd) as He.
  destruct (decide (x = e)) as [->|Hxe].
  - assert (t' ≠ t) as Hne by (by destruct Hother).
    rewrite (hasComponent_testbit u e t' d Hd Ht').
    rewrite (hasComponent_testbit u' e t' (set_components m d)); [by rewrite <- Hbits|..].
    + rewrite HE. by apply get_set_eq.
    + done.
  - unfold hasComponent. rewrite HE. by rewrite get_set_ne by (lia || done).
Qed.

(** ** More on the hierarchy *)

(** X15: on a well-formed hierarchy [isDescendant(ancestor, descendant)]
    returns, and says whether [descendant] is below [ancestor]: a child, a
    child of a child, and so on. *)
Theorem isDescendant_decides (fuel : nat) (a x : Z) (u : Universe) :
  wf_hierarchy u → enough_fuel u fuel → 0 ≤ a < size (m_entities u) →
  ∃ r, isDescendant fuel a x u = Some r ∧ (r = true ↔ descendant u a x).
Proof.
  intros Hwf Hfuel Ha.
  destruct (wf_below _ Hwf a Ha) as (b & Hb & Hnd & _).
  apply NoDup_cons in Hnd as [_ Hnd].
  destruct (wf_height u a b fuel Hwf Hb Hnd Hfuel) as [Hh _].
  exists (bool_decide (x ∈ ents b)). split; [by apply isDescendant_below|].
  rewrite bool_decide_eq_true. split.
  - intros Hx. by exists b.
  - intros (b' & Hb' & Hx). by rewrite (below_det _ _ _ _ Hb Hb').
Qed.

(** the second part of [setParent] without a new parent *)
Lemma setParent_unparent (fuel : nat) (np c : Z) (u u' : Universe) :
  backrefs u → isValid np = false → setParent fuel np c u = Some u' →
  ∀ h', node_of u' c = Some h' → isValid (parent h') = false.
Proof.
  intros Hbr Hnp H. unfold setParent, would_create_cycle in H.
  rewrite Hnp, bind_Some in H.
  destruct (setParent_old_parent fuel np c u) as [[idx u1]|] eqn:Hold; [|done].
  rewrite bind_Some in H.
  destruct (setParent_old_parent_frame fuel np c idx u u1 Hbr Hold)
    as (Hbr1 & _ & (d1 & Hd1 & Hidx) & Hc1 & _).
  unfold setParent_new_parent in H. rewrite Hnp in H.
  case_bool_decide as Hpos; [|injection H as <-; done].
  destruct (br_node _ Hbr1 c d1 Hd1) as (h1 & Hh1 & _); [lia|].
  pose proof (node_of_get _ _ _ _ Hd1 Hh1) as Hn1.
  destruct (collectGarbage_node_of_inv u1 u' c h1 Hbr1 Hn1 H) as (_ & Hn').
  intros h'. rewrite Hn'. destruct (_ && _ && _); [done|]. apply Hc1.
Qed.

(** X16: [setParent(INVALID_ENTITY, child)] on a well-formed hierarchy
    returns; afterwards the child has no parent, and no world transform
    has changed. *)
Theorem setParent_detaches (fuel : nat) (c : Z) (u : Universe) :
  wf_hierarchy u → enough_fuel u fuel → 0 ≤ c < size (m_entities u) →
  ∃ u' p, setParent fuel INVALID_ENTITY c u = Some u'
          ∧ getParent c u' = Some p ∧ isValid p = false
          ∧ m_transforms u' = m_transforms u.
Proof.
  intros Hwf Hfuel Hc.
  destruct (setParent_total fuel INVALID_ENTITY c u Hwf Hc) as [_ [u' Hu']];
    [unfold INVALID_ENTITY; lia|done|].
  assert (would_create_cycle fuel INVALID_ENTITY c u = Some false) as Hcyc by done.
  destruct (setParent_accepted fuel INVALID_ENTITY c u u' (wf_backrefs _ Hwf) Hcyc Hu')
    as (Hbr' & Hlo & _).
  pose proof (lo_transforms _ _ Hlo) as HT.
  assert (is_Some (get (m_entities u') c)) as Hc'.
  { apply get_is_Some. by rewrite (lo_size _ _ Hlo). }
  exists u', (from_option parent INVALID_ENTITY (node_of u' c)).
  split; [done|]. split; [by apply getParent_via_node|]. split; [|done].
  destruct (node_of u' c) as [h'|] eqn:Hh'; [|done]. simpl.
  by apply (setParent_unparent fuel INVALID_ENTITY c u u' (wf_backrefs _ Hwf)).
Qed.

Lemma modify_node_inv (i : Z) (f : Hierarchy → Hierarchy) (u u' : Universe) :
  modify_node i f u = Some u' →
  ∃ h, get (m_hierarchy u) i = Some h
       ∧ u' = with_hierarchy (set (m_hierarchy u) i (f h)) u.
Proof.
  unfold modify_node. destruct (get (m_hierarchy u) i) as [h|]; [|done].
  intros [= <-]. eauto.
Qed.

(** the second part of [setParent] puts the child at the head of the list
    of the new parent *)
Lemma setParent_new_parent_first (np c idx : Z) (u1 u' : Universe) :
  isValid np = true → setParent_new_parent np c idx u1 = Some u' →
  getFirstChild np u' = Some c.
Proof.
  intros Hnp H. unfold setParent_new_parent in H. rewrite Hnp in H.
  destruct (get (m_entities u1) np) as [npd|] eqn:Hnpd; [|done]. rewrite bind_Some in H.
  lazymatch type of H with
  | ?first ≫= _ = _ => set (phase := first) in H
  end.
  assert (∃ ua i, phase = Some (i, ua) ∧ 0 ≤ i
                  ∧ ∃ da, get (m_entities ua) np = Some da ∧ hierarchy da = i)
    as (ua & i & Hphase & Hi & da & Hda & Hida).
  { unfold phase. case_bool_decide as Hneg.
    - cbv zeta. rewrite (modify_entity_Some u1 np _ npd Hnpd), bind_Some.
      eexists _, _. split; [done|]. split; [apply size_nonneg|].
      cbn. rewrite get_set_eq by (by eapply get_lt). eauto.
    - eexists _, _. split; [done|]. split; [lia|]. eauto. }
  rewrite Hphase in H. clear phase Hphase.
  rewrite bind_Some in H. cbn beta iota in H.
  destruct (modify_node idx (set_parent np) ua) as [ub|] eqn:Hb; [|done].
  rewrite bind_Some in H.
  destruct (getTransform np ub) as [tp|]; [|done]. rewrite bind_Some in H.
  destruct (getTransform c ub) as [tc|]; [|done]. rewrite bind_Some in H.
  destruct (modify_node idx _ ub) as [uc|] eqn:Hc; [|done]. rewrite bind_Some in H.
  destruct (get (m_hierarchy uc) i) as [nph|]; [|done]. rewrite bind_Some in H.
  destruct (modify_node idx _ uc) as [ud|] eqn:Hd; [|done]. rewrite bind_Some in H.
  apply modify_node_inv in Hb as (hb & _ & ->).
  apply modify_node_inv in Hc as (hc & _ & ->).
  apply modify_node_inv in Hd as (hd & _ & ->).
  apply modify_node_inv in H as (h & Hh & ->).
  unfold getFirstChild. cbn [m_entities m_hierarchy with_hierarchy].
  rewrite Hda, bind_Some. cbv zeta. rewrite Hida, bool_decide_false by lia.
  rewrite get_set_eq by (by eapply get_lt). done.
Qed.

(** X17: [setParent(new_parent, child)] that is not refused puts the child
    at the head of the list of the children of the new parent. *)
Theorem setParent_first_child (fuel : nat) (np c : Z) (u : Universe) :
  wf_hierarchy u → enough_fuel u fuel →
  0 ≤ c < size (m_entities u) → 0 ≤ np < size (m_entities u) →
  would_create_cycle fuel np c u = Some false →
  ∃ u', setParent fuel np c u = Some u'
        ∧ getFirstChild np u' = Some c
        ∧ getParent c u' = Some np.
Proof.
  intros Hwf Hfuel Hc Hnp Hcyc.
  assert (isValid np = true) as Hv by (apply bool_decide_eq_true; lia).
  destruct (setParent_total fuel np c u Hwf Hc) as [_ [u' Hu']]; [lia|done|].
  exists u'. split; [done|].
  destruct (setParent_accepted fuel np c u u' (wf_backrefs _ Hwf) Hcyc Hu')
    as (_ & _ & Hnew & _).
  destruct (Hnew Hv) as (tp & tc & h' & _ & _ & Hn & Hp & _).
  split; [|by rewrite (getParent_node _ _ _ Hn), Hp].
  unfold setParent in Hu'. rewrite Hcyc, bind_Some in Hu'.
  destruct (setParent_old_parent fuel np c u) as [[idx u1]|]; [|done].
  rewrite bind_Some in Hu'. by eapply setParent_new_parent_first.
Qed.

(** ** [setTransformKeepChildren] *)

Lemma keepChildren_spec (my : Transform) (e : Z) (l : list Z) :
  ∀ (fuel : nat) (c : Z) (u : Universe),
    backrefs u → size (m_transforms u) = size (m_entities u) →
    kids u e c l → NoDup l → (length l < fuel)%nat →
    ∃ u', keepChildren fuel my c u = Some u'
          ∧ same_tree u u'
          ∧ m_transforms u' = m_transforms u
          ∧ (∀ x, x ∉ l → node_of u' x = node_of u x)
          ∧ (∀ x h, x ∈ l → node_of u x = Some h →
                    ∃ tc, getTransform x u = Some tc
                          ∧ node_of u' x
                            = Some (set_local_transform (tmul (inverted my) tc) h)).
Proof.
  induction l as [|x l IH]; intros fuel c u Hbr Hsz Hk Hnd Hfuel.
  - destruct fuel as [|fuel]; [simpl in Hfuel; lia|].
    simpl in Hk. cbn [keepChildren]. rewrite Hk. exists u.
    split; [done|]. split; [apply same_tree_refl|]. split; [done|]. split; [done|].
    intros x h Hx. by apply elem_of_nil in Hx.
  - destruct fuel as [|fuel]; [simpl in Hfuel; lia|]. cbn [length] in Hfuel.
    destruct Hk as (-> & Hv & h & Hh & Hp & Hk).
    apply NoDup_cons in Hnd as [Hxl Hnd].
    pose proof Hh as (d & Hd & Hidx & Hnode)%node_of_Some.
    pose proof (get_lt _ _ _ Hd) as Hx.
    destruct (get_is_Some (m_transforms u) x) as [tc Htc]; [lia|].
    cbn [keepChildren]. rewrite Hv, Hd, bind_Some. cbv zeta.
    rewrite Hnode, bind_Some. unfold getTransform at 1. rewrite Htc, bind_Some.
    rewrite (modify_node_Some u (hierarchy d) _ h Hnode), bind_Some.
    set (h1 := set_local_transform (tmul (inverted my) tc) h).
    set (u1 := with_hierarchy (set (m_hierarchy u) (hierarchy d) h1) u).
    destruct (set_node_same_tree u x d h h1 Hbr Hd Hidx Hnode) as [Hst1 Hn1]; [done|].
    fold u1 in Hst1, Hn1.
    assert (get (m_hierarchy u1) (hierarchy d) = Some h1) as ->.
    { apply get_set_eq. by apply get_lt in Hnode. }
    rewrite bind_Some. change (next_sibling h1) with (next_sibling h).
    destruct (IH fuel (next_sibling h) u1) as (u' & E' & Hst' & HT' & Hout & Hin).
    { by apply (backrefs_same_tree u). }
    { done. }
    { apply (kids_frame u); [|done]. intros y Hy. rewrite Hn1.
      rewrite bool_decide_false; [done|]. intros ->. done. }
    { done. }
    { lia. }
    exists u'. split; [done|]. split; [by eapply same_tree_trans|]. split; [done|].
    split.
    + intros y Hy. apply not_elem_of_cons in Hy as [Hyx Hyl].
      rewrite (Hout y Hyl), Hn1. by rewrite bool_decide_false.
    + intros y hy Hy Hhy. apply elem_of_cons in Hy as [->|Hy].
      * assert (hy = h) as -> by congruence. exists tc. split; [done|].
        rewrite (Hout x Hxl), Hn1. by rewrite bool_decide_true.
      * assert (y ≠ x) as Hyx by (intros ->; done).
        destruct (Hin y hy Hy) as (ty & Hty & Hny).
        { rewrite Hn1. by rewrite bool_decide_false. }
        exists ty. done.
Qed.

(** X18: [setTransformKeepChildren(entity, transform)] sets the world
    transform of the entity and no other; the local transform of each of
    its children becomes the product of the inverse of the new transform
    and of the world transform of the child, and no parent link changes. *)
Theorem setTransformKeepChildren_keeps (fuel : nat) (e : Z) (t : Transform)
    (u : Universe) :
  wf_hierarchy u → enough_fuel u fuel → 0 ≤ e < size (m_entities u) →
  ∃ u', setTransformKeepChildren fuel e t u = Some u'
        ∧ getTransform e u' = Some t
        ∧ (∀ x, x ≠ e → getTransform x u' = getTransform x u)
        ∧ (∀ x, getParent x u' = getParent x u)
        ∧ (∀ c hc, node_of u c = Some hc → parent hc = e →
                   ∃ tc, getTransform c u = Some tc
                         ∧ getLocalTransform c u' = Some (tmul (inverted t) tc)).
Proof.
  intros Hwf Hfuel He.
  assert (isValid e = true) as Hve by (apply bool_decide_eq_true; lia).
  destruct (get_is_Some (m_transforms u) e) as [t0 Ht0].
  { by rewrite (wf_transforms _ Hwf). }
  destruct (get_is_Some (m_entities u) e) as [d Hd]; [done|].
  destruct (wf_below _ Hwf e He) as (b & Hb & Hnd & Hfam).
  apply NoDup_cons in Hnd as [Heb Hnd].
  assert (∀ c hc, node_of u c = Some hc → parent hc = e → c ∈ tops b) as Hchildren.
  { intros c hc Hhc Hp.
    destruct (wf_parent _ Hwf c hc Hhc) as (b' & Hb' & Hc); [by rewrite Hp|].
    rewrite Hp in Hb'. by rewrite (below_det _ _ _ _ Hb Hb'). }
  unfold setTransformKeepChildren, modify_transform. rewrite Ht0, !bind_Some.
  set (u0 := emit (EntityTransformed e) (with_transforms (set (m_transforms u) e t) u)).
  change (m_entities (with_transforms (set (m_transforms u) e t) u)) with (m_entities u).
  rewrite Hd, bind_Some. cbv zeta. fold u0.
  assert (same_tree u u0 ∧ ∀ x, node_of u0 x = node_of u x) as [Hst0 Hn0].
  { apply same_tree_tables; [done|done|]. cbn. by rewrite size_set. }
  assert (getTransform e u0 = Some t) as Hte.
  { unfold getTransform. cbn. apply get_set_eq. by rewrite (wf_transforms _ Hwf). }
  assert (∀ x, x ≠ e → getTransform x u0 = getTransform x u) as Hothers.
  { intros x Hx. unfold getTransform. cbn. apply get_set_ne; [lia|done]. }
  case_bool_decide as Hidx.
  - destruct (br_node _ (wf_backrefs _ Hwf) e d Hd Hidx) as (h & Hh & Hhe).
    pose proof (node_of_get _ _ _ _ Hd Hh) as Hnode.
    change (m_hierarchy u0) with (m_hierarchy u). rewrite Hh, bind_Some, Hte, bind_Some.
    assert (∃ u_m h_m,
              (if isValid (parent h)
               then parent_tr ← getTransform (parent h) u0;
                    modify_node (hierarchy d)
                      (set_local_transform (tmul (inverted parent_tr) t)) u0
               else Some u0) = Some u_m
              ∧ m_entities u_m = m_entities u ∧ m_transforms u_m = m_transforms u0
              ∧ m_hierarchy u_m = set (m_hierarchy u) (hierarchy d) h_m
              ∧ same_links h h_m) as (u_m & h_m & -> & HEm & HTm & HHm & Hsl).
    { destruct (isValid (parent h)) eqn:Hv.
      - destruct (wf_parent_node u e h Hwf Hnode Hv) as (hp & _ & Hhp & _).
        apply node_of_range in Hhp.
        destruct (get_is_Some (m_transforms u0) (parent h)) as [tp Htp].
        { cbn. by rewrite size_set, (wf_transforms _ Hwf). }
        unfold getTransform at 1. rewrite Htp, bind_Some.
        rewrite (modify_node_Some u0 (hierarchy d) _ h Hh).
        eexists _, _. split; [done|]. done.
      - exists u0, h. split; [done|]. repeat (split; [done|]).
        split; [|done]. unfold set. symmetry. apply list_insert_id.
        by apply get_Some in Hh as [_ ?]. }
    rewrite bind_Some.
    destruct (set_node_same_tree u e d h h_m (wf_backrefs _ Hwf) Hd Hidx Hh Hsl)
      as [Hst_s Hn_s].
    assert (∀ x, node_of u_m x = if bool_decide (x = e) then Some h_m else node_of u x)
      as Hnm.
    { intros x. rewrite <- Hn_s. unfold node_of.
      cbn [m_entities m_hierarchy with_hierarchy]. by rewrite HEm, HHm. }
    assert (same_tree u u_m) as Hstm.
    { split; [done| | |].
      - rewrite HTm. cbn. by rewrite size_set.
      - rewrite HHm. unfold set. by rewrite length_insert.
      - intros x. rewrite Hnm, <- Hn_s. apply (st_nodes _ _ Hst_s). }
    assert (get (m_hierarchy u_m) (hierarchy d) = Some h_m) as ->.
    { rewrite HHm. apply get_set_eq. by apply get_lt in Hh. }
    rewrite bind_Some.
    destruct Hsl as (_ & _ & Hsl_c & _). rewrite Hsl_c.
    destruct Hb as (c0 & Hc0 & Hshape).
    rewrite (getFirstChild_node _ _ _ Hnode) in Hc0. injection Hc0 as <-.
    pose proof (shape_family_kids u e b _ Hshape Hfam) as Hkids.
    destruct (wf_height u e b fuel Hwf) as [_ Hlen]; [|done|done|].
    { exists (first_child h). split; [by apply getFirstChild_node|done]. }
    assert (∀ x, x ∈ tops b → x ≠ e) as Hne.
    { intros x Hx ->. apply Heb. by apply tops_ents. }
    destruct (keepChildren_spec t e (tops b) fuel (first_child h) u_m)
      as (u' & E' & Hst' & HT' & Hout & Hin).
    { by apply (backrefs_same_tree u); [|apply (wf_backrefs _ Hwf)]. }
    { rewrite HTm, HEm. cbn. by rewrite size_set, (wf_transforms _ Hwf). }
    { apply (kids_frame u); [|done]. intros x Hx. rewrite Hnm.
      rewrite bool_decide_false; [done|by apply Hne]. }
    { eapply sublist_NoDup; [exact Hnd|apply tops_sublist]. }
    { done. }
    exists u'. split; [done|].
    assert (∀ x, getTransform x u' = getTransform x u0) as HT.
    { intros x. unfold getTransform. by rewrite HT', HTm. }
    split; [by rewrite HT|]. split; [intros x Hx; rewrite HT; by apply Hothers|].
    split; [intros x; apply getParent_same_tree; by eapply same_tree_trans|].
    intros c hc Hhc Hp. pose proof (Hchildren c hc Hhc Hp) as Hc.
    destruct (Hin c hc Hc) as (tc & Htc & Hnc).
    { rewrite Hnm. rewrite bool_decide_false; [done|by apply Hne]. }
    exists tc. split.
    + rewrite <- (Hothers c) by (by apply Hne). unfold getTransform in *.
      by rewrite <- HTm.
    + by rewrite (getLocalTransform_node _ _ _ Hnc).
  - exists u0. split; [done|]. split; [done|]. split; [done|].
    split; [intros x; by apply getParent_same_tree|].
    intros c hc Hhc Hp. pose proof (Hchildren c hc Hhc Hp) as Hc.
    rewrite (below_no_node u e d b Hd) in Hc by (lia || done).
    by apply elem_of_nil in Hc.
Qed.

(** ** Streams *)

(** X19: an [int] that is written and read again is the [i32] with the
    same lowest 32 bits, whatever follows it in the stream: the value
    itself when it is an [i32]; the four bytes are taken from the stream,
    whose position moves past them. *)
Theorem write_read_i32 (v : Z) (st : InputMemoryStream) (s : list Z) :
  stream_ok st → unread st = write_i32 v ++ s →
  (∃ st', read_i32 st = Some (to_i32 v, st') ∧ unread st' = s
          ∧ i_data st' = i_data st ∧ i_pos st' = i_pos st + 4)
  ∧ length (write_i32 v) = 4%nat
  ∧ (- 2 ^ 31 ≤ v < 2 ^ 31 → to_i32 v = v).
Proof.
  intros Hok Hun. split; [|split].
  - destruct (read_i32_unread v st s Hok Hun) as (st' & Hr & _ & Hrest). eauto.
  - apply le_bytes_length.
  - intros Hv. rewrite <- (to_i32_mod v) at 2 by done.
    unfold to_i32. cbv zeta. by rewrite Z.mod_mod by lia.
Qed.

(** X20: a string written by [writeString] is read back by [readString]
    into a buffer that has room for it and its final zero, and what
    follows it in the stream is left; when the buffer is too small
    [readString] runs into [ASSERT(size <= max_size)]. *)
Theorem writeString_readString (max_size : nat) (s : string) (st : InputMemoryStream)
    (rest : list Z) :
  is_i32 (Z.of_nat max_size) → is_i32 (Z.of_nat (String.length s) + 1) →
  0 ∉ bytes_of_string s →
  stream_ok st → unread st = writeString s ++ rest →
  if bool_decide (String.length s < max_size)%nat
  then ∃ st', readString max_size st = Some (s, st') ∧ unread st' = rest
  else readString max_size st = None.
Proof.
  intros Hmax Hlen Hz Hok Hun. case_bool_decide as Hfit.
  - destruct (readString_writeString max_size s st rest Hmax Hfit Hz Hok Hun)
      as (st' & Hr & _ & Hrest). eauto.
  - unfold readString. unfold writeString in Hun. rewrite <- app_assoc in Hun.
    destruct (read_i32_write_i32 _ st _ Hlen Hok Hun) as (st1 & -> & _).
    rewrite bind_Some. cbn beta iota. rewrite bool_decide_true by lia. done.
Qed.

(** ** [OutputMemoryStream] *)

Lemma u64_small (x : Z) : 0 ≤ x < 2 ^ 64 → OutputMemoryStream.u64 x = x.
Proof. intros Hx. unfold OutputMemoryStream.u64. by apply Z.mod_small. Qed.

(** X21: [OutputMemoryStream::write] on a stream with an allocator puts the
    bytes after the bytes written so far and moves the position past
    them; the block grows when it has to, and what was written before
    stays. *)
Theorem write_appends (bs : list Z) (s : OutputMemoryStream.t) :
  OutputMemoryStream.o_allocator s = true →
  0 ≤ OutputMemoryStream.o_pos s ≤ OutputMemoryStream.m_size s →
  OutputMemoryStream.o_pos s + size bs < 2 ^ 63 →
  ∃ s', OutputMemoryStream.write bs s = Some s'
        ∧ OutputMemoryStream.written s' = OutputMemoryStream.written s ++ (Some <$> bs)
        ∧ OutputMemoryStream.o_pos s' = OutputMemoryStream.o_pos s + size bs
        ∧ OutputMemoryStream.o_pos s' ≤ OutputMemoryStream.m_size s'
        ∧ OutputMemoryStream.m_size s ≤ OutputMemoryStream.m_size s'
        ∧ OutputMemoryStream.o_allocator s' = true.
Proof.
  destruct s as [al data pos]. unfold OutputMemoryStream.m_size. cbn.
  intros -> Hpos Hlen. unfold OutputMemoryStream.write, OutputMemoryStream.written.
  pose proof (size_nonneg bs) as Hbs.
  case_bool_decide as Hnil.
  - subst bs. exists (OutputMemoryStream.mk true data pos). cbn.
    split; [done|]. rewrite app_nil_r. change (size []) with 0. split; [done|]. lia.
  - cbn. rewrite !u64_small by lia.
    assert (∃ data', (if bool_decide (OutputMemoryStream.m_size
                                        (OutputMemoryStream.mk true data pos) < pos + size bs)
                      then OutputMemoryStream.reserve
                             (OutputMemoryStream.u64 (Z.shiftl (pos + size bs) 1))
                             (OutputMemoryStream.mk true data pos)
                      else Some (OutputMemoryStream.mk true data pos))
                     = Some (OutputMemoryStream.mk true data' pos)
                     ∧ pos + size bs ≤ size data' ∧ size data ≤ size data'
                     ∧ take (Z.to_nat pos) data' = take (Z.to_nat pos) data)
      as (data' & -> & Hfit & Hgrow & Htake).
    { unfold OutputMemoryStream.m_size. cbn. case_bool_decide as Hsmall.
      - rewrite Z.shiftl_mul_pow2 by lia. rewrite u64_small by lia.
        unfold OutputMemoryStream.reserve, OutputMemoryStream.m_size. cbn.
        rewrite bool_decide_false by lia. eexists. split; [done|].
        rewrite size_app. unfold size in *. rewrite length_replicate.
        split; [lia|]. split; [lia|].
        rewrite take_app_le; [done|]. lia.
      - exists data. split; [done|]. split; [lia|]. done. }
    rewrite bind_Some. cbn. unfold OutputMemoryStream.store.
    rewrite bool_decide_true by done. rewrite bind_Some. cbn.
    eexists. split; [done|]. cbn. rewrite ?u64_small by lia.
    assert (length (take (Z.to_nat pos) data') = Z.to_nat pos) as Hlen_take.
    { rewrite length_take. unfold size in *. lia. }
    split; [|split; [done|]].
    + rewrite Htake. rewrite app_assoc. rewrite take_app_le.
      * rewrite take_ge; [done|]. rewrite length_app, length_fmap, <- Htake, Hlen_take.
        unfold size. lia.
      * rewrite length_app, length_fmap, <- Htake, Hlen_take. unfold size. lia.
    + unfold size in *.
      rewrite !length_app, length_fmap, Hlen_take, length_drop.
      split; [lia|]. split; [lia|done].
Qed.

(** X22: a stream over a buffer of the caller has no allocator: a write
    that fits the buffer goes into it, and the first write that does not
    fit runs into [ASSERT(m_allocator)] of [reserve]. *)
Theorem write_fixed_buffer (bs : list Z) (s : OutputMemoryStream.t) :
  OutputMemoryStream.o_allocator s = false →
  0 ≤ OutputMemoryStream.o_pos s ≤ OutputMemoryStream.m_size s →
  OutputMemoryStream.o_pos s + size bs < 2 ^ 63 → bs ≠ [] →
  (OutputMemoryStream.o_pos s + size bs ≤ OutputMemoryStream.m_size s →
   ∃ s', OutputMemoryStream.write bs s = Some s'
         ∧ OutputMemoryStream.written s' = OutputMemoryStream.written s ++ (Some <$> bs)
         ∧ OutputMemoryStream.m_size s' = OutputMemoryStream.m_size s)
  ∧ (OutputMemoryStream.m_size s < OutputMemoryStream.o_pos s + size bs →
     OutputMemoryStream.write bs s = None).
Proof.
  destruct s as [al data pos]. unfold OutputMemoryStream.m_size. cbn.
  intros -> Hpos Hlen Hnil. pose proof (size_nonneg bs) as Hbs.
  unfold OutputMemoryStream.write, OutputMemoryStream.written, OutputMemoryStream.m_size.
  cbn. rewrite bool_decide_false by done. rewrite !u64_small by lia. split.
  - intros Hfit. rewrite bool_decide_false by lia. rewrite bind_Some. cbn.
    unfold OutputMemoryStream.store. rewrite bool_decide_true by done.
    rewrite bind_Some. eexists. split; [done|]. cbn. rewrite ?u64_small by lia.
    assert (length (take (Z.to_nat pos) data) = Z.to_nat pos) as Hlen_take.
    { rewrite length_take. unfold size in *. lia. }
    split.
    + rewrite app_assoc. rewrite take_app_le.
      * rewrite take_ge; [done|]. rewrite length_app, length_fmap, Hlen_take.
        unfold size. lia.
      * rewrite length_app, length_fmap, Hlen_take. unfold size. lia.
    + unfold size in *. rewrite !length_app, length_fmap, Hlen_take, length_drop. lia.
  - intros Hover. rewrite bool_decide_true by lia.
    rewrite Z.shiftl_mul_pow2 by lia. rewrite u64_small by lia.
    unfold OutputMemoryStream.reserve, OutputMemoryStream.m_size. cbn.
    rewrite bool_decide_false by lia. done.
Qed.

(** ** [emplaceEntity] beyond the end of the table *)

Lemma get_app_ne {A} (l : list A) (y : A) (x : Z) :
  x ≠ size l → get (l ++ [y]) x = get l x.
Proof.
  intros Hx. destruct (decide (x < size l)) as [Hlt|Hge]; [by apply get_app_l|].
  unfold get. destruct (bool_decide (0 ≤ x)) eqn:Hb; [|done].
  apply bool_decide_eq_true in Hb. unfold size in Hx, Hge.
  rewrite !lookup_ge_None_2; [done|lia|rewrite length_app; simpl; lia].
Qed.

Lemma valid_same_refl (o : option EntityData) :
  option_Forall2 (λ a b, valid b = valid a) o o.
Proof. destruct o; constructor. done. Qed.

Lemma emplace_slot_effect (u : Universe) :
  size (m_transforms u) = size (m_entities u) →
  m_first_free_slot u < size (m_entities u) →
  ∃ u', emplace_slot u = Some u'
        ∧ size (m_entities u') = size (m_entities u) + 1
        ∧ size (m_transforms u') = size (m_transforms u) + 1
        ∧ m_first_free_slot u' = size (m_entities u)
        ∧ kept_slots u u'
        ∧ ∃ d, get (m_entities u') (size (m_entities u)) = Some d
               ∧ valid d = false ∧ prev d = -1 ∧ next d = m_first_free_slot u.
Proof.
  intros Hsz Hhead. pose proof (size_nonneg (m_entities u)) as Hnn.
  unfold emplace_slot. cbv zeta.
  cbn [m_first_free_slot m_entities with_transforms with_entities].
  set (data := mkEntityData _ _ _ _ _ _). set (tr := set_scale _ _).
  set (n := size (m_entities u)) in *.
  assert (size (m_entities u ++ [data]) - 1 = n) as ->.
  { rewrite size_app. change (size [data]) with 1. lia. }
  set (u0 := with_transforms (m_transforms u ++ [tr])
               (with_entities (m_entities u ++ [data]) u)).
  assert (∃ es, (if bool_decide (0 ≤ m_first_free_slot u)
                 then modify_entity (m_first_free_slot u) (set_prev n) u0
                 else Some u0) = Some (with_entities es u0)
                ∧ size es = n + 1
                ∧ get es n = Some data
                ∧ ∀ x, x < n → option_Forall2 (λ a b, valid b = valid a)
                                 (get (m_entities u) x) (get es x))
    as (es & -> & Hes & Hlast & Hold).
  { assert (size (m_entities u ++ [data]) = n + 1) as Hsz0.
    { rewrite size_app. by change (size [data]) with 1. }
    case_bool_decide as Hff.
    - destruct (get_is_Some (m_entities u) (m_first_free_slot u)) as [dh Hdh]; [done|].
      assert (get (m_entities u0) (m_first_free_slot u) = Some dh) as Hdh0.
      { cbn. rewrite get_app_l by done. done. }
      rewrite (modify_entity_Some u0 _ _ dh Hdh0). eexists. split; [done|].
      cbn [m_entities u0 with_transforms with_entities].
      split; [by rewrite size_set|]. split.
      + rewrite get_set_ne by (unfold n; lia). apply get_app_size.
      + intros x Hx. rewrite get_set by lia. case_bool_decide as Hxh.
        * subst x. rewrite Hdh. by constructor.
        * rewrite get_app_l by done. apply valid_same_refl.
    - exists (m_entities u ++ [data]). split; [done|]. split; [done|].
      split; [apply get_app_size|]. intros x Hx. rewrite get_app_l by done.
      apply valid_same_refl. }
  rewrite bind_Some. eexists. split; [done|].
  cbn [m_entities m_transforms m_first_free_slot with_first_free_slot with_entities
       with_transforms u0].
  split; [done|]. split; [rewrite size_app; by change (size [tr]) with 1|].
  split; [lia|]. split.
  - intros x Hx. split; [|by apply Hold]. apply get_app_l. by rewrite Hsz.
  - exists data. done.
Qed.

Lemma kept_slots_trans (u1 u2 u3 : Universe) :
  size (m_entities u1) ≤ size (m_entities u2) →
  kept_slots u1 u2 → kept_slots u2 u3 → kept_slots u1 u3.
Proof.
  intros Hle H12 H23 x Hx.
  destruct (H12 x Hx) as [Ht12 Hv12]. destruct (H23 x) as [Ht23 Hv23]; [lia|].
  split; [congruence|].
  destruct Hv12 as [a b Hab|]; inversion Hv23 as [? c Hbc|]; subst; constructor.
  congruence.
Qed.

(** [k + 1] turns of the loop *)
Lemma emplace_slots_effect (k : nat) :
  ∀ u : Universe,
    size (m_transforms u) = size (m_entities u) →
    m_first_free_slot u < size (m_entities u) →
    ∃ u', emplace_slots (S k) u = Some u'
          ∧ size (m_entities u') = size (m_entities u) + Z.of_nat (S k)
          ∧ size (m_transforms u') = size (m_entities u')
          ∧ m_first_free_slot u' = size (m_entities u) + Z.of_nat k
          ∧ kept_slots u u'
          ∧ (∀ x, size (m_entities u) ≤ x < size (m_entities u) + Z.of_nat (S k) →
                  ∃ d, get (m_entities u') x = Some d ∧ valid d = false)
          ∧ ∃ d, get (m_entities u') (size (m_entities u) + Z.of_nat k) = Some d
                 ∧ prev d = -1 ∧ next d < size (m_entities u) + Z.of_nat k.
Proof.
  induction k as [|k IH]; intros u Hsz Hhead;
    destruct (emplace_slot_effect u Hsz Hhead)
      as (u1 & E1 & HE1 & HT1 & HF1 & Hkept1 & d1 & Hd1 & Hv1 & Hp1 & Hn1).
  - exists u1. cbn [emplace_slots]. rewrite E1, bind_Some.
    split; [done|]. split; [lia|]. split; [lia|]. split; [lia|]. split; [done|].
    rewrite Z.add_0_r. split.
    + intros x Hx. assert (x = size (m_entities u)) as -> by lia. eauto.
    + exists d1. split; [done|]. split; [done|]. lia.
  - destruct (IH u1) as (u' & E' & HE' & HT' & HF' & Hkept' & Hnew' & Hlast'); [lia..|].
    exists u'. change (emplace_slots (S (S k)) u)
      with (emplace_slot u ≫= emplace_slots (S k)).
    rewrite E1, bind_Some. split; [done|]. split; [lia|]. split; [done|].
    split; [lia|]. split; [apply (kept_slots_trans u u1 u'); [lia|done|done]|].
    split.
    + intros x Hx. destruct (decide (x = size (m_entities u))) as [->|Hne].
      * destruct (Hkept' (size (m_entities u))) as [_ Hvs]; [lia|].
        rewrite Hd1 in Hvs. apply option_Forall2_Some_l in Hvs as (d' & Hd' & Hvd').
        exists d'. split; [done|]. congruence.
      * apply Hnew'. lia.
    + destruct Hlast' as (d & Hd & Hp & Hn). exists d.
      replace (size (m_entities u) + Z.of_nat (S k))
        with (size (m_entities u1) + Z.of_nat k) by lia.
      split; [done|]. split; [done|]. lia.
Qed.

(** X23: [emplaceEntity] of an index beyond the end of the table makes
    the table as long as it takes; the slots between the old end and the
    index are not valid, the entity is valid, at the origin with the
    identity rotation and the scale 1, and the entities the universe had
    are the same, with the same world transforms. *)
Theorem emplaceEntity_grows (e : Z) (u : Universe) :
  size (m_transforms u) = size (m_entities u) →
  m_first_free_slot u < size (m_entities u) →
  size (m_entities u) ≤ e →
  ∃ u', emplaceEntity e u = Some u'
        ∧ size (m_entities u') = e + 1
        ∧ hasEntity e u' = true
        ∧ getTransform e u' = Some (mkTransform vec_zero quat_identity float_one)
        ∧ getComponentsMask e u' = Some 0
        ∧ (∀ x, size (m_entities u) ≤ x < e → hasEntity x u' = false)
        ∧ (∀ x, x < size (m_entities u) →
                hasEntity x u' = hasEntity x u ∧ getTransform x u' = getTransform x u).
Proof.
  intros Hsz Hhead He. pose proof (size_nonneg (m_entities u)) as Hnn.
  set (n0 := size (m_entities u)) in *.
  destruct (emplace_slots_effect (Z.to_nat (e - n0)) u Hsz Hhead)
    as (u1 & E1 & HE1 & HT1 & HF1 & Hkept & Hnew & d & Hd & Hp & Hn).
  fold n0 in HE1, HF1, Hnew, Hd, Hn.
  replace (n0 + Z.of_nat (Z.to_nat (e - n0))) with e in * by lia.
  unfold emplaceEntity. fold n0.
  replace (Z.to_nat (e + 1 - n0)) with (S (Z.to_nat (e - n0))) by lia.
  rewrite E1, bind_Some, Hd, bind_Some. cbv zeta.
  rewrite bool_decide_true by done.
  cbn [m_entities with_first_free_slot]. rewrite Hd, bind_Some.
  rewrite Hp. rewrite (bool_decide_false (0 ≤ -1)) by lia. rewrite bind_Some.
  cbn [m_entities with_first_free_slot]. rewrite Hd, bind_Some.
  set (u2 := with_first_free_slot (next d) u1). rewrite Hp.
  assert (∃ es, (if bool_decide (0 ≤ next d)
                 then modify_entity (next d) (set_prev (-1)) u2 else Some u2)
                = Some (with_entities es u2)
                ∧ size es = size (m_entities u1) ∧ get es e = Some d
                ∧ ∀ x, option_Forall2 (λ a b, valid b = valid a)
                         (get (m_entities u1) x) (get es x))
    as (es & -> & Hes & Hde & Hvs).
  { case_bool_decide as Hnext.
    - destruct (get_is_Some (m_entities u1) (next d)) as [dn Hdn]; [lia|].
      rewrite (modify_entity_Some u2 _ _ dn Hdn). eexists. split; [done|].
      cbn [m_entities u2 with_first_free_slot].
      split; [by rewrite size_set|]. split; [by rewrite get_set_ne by lia|].
      intros x. rewrite get_set by lia. case_bool_decide as Hx.
      + subst x. rewrite Hdn. by constructor.
      + apply valid_same_refl.
    - exists (m_entities u1). split; [by destruct u1|]. split; [done|]. split; [done|].
      intros x. apply valid_same_refl. }
  rewrite bind_Some.
  destruct (get_is_Some (m_transforms u1) e) as [t0 Ht0]; [lia|].
  unfold modify_transform. cbn [m_transforms with_entities with_first_free_slot u2].
  rewrite Ht0, !bind_Some. cbn beta.
  unfold modify_entity. cbn [m_entities with_entities with_transforms].
  rewrite Hde, !bind_Some.
  eexists. split; [done|].
  cbn [m_entities m_transforms emit with_entities with_transforms].
  assert (0 ≤ e < size es) as Hrange by lia.
  assert (∀ x, x ≠ e →
               hasEntity x (emit (EntityCreated e)
                  (with_entities (set es e
                     (set_valid true (set_components 0
                        (set_hierarchy_idx (-1) (set_name_idx (-1) d)))))
                     (with_transforms
                        (set (m_transforms u1) e
                           (mkTransform vec_zero quat_identity float_one))
                        (with_entities es u2))))
               = hasEntity x u1) as Hsame.
  { intros x Hx. specialize (Hvs x).
    destruct (hasEntity x u1) eqn:Hold.
    - apply hasEntity_true in Hold as (dx & Hdx & Hv). rewrite Hdx in Hvs.
      apply option_Forall2_Some_l in Hvs as (d' & Hd' & Hvd).
      apply hasEntity_true. cbn. exists d'.
      rewrite get_set_ne by (lia || done). split; [done|congruence].
    - apply hasEntity_false. cbn. intros d' Hd'.
      rewrite get_set_ne in Hd' by (lia || done). rewrite Hd' in Hvs.
      apply option_Forall2_Some_r in Hvs as (dx & Hdx & Hvd).
      rewrite hasEntity_false in Hold. rewrite Hvd. by apply Hold. }
  split; [by rewrite size_set, Hes, HE1; lia|].
  split; [apply hasEntity_true; cbn; eexists; split; [by apply get_set_eq|done]|].
  split; [unfold getTransform; cbn; apply get_set_eq; lia|].
  split; [unfold getComponentsMask; cbn; by rewrite get_set_eq|].
  split.
  - intros x Hx. rewrite Hsame by lia. apply hasEntity_false. intros dx Hdx.
    destruct (Hnew x) as (d' & Hd' & Hv'); [lia|]. congruence.
  - intros x Hx. destruct (Hkept x Hx) as [Ht Hv]. split.
    + rewrite Hsame by lia.
      destruct (hasEntity x u) eqn:Hold.
      * apply hasEntity_true in Hold as (dx & Hdx & Hvx). rewrite Hdx in Hv.
        apply option_Forall2_Some_l in Hv as (d' & Hd' & Hvd).
        apply hasEntity_true. exists d'. split; [done|congruence].
      * apply hasEntity_false. intros d' Hd'. rewrite Hd' in Hv.
        apply option_Forall2_Some_r in Hv as (dx & Hdx & Hvd).
        rewrite hasEntity_false in Hold. rewrite Hvd. by apply Hold.
    + unfold getTransform. cbn. rewrite get_set_ne by lia. done.
Qed.

(** ** The slot of a destroyed entity *)

Lemma modify_entity_keeps (P : EntityData → Prop) (i e : Z)
    (g : EntityData → EntityData) (u u' : Universe) :
  (∀ d, P d → P (g d)) → modify_entity i g u = Some u' →
  (∃ d, get (m_entities u) e = Some d ∧ P d) →
  ∃ d', get (m_entities u') e = Some d' ∧ P d'.
Proof.
  intros Hg Hm (d & Hd & Hv). unfold modify_entity in Hm.
  destruct (get (m_entities u) i) as [di|] eqn:Hdi; [|done].
  injection Hm as <-. cbn. pose proof (get_lt _ _ _ Hdi) as Hi.
  rewrite get_set by done. case_bool_decide as Hei; [|eauto].
  subst i. exists (g di). split; [done|]. apply Hg. congruence.
Qed.

(** the end of [destroyEntity]: the slot points to the former head of the
    free list *)
Lemma destroyEntity_release_next (e : Z) (u u' : Universe) :
  destroyEntity_release e u = Some u' →
  ∃ d', get (m_entities u') e = Some d' ∧ next d' = m_first_free_slot u.
Proof.
  unfold destroyEntity_release. cbv zeta. intros H.
  set (P := λ d : EntityData, next d = m_first_free_slot u).
  destruct (modify_entity e _ u) as [ua|] eqn:Ha; [|done]. rewrite bind_Some in H.
  assert (∃ d, get (m_entities ua) e = Some d ∧ P d) as Hinv_a.
  { unfold modify_entity in Ha. destruct (get (m_entities u) e) as [d|] eqn:Hd; [|done].
    injection Ha as <-. cbn. rewrite get_set_eq by (by eapply get_lt).
    eexists. split; [done|]. by unfold P. }
  destruct (if bool_decide (0 ≤ m_first_free_slot u) then _ else _) as [ub|] eqn:Hb;
    [|done].
  rewrite bind_Some in H.
  assert (∃ d, get (m_entities ub) e = Some d ∧ P d) as Hinv_b.
  { case_bool_decide; [|by injection Hb as <-].
    eapply (modify_entity_keeps P _ _ _ ua ub); [|exact Hb|exact Hinv_a]. done. }
  destruct Hinv_b as (db & Hdb & Hvb). rewrite Hdb, bind_Some in H.
  destruct (if bool_decide (0 ≤ name db) then _ else _) as [uc|] eqn:Hc; [|done].
  rewrite bind_Some in H. injection H as <-.
  cbn [m_entities emit with_first_free_slot].
  case_bool_decide; [|injection Hc as <-; eauto].
  destruct (last (m_names ub)) as [back|]; [|done]. rewrite bind_Some in Hc.
  destruct (modify_entity (n_entity back) _ ub) as [u1|] eqn:H1; [|done].
  rewrite bind_Some in Hc.
  assert (∃ d, get (m_entities u1) e = Some d ∧ P d) as (d1 & Hd1 & Hv1).
  { eapply (modify_entity_keeps P _ _ _ ub u1); [|exact H1|eauto]. done. }
  rewrite Hd1, bind_Some in Hc. cbv zeta in Hc.
  eapply (modify_entity_keeps P _ _ _ _ uc); [|exact Hc|]; [done|].
  cbn [m_entities with_names]. eauto.
Qed.

(** X24: the slot of a destroyed entity is the one the next [createEntity]
    takes: on a well-formed universe, when the scenes of the components of
    [e] destroy them ([scenes_destroy]), [destroyEntity(e)] followed by
    [createEntity(p, r)] gives the index [e] again, now a valid entity
    without name, parent or components at the transform asked for, and the
    entity table has not grown. *)
Theorem createEntity_reuses_destroyed {B} (map : ComponentTypeMap B) (fuel : nat)
    (e : Z) (d : EntityData) (p : DVec3) (r : Quat) (u : Universe) :
  wf_hierarchy u → wf_tables u → scenes_destroy map e (components d) →
  enough_fuel u fuel →
  get (m_entities u) e = Some d → valid d = true →
  ∃ u' u'', destroyEntity map fuel e u = Some u'
            ∧ createEntity p r u' = Some (e, u'')
            ∧ hasEntity e u'' = true
            ∧ getTransform e u'' = Some (mkTransform p r float_one)
            ∧ getParent e u'' = Some INVALID_ENTITY
            ∧ getEntityName e u'' = Some EmptyString
            ∧ getComponentsMask e u'' = Some 0
            ∧ size (m_entities u'') = size (m_entities u)
            ∧ m_first_free_slot u'' = m_first_free_slot u.
Proof.
  intros Hwf Hwt Hmap Hf Hd Hvalid.
  pose proof (get_lt _ _ _ Hd) as He.
  destruct (wf_below _ Hwf _ He) as (b & Hb & _).
  destruct (destroyEntity_detach fuel e b u Hwf He Hf Hb)
    as (u1 & u2 & Hu1 & Hu2 & Hbr2 & Hlo2 & _).
  assert (is_Some (get (m_entities u2) e)) as [d2 Hd2].
  { apply get_is_Some. by rewrite (lo_size _ _ Hlo2). }
  assert (components d2 = components d) as Hmask2.
  { destruct (lo_entities _ _ Hlo2 _ _ Hd2) as (d0 & Hd0 & ->).
    rewrite Hd in Hd0. by injection Hd0 as <-. }
  assert (mask_within (components d2) (components d)) as Hin2.
  { rewrite Hmask2. by intros j _ Hj. }
  destruct (destroy_components_spec map e (components d) (Z.to_nat MAX_TYPES_COUNT) 0
              (components d2) u2 d2 Hmap Hin2 Hd2 eq_refl ltac:(done) ltac:(done))
    as (u3 & d3 & Hu3 & Hrs3 & Hd3 & Hd3eq).
  pose proof (wf_tables_links_only _ _ Hlo2 Hwt) as Hwt2.
  assert (wf_tables u3) as Hwt3.
  { eapply wf_tables_rest_same; eauto. by rewrite Hd3eq. }
  destruct (destroyEntity_release_spec e u3 Hwt3 ltac:(eauto)) as (u4 & Hu4 & HI4).
  assert (m_first_free_slot u3 = m_first_free_slot u) as Hff3.
  { by rewrite (rs_first_free _ _ _ Hrs3), (lo_first_free _ _ Hlo2). }
  assert (size (m_entities u4) = size (m_entities u)) as HsE.
  { by rewrite (is_size _ _ _ HI4), (rs_size _ _ _ Hrs3), (lo_size _ _ Hlo2). }
  assert (size (m_transforms u4) = size (m_entities u)) as HsT.
  { rewrite (is_transforms _ _ _ HI4), (rs_transforms _ _ _ Hrs3), (lo_transforms _ _ Hlo2).
    apply (wf_transforms _ Hwf). }
  destruct (destroyEntity_release_invalid e u3 u4 Hu4) as (_ & Hhead & _).
  destruct (destroyEntity_release_next e u3 u4 Hu4) as (d4 & Hd4 & Hn4).
  rewrite Hff3 in Hn4. pose proof (wt_first_free _ Hwt) as Hlt.
  assert (is_Some (get (m_transforms u4) e)) as [t4 Ht4].
  { apply get_is_Some. lia. }
  exists u4.
  assert (∃ ua, (if bool_decide (0 ≤ next d4)
                 then modify_entity (next d4) (set_prev (-1)) u4 else Some u4) = Some ua
                ∧ m_transforms ua = m_transforms u4
                ∧ m_hierarchy ua = m_hierarchy u4
                ∧ m_names ua = m_names u4
                ∧ size (m_entities ua) = size (m_entities u4)
                ∧ is_Some (get (m_entities ua) e)) as (ua & Hua & HTa & HHa & HNa & HEa & [da Hda]).
  { case_bool_decide as Hnext.
    - assert (is_Some (get (m_entities u4) (next d4))) as [dn Hdn].
      { apply get_is_Some. lia. }
      rewrite (modify_entity_Some _ _ _ _ Hdn). eexists. split; [done|]. cbn.
      split; [done|]. split; [done|]. split; [done|].
      split; [apply size_set|].
      apply get_is_Some. rewrite size_set. lia.
    - exists u4. repeat split; eauto. }
  eexists. split.
  { unfold destroyEntity. rewrite Hd, bind_Some, Hvalid. cbn [negb].
    rewrite Hu1, bind_Some, Hu2, bind_Some, Hd2, bind_Some, Hu3, bind_Some. done. }
  unfold createEntity. rewrite Hhead, bool_decide_true by lia. cbv zeta.
  rewrite Hd4, bind_Some, Ht4, bind_Some, Hua, !bind_Some. cbn beta iota.
  unfold modify_transform. cbn [m_transforms with_first_free_slot].
  rewrite HTa, Ht4, bind_Some.
  rewrite bind_Some. erewrite modify_entity_Some by (cbn; exact Hda). rewrite bind_Some.
  split; [reflexivity|].
  assert (0 ≤ e < size (m_entities ua)) as Hea by lia.
  split.
  { apply hasEntity_true. cbn. rewrite get_set_eq by done. eauto. }
  split.
  { unfold getTransform. cbn. rewrite get_set_eq by lia. done. }
  split.
  { unfold getParent. cbn. rewrite get_set_eq by done. cbn. done. }
  split.
  { unfold getEntityName. cbn. rewrite get_set_eq by done. cbn. done. }
  split.
  { unfold getComponentsMask. cbn. rewrite get_set_eq by done. done. }
  split.
  { cbn. rewrite size_set. lia. }
  cbn. done.
Qed.

(** ** The name table *)

Lemma getEntityName_name_index (u : Universe) (x : Z) :
  getEntityName x u
  = j ← name_index u x;
    if bool_decide (j < 0) then Some EmptyString else n_name <$> get (m_names u) j.
Proof. unfold getEntityName, name_index. by destruct (get (m_entities u) x). Qed.

Lemma name_index_modify (i : Z) (f : EntityData → EntityData) (u u' : Universe) :
  modify_entity i f u = Some u' → (∀ d, name (f d) = name d) →
  m_names u' = m_names u ∧ ∀ x, name_index u' x = name_index u x.
Proof.
  intros H Hf. unfold modify_entity in H.
  destruct (get (m_entities u) i) as [d|] eqn:Hd; [|done]. injection H as <-.
  split; [done|]. intros x. unfold name_index. cbn.
  rewrite get_set by (by eapply get_lt). case_bool_decide as Hx; [|done].
  subst x. rewrite Hd. cbn. by rewrite Hf.
Qed.

Lemma name_index_links_only (u u' : Universe) :
  links_only u u' → ∀ x, name_index u' x = name_index u x.
Proof.
  intros Hlo x. unfold name_index.
  destruct (get (m_entities u') x) as [d'|] eqn:Hd'.
  - destruct (lo_entities _ _ Hlo _ _ Hd') as (d & -> & ->). done.
  - destruct (get (m_entities u) x) as [d|] eqn:Hd; [|done].
    apply get_lt in Hd. rewrite <- (lo_size _ _ Hlo) in Hd.
    apply get_is_Some in Hd as [? Hd]. congruence.
Qed.

(** what the end of [destroyEntity] does to the name table *)
Lemma destroyEntity_release_names (e : Z) (d : EntityData) (u u' : Universe) :
  get (m_entities u) e = Some d → destroyEntity_release e u = Some u' →
  if bool_decide (0 ≤ name d) then
    ∃ back, last (m_names u) = Some back
            ∧ m_names u' = eraseFast (m_names u) (name d)
            ∧ ∀ x, name_index u' x
                   = if bool_decide (x = e) then Some (-1)
                     else if bool_decide (x = n_entity back) then Some (name d)
                     else name_index u x
  else m_names u' = m_names u ∧ ∀ x, name_index u' x = name_index u x.
Proof.
  intros Hd H. unfold destroyEntity_release in H. cbv zeta in H.
  destruct (modify_entity e _ u) as [ua|] eqn:Ha; [|done]. rewrite bind_Some in H.
  destruct (name_index_modify _ _ _ _ Ha) as (HNa & HIa); [done|].
  destruct (if bool_decide (0 ≤ m_first_free_slot u) then _ else _) as [ub|] eqn:Hb;
    [|done].
  rewrite bind_Some in H.
  assert (m_names ub = m_names u ∧ ∀ x, name_index ub x = name_index u x) as (HNb & HIb).
  { case_bool_decide.
    - destruct (name_index_modify _ _ _ _ Hb) as (HN & HI); [done|].
      split; [congruence|]. intros x. by rewrite HI.
    - by injection Hb as <-. }
  clear Ha Hb HNa HIa ua.
  destruct (get (m_entities ub) e) as [db|] eqn:Hdb; [|done]. rewrite bind_Some in H.
  assert (name db = name d) as Hnm.
  { pose proof (HIb e) as He. unfold name_index in He. rewrite Hdb, Hd in He.
    by injection He. }
  rewrite Hnm in H. case_bool_decide as Hneg.
  2:{ rewrite bind_Some in H. injection H as <-. done. }
  destruct (last (m_names ub)) as [back|] eqn:Hback; [|done]. rewrite bind_Some in H.
  destruct (get (m_entities ub) (n_entity back)) as [dk|] eqn:Hdk.
  2:{ unfold modify_entity in H. by rewrite Hdk in H. }
  rewrite (modify_entity_Some _ _ _ _ Hdk), bind_Some in H.
  pose proof (get_lt _ _ _ Hdk) as Hk. pose proof (get_lt _ _ _ Hdb) as He.
  cbn [m_entities with_entities] in H.
  destruct (get (set (m_entities ub) (n_entity back) (set_name_idx (name d) dk)) e)
    as [d3|] eqn:Hd3; [|done].
  rewrite bind_Some in H. cbv zeta in H.
  assert (name d3 = name d) as Hnm3.
  { rewrite get_set in Hd3 by done. case_bool_decide.
    - by injection Hd3 as <-.
    - congruence. }
  rewrite Hnm3 in H.
  erewrite modify_entity_Some in H by (cbn; exact Hd3).
  rewrite bind_Some in H. injection H as <-.
  exists back. rewrite <- HNb. split; [done|]. split; [done|].
  intros x. unfold name_index at 1. cbn.
  rewrite get_set by (by rewrite size_set). case_bool_decide as Hxe; [done|].
  rewrite get_set by done. case_bool_decide as Hxk; [done|]. apply HIb.
Qed.

(** [eraseFast]: the last entry takes the place of the erased one *)
Lemma get_eraseFast {A} (l : list A) (k i : Z) (back : A) :
  0 ≤ k < size l → last l = Some back →
  get (eraseFast l k) i
  = if bool_decide (i < size l - 1)
    then (if bool_decide (i = k) then Some back else get l i)
    else None.
Proof.
  intros Hk Hback. unfold eraseFast. rewrite bool_decide_true by done. rewrite Hback.
  case_bool_decide as Hi.
  - rewrite get_removelast by (by rewrite size_set). by apply get_set.
  - apply get_ge_None. rewrite size_removelast, size_set; [lia|].
    intros Hnil. apply (f_equal size) in Hnil. rewrite size_set in Hnil.
    change (size []) with 0 in Hnil. lia.
Qed.

Lemma size_eraseFast {A} (l : list A) (k : Z) :
  0 ≤ k < size l → size (eraseFast l k) = size l - 1.
Proof.
  intros Hk. unfold eraseFast. rewrite bool_decide_true by done.
  destruct (last_is_Some_size l) as [back ->]; [lia|].
  rewrite size_removelast, size_set; [lia|].
  intros Hnil. apply (f_equal size) in Hnil. rewrite size_set in Hnil.
  change (size []) with 0 in Hnil. lia.
Qed.

(** the name table after the end of [destroyEntity], when the table and the
    entities refer to each other *)
Lemma destroyEntity_release_linked (e : Z) (d : EntityData) (u u' : Universe) :
  names_linked u → get (m_entities u) e = Some d → destroyEntity_release e u = Some u' →
  names_linked u'
  ∧ getEntityName e u' = Some EmptyString
  ∧ (∀ x, x ≠ e → getEntityName x u' = getEntityName x u)
  ∧ size (m_names u') = size (m_names u) - (if bool_decide (0 ≤ name d) then 1 else 0).
Proof.
  intros [Hentry Hentity] Hd H.
  assert (name_index u e = Some (name d)) as Hie by (unfold name_index; by rewrite Hd).
  pose proof (destroyEntity_release_names e d u u' Hd H) as Hch.
  case_bool_decide as Hneg.
  2:{ destruct Hch as (HN & HI). split; [|split; [|split]].
      - split; intros *; rewrite HN, HI; eauto.
      - rewrite getEntityName_name_index, HI, Hie, bind_Some.
        by rewrite bool_decide_true by lia.
      - intros x _. by rewrite !getEntityName_name_index, HI, HN.
      - rewrite HN. lia. }
  destruct Hch as (back & Hback & HN & HI).
  destruct (Hentity e (name d) Hie Hneg) as (ne & Hne & Hnee).
  pose proof (get_lt _ _ _ Hne) as Hk.
  pose proof (last_get _ _ Hback) as Hlast.
  pose proof (Hentry _ _ Hlast) as Hib.
  set (L := size (m_names u)) in *.
  assert (n_entity back = e → name d = L - 1) as Hsame.
  { intros Heq. rewrite Heq in Hib. congruence. }
  assert (name d = L - 1 → n_entity back = e) as Hsame'.
  { intros Heq. rewrite Heq in Hne. congruence. }
  assert (∀ i, get (m_names u') i
               = if bool_decide (i < L - 1)
                 then (if bool_decide (i = name d) then Some back else get (m_names u) i)
                 else None) as HG.
  { intros i. rewrite HN. by apply get_eraseFast. }
  split; [|split; [|split]].
  - split.
    + intros i n Hn. rewrite HG in Hn. case_bool_decide as Hi; [|done].
      rewrite HI. case_bool_decide as Hik.
      * injection Hn as <-. rewrite bool_decide_false by (intros Heq; apply Hsame in Heq; lia).
        rewrite bool_decide_true by done. congruence.
      * pose proof (Hentry _ _ Hn) as Hin.
        rewrite bool_decide_false by congruence.
        rewrite bool_decide_false; [done|].
        intros Heq. rewrite Heq in Hin. assert (i = L - 1) by congruence. lia.
    + intros x j Hx Hj. rewrite HI in Hx. rewrite HG.
      case_bool_decide as Hxe; [injection Hx as <-; lia|].
      case_bool_decide as Hxb.
      * injection Hx as <-. subst x.
        rewrite bool_decide_true by (pose proof (Hsame' ); lia).
        rewrite bool_decide_true by done. eauto.
      * destruct (Hentity x j Hx Hj) as (n & Hn & Hnx).
        pose proof (get_lt _ _ _ Hn) as Hjl. fold L in Hjl.
        assert (j ≠ L - 1) by (intros ->; congruence).
        assert (j ≠ name d) by (intros ->; congruence).
        rewrite bool_decide_true by lia. rewrite bool_decide_false by done. eauto.
  - rewrite getEntityName_name_index, HI, bool_decide_true by done. done.
  - intros x Hxe. rewrite !getEntityName_name_index, HI.
    rewrite bool_decide_false by done. case_bool_decide as Hxb.
    + subst x. rewrite Hib, !bind_Some.
      rewrite !bool_decide_false by lia. rewrite HG.
      rewrite bool_decide_true by (pose proof Hsame'; lia).
      rewrite bool_decide_true by done. by rewrite Hlast.
    + destruct (name_index u x) as [j|] eqn:Hj; [|done]. rewrite !bind_Some.
      case_bool_decide as Hjn; [done|]. rewrite HG.
      destruct (Hentity x j Hj ltac:(lia)) as (n & Hn & Hnx).
      pose proof (get_lt _ _ _ Hn) as Hjl. fold L in Hjl.
      assert (j ≠ L - 1) by (intros ->; congruence).
      assert (j ≠ name d) by (intros ->; congruence).
      rewrite bool_decide_true by lia. by rewrite bool_decide_false by done.
  - rewrite HN. rewrite size_eraseFast by done. fold L. lia.
Qed.

Lemma names_linked_ext (u u' : Universe) :
  m_names u' = m_names u → (∀ x, name_index u' x = name_index u x) →
  names_linked u → names_linked u'.
Proof. intros HN HI [Hentry Hentity]. split; intros *; rewrite HN, HI; eauto. Qed.

(** X25: [destroyEntity] keeps the name table and the entities referring
    to each other, when the scenes of the components of the entity destroy
    them ([scenes_destroy]): the entry of the destroyed entity is taken
    out of the table (the last entry takes its place), the destroyed
    entity has no name any more, and every other entity has the name it
    had. *)
Theorem destroyEntity_names {B} (map : ComponentTypeMap B) (fuel : nat)
    (e : Z) (d : EntityData) (u : Universe) :
  wf_hierarchy u → wf_tables u → scenes_destroy map e (components d) →
  enough_fuel u fuel →
  names_linked u → get (m_entities u) e = Some d → valid d = true →
  ∃ u', destroyEntity map fuel e u = Some u'
        ∧ names_linked u'
        ∧ getEntityName e u' = Some EmptyString
        ∧ (∀ x, x ≠ e → getEntityName x u' = getEntityName x u)
        ∧ size (m_names u')
          = size (m_names u) - (if bool_decide (0 ≤ name d) then 1 else 0).
Proof.
  intros Hwf Hwt Hmap Hf Hnl Hd Hvalid.
  pose proof (get_lt _ _ _ Hd) as He.
  destruct (wf_below _ Hwf _ He) as (b & Hb & _).
  destruct (destroyEntity_detach fuel e b u Hwf He Hf Hb)
    as (u1 & u2 & Hu1 & Hu2 & Hbr2 & Hlo2 & _).
  assert (is_Some (get (m_entities u2) e)) as [d2 Hd2].
  { apply get_is_Some. by rewrite (lo_size _ _ Hlo2). }
  assert (components d2 = components d) as Hmask2.
  { destruct (lo_entities _ _ Hlo2 _ _ Hd2) as (d0 & Hd0 & ->).
    rewrite Hd in Hd0. by injection Hd0 as <-. }
  assert (mask_within (components d2) (components d)) as Hin2.
  { rewrite Hmask2. by intros j _ Hj. }
  destruct (destroy_components_spec map e (components d) (Z.to_nat MAX_TYPES_COUNT) 0
              (components d2) u2 d2 Hmap Hin2 Hd2 eq_refl ltac:(done) ltac:(done))
    as (u3 & d3 & Hu3 & Hrs3 & Hd3 & Hd3eq).
  pose proof (wf_tables_links_only _ _ Hlo2 Hwt) as Hwt2.
  assert (wf_tables u3) as Hwt3.
  { eapply wf_tables_rest_same; eauto. by rewrite Hd3eq. }
  destruct (destroyEntity_release_spec e u3 Hwt3 ltac:(eauto)) as (u4 & Hu4 & _).
  assert (m_names u3 = m_names u) as HN3.
  { by rewrite (rs_names _ _ _ Hrs3), (lo_names _ _ Hlo2). }
  assert (∀ x, name_index u3 x = name_index u x) as HI3.
  { intros x. rewrite <- (name_index_links_only _ _ Hlo2). unfold name_index.
    destruct (decide (x = e)) as [->|Hx]; [|by rewrite (rs_others _ _ _ Hrs3)].
    rewrite Hd3, Hd2, Hd3eq. done. }
  assert (name d3 = name d) as Hnm.
  { pose proof (HI3 e) as H. unfold name_index in H. rewrite Hd3, Hd in H.
    by injection H. }
  destruct (destroyEntity_release_linked e d3 u3 u4
              (names_linked_ext _ _ HN3 HI3 Hnl) Hd3 Hu4) as (Hnl4 & He4 & Hx4 & Hs4).
  exists u4. split.
  { unfold destroyEntity. rewrite Hd, bind_Some, Hvalid. cbn [negb].
    rewrite Hu1, bind_Some, Hu2, bind_Some, Hd2, bind_Some, Hu3, bind_Some. done. }
  split; [done|]. split; [done|]. split.
  - intros x Hx. rewrite (Hx4 x Hx). by rewrite !getEntityName_name_index, HI3, HN3.
  - by rewrite Hs4, HN3, Hnm.
Qed.

(** X26: [setEntityName] keeps the name table and the entities referring
    to each other, and then it changes the name of no other entity. *)
Theorem setEntityName_names_linked (e : Z) (s : string) (u : Universe) (d : EntityData) :
  names_linked u → get (m_entities u) e = Some d →
  ∃ u', setEntityName e s u = Some u'
        ∧ names_linked u'
        ∧ getEntityName e u' = Some (copyString s)
        ∧ ∀ x, x ≠ e → getEntityName x u' = getEntityName x u.
Proof.
  intros [Hentry Hentity] Hd. pose proof (get_lt _ _ _ Hd) as He.
  assert (name_index u e = Some (name d)) as Hie by (unfold name_index; by rewrite Hd).
  unfold setEntityName. rewrite Hd, bind_Some. cbv zeta.
  case_bool_decide as Hneg; [case_bool_decide as Hs|].
  - exists u. split; [done|]. split; [done|]. split; [|done].
    rewrite getEntityName_name_index, Hie, bind_Some.
    rewrite bool_decide_true by done. by rewrite Hs, copyString_empty.
  - rewrite (modify_entity_Some u e _ d Hd), bind_Some.
    eexists. split; [done|].
    set (L := size (m_names u)). pose proof (size_nonneg (m_names u)) as HL. fold L in HL.
    match goal with |- names_linked ?v ∧ _ => set (u' := v) end.
    assert (∀ x, name_index u' x
                 = if bool_decide (x = e) then Some L else name_index u x) as HI.
    { intros x. unfold name_index, u'. cbn. rewrite get_set by done.
      by case_bool_decide. }
    assert (m_names u' = m_names u ++ [mkEntityName e (copyString s)]) as HN by done.
    split; [split|split].
    + intros i n Hn. rewrite HN in Hn. rewrite HI.
      apply get_app_Some in Hn as [Hn|[-> ->]].
      * pose proof (Hentry _ _ Hn) as Hin. pose proof (get_lt _ _ _ Hn).
        rewrite bool_decide_false; [done|]. intros Heq. rewrite Heq in Hin.
        assert (i = name d) by congruence. lia.
      * cbn. by rewrite bool_decide_true.
    + intros x j Hx Hj. rewrite HI in Hx. rewrite HN. case_bool_decide as Hxe.
      * injection Hx as <-. subst x. exists (mkEntityName e (copyString s)).
        split; [apply get_app_size|done].
      * destruct (Hentity x j Hx Hj) as (n & Hn & Hnx). exists n. split; [|done].
        rewrite get_app_l; [done|]. by eapply get_lt.
    + rewrite getEntityName_name_index, HI, bool_decide_true by done.
      rewrite bind_Some. rewrite bool_decide_false by lia. rewrite HN.
      unfold L. by rewrite get_app_size.
    + intros x Hx. rewrite !getEntityName_name_index, HI, bool_decide_false by done.
      destruct (name_index u x) as [j|] eqn:Hj; [|done]. rewrite !bind_Some.
      case_bool_decide as Hjn; [done|].
      destruct (Hentity x j Hj ltac:(lia)) as (n & Hn & Hnx).
      rewrite HN, get_app_l; [done|]. by eapply get_lt.
  - destruct (Hentity e (name d) Hie ltac:(lia)) as (n & Hn & Hne).
    pose proof (get_lt _ _ _ Hn) as Hk.
    rewrite Hn, bind_Some. eexists. split; [done|].
    match goal with |- names_linked ?v ∧ _ => set (u' := v) end.
    assert (∀ x, name_index u' x = name_index u x) as HI by done.
    assert (∀ i, get (m_names u') i
                 = if bool_decide (i = name d)
                   then Some (set_n_name (copyString s) n) else get (m_names u) i) as HG.
    { intros i. unfold u'. cbn. by rewrite get_set. }
    split; [split|split].
    + intros i n' Hn'. rewrite HG in Hn'. rewrite HI. case_bool_decide as Hik.
      * injection Hn' as <-. cbn. subst i. by apply Hentry.
      * by apply Hentry.
    + intros x j Hx Hj. rewrite HI in Hx. rewrite HG.
      destruct (Hentity x j Hx Hj) as (n' & Hn' & Hnx).
      case_bool_decide as Hjk; [|eauto].
      subst j. eexists. split; [done|]. cbn. congruence.
    + rewrite getEntityName_name_index, HI, Hie, bind_Some.
      rewrite bool_decide_false by done. rewrite HG, bool_decide_true by done. done.
    + intros x Hx. rewrite !getEntityName_name_index, HI.
      destruct (name_index u x) as [j|] eqn:Hj; [|done]. rewrite !bind_Some.
      case_bool_decide as Hjn; [done|].
      destruct (Hentity x j Hj ltac:(lia)) as (n' & Hn' & Hnx).
      rewrite HG, bool_decide_false; [done|]. intros ->. congruence.
Qed.

(** ** The events of [setTransform] *)

(** the loop over the children tells of every entity of the chain, an
    entity before the entities below it and before its next siblings *)
Lemma transformChildren_events (b : Chain) :
  ∀ (fuel : nat) (my : Transform) (c : Z) (u : Universe),
    shape u c b → NoDup (ents b) →
    size (m_transforms u) = size (m_entities u) →
    (2 * height b < fuel)%nat →
    ∃ u', transformChildren fuel my c u = Some u'
          ∧ m_events u' = rev (EntityTransformed <$> ents b) ++ m_events u.
Proof.
  induction b as [|e kids IHk rest IHr]; intros fuel my c u Hshape Hnd Hsz Hfuel.
  - destruct fuel as [|fuel]; [simpl in Hfuel; lia|].
    rewrite transformChildren_S. simpl in Hshape. rewrite Hshape.
    exists u. done.
  - pose proof Hshape as (-> & Hv & d & h & Hd & Hh & Hk & Hr).
    pose proof Hnd as Hnd0.
    cbn [ents] in Hnd. apply NoDup_cons in Hnd as [Hek Hnd].
    apply NoDup_app in Hnd as (Hndk & Hkr & Hndr).
    cbn [height] in Hfuel.
    destruct fuel as [|[|fuel]]; [lia..|].
    pose proof (get_lt _ _ _ Hd) as He. pose proof (get_lt _ _ _ Hh) as Hidx.
    rewrite transformChildren_S, Hv, Hd, bind_Some. cbv zeta. rewrite Hh, bind_Some.
    set (abs_tr := tmul my (local_transform h)).
    destruct (get_is_Some (m_transforms u) e) as [t0 Ht0]; [lia|].
    unfold modify_transform. rewrite Ht0, !bind_Some. cbn beta.
    set (u1 := with_transforms (set (m_transforms u) e abs_tr) u).
    rewrite transformEntity_S.
    change (m_entities u1) with (m_entities u). rewrite Hd, bind_Some. cbv zeta.
    rewrite bool_decide_true by lia.
    change (m_hierarchy (emit (EntityTransformed e) u1)) with (m_hierarchy u).
    rewrite Hh, bind_Some.
    assert (getTransform e (emit (EntityTransformed e) u1) = Some abs_tr) as ->.
    { unfold getTransform. cbn. apply get_set_eq. lia. }
    rewrite bind_Some. cbn [andb]. rewrite bind_Some.
    change (m_hierarchy (emit (EntityTransformed e) u1)) with (m_hierarchy u).
    rewrite Hh, bind_Some.
    assert (shape (emit (EntityTransformed e) u1) (first_child h) kids) as Hk1.
    { apply (shape_same_tree u); [|done]. apply same_tree_tables; [done|done|].
      cbn. by rewrite size_set. }
    assert (size (m_transforms (emit (EntityTransformed e) u1))
            = size (m_entities (emit (EntityTransformed e) u1))) as Hsz1.
    { cbn. rewrite size_set. done. }
    destruct (transformChildren_placed kids fuel abs_tr (first_child h)
                (emit (EntityTransformed e) u1) Hk1 Hndk Hsz1 ltac:(lia))
      as (u2 & E2 & HE2 & HH2 & _ & HT2 & _).
    destruct (IHk fuel abs_tr (first_child h) (emit (EntityTransformed e) u1)
                Hk1 Hndk Hsz1 ltac:(lia)) as (u2' & E2' & Hev2).
    rewrite E2 in E2'. injection E2' as <-.
    rewrite E2, bind_Some, HH2.
    change (m_hierarchy (emit (EntityTransformed e) u1)) with (m_hierarchy u).
    rewrite Hh, bind_Some.
    destruct (IHr (S fuel) my (next_sibling h) u2) as (u3 & E3 & Hev3).
    { apply (shape_same_tree u); [|done]. apply same_tree_tables; [done|done|].
      rewrite HT2. cbn. by rewrite size_set. }
    { done. }
    { rewrite HT2, HE2. cbn. rewrite size_set. done. }
    { lia. }
    exists u3. split; [done|]. rewrite Hev3, Hev2. cbn [ents m_events emit].
    rewrite fmap_cons, fmap_app. cbn [rev]. rewrite rev_app_distr.
    rewrite <- !app_assoc. done.
Qed.

(** X27: [setTransform] invokes [entityTransformed] once for the entity and
    once for every entity below it, and for nothing else: first for the
    entity, then for each child in the order of the sibling list, a child
    before the entities below it.  ([m_events] holds the newest event
    first, hence the [rev].) *)
Theorem setTransform_notifies (fuel : nat) (e : Z) (t : Transform) (u : Universe)
    (b : Chain) :
  wf_hierarchy u → enough_fuel u fuel → 0 ≤ e < size (m_entities u) → below u e b →
  ∃ u', setTransform fuel e t u = Some u'
        ∧ m_events u' = rev (EntityTransformed <$> (e :: ents b)) ++ m_events u.
Proof.
  intros Hwf Hfuel He Hb.
  destruct (get_is_Some (m_transforms u) e) as [t0 Ht0].
  { by rewrite (wf_transforms _ Hwf). }
  destruct (get_is_Some (m_entities u) e) as [d Hd]; [done|].
  destruct (wf_below _ Hwf e He) as (b' & Hb' & Hnd & _).
  rewrite (below_det _ _ _ _ Hb' Hb) in *. clear b' Hb'.
  apply NoDup_cons in Hnd as [Heb Hnd].
  destruct (wf_height u e b fuel Hwf Hb Hnd Hfuel) as [Hheight _].
  unfold setTransform, modify_transform. rewrite Ht0, !bind_Some.
  set (u1 := with_transforms (set (m_transforms u) e t) u).
  destruct fuel as [|fuel]; [lia|].
  rewrite transformEntity_S. change (m_entities u1) with (m_entities u).
  rewrite Hd, bind_Some. cbv zeta.
  set (u0 := emit (EntityTransformed e) u1).
  assert (size (m_transforms u0) = size (m_entities u)) as Hsz0.
  { cbn. rewrite size_set. apply (wf_transforms _ Hwf). }
  case_bool_decide as Hidx.
  - destruct (br_node _ (wf_backrefs _ Hwf) e d Hd Hidx) as (h & Hh & Hhe).
    pose proof (node_of_get _ _ _ _ Hd Hh) as Hnode.
    change (m_hierarchy u0) with (m_hierarchy u). rewrite Hh, bind_Some.
    assert (getTransform e u0 = Some t) as ->.
    { unfold getTransform. cbn. apply get_set_eq. by rewrite (wf_transforms _ Hwf). }
    rewrite bind_Some. cbn [andb].
    destruct Hb as (c & Hc & Hshape).
    rewrite (getFirstChild_node _ _ _ Hnode) in Hc. injection Hc as <-.
    assert (∃ u_m h_m,
              (if isValid (parent h)
               then parent_tr ← getTransform (parent h) u0;
                    modify_node (hierarchy d)
                      (set_local_transform (tmul (inverted parent_tr) t)) u0
               else Some u0) = Some u_m
              ∧ m_entities u_m = m_entities u
              ∧ size (m_transforms u_m) = size (m_entities u)
              ∧ m_events u_m = m_events u0
              ∧ get (m_hierarchy u_m) (hierarchy d) = Some h_m
              ∧ first_child h_m = first_child h
              ∧ shape u_m (first_child h) b)
      as (u_m & h_m & -> & HEm & HTm & HVm & HHm & Hfc & Hsm).
    { assert (same_tree u u0) as Hst0.
      { apply same_tree_tables; [done|done|]. cbn. by rewrite size_set. }
      destruct (isValid (parent h)) eqn:Hv.
      - destruct (wf_parent_node u e h Hwf Hnode Hv) as (hp & _ & Hhp & _).
        apply node_of_range in Hhp.
        destruct (get_is_Some (m_transforms u0) (parent h)) as [tp Htp].
        { by rewrite Hsz0. }
        unfold getTransform at 1. rewrite Htp, bind_Some.
        rewrite (modify_node_Some u0 (hierarchy d) _ h Hh).
        eexists _, _. split; [done|]. split; [done|]. split; [done|]. split; [done|].
        split; [cbn; apply get_set_eq; by apply get_lt in Hh|]. split; [done|].
        apply (shape_same_tree u0); [|by apply (shape_same_tree u)].
        split; [done|done|cbn; unfold set; by rewrite length_insert|].
        intros x.
        rewrite (modify_node_node_of u0 (hierarchy d) h _ x
                   (backrefs_same_tree _ _ Hst0 (wf_backrefs _ Hwf)) Hh).
        case_bool_decide as Hx.
        + subst x. rewrite Hhe.
          assert (node_of u0 e = Some h) as -> by done. by constructor.
        + destruct (node_of u0 x); constructor. done.
      - exists u0, h. split; [done|]. split; [done|]. split; [done|]. split; [done|].
        split; [done|]. split; [done|]. by apply (shape_same_tree u). }
    rewrite bind_Some, HHm, bind_Some, Hfc.
    destruct (transformChildren_events b fuel t (first_child h) u_m)
      as (u' & E' & Hev'); [done|done|by rewrite HTm, HEm|lia|].
    exists u'. split; [done|]. rewrite Hev', HVm. cbn [m_events emit u0].
    rewrite fmap_cons. cbn [rev]. rewrite <- app_assoc. done.
  - assert (b = NoEntity) as -> by (eapply below_no_node; [done| |done]; lia).
    exists u0. done.
Qed.

(** ** The equation of the hierarchy under the mutations *)

(** the setters of the world transform: the equation of the hierarchy is
    there again for the entity when its new transform goes through the
    frame of its parent, for the entities below it because their world
    transforms are computed anew, and for the others because nothing of
    them changes *)
Lemma set_world_composed (fuel : nat) (e : Z) (f : Transform → Transform)
    (u : Universe) (t0 : Transform) :
  wf_hierarchy u → enough_fuel u fuel → 0 ≤ e < size (m_entities u) →
  getTransform e u = Some t0 →
  (∀ c, c ≠ e → composed u c) →
  fits_parent u e (f t0) →
  ∃ u', (u1 ← modify_transform e f u; transformEntity fuel e true u1) = Some u'
        ∧ transforms_composed u'.
Proof.
  intros Hwf Hfuel He Ht0 Hall Hround.
  destruct (set_world_spec fuel e f u Hwf Hfuel He)
    as (u' & t0' & b & E' & Ht0' & Hb & Heb & Hst & _ & _ & Hte & Hsame & Hnodes & Hnode
        & Hcomp).
  assert (t0' = t0) as -> by congruence.
  exists u'. split; [done|]. intros c.
  destruct (decide (c ∈ ents b)) as [Hcb|Hcb]; [by apply Hcomp|].
  destruct (decide (c = e)) as [->|Hce].
  - intros h' Hh' Hv'.
    pose proof (st_nodes _ _ Hst e) as Hn. rewrite Hh' in Hn.
    inversion Hn as [h ? _ Heq1 Heq2|]. subst. symmetry in Heq1.
    destruct (Hnode h Heq1) as (h2 & Hh2 & (_ & Hp & _) & Hloc).
    assert (h2 = h') as -> by congruence.
    rewrite Hp in Hv'. rewrite Hv' in Hloc. destruct Hloc as (tp & Htp & Htp' & Hl).
    exists tp, (f t0). rewrite Hp. split; [done|]. split; [done|].
    rewrite Hl. symmetry. by apply (Hround h tp).
  - intros h Hh Hv. rewrite (Hnodes c Hce) in Hh.
    destruct (Hall c Hce h Hh Hv) as (tp & tc & Htp & Htc & Heq).
    destruct (parent_outside u e c b h Hwf Hb Hcb Hh Hv) as [Hpb Hpe].
    exists tp, tc. rewrite (Hsame c Hce Hcb), (Hsame (parent h) (Hpe Hce) Hpb). done.
Qed.

(** [setLocalTransform] of an entity with a parent *)
Lemma setLocalTransform_composed (fuel : nat) (e : Z) (t : Transform) (u : Universe)
    (h : Hierarchy) (tp : Transform) :
  wf_hierarchy u → enough_fuel u fuel → transforms_composed u →
  node_of u e = Some h → isValid (parent h) = true →
  getTransform (parent h) u = Some tp → round_trip tp (tmul tp t) →
  ∃ u', setLocalTransform fuel e t u = Some u' ∧ transforms_composed u'.
Proof.
  intros Hwf Hfuel Hall Hnode Hv Htp Hround.
  pose proof Hnode as (d & Hd & Hidx & Hh)%node_of_Some.
  pose proof (get_lt _ _ _ Hd) as He.
  unfold setLocalTransform. rewrite Hd, bind_Some. cbv zeta.
  rewrite bool_decide_false by lia.
  rewrite (modify_node_Some u (hierarchy d) _ h Hh), bind_Some.
  set (h_l := set_local_transform t h).
  set (u_l := with_hierarchy (set (m_hierarchy u) (hierarchy d) h_l) u).
  destruct (set_node_same_tree u e d h h_l (wf_backrefs _ Hwf) Hd Hidx Hh) as [Hst Hn];
    [done|]. fold u_l in Hst, Hn.
  unfold updateGlobalTransform.
  change (m_entities u_l) with (m_entities u). rewrite Hd, bind_Some.
  assert (get (m_hierarchy u_l) (hierarchy d) = Some h_l) as ->.
  { apply get_set_eq. by apply get_lt in Hh. }
  rewrite bind_Some. change (parent h_l) with (parent h). rewrite Hv.
  assert (getTransform (parent h) u_l = Some tp) as -> by done.
  rewrite bind_Some. cbv zeta. change (local_transform h_l) with t.
  destruct (get_is_Some (m_transforms u) e) as [t0 Ht0].
  { by rewrite (wf_transforms _ Hwf). }
  apply (set_world_composed fuel e (λ _, tmul tp t) u_l t0).
  - by apply (wf_same_tree u).
  - by apply (enough_fuel_same_tree u).
  - done.
  - done.
  - intros c Hc hc Hhc Hvc. rewrite Hn, bool_decide_false in Hhc by done.
    apply (Hall c hc Hhc Hvc).
  - intros h' tp' Hh' _ Htp'. rewrite Hn, bool_decide_true in Hh' by done.
    injection Hh' as <-. change (parent h_l) with (parent h) in Htp'.
    change (getTransform (parent h) u = Some tp') in Htp'.
    assert (tp' = tp) as -> by congruence. done.
Qed.

(** [setParent]: the world transforms stay, and the local transform of the
    child is computed from them *)
Lemma setParent_composed (fuel : nat) (np c : Z) (u : Universe) (tc : Transform) :
  wf_hierarchy u → enough_fuel u fuel →
  0 ≤ c < size (m_entities u) → np < size (m_entities u) →
  transforms_composed u → getTransform c u = Some tc →
  (∀ tp, isValid np = true → getTransform np u = Some tp → round_trip tp tc) →
  ∃ u', setParent fuel np c u = Some u' ∧ transforms_composed u'.
Proof.
  intros Hwf Hfuel Hc Hnp Hall Htc Hround.
  destruct (setParent_total fuel np c u Hwf Hc Hnp Hfuel) as [[cyc Hcyc] [u' Hu']].
  exists u'. split; [done|].
  destruct cyc.
  { (* refused: nothing but the trace changes *)
    unfold setParent in Hu'. rewrite Hcyc, bind_Some in Hu'. injection Hu' as <-.
    intros x h Hh Hv. apply (Hall x h Hh Hv). }
  destruct (setParent_accepted fuel np c u u' (wf_backrefs _ Hwf) Hcyc Hu')
    as (_ & Hlo & Hnew & Hothers).
  assert (∀ x, getTransform x u' = getTransform x u) as HT.
  { intros x. unfold getTransform. by rewrite (lo_transforms _ _ Hlo). }
  intros x h' Hh' Hv'. rewrite !HT.
  destruct (decide (x = c)) as [->|Hx].
  - destruct (isValid np) eqn:Hvn.
    + destruct (Hnew eq_refl) as (tp & tc' & h2 & Htp & Htc' & Hh2 & Hp & Hl & _).
      assert (h2 = h') as -> by congruence. assert (tc' = tc) as -> by congruence.
      exists tp, tc. rewrite Hp. split; [done|]. split; [done|].
      rewrite Hl. symmetry. by apply Hround.
    + pose proof (setParent_unparent fuel np c u u' (wf_backrefs _ Hwf) Hvn Hu' h' Hh').
      congruence.
  - destruct (Hothers x h' Hx Hh') as [(h & Hh & _ & Hp & Hl)|Hinv].
    + rewrite Hp in Hv' |- *. rewrite Hl. by apply (Hall x h).
    + rewrite Hinv in Hv'. done.
Qed.

(** C1: the equation [world(c) = world(p) * local(c)] of every entity [c]
    with a parent [p], when it holds, holds again after [setTransform],
    [setPosition], [setRotation], [setScale], [setLocalTransform] and
    [setParent], each of which returns: the first five compute the world
    transforms of the entities below the entity anew, from the parents
    down, and [setParent] leaves the world transforms and computes the
    local transform of the child.  For the entity itself the local
    transform is computed with the inverse of the world transform [tp] of
    its parent: the equation is there again when the new world transform
    [t] of the entity is found again by [tp * (inverted(tp) * t)]. *)
Theorem composition_reestablished (fuel : nat) (e new_parent : Z) (t : Transform)
    (p : DVec3) (r : Quat) (s : Float) (u : Universe) (t0 : Transform) :
  wf_hierarchy u → enough_fuel u fuel →
  0 ≤ e < size (m_entities u) → new_parent < size (m_entities u) →
  getTransform e u = Some t0 →
  transforms_composed u →
  (fits_parent u e t →
   ∃ u', setTransform fuel e t u = Some u' ∧ transforms_composed u')
  ∧ (fits_parent u e (set_pos p t0) →
     ∃ u', setPosition fuel e p u = Some u' ∧ transforms_composed u')
  ∧ (fits_parent u e (set_rot r t0) →
     ∃ u', setRotation fuel e r u = Some u' ∧ transforms_composed u')
  ∧ (fits_parent u e (set_scale s t0) →
     ∃ u', setScale fuel e s u = Some u' ∧ transforms_composed u')
  ∧ (∀ h tp, node_of u e = Some h → isValid (parent h) = true →
             getTransform (parent h) u = Some tp → round_trip tp (tmul tp t) →
     ∃ u', setLocalTransform fuel e t u = Some u' ∧ transforms_composed u')
  ∧ ((∀ tp, isValid new_parent = true → getTransform new_parent u = Some tp →
            round_trip tp t0) →
     ∃ u', setParent fuel new_parent e u = Some u' ∧ transforms_composed u').
Proof.
  intros Hwf Hfuel He Hnp Ht0 Hall.
  assert (∀ c, c ≠ e → composed u c) as Hall' by (intros c _; apply Hall).
  split; [|split; [|split; [|split; [|split]]]].
  - intros Hfit. by apply (set_world_composed fuel e (λ _, t) u t0).
  - intros Hfit. by apply (set_world_composed fuel e (set_pos p) u t0).
  - intros Hfit. by apply (set_world_composed fuel e (set_rot r) u t0).
  - intros Hfit. by apply (set_world_composed fuel e (set_scale s) u t0).
  - intros h tp Hh Hv Htp Hround. by apply (setLocalTransform_composed fuel e t u h tp).
  - intros Hround. by apply (setParent_composed fuel new_parent e u t0).
Qed.

(** ** Blocks that [InputMemoryStream::read] does not take *)



(*PROOFS*)

End Properties.

(* ================================================================== *)
(** * The properties at work on the concrete instance *)

Lemma component_mask_dispatch_witness :
  (∃ u', onComponentCreated 0 3 example_family = Some u'
         ∧ hasComponent 0 3 u' = Some true
         ∧ m_events u' = ComponentAdded 0 3 :: m_events example_family)
  ∧ (hasComponent 0 3 example_family = Some true →
     ∃ u', onComponentDestroyed 0 3 example_family = Some u'
           ∧ hasComponent 0 3 u' = Some false
           ∧ m_events u' = ComponentDestroyed 0 3 :: m_events example_family).
Proof.
  apply (component_mask_dispatch (TA := exact_algebra) example_family 0 3
           (mkEntityData 0 0 0 0 0 true)).
  - reflexivity.
  - unfold MAX_TYPES_COUNT. lia.
Defined.

Lemma setParent_cycle_rejected_witness :
  ∃ u', setParent 10 2 0 example_family = Some u'
        ∧ m_events u' = LogError cycle_message :: m_events example_family
        ∧ m_entities u' = m_entities example_family
        ∧ m_transforms u' = m_transforms example_family
        ∧ m_hierarchy u' = m_hierarchy example_family
        ∧ m_names u' = m_names example_family
        ∧ m_first_free_slot u' = m_first_free_slot example_family.
Proof.
  apply (setParent_cycle_rejected (TA := exact_algebra) example_family 10 2 0
           (Sib 1 (Sib 2 NoEntity NoEntity) NoEntity)).
  - exists 1. split; [reflexivity|]. simpl.
    split; [reflexivity|]. split; [reflexivity|].
    eexists _, _. split; [reflexivity|]. split; [reflexivity|]. simpl.
    split; [|reflexivity].
    split; [reflexivity|]. split; [reflexivity|].
    eexists _, _. split; [reflexivity|]. split; [reflexivity|]. simpl.
    split; reflexivity.
  - simpl. apply elem_of_cons. right. apply elem_of_cons. left. reflexivity.
  - simpl. lia.
Defined.

Lemma instantiatePrefab_unsupported_version_witness :
  ∃ u', instantiatePrefab (TD := example_deserializer) (CS := example_constants)
          example_map 10 "tree.fab" [7; 1] (0, 0, 0)%Q tt 1%Q example_family
        = Some (INVALID_ENTITY, u')
        ∧ m_events u' = LogError (unsupported_version_message "tree.fab")
                        :: m_events example_family
        ∧ m_entities u' = m_entities example_family
        ∧ m_transforms u' = m_transforms example_family
        ∧ m_hierarchy u' = m_hierarchy example_family
        ∧ m_names u' = m_names example_family
        ∧ m_first_free_slot u' = m_first_free_slot example_family.
Proof.
  apply (instantiatePrefab_unsupported_version (TA := exact_algebra)
           (CS := example_constants) (TD := example_deserializer)).
  vm_compute. reflexivity.
Defined.

(** ** The example family is well formed *)

Lemma get_index {A} (l : list A) (i : Z) (x : A) :
  get l i = Some x → ∃ n : nat, i = Z.of_nat n ∧ l !! n = Some x.
Proof.
  intros [Hi Hl]%get_Some. exists (Z.to_nat i). split; [lia|done].
Qed.

Ltac get_cases H :=
  let n := fresh "n" in
  apply get_index in H as (n & -> & H);
  repeat (destruct n as [|n]; simpl in H; [injection H as <-|]); try done.

Lemma example_family_backrefs : backrefs example_family.
Proof.
  split.
  - intros e d Hd Hh. simpl in Hd. get_cases Hd; simpl; eexists; split; reflexivity.
  - intros i h Hh. simpl in Hh. get_cases Hh; simpl; eexists; split; reflexivity.
Qed.

Lemma example_family_wf : wf_hierarchy example_family.
Proof.
  split.
  - apply example_family_backrefs.
  - reflexivity.
  - intros e He. change (size (m_entities example_family)) with 3 in He.
    assert (e = 0 ∨ e = 1 ∨ e = 2) as [-> | [-> | ->] ] by lia.
    + exists (Sib 1 (Sib 2 NoEntity NoEntity) NoEntity). split; [|split].
      * exists 1. split; [reflexivity|]. simpl.
        split; [reflexivity|]. split; [reflexivity|].
        eexists _, _. split; [reflexivity|]. split; [reflexivity|]. simpl.
        split; [|reflexivity].
        split; [reflexivity|]. split; [reflexivity|].
        eexists _, _. split; [reflexivity|]. split; [reflexivity|]. simpl.
        split; reflexivity.
      * apply (bool_decide_unpack _). vm_compute. exact I.
      * simpl. repeat split; reflexivity.
    + exists (Sib 2 NoEntity NoEntity). split; [|split].
      * exists 2. split; [reflexivity|]. simpl.
        split; [reflexivity|]. split; [reflexivity|].
        eexists _, _. split; [reflexivity|]. split; [reflexivity|]. simpl.
        split; reflexivity.
      * apply (bool_decide_unpack _). vm_compute. exact I.
      * simpl. repeat split; reflexivity.
    + exists NoEntity. split; [|split].
      * exists (-1). split; reflexivity.
      * apply (bool_decide_unpack _). vm_compute. exact I.
      * done.
  - intros c h Hn Hv. apply node_of_Some in Hn as (d & Hd & Hi & Hh).
    simpl in Hd. get_cases Hd; simpl in Hh; injection Hh as <-; simpl in Hv; try done; simpl.
    + exists (Sib 1 (Sib 2 NoEntity NoEntity) NoEntity). split; [|simpl; apply elem_of_cons; by left].
      exists 1. split; [reflexivity|]. simpl.
      split; [reflexivity|]. split; [reflexivity|].
      eexists _, _. split; [reflexivity|]. split; [reflexivity|]. simpl.
      split; [|reflexivity].
      split; [reflexivity|]. split; [reflexivity|].
      eexists _, _. split; [reflexivity|]. split; [reflexivity|]. simpl.
      split; reflexivity.
    + exists (Sib 2 NoEntity NoEntity). split; [|simpl; apply elem_of_cons; by left].
      exists 2. split; [reflexivity|]. simpl.
      split; [reflexivity|]. split; [reflexivity|].
      eexists _, _. split; [reflexivity|]. split; [reflexivity|]. simpl.
      split; reflexivity.
Qed.

Lemma setParent_no_jump_witness :
  ∃ u', setParent 10 0 2 example_family = Some u'
        ∧ m_transforms u' = m_transforms example_family
        ∧ getTransform 2 u' = getTransform 2 example_family
        ∧ links_only example_family u'
        ∧ (isValid 0 = true →
           ∃ parent_tr child_tr,
             getTransform 0 example_family = Some parent_tr
             ∧ getTransform 2 example_family = Some child_tr
             ∧ getParent 2 u' = Some 0
             ∧ getLocalTransform 2 u' = Some (tmul (inverted parent_tr) child_tr)).
Proof.
  apply (setParent_no_jump (TA := exact_algebra) 10 0 2 example_family).
  - apply example_family_wf.
  - unfold enough_fuel. simpl. lia.
  - unfold size. simpl. lia.
  - unfold size. simpl. lia.
  - reflexivity.
Defined.

Lemma setParent_self_loop_witness :
  isDescendant 10 1 1 example_family = Some false
  ∧ ∃ u', setParent 10 1 1 example_family = Some u'
          ∧ m_events u' = m_events example_family
          ∧ getParent 1 u' = Some 1
          ∧ getFirstChild 1 u' = Some 1.
Proof.
  apply (setParent_self_loop (TA := exact_algebra) 10 1 example_family).
  - apply example_family_wf.
  - unfold size. simpl. lia.
  - unfold enough_fuel. simpl. lia.
Defined.

Lemma setEntityName_empty_keeps_slot_witness :
  ∃ u', setEntityName (CS := example_constants) 0 EmptyString example_family = Some u'
        ∧ getEntityName 0 u' = Some EmptyString
        ∧ size (m_names u') = 1
        ∧ findByName 1 INVALID_ENTITY EmptyString u' = Some 0.
Proof.
  destruct (setEntityName_empty_keeps_slot (TA := exact_algebra) (CS := example_constants)
              example_family 1 0 (mkEntityData 0 0 0 0 0 true) (mkEntityName 0 "base")
              eq_refl ltac:(simpl; lia) eq_refl)
    as (u' & Hset & Hget & _ & Hsize & _ & Hfind).
  exists u'. split; [exact Hset|]. split; [exact Hget|]. split; [exact Hsize|].
  apply Hfind; [reflexivity|reflexivity|]. simpl. intros j m Hj. lia.
Defined.

Lemma example_family_tables : wf_tables example_family.
Proof.
  split.
  - unfold size. simpl. lia.
  - intros n Hn. apply list_elem_of_In in Hn. simpl in Hn.
    destruct Hn as [<-|[]]. unfold size. simpl. lia.
  - intros e d Hd. simpl in Hd. get_cases Hd; unfold size; simpl; lia.
Qed.

Lemma example_map_calls_back : scenes_call_back example_map.
Proof.
  intros i Hi. unfold example_map. rewrite bool_decide_true by done.
  eexists. split; [reflexivity|]. reflexivity.
Qed.

Lemma example_scene_backrefs : backrefs example_scene.
Proof.
  split.
  - intros e d Hd Hh. simpl in Hd. get_cases Hd; simpl; eexists; split; reflexivity.
  - intros i h Hh. simpl in Hh. get_cases Hh; simpl; eexists; split; reflexivity.
Qed.

Lemma example_scene_wf : wf_hierarchy example_scene.
Proof.
  split.
  - apply example_scene_backrefs.
  - reflexivity.
  - intros e He. change (size (m_entities example_scene)) with 3 in He.
    assert (e = 0 ∨ e = 1 ∨ e = 2) as [-> | [-> | ->] ] by lia.
    + exists (Sib 1 (Sib 2 NoEntity NoEntity) NoEntity). split; [|split].
      * exists 1. split; [reflexivity|]. simpl.
        split; [reflexivity|]. split; [reflexivity|].
        eexists _, _. split; [reflexivity|]. split; [reflexivity|]. simpl.
        split; [|reflexivity].
        split; [reflexivity|]. split; [reflexivity|].
        eexists _, _. split; [reflexivity|]. split; [reflexivity|]. simpl.
        split; reflexivity.
      * apply (bool_decide_unpack _). vm_compute. exact I.
      * simpl. repeat split; reflexivity.
    + exists (Sib 2 NoEntity NoEntity). split; [|split].
      * exists 2. split; [reflexivity|]. simpl.
        split; [reflexivity|]. split; [reflexivity|].
        eexists _, _. split; [reflexivity|]. split; [reflexivity|]. simpl.
        split; reflexivity.
      * apply (bool_decide_unpack _). vm_compute. exact I.
      * simpl. repeat split; reflexivity.
    + exists NoEntity. split; [|split].
      * exists (-1). split; reflexivity.
      * apply (bool_decide_unpack _). vm_compute. exact I.
      * done.
  - intros c h Hn Hv. apply node_of_Some in Hn as (d & Hd & Hi & Hh).
    simpl in Hd. get_cases Hd; simpl in Hh; injection Hh as <-; simpl in Hv; try done; simpl.
    + exists (Sib 1 (Sib 2 NoEntity NoEntity) NoEntity). split; [|simpl; apply elem_of_cons; by left].
      exists 1. split; [reflexivity|]. simpl.
      split; [reflexivity|]. split; [reflexivity|].
      eexists _, _. split; [reflexivity|]. split; [reflexivity|]. simpl.
      split; [|reflexivity].
      split; [reflexivity|]. split; [reflexivity|].
      eexists _, _. split; [reflexivity|]. split; [reflexivity|]. simpl.
      split; reflexivity.
    + exists (Sib 2 NoEntity NoEntity). split; [|simpl; apply elem_of_cons; by left].
      exists 2. split; [reflexivity|]. simpl.
      split; [reflexivity|]. split; [reflexivity|].
      eexists _, _. split; [reflexivity|]. split; [reflexivity|]. simpl.
      split; reflexivity.
Qed.

Lemma example_scene_tables : wf_tables example_scene.
Proof.
  split.
  - unfold size. simpl. lia.
  - intros n Hn. apply list_elem_of_In in Hn. simpl in Hn.
    destruct Hn as [<-|[<-|[]]]; unfold size; simpl; lia.
  - intros e d Hd. simpl in Hd. get_cases Hd; unfold size; simpl; lia.
Qed.

Lemma example_scene_fuel : enough_fuel example_scene 10.
Proof. unfold enough_fuel. simpl. lia. Qed.

Lemma example_scene_names_linked : names_linked example_scene.
Proof.
  split.
  - intros i n Hn. simpl in Hn. get_cases Hn; reflexivity.
  - intros x j Hx Hj. unfold name_index in Hx.
    destruct (get (m_entities example_scene) x) as [dx|] eqn:Hdx; [|done].
    simpl in Hdx. get_cases Hdx; injection Hx as <-; try (simpl in Hj; lia);
      eexists; split; reflexivity.
Qed.



Lemma destroyEntity_orphans_witness :
  ∃ u', destroyEntity example_map 10 1 example_scene = Some u'
        ∧ ∀ c, c ∈ tops (Sib 2 NoEntity NoEntity) →
               getParent c u' = Some INVALID_ENTITY
               ∧ getTransform c u' = getTransform c example_scene.
Proof.
  apply (destroyEntity_orphans (TA := exact_algebra) example_map 10 1
           (mkEntityData 1 (-1) 5 0 0 true) (Sib 2 NoEntity NoEntity) example_scene).
  - apply example_scene_wf.
  - apply example_scene_tables.
  - apply scenes_call_back_destroy, example_map_calls_back.
  - apply example_scene_fuel.
  - reflexivity.
  - reflexivity.
  - exists 2. split; [reflexivity|]. simpl.
    split; [reflexivity|]. split; [reflexivity|].
    eexists _, _. split; [reflexivity|]. split; [reflexivity|]. simpl.
    split; reflexivity.
Defined.

(** running a call on a closed state *)
Ltac run_call t H :=
  let v := eval vm_compute in t in
  assert (t = v) as H by (vm_compute; reflexivity).

Lemma emplace_live_entity_breaks_free_list :
  ∃ u1 u2 u3 u4 u5 : Universe (TA := exact_algebra),
    emplaceEntity 2 empty_universe = Some u1
    ∧ emplaceEntity 1 u1 = Some u2
    ∧ destroyEntity example_map 1 2 u2 = Some u3
    ∧ emplaceEntity 1 u3 = Some u4
    ∧ emplaceEntity 0 u4 = Some u5
    ∧ reachable example_map 1 false u5 [0; 1]
    ∧ ¬ slots_consistent u5 [0; 1].
Proof.
  run_call (emplaceEntity (TA := exact_algebra) 2 empty_universe) E1.
  match type of E1 with _ = Some ?u => run_call (emplaceEntity (TA := exact_algebra) 1 u) E2 end.
  match type of E2 with _ = Some ?u =>
    run_call (destroyEntity (TA := exact_algebra) example_map 1 2 u) E3 end.
  match type of E3 with _ = Some ?u => run_call (emplaceEntity (TA := exact_algebra) 1 u) E4 end.
  match type of E4 with _ = Some ?u => run_call (emplaceEntity (TA := exact_algebra) 0 u) E5 end.
  eexists _, _, _, _, _.
  split; [exact E1|]. split; [exact E2|]. split; [exact E3|]. split; [exact E4|].
  split; [exact E5|]. split.
  - pose proof (reach_empty (TA := exact_algebra) example_map 1 false) as H0.
    pose proof (reach_emplace _ _ _ _ _ 2 _ H0 ltac:(done) E1) as H1.
    pose proof (reach_emplace _ _ _ _ _ 1 _ H1 ltac:(done) E2) as H2.
    pose proof (reach_destroy _ _ _ _ _ 2 _ H2 E3) as H3.
    pose proof (reach_emplace _ _ _ _ _ 1 _ H3 ltac:(done) E4) as H4.
    pose proof (reach_emplace _ _ _ _ _ 0 _ H4 ltac:(done) E5) as H5.
    exact H5.
  - intros [_ (l & Hchain & _ & Hfree)].
    destruct l as [|i l]; [by vm_compute in Hchain|].
    destruct Hchain as (<- & d & Hd & _ & _ & Hchain).
    vm_compute in Hd. injection Hd as <-.
    destruct l as [|j l]; [by vm_compute in Hchain|].
    destruct Hchain as (Hj & d & Hd & Hv & _).
    vm_compute in Hj. subst j. vm_compute in Hd. injection Hd as <-.
    vm_compute in Hv. discriminate.
Qed.

Lemma free_list_consistent_witness :
  ∃ u1 u2 u3 : Universe (TA := exact_algebra),
    emplaceEntity 2 empty_universe = Some u1
    ∧ createEntity (TA := exact_algebra) (1, 2, 3)%Q tt u1 = Some (1, u2)
    ∧ destroyEntity example_map 1 2 u2 = Some u3
    ∧ slots_consistent u3 [1]
    ∧ (∀ p r, is_Some (createEntity p r u3))
    ∧ (∀ e, e ∈ [1] → 1%nat ≠ O → is_Some (destroyEntity example_map 1 e u3))
    ∧ (∀ e, 0 ≤ e → e ∉ [1] → is_Some (emplaceEntity e u3)).
Proof.
  run_call (emplaceEntity (TA := exact_algebra) 2 empty_universe) E1.
  match type of E1 with _ = Some ?u =>
    run_call (createEntity (TA := exact_algebra) (1, 2, 3)%Q tt u) E2 end.
  match type of E2 with _ = Some (_, ?u) =>
    run_call (destroyEntity (TA := exact_algebra) example_map 1 2 u) E3 end.
  eexists _, _, _.
  split; [exact E1|]. split; [exact E2|]. split; [exact E3|].
  apply (free_list_consistent (TA := exact_algebra) example_map 1).
  pose proof (reach_empty (TA := exact_algebra) example_map 1 true) as H0.
  pose proof (reach_emplace _ _ _ _ _ 2 _ H0 ltac:(intros _; apply not_elem_of_nil) E1) as H1.
  pose proof (reach_create _ _ _ _ _ _ _ _ _ H1 E2) as H2.
  exact (reach_destroy _ _ _ _ _ 2 _ H2 E3).
Defined.

Lemma example_family_serializable :
  serializable (CS := example_constants) (LY := example_layout) example_family.
Proof.
  split.
  - repeat constructor.
  - repeat constructor.
  - repeat constructor.
  - reflexivity.
  - by vm_compute.
  - by vm_compute.
  - by vm_compute.
  - by vm_compute.
  - by vm_compute.
  - by vm_compute.
  - by vm_compute.
  - by vm_compute.
  - intros i n Hn. destruct i as [|i]; [|done]. injection Hn as <-.
    split; [vm_compute; lia|]. split.
    + apply (bool_decide_unpack _). by vm_compute.
    + eexists. split; reflexivity.
Qed.

Lemma serialize_deserialize_witness :
  deserialize (CS := example_constants) (LY := example_layout)
    (mkInputMemoryStream (serialize (LY := example_layout) example_family) 0)
    empty_universe
  = Some (mkUniverse (m_entities example_family) (m_transforms example_family)
            (m_hierarchy example_family) (m_names example_family)
            (m_first_free_slot example_family) []).
Proof.
  apply (serialize_deserialize (CS := example_constants) (LY := example_layout)
           example_family).
  apply example_family_serializable.
Defined.

(** the value of a closed call *)
Ltac compute_call t H :=
  let v := eval vm_compute in t in
  assert (t = v) as H by reflexivity.

Lemma example_family_fuel : enough_fuel example_family 10.
Proof. unfold enough_fuel. simpl. lia. Qed.

Lemma example_family_composed : transforms_composed example_family.
Proof.
  intros c h Hh Hv. pose proof (node_of_range _ _ _ Hh) as Hc.
  change (size (m_entities example_family)) with 3 in Hc.
  assert (c = 0 ∨ c = 1 ∨ c = 2) as [-> | [-> | ->] ] by lia;
    injection Hh as <-; [done| |]; eexists _, _; (split; [reflexivity|]);
    (split; [reflexivity|]); by vm_compute.
Qed.

Lemma setTransform_propagates_witness :
  ∃ u', setTransform 10 0 (qtransform 5 0 0 2) example_family = Some u'
        ∧ getTransform 0 u' = Some (qtransform 5 0 0 2)
        ∧ (∀ c, descendant example_family 0 c → composed u' c)
        ∧ (∀ x, x ≠ 0 → ¬ descendant example_family 0 x
                → getTransform x u' = getTransform x example_family)
        ∧ (∀ x, getParent x u' = getParent x example_family).
Proof.
  apply (setTransform_propagates (TA := exact_algebra) 10 0 (qtransform 5 0 0 2)
           example_family).
  - apply example_family_wf.
  - apply example_family_fuel.
  - by vm_compute.
Defined.

Lemma set_part_of_transform_witness :
  ∃ t0, getTransform 1 example_family = Some t0
        ∧ (∃ u', setPosition (TA := exact_algebra) 10 1 (4, 5, 6)%Q example_family = Some u'
                 ∧ getTransform 1 u'
                   = Some (mkTransform (V := QVec) (4, 5, 6)%Q (rot t0) (scale t0)))
        ∧ (∃ u', setRotation (TA := exact_algebra) 10 1 tt example_family = Some u'
                 ∧ getTransform 1 u' = Some (mkTransform (pos t0) tt (scale t0)))
        ∧ (∃ u', setScale (TA := exact_algebra) 10 1 3%Q example_family = Some u'
                 ∧ getTransform 1 u' = Some (mkTransform (pos t0) (rot t0) 3%Q)).
Proof.
  apply (set_part_of_transform (TA := exact_algebra) 10 1 (4, 5, 6)%Q tt 3%Q
           example_family).
  - apply example_family_wf.
  - apply example_family_fuel.
  - by vm_compute.
Defined.

Lemma setTransform_local_witness :
  ∃ u' tp, setTransform 10 1 (qtransform 3 3 3 2) example_family = Some u'
           ∧ getTransform 0 example_family = Some tp
           ∧ getTransform 0 u' = Some tp
           ∧ getParent 1 u' = Some 0
           ∧ getLocalTransform 1 u' = Some (tmul (inverted tp) (qtransform 3 3 3 2)).
Proof.
  apply (setTransform_local (TA := exact_algebra) 10 1 (qtransform 3 3 3 2) example_family
           (mkHierarchy (TA := exact_algebra) 1 0 2 (-1) (qtransform 0 1 0 1))).
  - apply example_family_wf.
  - apply example_family_fuel.
  - reflexivity.
  - reflexivity.
Defined.

Lemma setTransform_keeps_composition_witness :
  ∃ u', setTransform 10 1 (qtransform 3 3 3 2) example_family = Some u'
        ∧ transforms_composed u'.
Proof.
  apply (setTransform_keeps_composition (TA := exact_algebra) 10 1 (qtransform 3 3 3 2)
           example_family).
  - apply example_family_wf.
  - apply example_family_fuel.
  - by vm_compute.
  - apply example_family_composed.
  - intros h tp [= <-] _ [= <-]. by vm_compute.
Defined.

Lemma setLocal_world_witness :
  ∃ tp, getTransform 0 example_family = Some tp
        ∧ (∃ u', setLocalTransform 10 1 (qtransform 0 0 7 2) example_family = Some u'
                 ∧ getTransform 1 u' = Some (tmul tp (qtransform 0 0 7 2))
                 ∧ getTransform 0 u' = Some tp)
        ∧ (∃ u', setLocalPosition (TA := exact_algebra) 10 1 (0, 0, 7)%Q example_family = Some u'
                 ∧ getTransform 1 u'
                   = Some (tmul tp (set_pos (TA := exact_algebra) (0, 0, 7)%Q
                                      (qtransform 0 1 0 1)))
                 ∧ getTransform 0 u' = Some tp)
        ∧ (∃ u', setLocalRotation (TA := exact_algebra) 10 1 tt example_family = Some u'
                 ∧ getTransform 1 u' = Some (tmul tp (set_rot (TA := exact_algebra) tt (qtransform 0 1 0 1)))
                 ∧ getTransform 0 u' = Some tp).
Proof.
  apply (setLocal_world (TA := exact_algebra) 10 1 (qtransform 0 0 7 2) (0, 0, 7)%Q tt
           example_family
           (mkHierarchy (TA := exact_algebra) 1 0 2 (-1) (qtransform 0 1 0 1))).
  - apply example_family_wf.
  - apply example_family_fuel.
  - reflexivity.
  - reflexivity.
Defined.

Lemma setLocalTransform_without_parent_witness :
  setLocalTransform 10 0 (qtransform 0 0 7 2) example_family = None.
Proof.
  apply (setLocalTransform_without_parent (TA := exact_algebra) 10 0 (qtransform 0 0 7 2)
           example_family
           (mkHierarchy (TA := exact_algebra) 0 (-1) 1 (-1) (qtransform 0 0 0 1)));
    reflexivity.
Defined.

Lemma setEntityName_getEntityName_witness :
  ∃ u', setEntityName (CS := example_constants) 1 "wheel" example_family = Some u'
        ∧ getEntityName 1 u' = Some (copyString (CS := example_constants) "wheel")
        ∧ ∀ x dx, x ≠ 1 → get (m_entities example_family) x = Some dx →
                  name dx ≠ name (mkEntityData 1 (-1) 0 0 0 true) →
                  getEntityName x u' = getEntityName x example_family.
Proof.
  apply (setEntityName_getEntityName (TA := exact_algebra) (CS := example_constants)
           1 "wheel" example_family (mkEntityData 1 (-1) 0 0 0 true)).
  - apply example_family_tables.
  - reflexivity.
Defined.

Lemma example_family_names :
  ∀ n, n ∈ m_names example_family → is_Some (getParent (n_entity n) example_family).
Proof. intros n Hn. apply list_elem_of_singleton in Hn as ->. by eexists. Qed.

Lemma findByName_root_witness :
  ∃ r, findByName 10 INVALID_ENTITY "base" example_family = Some r
       ∧ (isValid r = true →
          ∃ n p, n ∈ m_names example_family ∧ n_entity n = r ∧ n_name n = "base"%string
                 ∧ getParent r example_family = Some p ∧ isValid p = false)
       ∧ (isValid r = false →
          ∀ n, n ∈ m_names example_family → n_name n = "base"%string →
               ∃ p, getParent (n_entity n) example_family = Some p ∧ isValid p = true).
Proof.
  apply (findByName_root (TA := exact_algebra) 10 "base" example_family).
  apply example_family_names.
Defined.

Lemma findByName_child_witness :
  ∃ r, findByName 10 0 "base" example_family = Some r
       ∧ (isValid r = true → getParent r example_family = Some 0
                             ∧ named example_family r "base")
       ∧ (isValid r = false →
          ∀ c, getParent c example_family = Some 0 → ¬ named example_family c "base").
Proof.
  apply (findByName_child (TA := exact_algebra) 10 0 "base" example_family).
  - apply example_family_wf.
  - apply example_family_tables.
  - apply example_family_fuel.
  - by vm_compute.
Defined.

Lemma entity_iteration_witness :
  (if isValid (getFirstEntity example_family)
   then hasEntity (getFirstEntity example_family) example_family = true
        ∧ ∀ x, x < getFirstEntity example_family → hasEntity x example_family = false
   else ∀ x, hasEntity x example_family = false)
  ∧ (if isValid (getNextEntity 0 example_family)
     then 0 < getNextEntity 0 example_family
          ∧ hasEntity (getNextEntity 0 example_family) example_family = true
          ∧ ∀ x, 0 < x < getNextEntity 0 example_family
                 → hasEntity x example_family = false
     else ∀ x, 0 < x → hasEntity x example_family = false).
Proof.
  apply (entity_iteration (TA := exact_algebra) example_family 0). lia.
Defined.

Lemma createEntity_contract_witness :
  ∃ e u', createEntity (TA := exact_algebra) (1, 2, 3)%Q tt example_family = Some (e, u')
          ∧ e = (if bool_decide (0 ≤ m_first_free_slot example_family)
                 then m_first_free_slot example_family
                 else size (m_entities example_family))
          ∧ hasEntity e u' = true
          ∧ getTransform e u' = Some (mkTransform (V := QVec) (1, 2, 3)%Q tt 1%Q)
          ∧ getComponentsMask e u' = Some 0
          ∧ getEntityName e u' = Some EmptyString
          ∧ getParent e u' = Some INVALID_ENTITY
          ∧ m_events u' = EntityCreated e :: m_events example_family
          ∧ ∀ x, x ≠ e → hasEntity x u' = hasEntity x example_family
                         ∧ getTransform x u' = getTransform x example_family.
Proof.
  apply (createEntity_contract (TA := exact_algebra) (1, 2, 3)%Q tt example_family).
  - reflexivity.
  - by vm_compute.
  - intros d Hd. by vm_compute in Hd.
Defined.

Lemma destroyEntity_not_reentrant_witness :
  ∃ u', destroyEntity example_map 10 1 example_family = Some u'
        ∧ hasEntity 1 example_family = true
        ∧ hasEntity 1 u' = false
        ∧ m_first_free_slot u' = 1
        ∧ (∃ evs, m_events u' = EntityDestroyed 1 :: evs)
        ∧ destroyEntity example_map 3 1 u' = None.
Proof.
  compute_call (destroyEntity (TA := exact_algebra) example_map 10 1 example_family) E.
  eexists. split; [exact E|].
  apply (destroyEntity_not_reentrant (TA := exact_algebra) example_map 10 3 1 _ _ E).
Defined.

Lemma component_iteration_witness :
  (∃ r, getFirstComponent 1 example_scene = Some r
        ∧ if bool_decide (r = INVALID_COMPONENT_TYPE)
          then ∀ x, 0 ≤ x < MAX_TYPES_COUNT → hasComponent 1 x example_scene = Some false
          else 0 ≤ r < MAX_TYPES_COUNT ∧ hasComponent 1 r example_scene = Some true
               ∧ ∀ x, 0 ≤ x < r → hasComponent 1 x example_scene = Some false)
  ∧ (∃ r, getNextComponent 1 0 example_scene = Some r
          ∧ if bool_decide (r = INVALID_COMPONENT_TYPE)
            then ∀ x, 0 < x < MAX_TYPES_COUNT → hasComponent 1 x example_scene = Some false
            else 0 < r < MAX_TYPES_COUNT ∧ hasComponent 1 r example_scene = Some true
                 ∧ ∀ x, 0 < x < r → hasComponent 1 x example_scene = Some false).
Proof.
  apply (component_iteration (TA := exact_algebra) example_scene 1 0
           (mkEntityData 1 (-1) 5 0 0 true)).
  - reflexivity.
  - by vm_compute.
Defined.

Lemma component_bits_independent_witness :
  ∃ u', onComponentCreated 1 3 example_family = Some u'
        ∧ hasComponent 1 4 u' = hasComponent 1 4 example_family.
Proof.
  compute_call (onComponentCreated (TA := exact_algebra) 1 3 example_family) E.
  eexists. split; [exact E|].
  apply (component_bits_independent (TA := exact_algebra) example_family _ 1 3 1 4).
  - by vm_compute.
  - by vm_compute.
  - left. exact E.
  - right. lia.
Defined.

Lemma isDescendant_decides_witness :
  ∃ r, isDescendant 10 0 2 example_family = Some r
       ∧ (r = true ↔ descendant example_family 0 2).
Proof.
  apply (isDescendant_decides (TA := exact_algebra) 10 0 2 example_family).
  - apply example_family_wf.
  - apply example_family_fuel.
  - by vm_compute.
Defined.

Lemma setParent_detaches_witness :
  ∃ u' p, setParent 10 INVALID_ENTITY 2 example_family = Some u'
          ∧ getParent 2 u' = Some p ∧ isValid p = false
          ∧ m_transforms u' = m_transforms example_family.
Proof.
  apply (setParent_detaches (TA := exact_algebra) 10 2 example_family).
  - apply example_family_wf.
  - apply example_family_fuel.
  - by vm_compute.
Defined.

Lemma setParent_first_child_witness :
  ∃ u', setParent 10 0 2 example_family = Some u'
        ∧ getFirstChild 0 u' = Some 2
        ∧ getParent 2 u' = Some 0.
Proof.
  apply (setParent_first_child (TA := exact_algebra) 10 0 2 example_family).
  - apply example_family_wf.
  - apply example_family_fuel.
  - by vm_compute.
  - by vm_compute.
  - by vm_compute.
Defined.

Lemma setTransformKeepChildren_keeps_witness :
  ∃ u', setTransformKeepChildren 10 1 (qtransform 3 3 3 2) example_family = Some u'
        ∧ getTransform 1 u' = Some (qtransform 3 3 3 2)
        ∧ (∀ x, x ≠ 1 → getTransform x u' = getTransform x example_family)
        ∧ (∀ x, getParent x u' = getParent x example_family)
        ∧ (∀ c hc, node_of example_family c = Some hc → parent hc = 1 →
                   ∃ tc, getTransform c example_family = Some tc
                         ∧ getLocalTransform c u'
                           = Some (tmul (inverted (qtransform 3 3 3 2)) tc)).
Proof.
  apply (setTransformKeepChildren_keeps (TA := exact_algebra) 10 1 (qtransform 3 3 3 2)
           example_family).
  - apply example_family_wf.
  - apply example_family_fuel.
  - by vm_compute.
Defined.

Lemma write_read_i32_witness :
  (∃ st', read_i32 (mkInputMemoryStream (9 :: write_i32 (-5) ++ [1; 2]) 1)
          = Some (to_i32 (-5), st')
          ∧ unread st' = [1; 2]
          ∧ i_data st' = i_data (mkInputMemoryStream (9 :: write_i32 (-5) ++ [1; 2]) 1)
          ∧ i_pos st' = i_pos (mkInputMemoryStream (9 :: write_i32 (-5) ++ [1; 2]) 1) + 4)
  ∧ length (write_i32 (-5)) = 4%nat
  ∧ (- 2 ^ 31 ≤ -5 < 2 ^ 31 → to_i32 (-5) = -5).
Proof.
  apply (write_read_i32 (-5) (mkInputMemoryStream (9 :: write_i32 (-5) ++ [1; 2]) 1) [1; 2]).
  - unfold stream_ok, i_size, size. simpl. lia.
  - reflexivity.
Defined.

Lemma writeString_readString_witness :
  if bool_decide (String.length "base" < 32)%nat
  then ∃ st', readString 32 (mkInputMemoryStream (writeString "base" ++ [7]) 0)
              = Some ("base"%string, st')
              ∧ unread st' = [7]
  else readString 32 (mkInputMemoryStream (writeString "base" ++ [7]) 0) = None.
Proof.
  apply (writeString_readString 32 "base"
           (mkInputMemoryStream (writeString "base" ++ [7]) 0) [7]).
  - unfold is_i32. simpl. lia.
  - unfold is_i32. simpl. lia.
  - apply (bool_decide_unpack _). by vm_compute.
  - unfold stream_ok, i_size, size. simpl. lia.
  - reflexivity.
Defined.

Lemma write_appends_witness :
  ∃ s', OutputMemoryStream.write [1; 2; 3] (OutputMemoryStream.mk true [] 0) = Some s'
        ∧ OutputMemoryStream.written s'
          = OutputMemoryStream.written (OutputMemoryStream.mk true [] 0)
            ++ (Some <$> [1; 2; 3])
        ∧ OutputMemoryStream.o_pos s'
          = OutputMemoryStream.o_pos (OutputMemoryStream.mk true [] 0) + size [1; 2; 3]
        ∧ OutputMemoryStream.o_pos s' ≤ OutputMemoryStream.m_size s'
        ∧ OutputMemoryStream.m_size (OutputMemoryStream.mk true [] 0)
          ≤ OutputMemoryStream.m_size s'
        ∧ OutputMemoryStream.o_allocator s' = true.
Proof.
  apply (write_appends [1; 2; 3] (OutputMemoryStream.mk true [] 0)).
  - reflexivity.
  - by vm_compute.
  - by vm_compute.
Defined.

Lemma write_fixed_buffer_witness :
  (OutputMemoryStream.o_pos (OutputMemoryStream.mk false [None; None; None; None] 2)
   + size [1; 2; 3]
   ≤ OutputMemoryStream.m_size (OutputMemoryStream.mk false [None; None; None; None] 2) →
   ∃ s', OutputMemoryStream.write [1; 2; 3]
           (OutputMemoryStream.mk false [None; None; None; None] 2) = Some s'
         ∧ OutputMemoryStream.written s'
           = OutputMemoryStream.written
               (OutputMemoryStream.mk false [None; None; None; None] 2)
             ++ (Some <$> [1; 2; 3])
         ∧ OutputMemoryStream.m_size s'
           = OutputMemoryStream.m_size
               (OutputMemoryStream.mk false [None; None; None; None] 2))
  ∧ (OutputMemoryStream.m_size (OutputMemoryStream.mk false [None; None; None; None] 2)
     < OutputMemoryStream.o_pos (OutputMemoryStream.mk false [None; None; None; None] 2)
       + size [1; 2; 3] →
     OutputMemoryStream.write [1; 2; 3]
       (OutputMemoryStream.mk false [None; None; None; None] 2) = None).
Proof.
  apply (write_fixed_buffer [1; 2; 3]
           (OutputMemoryStream.mk false [None; None; None; None] 2)).
  - reflexivity.
  - by vm_compute.
  - by vm_compute.
  - done.
Defined.

Lemma emplaceEntity_grows_witness :
  ∃ u', emplaceEntity 5 example_family = Some u'
        ∧ size (m_entities u') = 5 + 1
        ∧ hasEntity 5 u' = true
        ∧ getTransform 5 u'
          = Some (mkTransform (vec_zero (TransformAlgebra := exact_algebra))
                    quat_identity float_one)
        ∧ getComponentsMask 5 u' = Some 0
        ∧ (∀ x, size (m_entities example_family) ≤ x < 5 → hasEntity x u' = false)
        ∧ (∀ x, x < size (m_entities example_family) →
                hasEntity x u' = hasEntity x example_family
                ∧ getTransform x u' = getTransform x example_family).
Proof.
  apply (emplaceEntity_grows (TA := exact_algebra) 5 example_family).
  - reflexivity.
  - by vm_compute.
  - by vm_compute.
Defined.

Lemma createEntity_reuses_destroyed_witness :
  ∃ u' u'', destroyEntity example_map 10 1 example_scene = Some u'
            ∧ createEntity (TA := exact_algebra) (1, 2, 3)%Q tt u' = Some (1, u'')
            ∧ hasEntity 1 u'' = true
            ∧ getTransform 1 u'' = Some (mkTransform (V := QVec) (1, 2, 3)%Q tt 1%Q)
            ∧ getParent 1 u'' = Some INVALID_ENTITY
            ∧ getEntityName 1 u'' = Some EmptyString
            ∧ getComponentsMask 1 u'' = Some 0
            ∧ size (m_entities u'') = size (m_entities example_scene)
            ∧ m_first_free_slot u'' = m_first_free_slot example_scene.
Proof.
  apply (createEntity_reuses_destroyed (TA := exact_algebra) example_map 10 1
           (mkEntityData 1 (-1) 5 0 0 true) (1, 2, 3)%Q tt example_scene).
  - apply example_scene_wf.
  - apply example_scene_tables.
  - apply scenes_call_back_destroy, example_map_calls_back.
  - apply example_scene_fuel.
  - reflexivity.
  - reflexivity.
Defined.

Lemma example_family_names_linked : names_linked example_family.
Proof.
  split.
  - intros i n Hn. pose proof (get_lt _ _ _ Hn) as Hi.
    change (size (m_names example_family)) with 1 in Hi.
    assert (i = 0) as -> by lia. by injection Hn as <-.
  - intros x j Hx Hj. unfold name_index in Hx.
    destruct (get (m_entities example_family) x) as [dx|] eqn:Hdx; [|done].
    pose proof (get_lt _ _ _ Hdx) as Hr.
    change (size (m_entities example_family)) with 3 in Hr.
    assert (x = 0 ∨ x = 1 ∨ x = 2) as [-> | [-> | ->]] by lia;
      injection Hdx as <-; injection Hx as <-; try (simpl in Hj; lia).
    eexists. split; reflexivity.
Qed.

Lemma destroyEntity_names_witness :
  ∃ u', destroyEntity example_map 10 0 example_scene = Some u'
        ∧ names_linked u'
        ∧ getEntityName 0 u' = Some EmptyString
        ∧ (∀ x, x ≠ 0 → getEntityName x u' = getEntityName x example_scene)
        ∧ size (m_names u')
          = size (m_names example_scene)
            - (if bool_decide (0 ≤ name (mkEntityData 0 0 2 0 0 true)) then 1 else 0).
Proof.
  apply (destroyEntity_names (TA := exact_algebra) example_map 10 0
           (mkEntityData 0 0 2 0 0 true) example_scene).
  - apply example_scene_wf.
  - apply example_scene_tables.
  - apply scenes_call_back_destroy, example_map_calls_back.
  - apply example_scene_fuel.
  - apply example_scene_names_linked.
  - reflexivity.
  - reflexivity.
Defined.

Lemma setEntityName_names_linked_witness :
  ∃ u', setEntityName (CS := example_constants) 1 "wheel" example_family = Some u'
        ∧ names_linked u'
        ∧ getEntityName 1 u' = Some (copyString (CS := example_constants) "wheel")
        ∧ ∀ x, x ≠ 1 → getEntityName x u' = getEntityName x example_family.
Proof.
  apply (setEntityName_names_linked (TA := exact_algebra) (CS := example_constants) 1 "wheel" example_family
           (mkEntityData 1 (-1) 0 0 0 true)).
  - apply example_family_names_linked.
  - reflexivity.
Defined.

Lemma setTransform_notifies_witness :
  ∃ u', setTransform 10 0 (qtransform 5 0 0 1) example_family = Some u'
        ∧ m_events u'
          = rev (EntityTransformed <$> (0 :: ents (Sib 1 (Sib 2 NoEntity NoEntity) NoEntity)))
            ++ m_events example_family.
Proof.
  apply (setTransform_notifies (TA := exact_algebra) 10 0 (qtransform 5 0 0 1)
           example_family (Sib 1 (Sib 2 NoEntity NoEntity) NoEntity)).
  - apply example_family_wf.
  - apply example_family_fuel.
  - by vm_compute.
  - exists 1. split; [reflexivity|]. simpl.
    split; [reflexivity|]. split; [reflexivity|].
    eexists _, _. split; [reflexivity|]. split; [reflexivity|]. simpl.
    split; [|reflexivity].
    split; [reflexivity|]. split; [reflexivity|].
    eexists _, _. split; [reflexivity|]. split; [reflexivity|]. simpl.
    split; reflexivity.
Defined.

Lemma scale_zero_parent_breaks_composition :
  transforms_composed example_collapsed
  ∧ ∃ u', setTransform 10 1 (qtransform 5 0 0 1) example_collapsed = Some u'
          ∧ ¬ composed u' 1.
Proof.
  split.
  - intros c h Hh Hv. pose proof (node_of_range _ _ _ Hh) as Hc.
    change (size (m_entities example_collapsed)) with 3 in Hc.
    assert (c = 0 ∨ c = 1 ∨ c = 2) as [-> | [-> | ->] ] by lia;
      injection Hh as <-; [done| |]; eexists _, _; (split; [reflexivity|]);
      (split; [reflexivity|]); by vm_compute.
  - compute_call (setTransform (TA := exact_algebra) 10 1 (qtransform 5 0 0 1)
                    example_collapsed) E.
    eexists. split; [exact E|]. intros Hc.
    edestruct Hc as (tp & tc & Htp & Htc & Heq); [reflexivity|reflexivity|].
    vm_compute in Htp, Htc. injection Htp as <-. injection Htc as <-.
    vm_compute in Heq. discriminate.
Qed.

Lemma composition_reestablished_witness :
  (∃ u', setTransform 10 2 (qtransform 3 3 3 2) example_family = Some u'
         ∧ transforms_composed u')
  ∧ (∃ u', setPosition (TA := exact_algebra) 10 2 (0, 0, 7)%Q example_family = Some u'
           ∧ transforms_composed u')
  ∧ (∃ u', setRotation (TA := exact_algebra) 10 2 tt example_family = Some u'
           ∧ transforms_composed u')
  ∧ (∃ u', setScale (TA := exact_algebra) 10 2 2%Q example_family = Some u'
           ∧ transforms_composed u')
  ∧ (∃ u', setLocalTransform 10 2 (qtransform 3 3 3 2) example_family = Some u'
           ∧ transforms_composed u')
  ∧ (∃ u', setParent 10 0 2 example_family = Some u' ∧ transforms_composed u').
Proof.
  destruct (composition_reestablished (TA := exact_algebra) 10 2 0 (qtransform 3 3 3 2)
              (0, 0, 7)%Q tt 2%Q example_family (qtransform 1 1 1 1))
    as (H1 & H2 & H3 & H4 & H5 & H6).
  - apply example_family_wf.
  - apply example_family_fuel.
  - by vm_compute.
  - by vm_compute.
  - reflexivity.
  - apply example_family_composed.
  - split; [|split; [|split; [|split; [|split]]]].
    + apply H1. intros h tp [= <-] _ [= <-]. by vm_compute.
    + apply H2. intros h tp [= <-] _ [= <-]. by vm_compute.
    + apply H3. intros h tp [= <-] _ [= <-]. by vm_compute.
    + apply H4. intros h tp [= <-] _ [= <-]. by vm_compute.
    + apply (H5 (mkHierarchy (TA := exact_algebra) 2 1 (-1) (-1) (qtransform 0 0 1 1))
                (qtransform 1 1 0 1)); [reflexivity|reflexivity|reflexivity|by vm_compute].
    + apply H6. intros tp _ [= <-]. by vm_compute.
Defined.


(*WITNESSES*)

End Lumix.
